(* ===== verification/_CoqProject ===== *)
-Q . S2P
Prelude.v
GoStrings.v
Wire.v
Cache.v
DueProbes.v
Triggers.v
Redelivery.v
Sql.v
Store.v
StoreMaint.v
Journal.v
StoreWf.v
StoreDemo.v
StoreResults.v
StoreLog.v
StoreTriggers.v
StoreAssign.v
StoreRebuild.v
StoreRetention.v
StoreRollup.v
StoreMeta.v
Clock.v
Health.v
PathHealth.v
DestGate.v
Spool.v
Delivery.v
Netbind.v
Checks.v
Tick.v
Ids.v
SelfUpdate.v
ApiClient.v
Config.v
AgentLoop.v
AgentTriggers.v
TriggerFlow.v
Placeholder.v
Schema.v
Module.v
Checker.v
Registry.v
Pool.v
PoolDemo.v
PoolBatch.v
PoolWarm.v
PoolReuse.v
Filepath.v
PoolConfig.v
PoolEngine.v
ModuleInstall.v
JobProbe.v
StoreReads.v
GoText.v
HttpCheck.v
Fetch.v
FetchReport.v
CheckBudget.v
Probers.v
Dns.v
System.v
Flags.v
Cli.v
StoreCli.v
Logging.v
StoreOpen.v
StoreCommands.v
BindSocket.v
Borrowed.v
