(* ===== verification/Prelude.v ===== *)
(** * radar-node: verification development

    [radar-node] is the agent of a monitoring network.  It keeps an assignment
    of probes, received from a control plane on every heartbeat; a scheduler
    runs the due ones, and the ones the control plane triggers, as checks that
    are built in or come from operator-written modules; results go through a
    local SQLite store, or a spool of files, to the control plane.  This library
    models that program from its Go sources under src/ and proves what makes it
    correct.  Definitions keep the names of the code (a suffix such as [Check_]
    or [Stats_] where a name was taken) and are executable, so the witnesses and
    examples evaluate them.

    ** How the program is put together, and which file models what

    - Shared: this file (64-bit integers, lists, the [result] monad, decimal
      names, automation); [GoStrings] and [GoText] (what is used of [strings],
      [strconv] and [encoding/base64]); [Filepath] ([path/filepath] on Unix);
      [Wire] (internal/wire, internal/probe: the values exchanged).
    - The assignment and its scheduler, internal/agent/cache.go: [Cache] (data
      and methods), [DueProbes] (the selection of due probes), [Triggers]
      (resync, deduplication, requeueing), [Redelivery] (the same triggers on
      every heartbeat).
    - The node store, internal/store: [Sql] (tables, statements that may fail,
      transactions), [StoreOpen] (opening), [Store] and [StoreMaint]
      (operations; rollups, retention), [StoreReads] (replay, statistics,
      rollup queries), [Borrowed] (vacuum).  [Journal] is the abstract log (entries
      and their moves, stated without the store), and [StoreLog] the refinement; [StoreWf] the invariant; [StoreResults],
      [StoreTriggers], [StoreAssign], [StoreRebuild], [StoreRollup],
      [StoreRetention], [StoreMeta] the theorems about each group of operations; [StoreDemo] a
      concrete store.
    - Health of the node, internal/agent: [Clock], [Health], [PathHealth].
    - Running checks: [DestGate] (internal/destgate), [Netbind] and
      [BindSocket] (internal/netbind), [Checks] and [CheckBudget] (dispatch and
      time in agent.go), [Tick] (one scheduler tick, bindmonitor.go), [Ids] (the
      ids of runs and batches).
    - Built-in checks, internal/checks: [HttpCheck], [Fetch] (with
      [FetchReport], what a field does to the tick that reports it), [Dns],
      [System], and [Probers] with the modules [Proxy], [Tcp], [Udp], [Icmp].
    - Operator modules, internal/module: [Placeholder], [Schema], [Module]
      (loading), [Checker] (one check), [Pool] (batches on warm engines) with
      [PoolDemo], [PoolBatch], [PoolWarm], [PoolReuse]; [Borrowed] (temporary
      files); [Registry] (internal/registry); [PoolConfig]
      (internal/poolconfig), [PoolEngine] (the pool and its configuration
      together), [JobProbe] (internal/jobprobe), and [ModuleInstall]
      (internal/moduleinstall).
    - Delivery and the control plane: [Spool], [Delivery] (spool.go,
      store_delivery.go), [ApiClient] (internal/apiclient), [SelfUpdate]
      (installer commands), [Config] (resources.go, domain.go, validation in
      [Run]), [AgentLoop] and [AgentTriggers] (heartbeat, scheduler and
      maintenance loops composed over all of the above, each iteration one
      step), [TriggerFlow] (the heartbeat and scheduler loops interleaved within
      an iteration, over the cache and the store).
    - Command line, cmd/radar-node and internal/output: [Flags], [Cli],
      [StoreCli], [StoreCommands] (store commands from arguments to output), and
      [Logging] (internal/journal, and what the log command makes of it).

    ** How state is modelled

    A mutex-protected object is a record, and each critical section an atomic
    function of it; what other goroutines do in between is an argument
    ([DestGate.Wait]), an arbitrary sequence of steps ([PoolWarm], [AgentLoop],
    [TriggerFlow]) or
    excluded by the code's own joins ([Tick]).  A Go map iterated over is a list in
    arbitrary order, and theorems hold of every order.  Pointers that alias
    (the engines of a pool) live in a heap.  SQL statements are functions of the
    tables, run in a monad that threads a schedule of faults: any statement may
    fail, a failed transaction rolls back.  Errors are [Err], panics and nil maps
    [None] where the code can meet them.  Integers are [Z]; where the code's
    width matters the wrap is written out ([wrap64], [sat64], [ParseUint]).

    ** What the outside is

    Code that is not in the repository is an argument: each file's [..._world]
    record, or a section's [Context], answers for the network, processes, files,
    clocks, SQLite's faults, gopsutil, [encoding/json], [regexp], jq and YAML.
    [NetIP] is the interface of [net/netip], with its documented laws in
    [NetIPLaws]; [Checkers] is what the dispatch asks of checkers, so the theorems
    of [Checks] and [Tick] hold of any.  Hypotheses about arguments state
    documented behaviour, and each theorem that has hypotheses is applied to
    concrete arguments in its witness.

    ** What the theorems show

    - Nothing is lost: a trigger is retired only when its results are safe
      ([Tick]); pending results outlive every operation, fault and limit
      ([StoreLog]); draining neither loses nor reorders ([Delivery], store and
      spool) and a working server gets everything once; a restart requeues what
      waited ([AgentTriggers]); the triggers the process holds
      are all different and on disk, and leave it only for named reasons, and
      queued ones are handed out in order ([TriggerFlow]); no store command loses a
      pending result ([StoreCommands]); rebuilding from the journal brings back
      the assignment and what waits, and before any maintenance pass every
      projection exactly ([StoreRebuild]); every page of a replay continues where the
      last stopped, and all pages are the journal ([StoreReads]).
    - Nothing runs twice or out of turn: a trigger is accepted at most once,
      until a named step forgets it ([StoreTriggers]), and a batch recorded once
      ([StoreResults]); rollups count once, under any interleaving and failure
      ([StoreRollup]), and retention deletes what is old and settled and nothing
      else ([StoreRetention]); ticks wait for the server's word ([AgentLoop]); a reported
      hash is durable; grants for a destination are spaced ([DestGate]).
    - Bounds and ends: work per tick ([Tick]), starvation ([DueProbes]), a
      gate's wait, the measurements of a job ([JobProbe]), the vacuum, the bytes
      read of a body ([Fetch]), the slots of a tick ([CheckBudget]).
    - Isolation: a check runs only its own module's commands ([Checker],
      [Placeholder]); jobs that share an engine share no port, tag or route
      ([PoolReuse], [PoolConfig]); every option of a batch gets its own answer
      ([PoolBatch]); a fetched module writes only below its directories, and an
      executable only after its hash was verified ([ModuleInstall]).
    - Verdicts: what makes an HTTP check up, what a field of a fetch reports,
      which resolver and socket a bound check uses ([HttpCheck], [Fetch], [Dns],
      [BindSocket]), which modules load ([Module]).
    - What does not hold is stated as a theorem about the code as it is:
      overlapping pooled calls lose engines ([PoolWarm]), isolating a bad job
      may start an engine with one port twice once another call has released
      the pins ([PoolReuse]), a token whose name has a dash is loaded and never
      substituted ([Placeholder]), a rebuild after maintenance forgets
      completed triggers ([StoreRebuild]), a saturated semaphore
      spends the timeout of checks that never ran ([CheckBudget]), one infinite
      field loses a tick's results ([FetchReport]), a full queue strands a
      trigger ([AgentTriggers]), two repeated triggers of a probe run after every
      heartbeat of a node without a store ([Redelivery]), a late restore queues
      a trigger that is running ([TriggerFlow]), a null outbound panics
      ([PoolConfig]), a malformed job at the front fails its whole chunk
      ([PoolEngine]), a fetch that fails leaves files behind
      ([ModuleInstall]).

    ** Fuel and bounds

    Recursions that are not structural take fuel, and none of the results depends
    on running out.  Text scanners take the length of the text, and
    [chunks_aux] the length of the list, which each step shortens.
    [Delivery.drainStore] takes one page per waiting result and one more
    ([Tick.drain_fuel]); [DestGate.Wait] one pass per nanosecond of its budget,
    proved enough by [DestGate.wait_bounded]; rollups and retention one chunk per
    row, proved enough in [StoreRollup] and [StoreRetention]; [Pool.runEphemeral] one level per job of
    the slot it bisects.  Loops with a constant bound in the code (vacuum chunks,
    size passes) have that bound.  [Borrowed.WaitForPort] returns at the first
    accept or the end of its context ([Borrowed.wait_ends]).

    ** Not modelled

    The attributes of child processes (sysproc and detach files), the stubs of unsupported platforms, the
    embedding of the default modules, usage and progress text, the layout of
    indented JSON and of tables, permissions and fsync.  TLS, DNS, SOCKS, ICMP and
    SQLite are what the worlds answer.  The start of goroutines in [Run] is the
    interleaving of [AgentLoop]'s and [TriggerFlow]'s steps; [TriggerFlow] takes
    recording a trigger and the first read of a restart to succeed, and leaves
    their failures to [AgentTriggers] and to its own last example. *)

From Stdlib Require Import ZArith Lia List Permutation Sorted Bool Ascii String.
From stdpp Require Import base tactics gmap strings list fin_maps sorting pretty.

#[export] Set Default Goal Selector "!".

Declare Scope radar_scope.
Delimit Scope radar_scope with radar.
Open Scope radar_scope.
Open Scope Z_scope.

(** ** Machine integers

    Go's [int], [int64] and [time.Duration] are 64-bit two's complement
    on every platform the agent ships for; [uint64] is used by FNV. *)

Definition min_int64 : Z := - 2 ^ 63.
Definition max_int64 : Z := 2 ^ 63 - 1.
Definition in_int64 (z : Z) : Prop := min_int64 <= z <= max_int64.

(** Wrap-around of a 64-bit signed result. *)
Definition wrap64 (z : Z) : Z := (z + 2 ^ 63) mod 2 ^ 64 - 2 ^ 63.
Definition wrapu64 (z : Z) : Z := z mod 2 ^ 64.
Definition int_add (a b : Z) : Z := wrap64 (a + b).
Definition int_mul (a b : Z) : Z := wrap64 (a * b).

(** Saturation, as [time.Time.Sub] does. *)
Definition sat64 (z : Z) : Z := Z.max min_int64 (Z.min max_int64 z).

Lemma wrap64_small z : in_int64 z -> wrap64 z = z.
Proof.
  unfold in_int64, min_int64, max_int64, wrap64. intros H.
  rewrite Z.mod_small; lia.
Qed.

Lemma wrap64_range z : in_int64 (wrap64 z).
Proof.
  unfold in_int64, min_int64, max_int64, wrap64.
  pose proof (Z.mod_pos_bound (z + 2 ^ 63) (2 ^ 64)). lia.
Qed.

Lemma int_add_small a b : in_int64 (a + b) -> int_add a b = a + b.
Proof. apply wrap64_small. Qed.

Lemma int_mul_small a b : in_int64 (a * b) -> int_mul a b = a * b.
Proof. apply wrap64_small. Qed.

Lemma wrap64_add_l a b : wrap64 (wrap64 a + b) = wrap64 (a + b).
Proof.
  unfold wrap64. f_equal.
  replace ((a + 2 ^ 63) mod 2 ^ 64 - 2 ^ 63 + b + 2 ^ 63)
    with ((a + 2 ^ 63) mod 2 ^ 64 + b) by lia.
  rewrite Zplus_mod_idemp_l. f_equal. lia.
Qed.

Lemma fold_int_add {A} (f : A -> Z) (l : list A) d :
  in_int64 d ->
  fold_left (fun d a => int_add d (f a)) l d = wrap64 (d + foldr (fun a z => f a + z) 0 l).
Proof.
  revert d. induction l as [|a l IH]; simpl; intros d Hd.
  - rewrite Z.add_0_r, wrap64_small; done.
  - rewrite IH by apply wrap64_range. unfold int_add. rewrite wrap64_add_l. f_equal. lia.
Qed.

Lemma sat64_small z : in_int64 z -> sat64 z = z.
Proof. unfold in_int64, sat64. lia. Qed.

(** ** Go time

    [time.Time] is a point of one timeline, in nanoseconds since the Unix
    epoch; the zero [time.Time] (1 January of year 1) is one of them.
    [time.Duration] is an int64 number of nanoseconds. *)

Definition time := Z.
Definition duration := Z.

Definition nanosecond : duration := 1.
Definition microsecond : duration := 1000.
Definition millisecond : duration := 1000000.
Definition second : duration := 1000000000.
Definition minute : duration := 60 * second.
Definition hour : duration := 60 * minute.

Definition zero_time : time := - 62135596800 * second.
Definition is_zero_time (t : time) : bool := t =? zero_time.

(** [time.UnixMilli] and [Time.UnixMilli]. *)
Definition unix_milli (ms : Z) : time := ms * millisecond.
Definition to_unix_milli (t : time) : Z := t / millisecond.

(** [t.Before(u)], [t.Add(d)], [t.Sub(u)]. *)
Definition before (t u : time) : bool := t <? u.
Definition time_add (t : time) (d : duration) : time := t + d.
Definition time_sub (t u : time) : duration := sat64 (t - u).

Lemma to_unix_milli_unix_milli ms : to_unix_milli (unix_milli ms) = ms.
Proof. unfold to_unix_milli, unix_milli, millisecond. apply Z.div_mul. lia. Qed.

Lemma before_spec t u : reflect (t < u) (before t u).
Proof. apply Z.ltb_spec0. Qed.

Lemma is_zero_time_spec t : reflect (t = zero_time) (is_zero_time t).
Proof. apply Z.eqb_spec. Qed.

(** ** FNV-1a, 64 bits ([hash/fnv]) over the bytes of a string *)

Definition fnv64a (s : string) : Z :=
  fold_left (fun h c => wrapu64 (Z.lxor h (Z.of_N (N_of_ascii c)) * 1099511628211))
    (list_ascii_of_string s) 14695981039346656037.

Lemma fnv64a_range s : 0 <= fnv64a s < 2 ^ 64.
Proof.
  unfold fnv64a. set (h0 := 14695981039346656037).
  assert (0 <= h0 < 2 ^ 64) as H by (subst h0; lia).
  clearbody h0. revert h0 H. generalize (list_ascii_of_string s) as l.
  induction l as [|c l IH]; simpl; intros h0 H; [exact H|].
  apply IH. unfold wrapu64. apply Z.mod_pos_bound. lia.
Qed.

(** ** Results of fallible code: a value or an error *)

Inductive result (E A : Type) : Type :=
| Ok (a : A)
| Err (e : E).
Arguments Ok {E A} a.
Arguments Err {E A} e.

Definition res_bind {E A B} (m : result E A) (k : A -> result E B) : result E B :=
  match m with
  | Ok a => k a
  | Err e => Err e
  end.

Notation "'let*' x ':=' m 'in' k" := (res_bind m (fun x => k))
  (at level 10, x pattern, m at level 100, k at level 200) : radar_scope.

Lemma res_bind_Ok {E A B} (m : result E A) (k : A -> result E B) b :
  res_bind m k = Ok b -> exists a, m = Ok a /\ k a = Ok b.
Proof. destruct m; simpl; [eauto | discriminate]. Qed.

(** ** Tactics *)

Create HintDb radar.
Create Rewrite HintDb radar_rw.

(** Case analysis on every boolean test and match of the goal. *)
Ltac split_ifs :=
  repeat match goal with
    | |- context [if ?b then _ else _] =>
        lazymatch b with
        | context [if _ then _ else _] => fail
        | _ => destruct b eqn:?; simpl in *
        end
    end.

(** Boolean comparisons on [Z] to propositions, everywhere. *)
Ltac zify_bool :=
  unfold before, is_zero_time in *;
  repeat match goal with
    | H : (_ && _)%bool = true |- _ => apply andb_true_iff in H as [? ?]
    | H : (_ || _)%bool = false |- _ => apply orb_false_iff in H as [? ?]
    | H : (_ && _)%bool = false |- _ => apply andb_false_iff in H as [H|H]
    | H : (_ || _)%bool = true |- _ => apply orb_true_iff in H as [H|H]
    | H : negb _ = true |- _ => apply negb_true_iff in H
    | H : negb _ = false |- _ => apply negb_false_iff in H
    | H : (_ <? _) = true |- _ => apply Z.ltb_lt in H
    | H : (_ <? _) = false |- _ => apply Z.ltb_ge in H
    | H : (_ <=? _) = true |- _ => apply Z.leb_le in H
    | H : (_ <=? _) = false |- _ => apply Z.leb_gt in H
    | H : (_ =? _) = true |- _ => apply Z.eqb_eq in H
    | H : (_ =? _) = false |- _ => apply Z.eqb_neq in H
    end.

(** ** Sums *)

Definition sumZ (l : list Z) : Z := foldr Z.add 0 l.

Lemma sumZ_app l k : sumZ (l ++ k) = sumZ l + sumZ k.
Proof. induction l; simpl; lia. Qed.

Lemma sumZ_perm l k : l ≡ₚ k -> sumZ l = sumZ k.
Proof. induction 1; simpl; lia. Qed.

Lemma sumZ_nonneg l : Forall (fun z => 0 <= z) l -> 0 <= sumZ l.
Proof. induction 1; simpl; lia. Qed.

(** ** Chunked traversal

    [for start := 0; start < len(l); start += n { chunk := l[start:min(start+n, len(l))] }] *)

Fixpoint chunks_aux {A} (fuel n : nat) (l : list A) : list (list A) :=
  match fuel, l with
  | S f, _ :: _ => take n l :: chunks_aux f n (drop n l)
  | _, _ => []
  end.

Definition chunks {A} (n : nat) (l : list A) : list (list A) := chunks_aux (length l) n l.

Lemma chunks_aux_concat {A} fuel n (l : list A) :
  (0 < n)%nat -> (length l <= fuel)%nat -> concat (chunks_aux fuel n l) = l.
Proof.
  intros Hn. revert l. induction fuel as [|f IH]; intros [|x l] Hl; simpl in *; try done; [lia|].
  rewrite IH; [apply take_drop|]. rewrite length_drop. destruct n; simpl in *; lia.
Qed.

(** Every element is in exactly one chunk, in order. *)
Lemma chunks_concat {A} n (l : list A) : (0 < n)%nat -> concat (chunks n l) = l.
Proof. intros H. by apply chunks_aux_concat. Qed.

(** ** Sublists *)

Lemma sublist_fmap' {A B} (f : A -> B) l k : sublist l k -> sublist (f <$> l) (f <$> k).
Proof. induction 1; simpl; by constructor. Qed.

Lemma sublist_omap {A B} (f : A -> option B) l k :
  sublist l k -> sublist (omap f l) (omap f k).
Proof. induction 1; simpl; [constructor|..]; destruct (f x); by try constructor. Qed.

Lemma sublist_Forall {A} (P : A -> Prop) l k : sublist l k -> Forall P k -> Forall P l.
Proof.
  intros H HP. rewrite Forall_forall in *. intros x Hx. apply HP. by eapply elem_of_sublist.
Qed.

Lemma sublist_StronglySorted {A} (R : A -> A -> Prop) l k :
  sublist l k -> StronglySorted R k -> StronglySorted R l.
Proof.
  induction 1; intros Hs; [done|..]; apply StronglySorted_inv in Hs as [Hs Hx].
  - constructor; [auto|]. by eapply sublist_Forall.
  - auto.
Qed.

Lemma sublist_filter {A} (p : A -> bool) l : sublist (List.filter p l) l.
Proof. induction l; simpl; [done|]. destruct (p a); by constructor. Qed.

Lemma filter_none {A} (p : A -> bool) l :
  (forall x, x ∈ l -> p x = false) -> List.filter p l = [].
Proof.
  induction l as [|x l IH]; intros H; [done|]. simpl. rewrite (H x) by left.
  apply IH. intros y Hy. apply H. by right.
Qed.

Lemma filter_all {A} (p : A -> bool) l :
  (forall x, x ∈ l -> p x = true) -> List.filter p l = l.
Proof.
  induction l as [|x l IH]; intros H; [done|]. simpl. rewrite (H x) by left. f_equal.
  apply IH. intros y Hy. apply H. by right.
Qed.

Lemma filter_filter_and {A} (p q : A -> bool) l :
  List.filter p (List.filter q l) = List.filter (fun x => q x && p x) l.
Proof.
  induction l as [|x l IH]; [done|]. simpl. destruct (q x); simpl; [|done].
  destruct (p x); by rewrite IH.
Qed.

(** ** Separated fields

    Keys such as [run + "\x00" + seq] are read from the right and tags such as
    [job-0-out-1] from the left: fields that lack the separator are recovered
    whatever the other field is. *)

Fixpoint lacks (c : ascii) (s : string) : bool :=
  match s with EmptyString => true | String c' s' => negb (Ascii.eqb c' c) && lacks c s' end.

Lemma lacks_app c s t : lacks c (s +:+ t) = lacks c s && lacks c t.
Proof. induction s as [|d s IH]; [done|]. change (String d s +:+ t) with (String d (s +:+ t)). cbn. by rewrite IH, andb_assoc. Qed.

Lemma lacks_mid c r t : lacks c (r +:+ String c t) = false.
Proof. rewrite lacks_app. cbn. by rewrite Ascii.eqb_refl, andb_false_r. Qed.

Lemma lacks_split_right c r1 r2 t1 t2 :
  lacks c t1 = true -> lacks c t2 = true -> r1 +:+ String c t1 = r2 +:+ String c t2 -> r1 = r2 /\ t1 = t2.
Proof.
  intros H1 H2. revert r2. induction r1 as [|d r1 IH]; intros [|d' r2] E.
  - by injection E.
  - injection E as _ E. rewrite E in H1. change (lacks c (r2 +:+ String c t2) = true) in H1. by rewrite lacks_mid in H1.
  - injection E as _ E. rewrite <- E in H2. change (lacks c (r1 +:+ String c t1) = true) in H2. by rewrite lacks_mid in H2.
  - injection E as -> E. by destruct (IH r2 E) as [-> ->].
Qed.

Lemma lacks_split_left c r1 r2 t1 t2 :
  lacks c r1 = true -> lacks c r2 = true -> r1 +:+ String c t1 = r2 +:+ String c t2 -> r1 = r2 /\ t1 = t2.
Proof.
  revert r2. induction r1 as [|d r1 IH]; intros [|d' r2] H1 H2 E.
  - by injection E.
  - injection E as <- _. cbn in H2. by rewrite Ascii.eqb_refl in H2.
  - injection E as -> _. cbn in H1. by rewrite Ascii.eqb_refl in H1.
  - injection E as -> E. cbn in H1, H2. apply andb_true_iff in H1 as [_ H1], H2 as [_ H2]. by destruct (IH r2 H1 H2 E) as [-> ->].
Qed.

(** Printed integers are digits behind an optional sign. *)
Definition numeral_char (c : ascii) : bool := Ascii.eqb "-" c || existsb (fun x => Ascii.eqb (pretty_N_char x) c) (map N.of_nat (List.seq 0 10)).

Lemma pretty_N_char_lacks c x : numeral_char c = false -> (x < 10)%N -> Ascii.eqb (pretty_N_char x) c = false.
Proof.
  intros [_ Hc]%orb_false_iff Hx. destruct (Ascii.eqb _ c) eqn:E; [|done]. rewrite <- Hc. symmetry. apply existsb_exists. exists x. split; [|done].
  apply in_map_iff. exists (N.to_nat x). rewrite N2Nat.id. split; [done|]. apply in_seq. lia.
Qed.

Lemma pretty_N_go_lacks c x s : numeral_char c = false -> lacks c s = true -> lacks c (pretty_N_go x s) = true.
Proof.
  intros Hc. revert s. induction (N.lt_wf_0 x) as [x _ IH]; intros s Hs.
  assert (x = 0 \/ 0 < x)%N as [->|Hx] by lia; [by rewrite pretty_N_go_0|].
  rewrite pretty_N_go_step by done. apply IH; [by apply N.div_lt|]. cbn [lacks].
  rewrite pretty_N_char_lacks; [done|done|by apply N.mod_lt].
Qed.

Lemma pretty_Z_lacks c (z : Z) : numeral_char c = false -> lacks c (pretty z) = true.
Proof.
  intros Hc. destruct z as [|p|p].
  - change (lacks c (String (pretty_N_char 0) "") = true). cbn [lacks]. by rewrite pretty_N_char_lacks.
  - by apply (pretty_N_go_lacks c (Npos p) ""%string).
  - change (lacks c (String "-" (pretty_N_go (Npos p) ""%string)) = true). cbn [lacks].
    rewrite pretty_N_go_lacks by done. apply orb_false_iff in Hc as [-> _]. done.
Qed.

Definition nul : string := String Ascii.zero EmptyString.
Definition no_nul : string -> bool := lacks Ascii.zero.

Lemma no_nul_app s t : no_nul (s +:+ t) = no_nul s && no_nul t.
Proof. apply lacks_app. Qed.

Lemma pretty_Z_nul (z : Z) : no_nul (pretty z) = true.
Proof. by apply pretty_Z_lacks. Qed.

Lemma nul_split r1 r2 t1 t2 :
  no_nul t1 = true -> no_nul t2 = true -> r1 +:+ nul +:+ t1 = r2 +:+ nul +:+ t2 -> r1 = r2 /\ t1 = t2.
Proof. apply (lacks_split_right Ascii.zero). Qed.

#[export] Hint Resolve wrap64_range : radar.
#[export] Hint Rewrite @length_app @length_fmap sumZ_app : radar_rw.
