(* ===== verification/GoStrings.v ===== *)
(** * Go's string functions

    What the code uses of [strings] and [bytes], on byte strings, with the
    lemmas the components share. *)

From Stdlib Require Import ZArith Lia List Bool Ascii String.
From stdpp Require Import base tactics strings list.
From S2P Require Import Prelude.

Open Scope string_scope.

Lemma app_String c (a b : string) : String c a +:+ b = String c (a +:+ b).
Proof. done. Qed.

Lemma app_empty (a : string) : "" +:+ a = a.
Proof. done. Qed.

Lemma append_nil_r (a : string) : a +:+ "" = a.
Proof. induction a; [done|]. rewrite app_String. congruence. Qed.

Lemma append_assoc' (a b c : string) : (a +:+ b) +:+ c = a +:+ b +:+ c.
Proof. induction a; [done|]. rewrite !app_String. congruence. Qed.

(** ** Prefixes *)

(** [strings.CutPrefix]. *)
Fixpoint cut_prefix (p s : string) : option string :=
  match p, s with
  | "", _ => Some s
  | String c p', String d s' => if decide (c = d) then cut_prefix p' s' else None
  | String _ _, "" => None
  end.

(** [strings.HasPrefix] and [strings.TrimPrefix]. *)
Definition has_prefix (s p : string) : bool := match cut_prefix p s with Some _ => true | None => false end.
Definition trim_prefix (s p : string) : string := default s (cut_prefix p s).

Lemma cut_prefix_app p s : cut_prefix p (p +:+ s) = Some s.
Proof. induction p as [|c p IH]; [done|]. rewrite app_String. cbn. by rewrite decide_True. Qed.

Lemma cut_prefix_Some p s r : cut_prefix p s = Some r <-> s = p +:+ r.
Proof.
  split; [|intros ->; apply cut_prefix_app].
  revert s. induction p as [|c p IH]; intros s H; cbn in *; [by injection H as ->|].
  destruct s as [|d s]; [done|]. destruct (decide (c = d)) as [->|]; [|done]. rewrite app_String. f_equal. by apply IH.
Qed.

(** [strings.Cut] at a single byte: before and after its first occurrence. *)
Fixpoint cut (c : ascii) (s : string) : option (string * string) :=
  match s with
  | "" => None
  | String d s' =>
      if decide (c = d) then Some ("", s')
      else match cut c s' with Some (a, b) => Some (String d a, b) | None => None end
  end.

Lemma cut_Some c s a b : cut c s = Some (a, b) -> s = a +:+ String c b.
Proof.
  revert a. induction s as [|d s IH]; intros a H; cbn in H; [done|].
  destruct (decide (c = d)) as [->|]; [by injection H as <- <-|].
  destruct (cut c s) as [[a' b']|] eqn:E; [|done]. injection H as <- <-. rewrite app_String. f_equal. by apply IH.
Qed.

(** ** Splitting and joining *)

(** [strings.Split] at a single byte. *)
Fixpoint split (c : ascii) (s : string) : list string :=
  match s with
  | "" => [""]
  | String d s' =>
      if decide (c = d) then "" :: split c s'
      else match split c s' with
           | w :: ws => String d w :: ws
           | [] => [String d ""]
           end
  end.

(** [strings.Join]. *)
Fixpoint join (sep : string) (l : list string) : string :=
  match l with
  | [] => ""
  | [w] => w
  | w :: ws => w +:+ sep +:+ join sep ws
  end.

Lemma join_cons sep w ws : ws <> [] -> join sep (w :: ws) = w +:+ sep +:+ join sep ws.
Proof. by destruct ws. Qed.

(** ** White space

    Unicode's white space as UTF-8 byte sequences; [strings.TrimSpace] strips
    them from both ends. *)

Definition bytes (l : list nat) : string := string_of_list_ascii (map ascii_of_nat l).

Definition spaces : list string :=
  map (fun n => bytes [n]) [9; 10; 11; 12; 13; 32]%nat
  ++ map bytes [[194; 133]; [194; 160]; [225; 154; 128]; [226; 128; 168]; [226; 128; 169]; [226; 128; 175];
                [226; 129; 159]; [227; 128; 128]]%nat
  ++ map (fun n => bytes [226; 128; n]%nat) (List.seq 128 11).

Definition strip_one (s : string) : option string := head (omap (fun w => cut_prefix w s) spaces).

Fixpoint trim_left_aux (fuel : nat) (s : string) : string :=
  match fuel with
  | O => s
  | S f => match strip_one s with Some s' => trim_left_aux f s' | None => s end
  end.

Definition trim_left (s : string) : string := trim_left_aux (String.length s) s.

Fixpoint rev_string (s : string) : string :=
  match s with "" => "" | String c s' => rev_string s' +:+ String c "" end.

Definition strip_last (s : string) : option string :=
  head (omap (fun w => rev_string <$> cut_prefix (rev_string w) (rev_string s)) spaces).

Fixpoint trim_right_aux (fuel : nat) (s : string) : string :=
  match fuel with
  | O => s
  | S f => match strip_last s with Some s' => trim_right_aux f s' | None => s end
  end.

Definition trim_right (s : string) : string := trim_right_aux (String.length s) s.

Definition trim_space (s : string) : string := trim_right (trim_left s).

(** ** Lower case

    [strings.ToLower], for a comparison with an ASCII word: besides A to Z,
    only U+0130 and U+212A map to an ASCII letter; every other rune maps
    outside ASCII and is left as it is here. *)

Definition lower_ascii (c : ascii) : ascii :=
  let n := nat_of_ascii c in
  if (65 <=? n)%nat && (n <=? 90)%nat then ascii_of_nat (n + 32) else c.

Fixpoint to_lower (s : string) : string :=
  match s with
  | "" => ""
  | String c rest =>
      match rest with
      | String d rest' =>
          if (nat_of_ascii c =? 196)%nat && (nat_of_ascii d =? 176)%nat then String "i" (to_lower rest')
          else
            match rest' with
            | String e rest'' =>
                if (nat_of_ascii c =? 226)%nat && (nat_of_ascii d =? 132)%nat && (nat_of_ascii e =? 170)%nat
                then String "k" (to_lower rest'')
                else String (lower_ascii c) (to_lower rest)
            | "" => String (lower_ascii c) (to_lower rest)
            end
      | "" => String (lower_ascii c) ""
      end
  end.

Example trim_space_ex : trim_space (bytes [32; 97; 32; 98; 194; 160; 10]%nat) = "a b".
Proof. reflexivity. Qed.
Example to_lower_ex : to_lower "Use_IPv4" = "use_ipv4".
Proof. reflexivity. Qed.
Example split_ex : split ":" "0::/system" = ["0"; ""; "/system"].
Proof. reflexivity. Qed.

(** ** Trimming *)

Lemma rev_string_app (a b : string) : rev_string (a +:+ b) = rev_string b +:+ rev_string a.
Proof.
  induction a as [|c a IH]; [by rewrite append_nil_r|].
  rewrite app_String. cbn [rev_string]. by rewrite IH, append_assoc'.
Qed.

Lemma rev_string_involutive (a : string) : rev_string (rev_string a) = a.
Proof. induction a as [|c a IH]; [done|]. cbn [rev_string]. rewrite rev_string_app, IH. done. Qed.

Lemma string_length_app (a b : string) : String.length (a +:+ b) = (String.length a + String.length b)%nat.
Proof. induction a as [|c a IH]; [done|]. rewrite app_String. cbn [String.length]. by rewrite IH. Qed.

(** [s] begins (ends) with white space. *)
Definition starts_blank (s : string) : Prop := exists w r, w ∈ spaces /\ s = w +:+ r.
Definition ends_blank (s : string) : Prop := exists w r, w ∈ spaces /\ s = r +:+ w.

Lemma spaces_nonempty w : w ∈ spaces -> (0 < String.length w)%nat.
Proof.
  intros Hw. assert (forallb (fun w => (0 <? String.length w)%nat) spaces = true) as H by reflexivity.
  rewrite forallb_forall in H. apply list_elem_of_In in Hw. specialize (H w Hw). by apply Nat.ltb_lt in H.
Qed.

Lemma head_omap_None {A B} (f : A -> option B) l : head (omap f l) = None <-> forall x, x ∈ l -> f x = None.
Proof.
  induction l as [|x l IH]; cbn.
  - split; [intros _ x Hx; by apply not_elem_of_nil in Hx|done].
  - destruct (f x) as [y|] eqn:E; cbn.
    + split; [done|]. intros H. rewrite H in E; [done|by left].
    + rewrite IH. split; [intros H z [->|Hz]%elem_of_cons; auto|intros H z Hz; apply H; by right].
Qed.

Lemma head_omap_Some {A B} (f : A -> option B) l y : head (omap f l) = Some y -> exists x, x ∈ l /\ f x = Some y.
Proof.
  induction l as [|x l IH]; cbn; [done|]. destruct (f x) as [z|] eqn:E; cbn.
  - intros [= <-]. exists x. split; [by left|done].
  - intros (z & Hz & Hf)%IH. exists z. split; [by right|done].
Qed.

Lemma strip_one_Some s r : strip_one s = Some r -> exists w, w ∈ spaces /\ s = w +:+ r.
Proof. intros (w & Hw & H%cut_prefix_Some)%head_omap_Some. by exists w. Qed.

Lemma strip_one_None s : strip_one s = None <-> ~ starts_blank s.
Proof.
  unfold strip_one. rewrite head_omap_None. split.
  - intros H (w & r & Hw & ->). specialize (H w Hw). by rewrite cut_prefix_app in H.
  - intros H w Hw. destruct (cut_prefix w s) as [r|] eqn:E; [|done]. destruct H.
    apply cut_prefix_Some in E. by exists w, r.
Qed.

Lemma strip_last_Some s r : strip_last s = Some r -> exists w, w ∈ spaces /\ s = r +:+ w.
Proof.
  intros (w & Hw & H)%head_omap_Some. exists w. split; [done|].
  destruct (cut_prefix (rev_string w) (rev_string s)) as [t|] eqn:E; [|done]. injection H as <-.
  apply cut_prefix_Some in E. rewrite <- (rev_string_involutive s), E, rev_string_app.
  by rewrite rev_string_involutive.
Qed.

Lemma strip_last_None s : strip_last s = None <-> ~ ends_blank s.
Proof.
  unfold strip_last. rewrite head_omap_None. split.
  - intros H (w & r & Hw & ->). specialize (H w Hw). by rewrite rev_string_app, cut_prefix_app in H.
  - intros H w Hw. destruct (cut_prefix _ _) as [r|] eqn:E; [|done]. destruct H.
    apply cut_prefix_Some in E. exists w, (rev_string r). split; [done|].
    rewrite <- (rev_string_involutive s), E, rev_string_app. by rewrite rev_string_involutive.
Qed.

Lemma trim_left_aux_spec fuel s :
  (String.length s <= fuel)%nat -> ~ starts_blank (trim_left_aux fuel s) /\ exists p, s = p +:+ trim_left_aux fuel s.
Proof.
  revert s. induction fuel as [|f IH]; intros s Hs; cbn.
  - destruct s; [|cbn in Hs; lia]. split; [|by exists ""]. intros (w & r & Hw%spaces_nonempty & E).
    apply (f_equal String.length) in E. rewrite string_length_app in E. cbn in E. lia.
  - destruct (strip_one s) as [r|] eqn:E; [|split; [by apply strip_one_None|by exists ""]].
    apply strip_one_Some in E as (w & Hw%spaces_nonempty & ->). rewrite string_length_app in Hs.
    destruct (IH r) as [H1 (p & Hp)]; [lia|]. split; [done|]. exists (w +:+ p). by rewrite append_assoc', <- Hp.
Qed.

Lemma trim_right_aux_spec fuel s :
  (String.length s <= fuel)%nat -> ~ ends_blank (trim_right_aux fuel s) /\ exists p, s = trim_right_aux fuel s +:+ p.
Proof.
  revert s. induction fuel as [|f IH]; intros s Hs; cbn.
  - destruct s; [|cbn in Hs; lia]. split; [|by exists ""]. intros (w & r & Hw%spaces_nonempty & E).
    apply (f_equal String.length) in E. rewrite string_length_app in E. cbn in E. lia.
  - destruct (strip_last s) as [r|] eqn:E; [|split; [by apply strip_last_None|exists ""; by rewrite append_nil_r]].
    apply strip_last_Some in E as (w & Hw%spaces_nonempty & ->). rewrite string_length_app in Hs.
    destruct (IH r) as [H1 (p & Hp)]; [lia|]. split; [done|]. exists (p +:+ w). by rewrite <- append_assoc', <- Hp.
Qed.

Lemma trim_left_id s : ~ starts_blank s -> trim_left s = s.
Proof.
  intros H. unfold trim_left. destruct (String.length s); cbn; [done|]. apply strip_one_None in H. by rewrite H.
Qed.

Lemma trim_right_id s : ~ ends_blank s -> trim_right s = s.
Proof.
  intros H. unfold trim_right. destruct (String.length s); cbn; [done|]. apply strip_last_None in H. by rewrite H.
Qed.

Lemma starts_blank_app a b : starts_blank a -> starts_blank (a +:+ b).
Proof. intros (w & r & Hw & ->). exists w, (r +:+ b). by rewrite append_assoc'. Qed.

Lemma ends_blank_app a b : ends_blank b -> ends_blank (a +:+ b).
Proof. intros (w & r & Hw & ->). exists w, (a +:+ r). by rewrite append_assoc'. Qed.

(** A trimmed string has no white space at either end, and trimming it again
    does nothing. *)
Lemma trim_space_clean s : ~ starts_blank (trim_space s) /\ ~ ends_blank (trim_space s).
Proof.
  unfold trim_space. destruct (trim_left_aux_spec (String.length s) s (le_n _)) as [H1 _]. fold (trim_left s) in H1.
  destruct (trim_right_aux_spec _ (trim_left s) (le_n _)) as [H2 (p & Hp)].
  fold (trim_right (trim_left s)) in H2, Hp. split; [|done].
  intros Hb. apply H1. rewrite Hp. by apply starts_blank_app.
Qed.

Lemma trim_space_id s : ~ starts_blank s -> ~ ends_blank s -> trim_space s = s.
Proof. intros H1 H2. unfold trim_space. by rewrite trim_left_id, trim_right_id. Qed.

Lemma trim_space_idem s : trim_space (trim_space s) = trim_space s.
Proof. destruct (trim_space_clean s). by apply trim_space_id. Qed.
