(* ===== verification/Wire.v ===== *)
(** * The wire and probe data model

    [internal/wire/wire.go] and [internal/probe/probe.go]: the values the
    agent, the store and the checkers exchange. *)

From Stdlib Require Import ZArith Lia List Bool Ascii String.
From Stdlib Require Import SpecFloat.
From stdpp Require Import base tactics gmap strings list.
From S2P Require Import Prelude.

(** ** Go's [any]

    The dynamic values a decoded JSON document or a checker's [Extra] map
    holds.  A [float64] is an IEEE binary64 datum; an object keeps its keys
    in an association list. *)

Abbreviation float64 := spec_float.

Inductive any : Type :=
| VNil
| VBool (b : bool)
| VString (s : string)
| VFloat (f : float64)
| VInt (z : Z)
| VInt64 (z : Z)
| VArray (l : list any)
| VObject (kvs : list (string * any)).

(** A [map[string]any]; [None] is the nil map. *)
Abbreviation params := (list (string * any)).

(** [m[key]], the nil interface when the key is absent. *)
Fixpoint obj_find (m : params) (key : string) : option any :=
  match m with
  | [] => None
  | (k, v) :: rest => if decide (k = key) then Some v else obj_find rest key
  end.

Definition obj_get (m : params) (key : string) : any := default VNil (obj_find m key).

(** Type assertions [v.(T)] with the comma-ok or zero-value result. *)
Definition as_object (v : any) : option params :=
  match v with VObject m => Some m | _ => None end.
Definition as_array (v : any) : option (list any) :=
  match v with VArray l => Some l | _ => None end.
Definition as_string (v : any) : option string :=
  match v with VString s => Some s | _ => None end.
Definition as_bool (v : any) : option bool :=
  match v with VBool b => Some b | _ => None end.

(** ** Probe snapshots and events ([wire.go]) *)

Record ProbeSnapshot : Type := mkSnapshot {
  ID : string;
  Target : string;
  Prober : string;
  ProbeCount : Z;
  TimeoutMs : Z;
  ScheduleType : string;
  IntervalSeconds : Z;
  StartsAt : Z;
  EndsAt : Z;
  Params : params;
  Status : string
}.

Definition ProbeStatusActive : string := "active".
Definition ProbeStatusPaused : string := "paused".
Definition ProbeStatusArchived : string := "archived".
Definition ProbeStatusInactiveBilling : string := "inactive_billing".

Definition NodeStatusActive : string := "active".
Definition NodeStatusSuspended : string := "suspended".
Definition NodeStatusDeactivated : string := "deactivated".
Definition NodeStatusInactiveBilling : string := "inactive_billing".

Definition SpecVersion : Z := 2.

Definition emptySnapshot : ProbeSnapshot :=
  mkSnapshot "" "" "" 0 0 "" 0 0 0 [] "".

Definition set_ProbeCount (n : Z) (p : ProbeSnapshot) : ProbeSnapshot :=
  {| ID := ID p; Target := Target p; Prober := Prober p; ProbeCount := n;
     TimeoutMs := TimeoutMs p; ScheduleType := ScheduleType p;
     IntervalSeconds := IntervalSeconds p; StartsAt := StartsAt p;
     EndsAt := EndsAt p; Params := Params p; Status := Status p |}.

Record Event : Type := mkEvent {
  ev_Seq : Z;
  EventType : string;
  ev_Probe : ProbeSnapshot;
  ev_RunID : string
}.

(** ** Check results ([probe.Result] embedded in [wire.Result]) *)

Record CheckResult : Type := mkCheckResult {
  Skip : bool;
  r_Ok : bool;
  r_Type : string;
  r_Target : string;
  r_Seq : Z;
  LatencyMs : option float64;
  r_Error : string;
  ErrorCode : string;
  Extra : params
}.

Definition ErrorCodeInvalidParams : string := "invalid_params".

(** [ObservedAt] is RFC 3339 text with nanoseconds; it is kept as the
    instant the text parses to, [None] when it does not parse. *)
Record Result : Type := mkResult {
  RunID : string;
  ProbeID : string;
  res : CheckResult;
  ObservedAt : option time
}.

Record ResultAck : Type := mkAck {
  ack_RunID : string;
  ack_Seq : Z;
  Accepted : bool;
  Reason : string
}.

Record ResultsResponse : Type := mkResponse {
  resp_Accepted : Z;
  resp_Rejected : Z;
  resp_Results : list ResultAck;
  resp_NodeStatus : string
}.

Record PendingAction : Type := mkAction {
  act_ID : string;
  act_Kind : string;
  act_Actions : list string
}.

Record HeartbeatResponse : Type := mkHeartbeat {
  hb_NodeStatus : string;
  hb_IntervalSecs : Z;
  hb_ServerTime : option time;
  hb_ProbeHash : string;
  hb_Probes : list ProbeSnapshot;
  hb_Events : list Event;
  hb_Command : string;
  hb_PendingAction : option PendingAction
}.

(** [probe.Fail] and [probe.Invalid]. *)
Definition Fail_ (checkType target : string) (seq : Z) (err : string) : CheckResult :=
  mkCheckResult false false checkType target seq None err "" [].

Definition Invalid (checkType target : string) (seq : Z) (msg : string) : CheckResult :=
  mkCheckResult false false checkType target seq None msg ErrorCodeInvalidParams [].

(** [Options.Param]: a non-empty string parameter, or the default. *)
Definition Param (ps : params) (key dflt : string) : string :=
  match obj_find ps key with
  | Some (VString s) => if decide (s = ""%string) then dflt else s
  | _ => dflt
  end.

(** ** JSON documents

    [encoding/json] writes every finite value and refuses NaN and the
    infinities; what it decodes into [any] holds only float64 numbers. *)

Definition finite_float (f : float64) : bool :=
  match f with S754_infinity _ | S754_nan => false | _ => true end.

Fixpoint json_encodable (v : any) : bool :=
  match v with
  | VFloat f => finite_float f
  | VArray l => forallb json_encodable l
  | VObject m => forallb (fun kv => json_encodable (snd kv)) m
  | _ => true
  end.

(** The float64 nearest to an integer, ties to even. *)
Definition float_of_Z (z : Z) : float64 := binary_normalize 53 1024 z 0 false.

(** Decoding what was encoded: integers come back as float64. *)
Fixpoint json_decoded (v : any) : any :=
  match v with
  | VInt z | VInt64 z => VFloat (float_of_Z z)
  | VArray l => VArray (map json_decoded l)
  | VObject m => VObject (map (fun kv => (fst kv, json_decoded (snd kv))) m)
  | _ => v
  end.

Definition json_decoded_params (m : params) : params :=
  map (fun kv => (fst kv, json_decoded (snd kv))) m.

Definition snapshot_encodable (s : ProbeSnapshot) : bool := json_encodable (VObject (Params s)).

Definition snapshot_decoded (s : ProbeSnapshot) : ProbeSnapshot :=
  {| ID := ID s; Target := Target s; Prober := Prober s; ProbeCount := ProbeCount s;
     TimeoutMs := TimeoutMs s; ScheduleType := ScheduleType s;
     IntervalSeconds := IntervalSeconds s; StartsAt := StartsAt s; EndsAt := EndsAt s;
     Params := json_decoded_params (Params s); Status := Status s |}.

Definition event_decoded (ev : Event) : Event :=
  mkEvent (ev_Seq ev) (EventType ev) (snapshot_decoded (ev_Probe ev)) (ev_RunID ev).

(** ** Decidable equality *)

#[export] Instance float64_eq_dec : EqDecision float64.
Proof. solve_decision. Defined.


Fixpoint any_eqb (a b : any) {struct a} : bool :=
  match a, b with
  | VNil, VNil => true
  | VBool x, VBool y => Bool.eqb x y
  | VString x, VString y => bool_decide (x = y)
  | VFloat x, VFloat y => bool_decide (x = y)
  | VInt x, VInt y => x =? y
  | VInt64 x, VInt64 y => x =? y
  | VArray l, VArray k =>
      (fix go (l k : list any) : bool :=
         match l, k with
         | [], [] => true
         | x :: l', y :: k' => any_eqb x y && go l' k'
         | _, _ => false
         end) l k
  | VObject l, VObject k =>
      (fix go (l k : list (string * any)) : bool :=
         match l, k with
         | [], [] => true
         | (n, x) :: l', (m, y) :: k' => bool_decide (n = m) && any_eqb x y && go l' k'
         | _, _ => false
         end) l k
  | _, _ => false
  end.

(** Induction through the nested lists. *)
Fixpoint any_rect' (P : any -> Prop)
    (Hnil : P VNil) (Hb : forall b, P (VBool b)) (Hs : forall s, P (VString s))
    (Hf : forall f, P (VFloat f)) (Hi : forall z, P (VInt z)) (Hi64 : forall z, P (VInt64 z))
    (Ha : forall l, Forall P l -> P (VArray l))
    (Ho : forall m, Forall (fun kv => P (snd kv)) m -> P (VObject m)) (v : any) : P v :=
  let rec := any_rect' P Hnil Hb Hs Hf Hi Hi64 Ha Ho in
  match v with
  | VNil => Hnil
  | VBool b => Hb b
  | VString s => Hs s
  | VFloat f => Hf f
  | VInt z => Hi z
  | VInt64 z => Hi64 z
  | VArray l =>
      Ha l ((fix go (l : list any) : Forall P l :=
        match l with
        | [] => List.Forall_nil P
        | x :: l' => List.Forall_cons P x l' (rec x) (go l')
        end) l)
  | VObject m =>
      Ho m ((fix go (m : list (string * any)) : Forall (fun kv => P (snd kv)) m :=
        match m with
        | [] => List.Forall_nil _
        | kv :: m' => List.Forall_cons (fun kv => P (snd kv)) kv m' (rec (snd kv)) (go m')
        end) m)
  end.

Lemma any_eqb_eq a : forall b, any_eqb a b = true <-> a = b.
Proof.
  induction a using any_rect'; intros [| | | | | |k|k]; simpl; try (split; congruence).
  - rewrite eqb_true_iff. split; congruence.
  - rewrite bool_decide_eq_true. split; congruence.
  - rewrite bool_decide_eq_true. split; congruence.
  - rewrite Z.eqb_eq. split; congruence.
  - rewrite Z.eqb_eq. split; congruence.
  - transitivity (l = k); [| split; congruence].
    revert k. induction H as [|x l Hx Hl IH]; intros [|y k]; try (split; congruence).
    rewrite andb_true_iff, Hx, IH. split; [intros [-> ->] | intros [=]]; auto.
  - transitivity (m = k); [| split; congruence].
    revert k. induction H as [|[n x] m Hx Hm IH]; intros [|[n' y] k]; try (split; congruence).
    simpl in Hx. rewrite !andb_true_iff, bool_decide_eq_true, Hx, IH.
    split; [intros [[-> ->] ->] | intros [=]]; auto.
Qed.

#[export] Instance any_eq_dec : EqDecision any.
Proof.
  intros a b. destruct (any_eqb a b) eqn:E.
  - left. by apply any_eqb_eq.
  - right. intros ->. by rewrite (proj2 (any_eqb_eq b b) eq_refl) in E.
Defined.

#[export] Instance ProbeSnapshot_eq_dec : EqDecision ProbeSnapshot.
Proof. solve_decision. Defined.
#[export] Instance Event_eq_dec : EqDecision Event.
Proof. solve_decision. Defined.
#[export] Instance CheckResult_eq_dec : EqDecision CheckResult.
Proof. solve_decision. Defined.
#[export] Instance Result_eq_dec : EqDecision Result.
Proof. solve_decision. Defined.
