(* ===== verification/Cache.v ===== *)
(** * The probe cache and its due-probe scheduler

    [internal/agent/cache.go]: the locally held assignment, the
    pending-trigger queue, and the selection of due probes.  Every method
    runs under [probeCache.mu], so each is one atomic function of the
    state; a Go map iteration is an explicit list of the map's entries in
    an arbitrary order. *)

From Stdlib Require Import ZArith Lia List Bool Ascii String Sorted.
From stdpp Require Import base tactics gmap strings list fin_maps sorting.
From S2P Require Import Prelude Wire.

Definition maxPendingTriggers : nat := 256.

Record cachedProbe : Type := mkCached {
  snapshot : ProbeSnapshot;
  lastRunAt : time;
  lastTriggerRunID : string
}.

Record pendingTrigger : Type := mkTrigger {
  pt_ProbeID : string;
  pt_RunID : string;
  pt_Probe : ProbeSnapshot
}.

Record probeCache : Type := mkCache {
  probes : gmap string cachedProbe;
  contentHash : string;
  pendingTriggers : list pendingTrigger
}.

Definition set_probes (f : gmap string cachedProbe -> gmap string cachedProbe)
    (c : probeCache) : probeCache :=
  mkCache (f (probes c)) (contentHash c) (pendingTriggers c).

Definition set_pending (q : list pendingTrigger) (c : probeCache) : probeCache :=
  mkCache (probes c) (contentHash c) q.

Definition set_lastRunAt (t : time) (p : cachedProbe) : cachedProbe :=
  mkCached (snapshot p) t (lastTriggerRunID p).

Definition set_lastTrigger (run : string) (p : cachedProbe) : cachedProbe :=
  mkCached (snapshot p) (lastRunAt p) run.

Definition newProbeCache : probeCache := mkCache ∅ "" [].

Definition lastKnownHash (c : probeCache) : string := contentHash c.

(** ** Assignment sync *)

Definition replaced_entry (old : gmap string cachedProbe) (s : ProbeSnapshot) : cachedProbe :=
  match old !! ID s with
  | Some existing => mkCached s (lastRunAt existing) (lastTriggerRunID existing)
  | None => mkCached s zero_time ""
  end.

Definition replaceAssignmentLocked (snaps : list ProbeSnapshot) (c : probeCache) : probeCache :=
  set_probes (fun old =>
    fold_left (fun next s => <[ID s := replaced_entry old s]> next) snaps ∅) c.

Definition replaceAssignment (hash : string) (snaps : list ProbeSnapshot)
    (c : probeCache) : probeCache :=
  let c' := replaceAssignmentLocked snaps c in
  mkCache (probes c') hash (pendingTriggers c').

Definition replaceAssignmentKeepingHash (snaps : list ProbeSnapshot)
    (c : probeCache) : probeCache :=
  replaceAssignmentLocked snaps c.

Record cachedProbeState : Type := mkProbeState {
  st_Snapshot : ProbeSnapshot;
  st_LastRunAt : time;
  st_LastTriggerRunID : string
}.

Definition restore (hash : string) (states : list cachedProbeState)
    (c : probeCache) : probeCache :=
  mkCache
    (fold_left (fun next st =>
       <[ID (st_Snapshot st) :=
           mkCached (st_Snapshot st) (st_LastRunAt st) (st_LastTriggerRunID st)]> next)
       states ∅)
    hash (pendingTriggers c).

(** ** Triggers *)

Definition hasPendingTriggerLocked (probeID runID : string) (c : probeCache) : bool :=
  existsb (fun t => bool_decide (pt_ProbeID t = probeID) && bool_decide (pt_RunID t = runID))
    (pendingTriggers c).

(** [if existing, ok := c.probes[id]; ok] with the duplicate test and the
    dedup mark that [applyTriggeredEventLocked] and [queueTriggers] share:
    [None] when the probe already ran this very trigger. *)
Definition noteTrigger (probeID runID : string) (c : probeCache) : option probeCache :=
  match probes c !! probeID with
  | Some existing =>
      if bool_decide (lastTriggerRunID existing = runID) then None
      else Some (set_probes (<[probeID := set_lastTrigger runID existing]>) c)
  | None => Some c
  end.

Definition queueFull (c : probeCache) : bool :=
  (maxPendingTriggers <=? length (pendingTriggers c))%nat.

Definition push_trigger (t : pendingTrigger) (c : probeCache) : probeCache :=
  set_pending (pendingTriggers c ++ [t]) c.

Definition applyTriggeredEventLocked (ev : Event) (c : probeCache) : bool * probeCache :=
  if negb (bool_decide (EventType ev = "triggered"%string))
     || bool_decide (ev_RunID ev = ""%string) || bool_decide (ID (ev_Probe ev) = ""%string)
  then (false, c)
  else if hasPendingTriggerLocked (ID (ev_Probe ev)) (ev_RunID ev) c then (false, c)
  else match noteTrigger (ID (ev_Probe ev)) (ev_RunID ev) c with
       | None => (false, c)
       | Some c1 =>
           if queueFull c1 then (false, c1)
           else (true, push_trigger
                   (mkTrigger (ID (ev_Probe ev)) (ev_RunID ev) (ev_Probe ev)) c1)
       end.

Definition applyTriggeredEvent (ev : Event) (c : probeCache) : bool * probeCache :=
  applyTriggeredEventLocked ev c.

Definition cache_applyTriggeredEvents (evs : list Event) (c : probeCache) : probeCache :=
  fold_left (fun c ev => snd (applyTriggeredEventLocked ev c)) evs c.

(** A restored trigger without its own snapshot takes the cached one. *)
Definition fill_snapshot (t : pendingTrigger) (c : probeCache) : pendingTrigger :=
  if bool_decide (ID (pt_Probe t) = ""%string) then
    match probes c !! pt_ProbeID t with
    | Some existing => mkTrigger (pt_ProbeID t) (pt_RunID t) (snapshot existing)
    | None => t
    end
  else t.

Definition trigger_ids_empty (t : pendingTrigger) : bool :=
  bool_decide (pt_ProbeID t = ""%string) || bool_decide (pt_RunID t = ""%string).

Fixpoint queueTriggers (triggers : list pendingTrigger) (c : probeCache) : nat * probeCache :=
  match triggers with
  | [] => (0%nat, c)
  | t :: rest =>
      if trigger_ids_empty t then queueTriggers rest c
      else if hasPendingTriggerLocked (pt_ProbeID t) (pt_RunID t) c then queueTriggers rest c
      else
        let t' := fill_snapshot t c in
        match noteTrigger (pt_ProbeID t) (pt_RunID t) c with
        | None => queueTriggers rest c
        | Some c1 =>
            if queueFull c1 then (0%nat, c1)
            else let '(n, c2) := queueTriggers rest (push_trigger t' c1) in (S n, c2)
        end
  end.

Fixpoint requeueTriggers (triggers : list pendingTrigger) (c : probeCache) : probeCache :=
  match triggers with
  | [] => c
  | t :: rest =>
      if trigger_ids_empty t then requeueTriggers rest c
      else if hasPendingTriggerLocked (pt_ProbeID t) (pt_RunID t) c then requeueTriggers rest c
      else if queueFull c then requeueTriggers rest c
      else requeueTriggers rest (push_trigger t c)
  end.

Definition markTriggerComplete (probeID runID : string) (c : probeCache) : probeCache :=
  set_probes (alter (set_lastTrigger runID) probeID) c.

(** [limit] is the code's signed int; [limit <= 0] drains everything. *)
Definition drainPendingTriggersLimited (limit : Z) (c : probeCache)
    : list pendingTrigger * probeCache :=
  if (length (pendingTriggers c) =? 0)%nat then ([], c)
  else if (limit <=? 0) || (Z.of_nat (length (pendingTriggers c)) <=? limit)
  then (pendingTriggers c, set_pending [] c)
  else (take (Z.to_nat limit) (pendingTriggers c),
        set_pending (drop (Z.to_nat limit) (pendingTriggers c)) c).

Definition drainPendingTriggers (c : probeCache) : list pendingTrigger * probeCache :=
  drainPendingTriggersLimited 0 c.

Definition pendingTriggerCount (c : probeCache) : nat := length (pendingTriggers c).

(** ** Due-ness *)

(** [time.Duration(probe.IntervalSeconds) * time.Second], which wraps. *)
Definition interval_of (p : cachedProbe) : duration :=
  int_mul (IntervalSeconds (snapshot p)) second.

Definition probeDueLocked (p : cachedProbe) (now : time) : bool :=
  if negb (bool_decide (Status (snapshot p) = ProbeStatusActive)) then false
  else if before now (unix_milli (StartsAt (snapshot p))) then false
  else if (0 <? EndsAt (snapshot p)) && negb (before now (unix_milli (EndsAt (snapshot p))))
  then false
  else if bool_decide (ScheduleType (snapshot p) = "manual"%string) then false
  else is_zero_time (lastRunAt p) || negb (before now (time_add (lastRunAt p) (interval_of p))).

Definition dueProbes (iter : list (string * cachedProbe)) (now : time) : list ProbeSnapshot :=
  map (fun kp => snapshot (snd kp)) (List.filter (fun kp => probeDueLocked (snd kp) now) iter).

(** ** The job-bounded selection *)

Record dueEntry : Type := mkEntry {
  de_key : string;
  de_probe : cachedProbe;
  de_count : Z
}.

Definition due_count (maxJobs maxPerProbe : Z) (p : cachedProbe) : Z :=
  let count := ProbeCount (snapshot p) in
  let count := if count <? 1 then 1 else count in
  let count := if (0 <? maxPerProbe) && (maxPerProbe <? count) then maxPerProbe else count in
  if (0 <? maxJobs) && (maxJobs <? count) then maxJobs else count.

Definition due_entries (iter : list (string * cachedProbe)) (now : time)
    (maxJobs maxPerProbe : Z) : list dueEntry :=
  map (fun kp => mkEntry (fst kp) (snd kp) (due_count maxJobs maxPerProbe (snd kp)))
    (List.filter (fun kp => probeDueLocked (snd kp) now) iter).

(** [sort.Slice]'s order: oldest last run first, ties by probe id. *)
Definition probe_le (p q : cachedProbe) : Prop :=
  lastRunAt p < lastRunAt q
  \/ (lastRunAt p = lastRunAt q /\ String.le (ID (snapshot p)) (ID (snapshot q))).

Definition entry_le (a b : dueEntry) : Prop := probe_le (de_probe a) (de_probe b).

#[export] Instance probe_le_dec : RelDecision probe_le.
Proof. intros p q. unfold probe_le. apply _. Defined.

#[export] Instance entry_le_dec : RelDecision entry_le.
Proof. intros a b. unfold entry_le. apply _. Defined.

Definition demand (es : list dueEntry) : Z :=
  fold_left (fun d e => int_add d (de_count e)) es 0.

Fixpoint select_due (now : time) (maxJobs : Z) (es : list dueEntry) (used deferred : Z)
    (ps : gmap string cachedProbe)
    : list ProbeSnapshot * Z * gmap string cachedProbe :=
  match es with
  | [] => ([], deferred, ps)
  | e :: rest =>
      if (0 <? maxJobs) && (maxJobs <? int_add used (de_count e))
      then select_due now maxJobs rest used (int_add deferred (de_count e)) ps
      else
        let '(sel, d, ps') :=
          select_due now maxJobs rest (int_add used (de_count e)) deferred
            (alter (set_lastRunAt now) (de_key e) ps) in
        (set_ProbeCount (de_count e) (snapshot (de_probe e)) :: sel, d, ps')
  end.

Definition takeDueProbes (iter : list (string * cachedProbe)) (now : time)
    (maxJobs maxPerProbe : Z) (c : probeCache)
    : list ProbeSnapshot * Z * probeCache :=
  let entries := due_entries iter now maxJobs maxPerProbe in
  if maxJobs <=? 0 then ([], demand entries, c)
  else
    let '(sel, d, ps) :=
      select_due now maxJobs (merge_sort entry_le entries) 0 0 (probes c) in
    (sel, d, set_probes (fun _ => ps) c).

(** ** Startup staggering *)

Definition stagger_one (now : time) (jitter : duration) (id : string)
    (p : cachedProbe) : cachedProbe :=
  if negb (is_zero_time (lastRunAt p))
     || bool_decide (ScheduleType (snapshot p) = "manual"%string) then p
  else
    let interval := interval_of p in
    if interval <=? 0 then p
    else
      let maxOffset := if interval <? jitter then interval else jitter in
      if maxOffset <=? 0 then p
      else
        let offset := fnv64a id mod maxOffset in
        set_lastRunAt (time_add now (int_add (- interval) offset)) p.

Definition staggerUnstarted (now : time) (jitter : duration) (c : probeCache) : probeCache :=
  if jitter <=? 0 then c
  else set_probes (map_imap (fun id p => Some (stagger_one now jitter id p))) c.

Definition cache_get (probeID : string) (c : probeCache) : option ProbeSnapshot :=
  snapshot <$> probes c !! probeID.

Definition markRun (probeID : string) (at_ : time) (c : probeCache) : probeCache :=
  set_probes (alter (set_lastRunAt at_) probeID) c.

(** ** Well-formed caches and the cache's transitions *)

Definition trigger_key (t : pendingTrigger) : string * string := (pt_ProbeID t, pt_RunID t).

Definition keyed_by_id (ps : gmap string cachedProbe) : Prop :=
  map_Forall (fun k p => ID (snapshot p) = k) ps.

Record cache_wf (c : probeCache) : Prop := {
  wf_keyed : keyed_by_id (probes c);
  wf_nodup : NoDup (trigger_key <$> pendingTriggers c);
  wf_bound : (length (pendingTriggers c) <= maxPendingTriggers)%nat;
  wf_ids : Forall (fun t => trigger_ids_empty t = false) (pendingTriggers c)
}.

(** One call of the agent on the cache, from any goroutine. *)
Inductive cache_step : probeCache -> probeCache -> Prop :=
| step_replace hash snaps c : cache_step c (replaceAssignment hash snaps c)
| step_replace_keep snaps c : cache_step c (replaceAssignmentKeepingHash snaps c)
| step_restore hash states c : cache_step c (restore hash states c)
| step_event ev c : cache_step c (snd (applyTriggeredEvent ev c))
| step_events evs c : cache_step c (cache_applyTriggeredEvents evs c)
| step_queue ts c : cache_step c (snd (queueTriggers ts c))
| step_requeue ts c : cache_step c (requeueTriggers ts c)
| step_complete pid rid c : cache_step c (markTriggerComplete pid rid c)
| step_drain limit c : cache_step c (snd (drainPendingTriggersLimited limit c))
| step_take iter now maxJobs maxPerProbe c :
    iter ≡ₚ map_to_list (probes c) ->
    cache_step c (snd (takeDueProbes iter now maxJobs maxPerProbe c))
| step_stagger now jitter c : cache_step c (staggerUnstarted now jitter c)
| step_markRun pid t c : cache_step c (markRun pid t c).

(** *** Keys *)

Lemma keyed_insert ps k p :
  keyed_by_id ps -> ID (snapshot p) = k -> keyed_by_id (<[k := p]> ps).
Proof. intros H Hk. by apply map_Forall_insert_2. Qed.

Lemma keyed_alter ps k f :
  (forall p, snapshot (f p) = snapshot p) -> keyed_by_id ps -> keyed_by_id (alter f k ps).
Proof.
  intros Hf H i p. rewrite lookup_alter. case_decide as Hk.
  - subst. destruct (ps !! i) eqn:E; simpl; [| discriminate].
    intros [= <-]. rewrite Hf. by apply H.
  - apply H.
Qed.

Lemma keyed_fold {A} (key : A -> ProbeSnapshot) (val : A -> cachedProbe) (l : list A) m :
  (forall a, snapshot (val a) = key a) ->
  keyed_by_id m ->
  keyed_by_id (fold_left (fun next a => <[ID (key a) := val a]> next) l m).
Proof.
  intros Hv. revert m. induction l as [|a l IH]; simpl; intros m Hm; [done|].
  apply IH, keyed_insert; [done|]. by rewrite Hv.
Qed.

Lemma keyed_empty : keyed_by_id ∅.
Proof. apply map_Forall_empty. Qed.

Lemma replaced_entry_snapshot old s : snapshot (replaced_entry old s) = s.
Proof. unfold replaced_entry. by destruct (old !! ID s). Qed.

Lemma stagger_one_snapshot now jitter id p : snapshot (stagger_one now jitter id p) = snapshot p.
Proof. unfold stagger_one. by split_ifs. Qed.

Lemma noteTrigger_Some pid rid c c1 :
  noteTrigger pid rid c = Some c1 ->
  pendingTriggers c1 = pendingTriggers c /\ contentHash c1 = contentHash c
  /\ (keyed_by_id (probes c) -> keyed_by_id (probes c1)).
Proof.
  unfold noteTrigger. destruct (probes c !! pid) as [p|] eqn:E.
  - case_bool_decide; [done|]. intros [= <-]. simpl. split_and!; [done..|].
    intros Hk. apply keyed_insert; [done|]. exact (Hk _ _ E).
  - by intros [= <-].
Qed.

(** *** The pending queue *)

Lemma hasPending_spec pid rid c :
  hasPendingTriggerLocked pid rid c = true <-> (pid, rid) ∈ trigger_key <$> pendingTriggers c.
Proof.
  unfold hasPendingTriggerLocked. rewrite existsb_exists, list_elem_of_fmap. split.
  - intros (t & Hin & [H1 H2]%andb_true_iff).
    apply bool_decide_eq_true in H1, H2. exists t.
    split; [unfold trigger_key; congruence | by apply list_elem_of_In].
  - intros (t & [= -> ->] & Hin). exists t. split; [by apply list_elem_of_In|].
    by rewrite !bool_decide_eq_true_2.
Qed.

Lemma queueFull_false c :
  queueFull c = false -> (length (pendingTriggers c) < maxPendingTriggers)%nat.
Proof. apply Nat.leb_gt. Qed.

Lemma push_trigger_wf t c :
  cache_wf c -> trigger_ids_empty t = false ->
  hasPendingTriggerLocked (pt_ProbeID t) (pt_RunID t) c = false -> queueFull c = false ->
  cache_wf (push_trigger t c).
Proof.
  intros [Hk Hn Hb Hi] Ht Hp Hq%queueFull_false. split; simpl; [done|..].
  - rewrite fmap_app. apply NoDup_app. split_and!; [done| |apply NoDup_singleton].
    intros k Hk1 Hk2%list_elem_of_singleton. subst k.
    apply hasPending_spec in Hk1. congruence.
  - rewrite length_app. simpl. lia.
  - apply Forall_app. auto.
Qed.

Lemma wf_probes_ext c ps :
  cache_wf c -> keyed_by_id ps -> cache_wf (set_probes (fun _ => ps) c).
Proof. intros [? ? ? ?] ?. by split. Qed.

Lemma noteTrigger_wf pid rid c c1 :
  noteTrigger pid rid c = Some c1 -> cache_wf c -> cache_wf c1.
Proof.
  intros (Hp & Hh & Hk)%noteTrigger_Some [? ? ? ?]. split; rewrite ?Hp; auto.
Qed.

Lemma noteTrigger_hasPending pid rid c c1 p r :
  noteTrigger pid rid c = Some c1 ->
  hasPendingTriggerLocked p r c1 = hasPendingTriggerLocked p r c.
Proof.
  intros (Hp & _)%noteTrigger_Some. unfold hasPendingTriggerLocked. by rewrite Hp.
Qed.

#[export] Hint Resolve push_trigger_wf noteTrigger_wf keyed_empty : radar.

Lemma applyTriggeredEventLocked_wf ev c :
  cache_wf c -> cache_wf (snd (applyTriggeredEventLocked ev c)).
Proof.
  intros Hwf. unfold applyTriggeredEventLocked.
  destruct (_ || _ || _) eqn:Hg; [done|].
  destruct (hasPendingTriggerLocked _ _ c) eqn:Hp; [done|].
  destruct (noteTrigger _ _ c) as [c1|] eqn:Hn; [|done].
  destruct (queueFull c1) eqn:Hq; simpl; [by eauto with radar|].
  apply push_trigger_wf; simpl; eauto with radar.
  - unfold trigger_ids_empty. simpl. zify_bool.
    repeat match goal with H : _ = false |- _ => rewrite H end. done.
  - by erewrite noteTrigger_hasPending.
Qed.

Lemma cache_applyTriggeredEvents_wf evs c :
  cache_wf c -> cache_wf (cache_applyTriggeredEvents evs c).
Proof.
  unfold cache_applyTriggeredEvents. revert c.
  induction evs as [|ev evs IH]; simpl; intros c Hc; [done|].
  by apply IH, applyTriggeredEventLocked_wf.
Qed.

Lemma fill_snapshot_key t c :
  pt_ProbeID (fill_snapshot t c) = pt_ProbeID t /\ pt_RunID (fill_snapshot t c) = pt_RunID t.
Proof. unfold fill_snapshot. case_bool_decide; [|done]. by destruct (probes c !! _). Qed.

Lemma queueTriggers_wf ts c : cache_wf c -> cache_wf (snd (queueTriggers ts c)).
Proof.
  revert c. induction ts as [|t ts IH]; simpl; intros c Hc; [done|].
  destruct (trigger_ids_empty t) eqn:Ht; [by apply IH|].
  destruct (hasPendingTriggerLocked _ _ c) eqn:Hp; [by apply IH|].
  destruct (noteTrigger _ _ c) as [c1|] eqn:Hn; [|by apply IH].
  destruct (queueFull c1) eqn:Hq; [by eauto with radar|].
  specialize (IH (push_trigger (fill_snapshot t c) c1)).
  destruct (queueTriggers ts _) as [n c2]. simpl in *. apply IH.
  destruct (fill_snapshot_key t c) as [E1 E2].
  apply push_trigger_wf; [by eauto with radar| | |done].
  - unfold trigger_ids_empty in *. by rewrite E1, E2.
  - rewrite E1, E2. by erewrite noteTrigger_hasPending.
Qed.

Lemma requeueTriggers_wf ts c : cache_wf c -> cache_wf (requeueTriggers ts c).
Proof.
  revert c. induction ts as [|t ts IH]; simpl; intros c Hc; [done|].
  split_ifs; eauto with radar.
Qed.

Lemma drain_wf limit c : cache_wf c -> cache_wf (snd (drainPendingTriggersLimited limit c)).
Proof.
  intros [Hk Hn Hb Hi]. unfold drainPendingTriggersLimited. split_ifs; [done|..].
  - split; simpl; [done|apply NoDup_nil_2|unfold maxPendingTriggers; lia|constructor].
  - split; simpl; [done|..].
    + rewrite fmap_drop. rewrite <- (take_drop (Z.to_nat limit)) in Hn.
      by apply NoDup_app in Hn as (_ & _ & ?).
    + rewrite length_drop. lia.
    + by apply Forall_drop.
Qed.

Lemma select_due_keyed now maxJobs es used d ps :
  keyed_by_id ps -> keyed_by_id (snd (select_due now maxJobs es used d ps)).
Proof.
  revert used d ps. induction es as [|e es IH]; simpl; intros used d ps Hps; [done|].
  destruct (_ && _); [by apply IH|].
  specialize (IH (int_add used (de_count e)) d (alter (set_lastRunAt now) (de_key e) ps)).
  destruct (select_due _ _ _ _ _ _) as [[sel d'] ps']. simpl in *.
  by apply IH, keyed_alter.
Qed.

Lemma takeDueProbes_wf iter now maxJobs maxPerProbe c :
  cache_wf c -> cache_wf (snd (takeDueProbes iter now maxJobs maxPerProbe c)).
Proof.
  intros Hc. unfold takeDueProbes. destruct (maxJobs <=? 0); [done|].
  pose proof (select_due_keyed now maxJobs
    (merge_sort entry_le (due_entries iter now maxJobs maxPerProbe)) 0 0 _ (wf_keyed _ Hc)) as Hk.
  destruct (select_due _ _ _ _ _ _) as [[sel d] ps]. simpl in *. by apply wf_probes_ext.
Qed.

Lemma staggerUnstarted_keyed now jitter ps :
  keyed_by_id ps ->
  keyed_by_id (map_imap (fun id p => Some (stagger_one now jitter id p)) ps).
Proof.
  intros H i p. rewrite map_lookup_imap. destruct (ps !! i) eqn:E; simpl; [|done].
  intros [= <-]. rewrite stagger_one_snapshot. by apply H.
Qed.

Lemma cache_step_wf c c' : cache_step c c' -> cache_wf c -> cache_wf c'.
Proof.
  destruct 1; intros Hc;
    try solve [by apply takeDueProbes_wf | by apply applyTriggeredEventLocked_wf
      | by apply cache_applyTriggeredEvents_wf | by apply queueTriggers_wf
      | by apply requeueTriggers_wf | by apply drain_wf].
  - destruct Hc. split; simpl; try done.
    apply (keyed_fold id); [apply replaced_entry_snapshot | apply keyed_empty].
  - destruct Hc. split; simpl; try done.
    apply (keyed_fold id); [apply replaced_entry_snapshot | apply keyed_empty].
  - destruct Hc. split; simpl; try done.
    apply (keyed_fold st_Snapshot); [done | apply keyed_empty].
  - destruct Hc. split; simpl; try done. by apply keyed_alter.
  - unfold staggerUnstarted. split_ifs; [done|].
    apply (wf_probes_ext c); [done|]. by apply staggerUnstarted_keyed, wf_keyed.
  - destruct Hc. split; simpl; try done. by apply keyed_alter.
Qed.

Lemma newProbeCache_wf : cache_wf newProbeCache.
Proof.
  split; simpl; [apply keyed_empty|apply NoDup_nil_2|unfold maxPendingTriggers; lia|constructor].
Qed.

(** In every state the agent can reach from a fresh cache, through any
    interleaving of its calls, each cached probe sits under its own id, and
    the pending-trigger queue holds at most [maxPendingTriggers] entries,
    never two for the same (probe, run) and never one with an empty id. *)
Theorem cache_reachable_wf c : rtc cache_step newProbeCache c -> cache_wf c.
Proof.
  intros H. generalize newProbeCache_wf. revert H. generalize newProbeCache as c0.
  induction 1; eauto using cache_step_wf.
Qed.

(** *** A small concrete cache, for the witnesses *)

Definition demo_snapshot (id : string) (count interval : Z) : ProbeSnapshot :=
  mkSnapshot id "example.org" "tcp" count 1000 "interval" interval 0 0 [] "active".

Definition demo_cache : probeCache :=
  replaceAssignment "h" [demo_snapshot "a" 3 60; demo_snapshot "b" 2 30] newProbeCache.

Lemma demo_cache_reachable : rtc cache_step newProbeCache demo_cache.
Proof. eapply rtc_l; [apply step_replace | apply rtc_refl]. Defined.

Lemma demo_cache_wf : cache_wf demo_cache.
Proof. apply (cache_step_wf newProbeCache); [apply step_replace | apply newProbeCache_wf]. Qed.

Lemma cache_reachable_wf_witness :
  rtc cache_step newProbeCache demo_cache /\ cache_wf demo_cache.
Proof.
  split; [exact demo_cache_reachable | exact (cache_reachable_wf _ demo_cache_reachable)].
Defined.
