(* ===== verification/DueProbes.v ===== *)
(** * Correctness of the due-probe selection

    [takeDueProbes] and [staggerUnstarted] of [internal/agent/cache.go]:
    job budget, fairness and absence of starvation, independence of the
    map iteration order, no double firing, startup spreading. *)

From Stdlib Require Import ZArith Lia List Bool Ascii String Sorted.
From stdpp Require Import base tactics gmap strings list fin_maps sorting.
From S2P Require Import Prelude Wire Cache.

(** ** An abstract specification of the selection

    [picks] splits the sorted entries into the ones taken and the ones
    deferred, over unbounded integers and without the cache. *)

Fixpoint picks (maxJobs : Z) (es : list dueEntry) (used : Z)
    : list dueEntry * list dueEntry :=
  match es with
  | [] => ([], [])
  | e :: rest =>
      if maxJobs <? used + de_count e then
        let '(chosen, left_) := picks maxJobs rest used in (chosen, e :: left_)
      else
        let '(chosen, left_) := picks maxJobs rest (used + de_count e) in (e :: chosen, left_)
  end.

Definition jobs_of (es : list dueEntry) : Z := foldr (fun e z => de_count e + z) 0 es.

Definition snap_of (e : dueEntry) : ProbeSnapshot :=
  set_ProbeCount (de_count e) (snapshot (de_probe e)).

Definition mark_all (now : time) (es : list dueEntry) (ps : gmap string cachedProbe) :=
  fold_left (fun ps e => alter (set_lastRunAt now) (de_key e) ps) es ps.

Definition counts_ok (maxJobs : Z) (es : list dueEntry) : Prop :=
  Forall (fun e => 1 <= de_count e <= maxJobs) es.

(** Budgets below [2^62] cannot overflow the loop's [used+entry.count]. *)
Definition sane_budget (maxJobs : Z) : Prop := 0 < maxJobs < 2 ^ 62.

Lemma picks_perm maxJobs es used :
  fst (picks maxJobs es used) ++ snd (picks maxJobs es used) ≡ₚ es.
Proof.
  revert used. induction es as [|e es IH]; simpl; intros used; [done|].
  case_match.
  - specialize (IH used). destruct (picks maxJobs es used). simpl in *.
    by rewrite <- IH, Permutation_middle.
  - specialize (IH (used + de_count e)). destruct (picks _ _ _). simpl in *. by rewrite IH.
Qed.

Lemma picks_budget maxJobs es used :
  used <= maxJobs -> used + jobs_of (fst (picks maxJobs es used)) <= maxJobs.
Proof.
  revert used. induction es as [|e es IH]; simpl; intros used Hu; [lia|].
  case_match.
  - specialize (IH used Hu). destruct (picks maxJobs es used). done.
  - specialize (IH (used + de_count e)). destruct (picks _ _ _). simpl in *. zify_bool. lia.
Qed.

Lemma total_nonneg maxJobs es : counts_ok maxJobs es -> 0 <= jobs_of es.
Proof. induction 1; simpl; lia. Qed.

Lemma counts_ok_chosen maxJobs es used :
  counts_ok maxJobs es -> counts_ok maxJobs (fst (picks maxJobs es used)).
Proof.
  intros H. apply (Permutation_Forall (symmetry (picks_perm maxJobs es used))) in H.
  by apply Forall_app in H as [? _].
Qed.

(** A deferred entry really does not fit beside what was taken. *)
Lemma picks_maximal maxJobs es used e :
  counts_ok maxJobs es -> e ∈ snd (picks maxJobs es used) ->
  maxJobs < used + jobs_of (fst (picks maxJobs es used)) + de_count e.
Proof.
  intros Hc. revert used. induction Hc as [|x es Hx Hes IH]; simpl; intros used He.
  - by apply not_elem_of_nil in He.
  - destruct (maxJobs <? used + de_count x) eqn:E; zify_bool.
    + specialize (IH used). pose proof (counts_ok_chosen _ _ used Hes) as Ht%total_nonneg.
      destruct (picks maxJobs es used) as [ch lf]. simpl in *.
      apply elem_of_cons in He as [->|He]; [lia|]. by apply IH.
    + specialize (IH (used + de_count x)). destruct (picks _ _ _) as [ch lf]. simpl in *.
      specialize (IH He). lia.
Qed.

Lemma picks_head maxJobs e es : 
  de_count e <= maxJobs -> e ∈ fst (picks maxJobs (e :: es) 0).
Proof.
  intros H. cbn [picks]. rewrite Z.add_0_l.
  destruct (Z.ltb_spec maxJobs (de_count e)); [lia|].
  destruct (picks _ _ _). left.
Qed.

(** ** Refinement: the loop computes [picks] *)

Lemma select_due_refines now maxJobs es used d ps :
  sane_budget maxJobs -> counts_ok maxJobs es -> 0 <= used <= maxJobs ->
  select_due now maxJobs es used d ps =
    (snap_of <$> fst (picks maxJobs es used),
     fold_left (fun d e => int_add d (de_count e)) (snd (picks maxJobs es used)) d,
     mark_all now (fst (picks maxJobs es used)) ps).
Proof.
  intros Hb Hc. revert used d ps.
  induction Hc as [|e es He Hes IH]; simpl; intros used d ps Hu; [done|].
  unfold sane_budget in Hb. cbn beta in He.
  rewrite int_add_small by (unfold in_int64, min_int64, max_int64; lia).
  rewrite (proj2 (Z.ltb_lt 0 maxJobs)) by lia. cbn [andb].
  destruct (maxJobs <? used + de_count e) eqn:E; zify_bool.
  - rewrite IH by lia. by destruct (picks maxJobs es used).
  - rewrite IH by lia. by destruct (picks maxJobs es (used + de_count e)).
Qed.

(** ** The entries of one call *)

Lemma due_count_bounds maxJobs maxPerProbe p :
  0 < maxJobs ->
  1 <= due_count maxJobs maxPerProbe p <= maxJobs
  /\ (0 < maxPerProbe -> due_count maxJobs maxPerProbe p <= maxPerProbe).
Proof. intros H. unfold due_count. split_ifs; zify_bool; lia. Qed.

Lemma due_entries_counts iter now maxJobs maxPerProbe :
  0 < maxJobs -> counts_ok maxJobs (due_entries iter now maxJobs maxPerProbe).
Proof.
  intros H. unfold counts_ok, due_entries. rewrite List.Forall_map.
  apply List.Forall_forall. intros kp _. by apply due_count_bounds.
Qed.

Definition sorted_entries iter now maxJobs maxPerProbe : list dueEntry :=
  merge_sort entry_le (due_entries iter now maxJobs maxPerProbe).

Lemma sorted_entries_perm iter now maxJobs maxPerProbe :
  sorted_entries iter now maxJobs maxPerProbe ≡ₚ due_entries iter now maxJobs maxPerProbe.
Proof. apply merge_sort_Permutation. Qed.

Lemma sorted_entries_counts iter now maxJobs maxPerProbe :
  0 < maxJobs -> counts_ok maxJobs (sorted_entries iter now maxJobs maxPerProbe).
Proof.
  intros H. unfold counts_ok. rewrite sorted_entries_perm. by apply due_entries_counts.
Qed.

Lemma takeDueProbes_refines iter now maxJobs maxPerProbe c :
  sane_budget maxJobs ->
  takeDueProbes iter now maxJobs maxPerProbe c =
    let ps := picks maxJobs (sorted_entries iter now maxJobs maxPerProbe) 0 in
    (snap_of <$> fst ps,
     fold_left (fun d e => int_add d (de_count e)) (snd ps) 0,
     set_probes (mark_all now (fst ps)) c).
Proof.
  intros Hb. unfold takeDueProbes. unfold sane_budget in Hb.
  destruct (maxJobs <=? 0) eqn:E; zify_bool; [lia|].
  fold (sorted_entries iter now maxJobs maxPerProbe).
  rewrite select_due_refines; [done|done|apply sorted_entries_counts; lia|lia].
Qed.

Lemma due_entries_elem iter now maxJobs maxPerProbe e :
  e ∈ due_entries iter now maxJobs maxPerProbe <->
  exists k p, e = mkEntry k p (due_count maxJobs maxPerProbe p)
    /\ (k, p) ∈ iter /\ probeDueLocked p now = true.
Proof.
  unfold due_entries. rewrite list_elem_of_In, in_map_iff. split.
  - intros ([k p] & <- & [Hin Hd]%filter_In). simpl in *.
    exists k, p. by rewrite list_elem_of_In.
  - intros (k & p & -> & Hin & Hd). exists (k, p). split; [done|].
    apply filter_In. by rewrite <- list_elem_of_In.
Qed.

(** [iter] is one possible iteration of the cache's map. *)
Definition iterates (iter : list (string * cachedProbe)) (c : probeCache) : Prop :=
  iter ≡ₚ map_to_list (probes c).

Lemma iterates_elem iter c k p : iterates iter c -> (k, p) ∈ iter <-> probes c !! k = Some p.
Proof. intros H. by rewrite H, elem_of_map_to_list. Qed.

Lemma iterates_NoDup iter c : iterates iter c -> NoDup iter.*1.
Proof. intros H. rewrite H. apply NoDup_fst_map_to_list. Qed.

Lemma due_entries_keys_NoDup iter now maxJobs maxPerProbe :
  NoDup iter.*1 -> NoDup (de_key <$> due_entries iter now maxJobs maxPerProbe).
Proof.
  intros Hn. unfold due_entries. induction iter as [|[k p] iter IH]; simpl in *.
  - apply NoDup_nil_2.
  - apply NoDup_cons in Hn as [Hk Hn]. destruct (probeDueLocked p now); simpl; [|auto].
    apply NoDup_cons. split; [|auto].
    intros (e & -> & He)%list_elem_of_fmap. apply due_entries_elem in He as (k' & p' & -> & Hin & _).
    apply Hk. simpl. apply list_elem_of_fmap. by exists (k', p').
Qed.

Lemma chosen_elem iter now maxJobs maxPerProbe e :
  e ∈ sorted_entries iter now maxJobs maxPerProbe <->
  e ∈ fst (picks maxJobs (sorted_entries iter now maxJobs maxPerProbe) 0)
  \/ e ∈ snd (picks maxJobs (sorted_entries iter now maxJobs maxPerProbe) 0).
Proof. rewrite <- elem_of_app. by rewrite picks_perm. Qed.

(** ** Job budget and accounting *)

Definition job_total (sel : list ProbeSnapshot) : Z := sumZ (ProbeCount <$> sel).

Lemma job_total_snaps es : job_total (snap_of <$> es) = jobs_of es.
Proof.
  unfold job_total, sumZ, jobs_of. induction es as [|e es IH]; [done|].
  rewrite !fmap_cons. cbn [foldr]. by rewrite IH.
Qed.

Lemma total_app es fs : jobs_of (es ++ fs) = jobs_of es + jobs_of fs.
Proof. unfold jobs_of. induction es; simpl; [done|]. rewrite IHes. lia. Qed.

Lemma total_perm es fs : es ≡ₚ fs -> jobs_of es = jobs_of fs.
Proof. unfold jobs_of. induction 1; simpl; lia. Qed.

Lemma selection_bounds iter now maxJobs maxPerProbe c :
  sane_budget maxJobs ->
  let sel := fst (fst (takeDueProbes iter now maxJobs maxPerProbe c)) in
  job_total sel <= maxJobs
  /\ Forall (fun s => 1 <= ProbeCount s <= maxJobs
                      /\ (0 < maxPerProbe -> ProbeCount s <= maxPerProbe)) sel.
Proof.
  intros Hb. rewrite takeDueProbes_refines by done. cbn beta iota zeta delta [fst snd].
  set (es := sorted_entries iter now maxJobs maxPerProbe).
  pose proof (picks_perm maxJobs es 0) as Hp. unfold sane_budget in Hb.
  rewrite job_total_snaps. split.
  - pose proof (picks_budget maxJobs es 0). lia.
  - apply Forall_fmap, Forall_forall. intros e He. cbn.
    assert (e ∈ es) as Hes by (rewrite <- Hp; apply elem_of_app; by left).
    unfold es in Hes. rewrite sorted_entries_perm in Hes.
    apply due_entries_elem in Hes as (k & p & -> & _). simpl.
    apply due_count_bounds. lia.
Qed.

(** The same for a budget that may be used up. *)
Lemma takeDueProbes_total iter now maxJobs maxPerProbe c :
  0 <= maxJobs < 2 ^ 62 -> 1 <= maxPerProbe ->
  let sel := fst (fst (takeDueProbes iter now maxJobs maxPerProbe c)) in
  job_total sel <= maxJobs /\ Forall (fun s => 1 <= ProbeCount s /\ ProbeCount s <= maxPerProbe) sel.
Proof.
  intros Hb Hp. destruct (decide (maxJobs = 0)) as [->|Hne]; [by unfold takeDueProbes|].
  destruct (selection_bounds iter now maxJobs maxPerProbe c) as [H1 H2]; [split; lia|].
  split; [done|]. eapply Forall_impl; [exact H2|]. cbn beta. intros s Hs. lia.
Qed.

(** One selection never exceeds the tick's job budget: the selected
    repeat counts sum to at most [maxJobs], each is at least one and at most
    [maxPerProbe] when there is such a cap, and selected plus reported
    deferred jobs are exactly the due demand (modulo the 64-bit width). *)
Theorem take_budget iter now maxJobs maxPerProbe c :
  sane_budget maxJobs ->
  let '(sel, deferred, _) := takeDueProbes iter now maxJobs maxPerProbe c in
  job_total sel <= maxJobs
  /\ Forall (fun s => 1 <= ProbeCount s <= maxJobs
                      /\ (0 < maxPerProbe -> ProbeCount s <= maxPerProbe)) sel
  /\ deferred = wrap64 (jobs_of (due_entries iter now maxJobs maxPerProbe) - job_total sel).
Proof.
  intros Hb. pose proof (selection_bounds iter now maxJobs maxPerProbe c Hb) as Hs.
  rewrite takeDueProbes_refines in * by done. cbn beta iota zeta delta [fst snd] in *.
  destruct Hs as [H1 H2]. split; [done|]. split; [done|].
  set (es := sorted_entries iter now maxJobs maxPerProbe).
  pose proof (picks_perm maxJobs es 0) as Hp. rewrite job_total_snaps.
  rewrite fold_int_add by (unfold in_int64, min_int64, max_int64; lia).
  f_equal. rewrite <- (total_perm _ _ (sorted_entries_perm _ _ _ _)). fold es.
  rewrite <- (total_perm _ _ Hp), total_app. unfold jobs_of. lia.
Qed.

(** ** Independence of the map's iteration order *)

#[export] Instance entry_le_trans : Transitive entry_le.
Proof.
  intros a b c. unfold entry_le, probe_le. intros [?|[? ?]] [?|[? ?]]; [lia..|].
  right. split; [lia|]. by etrans.
Qed.

#[export] Instance entry_le_total : Total entry_le.
Proof.
  intros a b. unfold entry_le, probe_le.
  destruct (Z.lt_total (lastRunAt (de_probe a)) (lastRunAt (de_probe b))) as [?|[->|?]]; auto.
  destruct (total String.le (ID (snapshot (de_probe a))) (ID (snapshot (de_probe b)))); auto.
Qed.

Lemma probe_le_antisym_ids p q :
  probe_le p q -> probe_le q p -> ID (snapshot p) = ID (snapshot q).
Proof.
  unfold probe_le. intros [?|[? H1]] [?|[? H2]]; [lia..|]. by apply (anti_symm String.le).
Qed.

Lemma due_entries_same_order i1 i2 now maxJobs maxPerProbe c :
  cache_wf c -> iterates i1 c -> iterates i2 c ->
  due_entries i1 now maxJobs maxPerProbe ≡ₚ due_entries i2 now maxJobs maxPerProbe.
Proof.
  intros Hwf H1 H2. apply NoDup_Permutation.
  - apply (NoDup_fmap_1 de_key), due_entries_keys_NoDup. by eapply iterates_NoDup.
  - apply (NoDup_fmap_1 de_key), due_entries_keys_NoDup. by eapply iterates_NoDup.
  - intros e. rewrite !due_entries_elem. setoid_rewrite iterates_elem; [|done..]. done.
Qed.

Lemma sorted_entries_unique i1 i2 now maxJobs maxPerProbe c :
  cache_wf c -> iterates i1 c -> iterates i2 c ->
  sorted_entries i1 now maxJobs maxPerProbe = sorted_entries i2 now maxJobs maxPerProbe.
Proof.
  intros Hwf H1 H2. unfold sorted_entries. eapply (StronglySorted_unique_strong entry_le).
  - intros e f He Hf L R. rewrite merge_sort_Permutation in He, Hf.
    apply due_entries_elem in He as (k & p & -> & Hk & _).
    apply due_entries_elem in Hf as (k' & q & -> & Hk' & _).
    rewrite iterates_elem in Hk, Hk' by done.
    pose proof (probe_le_antisym_ids _ _ L R) as E. simpl in E.
    pose proof (wf_keyed _ Hwf _ _ Hk) as K. pose proof (wf_keyed _ Hwf _ _ Hk') as K'.
    cbn beta in K, K'. assert (k = k') by congruence. clear K K'. subst k'.
    by rewrite Hk in Hk'; injection Hk' as ->.
  - apply StronglySorted_merge_sort; apply _.
  - apply StronglySorted_merge_sort; apply _.
  - rewrite !merge_sort_Permutation. by eapply due_entries_same_order.
Qed.

(** The selection does not depend on Go's randomised map iteration:
    on a well-formed cache any two iteration orders select the same
    snapshots in the same order, report the same deferred demand and leave
    the same cache. *)
Theorem take_deterministic i1 i2 now maxJobs maxPerProbe c :
  cache_wf c -> iterates i1 c -> iterates i2 c ->
  takeDueProbes i1 now maxJobs maxPerProbe c = takeDueProbes i2 now maxJobs maxPerProbe c.
Proof.
  intros Hwf H1 H2. unfold takeDueProbes. destruct (maxJobs <=? 0).
  - do 2 f_equal. unfold demand.
    rewrite !fold_int_add by (unfold in_int64, min_int64, max_int64; lia).
    do 2 f_equal. apply total_perm. by eapply due_entries_same_order.
  - fold (sorted_entries i1 now maxJobs maxPerProbe).
    fold (sorted_entries i2 now maxJobs maxPerProbe).
    by rewrite (sorted_entries_unique i1 i2 now maxJobs maxPerProbe c).
Qed.

(** ** What a selection marks *)

Lemma mark_all_lookup now es ps k :
  mark_all now es ps !! k =
    if decide (k ∈ de_key <$> es) then set_lastRunAt now <$> ps !! k else ps !! k.
Proof.
  unfold mark_all. revert ps. induction es as [|e es IH]; intros ps; cbn [fold_left fmap list_fmap].
  - case_decide as H; [by apply not_elem_of_nil in H | done].
  - rewrite IH, lookup_alter.
    destruct (decide (k = de_key e)) as [->|Hne].
    + rewrite (decide_True (P := de_key e = de_key e)) by done.
      rewrite (decide_True (P := de_key e ∈ de_key e :: _)) by left.
      case_decide; by destruct (ps !! de_key e).
    + rewrite (decide_False (P := de_key e = k)) by congruence.
      apply decide_ext. rewrite elem_of_cons. tauto.
Qed.

Definition chosen iter now maxJobs maxPerProbe : list dueEntry :=
  fst (picks maxJobs (sorted_entries iter now maxJobs maxPerProbe) 0).

Lemma chosen_spec iter now maxJobs maxPerProbe e :
  e ∈ chosen iter now maxJobs maxPerProbe ->
  exists k p, e = mkEntry k p (due_count maxJobs maxPerProbe p)
    /\ (k, p) ∈ iter /\ probeDueLocked p now = true.
Proof.
  intros He. apply due_entries_elem. rewrite <- sorted_entries_perm.
  apply chosen_elem. by left.
Qed.

(** Membership of a cached probe in the chosen entries, by key. *)
Lemma chosen_key iter now maxJobs maxPerProbe c k p :
  iterates iter c -> probes c !! k = Some p ->
  k ∈ de_key <$> chosen iter now maxJobs maxPerProbe ->
  probeDueLocked p now = true
  /\ mkEntry k p (due_count maxJobs maxPerProbe p) ∈ chosen iter now maxJobs maxPerProbe.
Proof.
  intros Hi Hp (e & -> & He)%list_elem_of_fmap.
  pose proof (chosen_spec _ _ _ _ _ He) as (k' & q & -> & Hin & Hd). simpl in *.
  rewrite iterates_elem in Hin by done. rewrite Hp in Hin. by injection Hin as ->.
Qed.

(** Exactly the selected probes are marked run.  A cached probe either
    was due, is in the selection with its bounded repeat count, and has
    [lastRunAt] set to the tick's time with nothing else changed; or it is
    left exactly as it was, and then it was not due, or its jobs do not fit
    beside the selection in the budget. *)
Theorem take_marks iter now maxJobs maxPerProbe c k p :
  sane_budget maxJobs -> iterates iter c -> probes c !! k = Some p ->
  let '(sel, _, c') := takeDueProbes iter now maxJobs maxPerProbe c in
  (probeDueLocked p now = true
   /\ set_ProbeCount (due_count maxJobs maxPerProbe p) (snapshot p) ∈ sel
   /\ probes c' !! k = Some (set_lastRunAt now p))
  \/ (probes c' !! k = Some p
      /\ (probeDueLocked p now = true ->
          maxJobs < job_total sel + due_count maxJobs maxPerProbe p)).
Proof.
  intros Hb Hi Hp. rewrite takeDueProbes_refines by done. cbn beta iota zeta.
  fold (chosen iter now maxJobs maxPerProbe). unfold sane_budget in Hb.
  simpl. rewrite mark_all_lookup, Hp, job_total_snaps. case_decide as Hk.
  - left. destruct (chosen_key _ _ _ _ _ _ _ Hi Hp Hk) as [Hd He].
    split_and!; [done| |done]. apply (list_elem_of_fmap_2 snap_of _ _ He).
  - right. split; [done|]. intros Hd.
    assert (mkEntry k p (due_count maxJobs maxPerProbe p)
              ∈ sorted_entries iter now maxJobs maxPerProbe) as Hin.
    { rewrite sorted_entries_perm. apply due_entries_elem. exists k, p.
      split_and!; [done| |done]. by eapply iterates_elem. }
    apply chosen_elem in Hin as [Hin|Hin].
    + destruct Hk. apply (list_elem_of_fmap_2 de_key _ _ Hin).
    + apply picks_maximal in Hin; [simpl in Hin; unfold chosen; lia|].
      apply sorted_entries_counts. lia.
Qed.

(** ** No double firing *)

Lemma selected_chosen iter now maxJobs maxPerProbe c s :
  sane_budget maxJobs ->
  s ∈ fst (fst (takeDueProbes iter now maxJobs maxPerProbe c)) ->
  exists e, e ∈ chosen iter now maxJobs maxPerProbe /\ s = snap_of e.
Proof.
  intros Hb. rewrite takeDueProbes_refines by done. cbn beta iota zeta. simpl.
  intros (e & -> & He)%list_elem_of_fmap. eauto.
Qed.

(** A probe a tick selected is not due again until its interval has
    passed: at every later instant before [now + interval] the marked entry
    is not due, so no tick in between can select it. *)
Theorem take_no_refire iter now maxJobs maxPerProbe c s later :
  sane_budget maxJobs -> cache_wf c -> iterates iter c -> zero_time < now ->
  s ∈ fst (fst (takeDueProbes iter now maxJobs maxPerProbe c)) ->
  exists p', probes (snd (takeDueProbes iter now maxJobs maxPerProbe c)) !! ID s = Some p'
    /\ (later < now + interval_of p' -> probeDueLocked p' later = false).
Proof.
  intros Hb Hwf Hi Hz Hs. apply selected_chosen in Hs as (e & He & ->); [|done].
  pose proof (chosen_spec _ _ _ _ _ He) as (k & p & -> & Hin & Hd).
  rewrite iterates_elem in Hin by done. pose proof (wf_keyed _ Hwf _ _ Hin) as Hk.
  cbn beta in Hk. exists (set_lastRunAt now p).
  rewrite takeDueProbes_refines by done. simpl. rewrite Hk, mark_all_lookup, Hin.
  rewrite decide_True by apply (list_elem_of_fmap_2 de_key _ _ He). split; [done|].
  unfold probeDueLocked, interval_of, time_add. simpl. intros Hl.
  split_ifs; try done. apply orb_false_iff. split.
  - apply Z.eqb_neq. lia.
  - apply negb_false_iff. unfold before. by apply Z.ltb_lt.
Qed.

(** ** No starvation *)

(** [c] after one tick at [now], with one of the map orders
    ([take_deterministic]: they all agree). *)
Definition tick (maxJobs maxPerProbe : Z) (now : time) (c : probeCache)
    : list ProbeSnapshot * probeCache :=
  let '(sel, _, c') := takeDueProbes (map_to_list (probes c)) now maxJobs maxPerProbe c in
  (sel, c').

(** Some tick of the sequence selects probe [k]. *)
Fixpoint served (maxJobs maxPerProbe : Z) (k : string) (nows : list time) (c : probeCache)
    : bool :=
  match nows with
  | [] => false
  | now :: rest =>
      let '(sel, c') := tick maxJobs maxPerProbe now c in
      existsb (fun s => bool_decide (ID s = k)) sel || served maxJobs maxPerProbe k rest c'
  end.

(** The probes ahead of [p] in the selection order. *)
Definition ahead (p : cachedProbe) (c : probeCache) : gmap string cachedProbe :=
  filter (fun kq => ~ probe_le p (snd kq)) (probes c).

Lemma take_head_chosen iter now maxJobs maxPerProbe e :
  0 < maxJobs -> e ∈ due_entries iter now maxJobs maxPerProbe ->
  exists h, h ∈ chosen iter now maxJobs maxPerProbe /\ entry_le h e.
Proof.
  intros Hm He. unfold chosen. rewrite <- sorted_entries_perm in He.
  pose proof (sorted_entries_counts iter now maxJobs maxPerProbe Hm) as Hc.
  pose proof (StronglySorted_merge_sort entry_le (due_entries iter now maxJobs maxPerProbe)) as Hs.
  fold (sorted_entries iter now maxJobs maxPerProbe) in Hs.
  destruct (sorted_entries _ _ _ _) as [|h es]; [by apply not_elem_of_nil in He|].
  exists h. apply Forall_cons in Hc as [Hh _]. cbn beta in Hh.
  split; [apply picks_head; lia|].
  apply elem_of_cons in He as [->|He]; [by destruct (total entry_le h h)|].
  apply StronglySorted_inv in Hs as [_ Hs]. rewrite Forall_forall in Hs. by apply Hs.
Qed.

Lemma probe_le_set_lastRunAt now p q :
  lastRunAt p < now -> probe_le p (set_lastRunAt now q).
Proof. intros H. by left. Qed.

(** A tick that passes over [p] leaves strictly fewer probes ahead of it. *)
Lemma tick_ahead maxJobs maxPerProbe now c k p :
  sane_budget maxJobs -> cache_wf c -> probes c !! k = Some p ->
  lastRunAt p < now -> probeDueLocked p now = true ->
  k ∉ de_key <$> chosen (map_to_list (probes c)) now maxJobs maxPerProbe ->
  (size (ahead p (snd (tick maxJobs maxPerProbe now c))) < size (ahead p c))%nat.
Proof.
  intros Hb Hwf Hp Hl Hd Hk. set (iter := map_to_list (probes c)).
  assert (iterates iter c) as Hi by (unfold iterates; done).
  unfold tick. fold iter. rewrite takeDueProbes_refines by done. cbn beta iota zeta.
  fold (chosen iter now maxJobs maxPerProbe). simpl.
  destruct (take_head_chosen iter now maxJobs maxPerProbe
    (mkEntry k p (due_count maxJobs maxPerProbe p))) as (h & Hh & Hle).
  { unfold sane_budget in Hb. lia. }
  { apply due_entries_elem. exists k, p. split_and!; [done| |done]. by apply elem_of_map_to_list. }
  pose proof (chosen_spec _ _ _ _ _ Hh) as (kh & q & -> & Hin & _).
  rewrite (iterates_elem _ _ _ _ Hi) in Hin. unfold entry_le in Hle. simpl in Hle.
  apply map_subset_size, map_subset_alt. split.
  - apply map_subseteq_spec. intros i r. unfold ahead. simpl.
    rewrite !map_lookup_filter_Some, mark_all_lookup. simpl. intros [Hr Hn]. case_decide.
    + destruct (probes c !! i); simplify_eq/=. by destruct Hn; apply probe_le_set_lastRunAt.
    + done.
  - exists kh. unfold ahead. simpl. rewrite map_lookup_filter_None, mark_all_lookup, Hin.
    rewrite decide_True by apply (list_elem_of_fmap_2 de_key _ _ Hh). split.
    + right. intros r [= <-] Hn. by destruct Hn; apply probe_le_set_lastRunAt.
    + exists q. apply map_lookup_filter_Some. split; [done|]. simpl. intros Hpq.
      destruct Hk. assert (k = kh) as ->.
      { pose proof (probe_le_antisym_ids _ _ Hpq Hle) as E.
        pose proof (wf_keyed _ Hwf _ _ Hp) as K1. pose proof (wf_keyed _ Hwf _ _ Hin) as K2.
        cbn beta in K1, K2. congruence. }
      apply (list_elem_of_fmap_2 de_key _ _ Hh).
Qed.

Lemma tick_keeps maxJobs maxPerProbe now c k p :
  sane_budget maxJobs -> probes c !! k = Some p ->
  k ∉ de_key <$> chosen (map_to_list (probes c)) now maxJobs maxPerProbe ->
  probes (snd (tick maxJobs maxPerProbe now c)) !! k = Some p.
Proof.
  intros Hb Hp Hk. unfold tick. rewrite takeDueProbes_refines by done.
  cbn beta iota zeta. simpl. rewrite mark_all_lookup. fold (chosen (map_to_list (probes c)) now maxJobs maxPerProbe).
  rewrite decide_False; done.
Qed.

Lemma tick_serves maxJobs maxPerProbe now c k p :
  sane_budget maxJobs -> cache_wf c -> probes c !! k = Some p ->
  k ∈ de_key <$> chosen (map_to_list (probes c)) now maxJobs maxPerProbe ->
  existsb (fun s => bool_decide (ID s = k)) (fst (tick maxJobs maxPerProbe now c)) = true.
Proof.
  intros Hb Hwf Hp Hk. apply existsb_exists. unfold tick.
  rewrite takeDueProbes_refines by done. cbn beta iota zeta. simpl.
  apply (chosen_key _ _ _ _ c k p) in Hk as [_ He]; [|by unfold iterates|done].
  exists (snap_of (mkEntry k p (due_count maxJobs maxPerProbe p))). split.
  - apply list_elem_of_In, (list_elem_of_fmap_2 snap_of _ _ He).
  - apply bool_decide_eq_true_2. exact (wf_keyed _ Hwf _ _ Hp).
Qed.

Lemma tick_wf maxJobs maxPerProbe now c :
  cache_wf c -> cache_wf (snd (tick maxJobs maxPerProbe now c)).
Proof.
  intros Hwf. unfold tick.
  pose proof (takeDueProbes_wf (map_to_list (probes c)) now maxJobs maxPerProbe c Hwf) as H.
  by destruct (takeDueProbes _ _ _ _ _) as [[? ?] ?].
Qed.

(** C30: No due probe starves, however small the budget: a probe that stays
    due is selected after at most one tick per probe that was ahead of it
    in the order (last run, id), plus one. *)
Theorem no_starvation maxJobs maxPerProbe nows c k p :
  sane_budget maxJobs -> cache_wf c -> probes c !! k = Some p ->
  Forall (fun now => lastRunAt p < now /\ probeDueLocked p now = true) nows ->
  (size (ahead p c) < length nows)%nat ->
  served maxJobs maxPerProbe k nows c = true.
Proof.
  intros Hb Hwf Hp Hn. revert c Hwf Hp.
  induction Hn as [|now nows [Hl Hd] Hn IH]; simpl; intros c Hwf Hp Hlen; [lia|].
  pose proof (tick_wf maxJobs maxPerProbe now c Hwf) as Hwf'.
  destruct (decide (k ∈ de_key <$> chosen (map_to_list (probes c)) now maxJobs maxPerProbe))
    as [Hk|Hk].
  - pose proof (tick_serves _ _ _ _ _ _ Hb Hwf Hp Hk) as Hs.
    destruct (tick _ _ _ _). simpl in Hs. by rewrite Hs.
  - pose proof (tick_ahead _ _ _ _ _ _ Hb Hwf Hp Hl Hd Hk) as Hlt.
    pose proof (tick_keeps _ _ _ _ _ _ Hb Hp Hk) as Hp'.
    destruct (tick maxJobs maxPerProbe now c) as [sel c']. simpl in *.
    rewrite IH; [by rewrite orb_true_r|done|done|lia].
Qed.

(** ** Startup staggering *)

(** The window is over when the clock leaves [StartsAt, EndsAt). *)
Definition runnable (p : cachedProbe) (now : time) : bool :=
  bool_decide (Status (snapshot p) = ProbeStatusActive)
  && negb (before now (unix_milli (StartsAt (snapshot p))))
  && negb ((0 <? EndsAt (snapshot p)) && negb (before now (unix_milli (EndsAt (snapshot p)))))
  && negb (bool_decide (ScheduleType (snapshot p) = "manual"%string)).

Lemma probeDue_runnable p now :
  probeDueLocked p now =
    runnable p now
    && (is_zero_time (lastRunAt p)
        || negb (before now (time_add (lastRunAt p) (interval_of p)))).
Proof.
  unfold probeDueLocked, runnable.
  destruct (bool_decide (Status _ = _)), (before now (unix_milli (StartsAt _))),
    (0 <? EndsAt _), (before now (unix_milli (EndsAt _))), (bool_decide (ScheduleType _ = _)); done.
Qed.

Definition stagger_offset (jitter : duration) (id : string) (p : cachedProbe) : Z :=
  fnv64a id mod Z.min jitter (interval_of p).

Lemma stagger_one_spec now jitter id p :
  0 < jitter -> 0 < interval_of p -> lastRunAt p = zero_time ->
  ScheduleType (snapshot p) <> "manual"%string ->
  stagger_one now jitter id p =
    set_lastRunAt (now + (stagger_offset jitter id p - interval_of p)) p
  /\ 0 <= stagger_offset jitter id p < Z.min jitter (interval_of p).
Proof.
  intros Hj Hi Hz Hm. unfold stagger_one, stagger_offset, is_zero_time, time_add.
  rewrite Hz, Z.eqb_refl, bool_decide_eq_false_2 by done. cbn [negb orb]. cbv zeta.
  pose proof (wrap64_range (IntervalSeconds (snapshot p) * second)) as Hr.
  fold (int_mul (IntervalSeconds (snapshot p)) second) in Hr. fold (interval_of p) in Hr.
  assert (@eq duration (Z.min jitter (interval_of p))
    (if interval_of p <? jitter then interval_of p else jitter)) as <-.
  { destruct (Z.ltb_spec (interval_of p) jitter); lia. }
  pose proof (Z.mod_pos_bound (fnv64a id) (Z.min jitter (interval_of p))) as Hmod.
  rewrite (proj2 (Z.leb_gt (interval_of p) 0)), (proj2 (Z.leb_gt (Z.min _ _) 0)) by lia.
  split; [|lia]. f_equal. rewrite int_add_small; [lia|].
  unfold in_int64, min_int64, max_int64 in *. lia.
Qed.

(** Startup staggering spreads first runs over the jitter window and
    loses none: a scheduled, never-run probe becomes due exactly [offset]
    after [now], with [0 <= offset < min jitter interval], for as long as
    its schedule window is open. *)
Theorem stagger_window now jitter c k p t :
  0 < jitter -> 0 < interval_of p -> zero_time + max_int64 < now ->
  probes c !! k = Some p -> lastRunAt p = zero_time -> runnable p t = true ->
  let offset := stagger_offset jitter k p in
  0 <= offset < Z.min jitter (interval_of p)
  /\ exists p', probes (staggerUnstarted now jitter c) !! k = Some p'
       /\ (probeDueLocked p' t = true <-> now + offset <= t).
Proof.
  intros Hj Hi Hnow Hp Hz Hr. cbn zeta.
  assert (ScheduleType (snapshot p) <> "manual"%string) as Hm.
  { unfold runnable in Hr. apply andb_true_iff in Hr as [_ Hr].
    apply negb_true_iff in Hr. by apply bool_decide_eq_false in Hr. }
  destruct (stagger_one_spec now jitter k p Hj Hi Hz Hm) as [Es Hb]. split; [done|].
  exists (stagger_one now jitter k p). split.
  - unfold staggerUnstarted. destruct (Z.leb_spec jitter 0); [lia|].
    simpl. by rewrite map_lookup_imap, Hp.
  - rewrite Es, probeDue_runnable. 
    assert (runnable (set_lastRunAt (now + (stagger_offset jitter k p - interval_of p)) p) t
      = runnable p t) as -> by done. rewrite Hr. cbn [andb].
    pose proof (wrap64_range (IntervalSeconds (snapshot p) * second)) as Hw.
    fold (int_mul (IntervalSeconds (snapshot p)) second) in Hw. fold (interval_of p) in Hw.
    assert (interval_of (set_lastRunAt (now + (stagger_offset jitter k p - interval_of p)) p)
      = interval_of p) as -> by done.
    unfold is_zero_time, before, time_add, in_int64 in *. simpl.
    rewrite (proj2 (Z.eqb_neq _ zero_time)) by lia. cbn [orb].
    rewrite negb_true_iff, Z.ltb_ge. lia.
Qed.

(** ** Witnesses: two probes, one tick *)

Definition demo_now : time := unix_milli 1000.
Definition demo_iter : list (string * cachedProbe) := map_to_list (probes demo_cache).

Lemma demo_budget : sane_budget 4.
Proof. unfold sane_budget. lia. Qed.

Lemma take_budget_witness :
  sane_budget 4 /\
  let '(sel, deferred, _) := takeDueProbes demo_iter demo_now 4 0 demo_cache in
  job_total sel <= 4
  /\ Forall (fun s => 1 <= ProbeCount s <= 4 /\ (0 < 0 -> ProbeCount s <= 0)) sel
  /\ deferred = wrap64 (jobs_of (due_entries demo_iter demo_now 4 0) - job_total sel).
Proof. split; [exact demo_budget | exact (take_budget demo_iter demo_now 4 0 demo_cache demo_budget)]. Defined.

Lemma demo_iterates : iterates demo_iter demo_cache.
Proof. by unfold iterates, demo_iter. Qed.

Lemma demo_iterates_rev : iterates (reverse demo_iter) demo_cache.
Proof. unfold iterates, demo_iter. by rewrite reverse_Permutation. Qed.

Lemma take_deterministic_witness :
  takeDueProbes demo_iter demo_now 4 0 demo_cache
  = takeDueProbes (reverse demo_iter) demo_now 4 0 demo_cache.
Proof.
  exact (take_deterministic _ _ demo_now 4 0 demo_cache demo_cache_wf demo_iterates
    demo_iterates_rev).
Defined.

Definition demo_probe : cachedProbe := mkCached (demo_snapshot "a" 3 60) zero_time "".

Lemma take_marks_witness :
  let '(sel, _, c') := takeDueProbes demo_iter demo_now 4 0 demo_cache in
  (probeDueLocked demo_probe demo_now = true
   /\ set_ProbeCount (due_count 4 0 demo_probe) (snapshot demo_probe) ∈ sel
   /\ probes c' !! "a"%string = Some (set_lastRunAt demo_now demo_probe))
  \/ (probes c' !! "a"%string = Some demo_probe
      /\ (probeDueLocked demo_probe demo_now = true ->
          4 < job_total sel + due_count 4 0 demo_probe)).
Proof.
  apply (take_marks demo_iter demo_now 4 0 demo_cache "a" demo_probe demo_budget demo_iterates).
  reflexivity.
Defined.

Lemma take_no_refire_witness :
  exists p', probes (snd (takeDueProbes demo_iter demo_now 4 0 demo_cache)) !! "a"%string = Some p'
    /\ (demo_now + second < demo_now + interval_of p' ->
        probeDueLocked p' (demo_now + second) = false).
Proof.
  apply (take_no_refire demo_iter demo_now 4 0 demo_cache (demo_snapshot "a" 3 60)
    (demo_now + second) demo_budget demo_cache_wf demo_iterates).
  - reflexivity.
  - vm_compute. left.
Defined.

Lemma no_starvation_witness :
  served 4 0 "a" [demo_now; demo_now + second] demo_cache = true.
Proof.
  apply (no_starvation 4 0 [demo_now; demo_now + second] demo_cache "a" demo_probe
    demo_budget demo_cache_wf).
  - reflexivity.
  - repeat constructor.
  - vm_compute. lia.
Defined.

Lemma stagger_window_witness :
  let offset := stagger_offset (10 * second) "a" demo_probe in
  0 <= offset < Z.min (10 * second) (interval_of demo_probe)
  /\ exists p', probes (staggerUnstarted demo_now (10 * second) demo_cache) !! "a"%string = Some p'
       /\ (probeDueLocked p' (demo_now + hour) = true <-> demo_now + offset <= demo_now + hour).
Proof.
  apply (stagger_window demo_now (10 * second) demo_cache "a" demo_probe (demo_now + hour));
    reflexivity.
Defined.
