(* ===== verification/Triggers.v ===== *)
(** * Assignment sync and trigger deduplication

    Theorems about [replaceAssignment], [applyTriggeredEvent],
    [queueTriggers], [requeueTriggers] and [drainPendingTriggersLimited]
    of [internal/agent/cache.go]: what a full resync keeps, why a
    redelivered trigger does not run twice, that draining and requeueing
    lose nothing, and what a full queue does. *)

From Stdlib Require Import ZArith Lia List Bool Ascii String.
From stdpp Require Import base tactics gmap strings list fin_maps.
From S2P Require Import Prelude Wire Cache.

(** ** Assignment sync *)

(** The last snapshot of a list with a given id: what [next[id] = entry]
    leaves when a response repeats an id. *)
Fixpoint last_with_id (k : string) (snaps : list ProbeSnapshot) : option ProbeSnapshot :=
  match snaps with
  | [] => None
  | s :: rest =>
      match last_with_id k rest with
      | Some s' => Some s'
      | None => if decide (ID s = k) then Some s else None
      end
  end.

Lemma last_with_id_ID k snaps s : last_with_id k snaps = Some s -> ID s = k.
Proof.
  induction snaps as [|x snaps IH]; simpl; [done|].
  destruct (last_with_id k snaps); [auto|]. case_decide; by intros [= <-].
Qed.

Lemma last_with_id_elem k snaps s : last_with_id k snaps = Some s -> s ∈ snaps.
Proof.
  induction snaps as [|x snaps IH]; simpl; [done|].
  destruct (last_with_id k snaps).
  - intros [= <-]. right. auto.
  - case_decide; [intros [= <-]; left | done].
Qed.

Lemma last_with_id_None k snaps : last_with_id k snaps = None <-> k ∉ ID <$> snaps.
Proof.
  induction snaps as [|x snaps IH]; simpl.
  - split; [intros _; apply not_elem_of_nil | done].
  - rewrite not_elem_of_cons. destruct (last_with_id k snaps) as [s|] eqn:E.
    + split; [done|]. intros [_ Hn]. apply IH in Hn. done.
    + case_decide; [split; [done|]; intros [? _]; congruence|].
      split; [|done]. intros _. split; [congruence|by apply IH].
Qed.

Lemma replace_fold_lookup old snaps (m : gmap string cachedProbe) k :
  fold_left (fun next s => <[ID s := replaced_entry old s]> next) snaps m !! k =
    match last_with_id k snaps with
    | Some s => Some (replaced_entry old s)
    | None => m !! k
    end.
Proof.
  revert m. induction snaps as [|s snaps IH]; simpl; intros m; [done|].
  rewrite IH. destruct (last_with_id k snaps); [done|].
  case_decide; subst; [by rewrite lookup_insert_eq | by rewrite lookup_insert_ne].
Qed.

(** A full assignment replaces the cached set exactly: a probe is
    cached afterwards iff the response lists it, with the response's (last)
    definition, while the run timer and the last trigger of a probe that
    was already cached survive and a new probe starts never-run; the queue
    of pending triggers is untouched, and the hash is the one given. *)
Theorem replaceAssignment_spec hash snaps c k :
  probes (replaceAssignment hash snaps c) !! k =
    (match last_with_id k snaps with
     | None => None
     | Some s =>
         Some (match probes c !! k with
               | Some e => mkCached s (lastRunAt e) (lastTriggerRunID e)
               | None => mkCached s zero_time ""
               end)
     end)
  /\ contentHash (replaceAssignment hash snaps c) = hash
  /\ pendingTriggers (replaceAssignment hash snaps c) = pendingTriggers c
  /\ probes (replaceAssignmentKeepingHash snaps c) = probes (replaceAssignment hash snaps c)
  /\ contentHash (replaceAssignmentKeepingHash snaps c) = contentHash c.
Proof.
  split_and!; try done. simpl. rewrite replace_fold_lookup.
  destruct (last_with_id k snaps) as [s|] eqn:E; [|by rewrite lookup_empty].
  unfold replaced_entry. by rewrite (last_with_id_ID _ _ _ E).
Qed.

(** ** Redelivered triggers *)

(** The agent refuses trigger ([pid], [rid]) in [c]: it waits in the queue,
    or the cached probe last ran exactly it. *)
Definition knows_trigger (pid rid : string) (c : probeCache) : Prop :=
  (pid, rid) ∈ trigger_key <$> pendingTriggers c
  \/ exists p, probes c !! pid = Some p /\ lastTriggerRunID p = rid.

Definition triggered_event (s : ProbeSnapshot) (rid : string) : Event :=
  mkEvent 0 "triggered" s rid.

Lemma knows_trigger_refused ev c :
  knows_trigger (ID (ev_Probe ev)) (ev_RunID ev) c ->
  applyTriggeredEvent ev c = (false, c).
Proof.
  intros H. unfold applyTriggeredEvent, applyTriggeredEventLocked.
  destruct (_ || _ || _); [done|]. destruct H as [H|(p & Hp & Hr)].
  - apply hasPending_spec in H. by rewrite H.
  - destruct (hasPendingTriggerLocked _ _ c); [done|].
    unfold noteTrigger. by rewrite Hp, bool_decide_eq_true_2.
Qed.

(** A well-formed "triggered" event passes the first guard. *)
Lemma apply_triggered_eq ev c :
  EventType ev = "triggered"%string -> ev_RunID ev <> ""%string -> ID (ev_Probe ev) <> ""%string ->
  applyTriggeredEvent ev c =
    if hasPendingTriggerLocked (ID (ev_Probe ev)) (ev_RunID ev) c then (false, c)
    else match noteTrigger (ID (ev_Probe ev)) (ev_RunID ev) c with
         | None => (false, c)
         | Some c1 =>
             if queueFull c1 then (false, c1)
             else (true, push_trigger
                     (mkTrigger (ID (ev_Probe ev)) (ev_RunID ev) (ev_Probe ev)) c1)
         end.
Proof.
  intros Ht Hr Hi. unfold applyTriggeredEvent, applyTriggeredEventLocked.
  rewrite Ht, (bool_decide_eq_false_2 _ Hr), (bool_decide_eq_false_2 _ Hi). done.
Qed.

Lemma noteTrigger_marks pid rid c c1 p :
  noteTrigger pid rid c = Some c1 -> probes c !! pid = Some p ->
  probes c1 !! pid = Some (set_lastTrigger rid p).
Proof.
  unfold noteTrigger. intros H Hp. rewrite Hp in H. case_bool_decide; [done|].
  injection H as <-. simpl. by rewrite lookup_insert_eq.
Qed.

Lemma applied_known ev c c' b :
  EventType ev = "triggered"%string -> ev_RunID ev <> ""%string -> ID (ev_Probe ev) <> ""%string ->
  applyTriggeredEvent ev c = (b, c') ->
  (b = true -> (ID (ev_Probe ev), ev_RunID ev) ∈ trigger_key <$> pendingTriggers c')
  /\ (is_Some (probes c !! ID (ev_Probe ev)) ->
      (exists p, probes c' !! ID (ev_Probe ev) = Some p /\ lastTriggerRunID p = ev_RunID ev)
      \/ hasPendingTriggerLocked (ID (ev_Probe ev)) (ev_RunID ev) c = true).
Proof.
  intros Ht Hr Hi. rewrite apply_triggered_eq by done.
  destruct (hasPendingTriggerLocked _ _ c) eqn:Hp; [intros [= <- <-]; split; [done|by right]|].
  destruct (noteTrigger _ _ c) as [c1|] eqn:Hn.
  - destruct (queueFull c1); intros [= <- <-]; (split;
      [try done; intros _; simpl; rewrite fmap_app; apply elem_of_app; right; left
      | intros [p Ep]; left; eexists; split; [exact (noteTrigger_marks _ _ _ _ _ Hn Ep)|done]]).
  - intros [= <- <-]. split; [done|]. intros [p Ep]. left. exists p. split; [done|].
    unfold noteTrigger in Hn. rewrite Ep in Hn. by case_bool_decide.
Qed.

(** Redelivery is idempotent.  Once a trigger of a cached probe has been
    queued, delivering it again changes nothing and is refused: both while
    it still waits in the queue and after any number of triggers have been
    drained for execution. *)
Theorem redelivery_idempotent ev c c' limit :
  is_Some (probes c !! ID (ev_Probe ev)) ->
  applyTriggeredEvent ev c = (true, c') ->
  let drained := snd (drainPendingTriggersLimited limit c') in
  applyTriggeredEvent ev c' = (false, c') /\ applyTriggeredEvent ev drained = (false, drained).
Proof.
  intros Hs H. cbn zeta.
  assert (EventType ev = "triggered"%string /\ ev_RunID ev <> ""%string
    /\ ID (ev_Probe ev) <> ""%string) as (Ht & Hr & Hi).
  { unfold applyTriggeredEvent, applyTriggeredEventLocked in H.
    destruct (_ || _ || _) eqn:E; [done|].
    apply orb_false_iff in E as [[E1 E2]%orb_false_iff E3].
    apply negb_false_iff, bool_decide_eq_true in E1.
    by apply bool_decide_eq_false in E2, E3. }
  destruct (applied_known ev c c' true Ht Hr Hi H) as [Hq Hp].
  split; apply knows_trigger_refused; [left; by apply Hq|].
  right. destruct (Hp Hs) as [(p & E & R)|Hpend].
  - exists p. split; [|done]. unfold drainPendingTriggersLimited. by split_ifs.
  - unfold applyTriggeredEvent, applyTriggeredEventLocked in H. rewrite Hpend in H.
    by destruct (_ || _ || _).
Qed.

(** ** Draining and requeueing *)

(** Draining splits the queue: the drained triggers followed by what
    stays are the old queue, in order; a positive limit is respected and
    used up while triggers wait; the cached probes are untouched. *)
Theorem drain_spec limit c :
  let '(out, c') := drainPendingTriggersLimited limit c in
  out ++ pendingTriggers c' = pendingTriggers c
  /\ (0 < limit -> Z.of_nat (length out) = Z.min limit (Z.of_nat (length (pendingTriggers c))))
  /\ (limit <= 0 -> pendingTriggers c' = [])
  /\ probes c' = probes c.
Proof.
  unfold drainPendingTriggersLimited.
  destruct (length (pendingTriggers c) =? 0)%nat eqn:E0.
  - apply Nat.eqb_eq, length_zero_iff_nil in E0. rewrite E0. simpl. split_and!; (done || lia).
  - apply Nat.eqb_neq in E0. destruct (_ || _) eqn:E; simpl.
    + rewrite app_nil_r. zify_bool; split_and!; (done || lia).
    + zify_bool. rewrite take_drop. split_and!; [done| |lia|done].
      intros _. rewrite length_take. lia.
Qed.

Lemma requeue_all ts c :
  Forall (fun t => trigger_ids_empty t = false) ts ->
  NoDup (trigger_key <$> pendingTriggers c ++ ts) ->
  (length (pendingTriggers c ++ ts) <= maxPendingTriggers)%nat ->
  requeueTriggers ts c = set_pending (pendingTriggers c ++ ts) c.
Proof.
  intros Hids. revert c. induction Hids as [|t ts Ht Hts IH]; simpl; intros c Hn Hl.
  - rewrite app_nil_r. by destruct c.
  - rewrite Ht. rewrite length_app in Hl. simpl in Hl.
    assert (hasPendingTriggerLocked (pt_ProbeID t) (pt_RunID t) c = false) as ->.
    { apply not_true_iff_false. rewrite hasPending_spec. intros Hin.
      rewrite fmap_app, fmap_cons in Hn. apply NoDup_app in Hn as (_ & Hd & _).
      apply (Hd _ Hin). left. }
    assert (queueFull c = false) as -> by (unfold queueFull; apply Nat.leb_gt; lia).
    rewrite IH; unfold push_trigger, set_pending; simpl.
    + by rewrite <- app_assoc.
    + by rewrite <- app_assoc.
    + rewrite !length_app. simpl. lia.
Qed.

(** Nothing is lost between drain and requeue: putting the drained
    triggers of a well-formed cache back yields a queue with exactly the
    old triggers (the drained ones now last). *)
Theorem drain_requeue_lossless limit c :
  cache_wf c ->
  let '(out, c') := drainPendingTriggersLimited limit c in
  requeueTriggers out c' = set_pending (pendingTriggers c' ++ out) c
  /\ pendingTriggers (requeueTriggers out c') ≡ₚ pendingTriggers c.
Proof.
  intros Hwf. pose proof (drain_spec limit c) as H.
  assert (set_pending (pendingTriggers (snd (drainPendingTriggersLimited limit c)) ++
    fst (drainPendingTriggersLimited limit c)) (snd (drainPendingTriggersLimited limit c)) =
    set_pending (pendingTriggers (snd (drainPendingTriggersLimited limit c)) ++
    fst (drainPendingTriggersLimited limit c)) c) as Hset.
  { unfold drainPendingTriggersLimited. by split_ifs. }
  destruct (drainPendingTriggersLimited limit c) as [out c']. destruct H as (Hq & _ & _ & _).
  simpl in Hset. assert (pendingTriggers c' ++ out ≡ₚ pendingTriggers c) as Hp.
  { rewrite <- Hq. apply Permutation_app_comm. }
  destruct Hwf as [_ Hn Hb Hi].
  rewrite requeue_all.
  - by rewrite Hset.
  - rewrite <- Hq in Hi. by apply Forall_app in Hi as [? _].
  - by rewrite Hp.
  - by rewrite Hp.
Qed.

(** ** A full queue *)

(** A full queue burns a trigger's dedup mark.  A fresh trigger of a
    cached probe that arrives while the queue is full is dropped, and so is
    every later redelivery of the same event, even once the queue has been
    drained: the in-memory mark was set before the capacity test. *)
Theorem queue_full_drops_trigger ev c p :
  EventType ev = "triggered"%string -> ev_RunID ev <> ""%string -> ID (ev_Probe ev) <> ""%string ->
  probes c !! ID (ev_Probe ev) = Some p -> queueFull c = true ->
  hasPendingTriggerLocked (ID (ev_Probe ev)) (ev_RunID ev) c = false ->
  let '(queued, c1) := applyTriggeredEvent ev c in
  let c2 := snd (drainPendingTriggers c1) in
  queued = false /\ applyTriggeredEvent ev c2 = (false, c2)
  /\ (ID (ev_Probe ev), ev_RunID ev) ∉ trigger_key <$> pendingTriggers c1.
Proof.
  intros Ht Hr Hi Hp Hf Hpend.
  destruct (applyTriggeredEvent ev c) as [queued c1] eqn:E. cbn zeta.
  destruct (applied_known ev c c1 queued Ht Hr Hi E) as [_ Hk].
  assert (queued = false /\ pendingTriggers c1 = pendingTriggers c) as [-> Hq].
  { rewrite apply_triggered_eq, Hpend in E by done. destruct (noteTrigger _ _ c) as [c'|] eqn:En.
    - pose proof (noteTrigger_Some _ _ _ _ En) as (Eq & _ & _).
      assert (queueFull c' = true) as Ef by (unfold queueFull in *; by rewrite Eq).
      rewrite Ef in E. by injection E as <- <-.
    - by injection E as <- <-. }
  split_and!; [done| |].
  - apply knows_trigger_refused. right.
    destruct Hk as [(q & Eq & Rq)|Hh]; [by eexists| |congruence].
    exists q. split; [|done]. unfold drainPendingTriggers, drainPendingTriggersLimited.
    by split_ifs.
  - rewrite Hq. intros Hin. apply hasPending_spec in Hin. congruence.
Qed.

(** ** Witnesses *)

Definition demo_event : Event := triggered_event (demo_snapshot "a" 3 60) "run-1".

Lemma redelivery_idempotent_witness :
  let c' := snd (applyTriggeredEvent demo_event demo_cache) in
  let drained := snd (drainPendingTriggersLimited 1 c') in
  applyTriggeredEvent demo_event c' = (false, c')
  /\ applyTriggeredEvent demo_event drained = (false, drained).
Proof.
  apply (redelivery_idempotent demo_event demo_cache); [by eexists | reflexivity].
Defined.

Definition demo_queued : probeCache := snd (applyTriggeredEvent demo_event demo_cache).

Lemma demo_queued_wf : cache_wf demo_queued.
Proof. apply (cache_step_wf demo_cache); [apply step_event | apply demo_cache_wf]. Qed.

Lemma drain_requeue_lossless_witness :
  let '(out, c') := drainPendingTriggersLimited 1 demo_queued in
  requeueTriggers out c' = set_pending (pendingTriggers c' ++ out) demo_queued
  /\ pendingTriggers (requeueTriggers out c') ≡ₚ pendingTriggers demo_queued.
Proof. exact (drain_requeue_lossless 1 demo_queued demo_queued_wf). Defined.

(** A full queue of triggers for another probe. *)
Definition demo_full : probeCache :=
  set_pending (repeat (mkTrigger "z" "r" (demo_snapshot "z" 1 1)) maxPendingTriggers) demo_cache.

Lemma queue_full_drops_trigger_witness :
  let '(queued, c1) := applyTriggeredEvent demo_event demo_full in
  let c2 := snd (drainPendingTriggers c1) in
  queued = false /\ applyTriggeredEvent demo_event c2 = (false, c2)
  /\ ("a", "run-1")%string ∉ trigger_key <$> pendingTriggers c1.
Proof.
  apply (queue_full_drops_trigger demo_event demo_full
    (mkCached (demo_snapshot "a" 3 60) zero_time "")); done.
Defined.
