(* ===== verification/Redelivery.v ===== *)
(** * Triggers that are delivered again

    [internal/agent/cache.go] and the end of a tick on a node without a local
    store: the server repeats its triggers on every heartbeat until it has their
    results, and the cache remembers one run per probe. *)

From Stdlib Require Import ZArith Lia List Bool Ascii String.
From stdpp Require Import base tactics gmap strings list.
From S2P Require Import Prelude Wire Cache DueProbes Triggers.

Open Scope string_scope.
Open Scope list_scope.
Open Scope Z_scope.

(** [finishTriggers] without a store, once the results are durable. *)
Definition finish_storeless (ts : list pendingTrigger) (c : probeCache) : probeCache :=
  fold_left (fun c t => markTriggerComplete (pt_ProbeID t) (pt_RunID t) c) ts c.

(** A heartbeat's events, then a tick that drains the queue, runs what it got and
    finishes it: what was run, and the cache. *)
Definition heartbeat_and_tick (evs : list Event) (c : probeCache) : list pendingTrigger * probeCache :=
  let '(ts, c) := drainPendingTriggers (cache_applyTriggeredEvents evs c) in (ts, finish_storeless ts c).

Fixpoint rounds (n : nat) (evs : list Event) (c : probeCache) : list (list pendingTrigger) :=
  match n with
  | O => []
  | S n => let '(ts, c) := heartbeat_and_tick evs c in ts :: rounds n evs c
  end.

Definition trigger_of (s : ProbeSnapshot) (rid : string) : pendingTrigger := mkTrigger (ID s) rid s.

(** One event of a cached probe that last ran something else, with room. *)
Lemma apply_fresh s rid c p :
  rid <> "" -> ID s <> "" -> probes c !! ID s = Some p -> lastTriggerRunID p <> rid ->
  trigger_key (trigger_of s rid) ∉ trigger_key <$> pendingTriggers c -> (length (pendingTriggers c) < maxPendingTriggers)%nat ->
  snd (applyTriggeredEventLocked (triggered_event s rid) c)
  = push_trigger (trigger_of s rid) (set_probes (<[ID s := set_lastTrigger rid p]>) c).
Proof.
  intros Hr Hi Hp Hl Hk Hroom. fold (applyTriggeredEvent (triggered_event s rid) c). rewrite apply_triggered_eq by done. cbn [triggered_event ev_Probe ev_RunID].
  destruct (hasPendingTriggerLocked (ID s) rid c) eqn:Eh; [by apply hasPending_spec in Eh|].
  unfold noteTrigger. rewrite Hp, bool_decide_eq_false_2 by done. unfold queueFull. cbn [set_probes pendingTriggers].
  by rewrite (proj2 (Nat.leb_gt _ _)) by lia.
Qed.

(** One event of a cached probe that last ran it, or of a probe that does. *)
Lemma round_single s rid c p :
  rid <> "" -> ID s <> "" -> probes c !! ID s = Some p -> pendingTriggers c = [] ->
  lastTriggerRunID p = rid -> forall n, rounds n [triggered_event s rid] c = replicate n [].
Proof.
  intros Hr Hi Hp Hq Hl n. induction n as [|n IH]; [done|]. cbn [rounds]. unfold heartbeat_and_tick, cache_applyTriggeredEvents. cbn [fold_left].
  fold (applyTriggeredEvent (triggered_event s rid) c). rewrite knows_trigger_refused by (right; by exists p). cbn [snd].
  unfold drainPendingTriggers, drainPendingTriggersLimited. rewrite Hq. cbn. by rewrite IH.
Qed.

(** The cache after a round of the two runs of one probe. *)
Lemma round_pair s r1 r2 c p :
  r1 <> "" -> r2 <> "" -> ID s <> "" -> r1 <> r2 -> probes c !! ID s = Some p -> pendingTriggers c = [] -> lastTriggerRunID p <> r1 ->
  exists c' p', heartbeat_and_tick [triggered_event s r1; triggered_event s r2] c = ([trigger_of s r1; trigger_of s r2], c')
    /\ probes c' !! ID s = Some p' /\ pendingTriggers c' = [] /\ lastTriggerRunID p' = r2.
Proof.
  intros H1 H2 Hi Hne Hp Hq Hl. unfold heartbeat_and_tick, cache_applyTriggeredEvents. cbn [fold_left].
  assert (trigger_key (trigger_of s r1) ∉ trigger_key <$> pendingTriggers c) as Hk by (rewrite Hq; apply not_elem_of_nil).
  assert (length (pendingTriggers c) < maxPendingTriggers)%nat as Hroom by (rewrite Hq; unfold maxPendingTriggers; cbn; lia).
  rewrite (apply_fresh s r1 c p) by done.
  erewrite (apply_fresh s r2) with (p := set_lastTrigger r1 p);
    [|done|done|cbn; by rewrite lookup_insert_eq|done| |].
  - unfold drainPendingTriggers, drainPendingTriggersLimited. cbn [push_trigger set_pending set_probes pendingTriggers]. rewrite Hq. cbn.
    do 2 eexists. split; [reflexivity|]. cbn. rewrite !lookup_alter_eq, lookup_insert_eq. cbn. by split_and!.
  - cbn. rewrite Hq. cbn. intros [[= E]|[]%elem_of_nil]%elem_of_cons. by apply Hne.
  - cbn. rewrite Hq. unfold maxPendingTriggers. cbn. lia.
Qed.

(** C28: On a node without a local store, two triggers of one probe that the server
    repeats run again after every heartbeat, however often they have run: the
    cache remembers only the later run, so the earlier one is taken for new,
    and running it makes the later one look new in turn.  A single trigger
    that was run is never run again. *)
Theorem repeated_pair_runs_every_time s r1 r2 c p n :
  r1 <> "" -> r2 <> "" -> ID s <> "" -> r1 <> r2 ->
  probes c !! ID s = Some p -> pendingTriggers c = [] -> lastTriggerRunID p <> r1 ->
  rounds n [triggered_event s r1; triggered_event s r2] c = replicate n [trigger_of s r1; trigger_of s r2]
  /\ (lastTriggerRunID p = r2 -> rounds n [triggered_event s r2] c = replicate n []).
Proof.
  intros H1 H2 Hi Hne Hp Hq Hl. split; [|intros Hl2; by eapply round_single].
  revert c p Hp Hq Hl. induction n as [|n IH]; intros c p Hp Hq Hl; [done|]. cbn [rounds replicate].
  destruct (round_pair s r1 r2 c p) as (c' & p' & -> & Hp' & Hq' & Hl'); [done..|]. f_equal. apply (IH c' p'); congruence.
Qed.

(** A trigger of a probe that is not assigned any more, repeated. *)
Lemma repeated_unassigned_runs_every_time s rid c n :
  rid <> "" -> ID s <> "" -> probes c !! ID s = None -> pendingTriggers c = [] ->
  rounds n [triggered_event s rid] c = replicate n [trigger_of s rid].
Proof.
  intros Hr Hi Hp Hq. revert c Hp Hq. induction n as [|n IH]; intros c Hp Hq; [done|]. cbn [rounds replicate].
  assert (exists c', heartbeat_and_tick [triggered_event s rid] c = ([trigger_of s rid], c') /\ probes c' !! ID s = None /\ pendingTriggers c' = []) as (c' & -> & Hp' & Hq').
  { unfold heartbeat_and_tick, cache_applyTriggeredEvents. cbn [fold_left]. fold (applyTriggeredEvent (triggered_event s rid) c).
    rewrite apply_triggered_eq by done. cbn [triggered_event ev_Probe ev_RunID]. unfold hasPendingTriggerLocked, noteTrigger, queueFull. rewrite Hq, Hp. cbn.
    rewrite Hq. cbn. unfold drainPendingTriggers, drainPendingTriggersLimited. cbn [push_trigger set_pending pendingTriggers]. rewrite Hq. cbn. eexists. split; [reflexivity|]. cbn.
    by rewrite lookup_alter_eq, Hp. }
  f_equal. by apply IH.
Qed.

(** ** Witnesses *)

Lemma repeated_pair_runs_every_time_witness :
  let s := demo_snapshot "a" 3 60 in
  rounds 5 [triggered_event s "run-1"; triggered_event s "run-2"] demo_cache = replicate 5 [trigger_of s "run-1"; trigger_of s "run-2"].
Proof.
  cbn zeta. destruct (probes demo_cache !! "a") as [p|] eqn:E; [|by vm_compute in E].
  refine (proj1 (repeated_pair_runs_every_time (demo_snapshot "a" 3 60) "run-1" "run-2" demo_cache p 5 _ _ _ _ E _ _)); try done.
  vm_compute in E. by injection E as <-.
Defined.
