(* ===== verification/Sql.v ===== *)
(** * The node database and its transactions

    The tables of [internal/store/schema.go] as a record, SQL statements as
    atomic functions of it, and transactions that roll back.  Every
    statement may fail (disk full, busy, deadline): a schedule of faults
    decides which ones do, so the theorems cover every error path. *)

From Stdlib Require Import ZArith Lia List Bool Ascii String.
From stdpp Require Import base tactics gmap strings list fin_maps.
From S2P Require Import Prelude Wire.

(** ** Tables *)

(** A JSON column: a document, or bytes that do not decode. *)
Inductive blob (A : Type) : Type :=
| Json (a : A)
| Corrupt.
Arguments Json {A} a.
Arguments Corrupt {A}.

Record assignmentPayload : Type := mkAssignment {
  pl_Hash : string;
  pl_Probes : list ProbeSnapshot
}.

Record triggerDonePayload : Type := mkDone {
  td_ProbeID : string;
  td_RunID : string
}.

(** The typed columns of a [kind = 'result'] row.  The table's CHECK makes
    run_id, probe_id, check_seq and ok non-NULL for these rows. *)
Record resultCols : Type := mkCols {
  run_id : string;
  probe_id : string;
  prober : string;
  target : string;
  check_seq : Z;
  ok : Z;
  latency_us : option Z;
  error_code : option string;
  error : option string;
  extra : option (blob params);
  delivery_state : Z;
  delivery_reason : option string;
  delivered_at_ms : option Z;
  attempts : Z
}.

(** One row's kind and what that kind fills in. *)
Inductive body : Type :=
| BResult (r : resultCols)
| BAssignment (doc : blob assignmentPayload)
| BTrigger (runID probeID : string) (doc : blob Event)
| BTriggerDone (runID probeID : string) (doc : blob triggerDonePayload).

Record jrow : Type := mkRow {
  seq : Z;
  origin : string;
  origin_seq : Z;
  at_ms : Z;
  jbody : body
}.

(** A row of [probes]; [params_json] is NULL for no parameters. *)
Record prow : Type := mkProw {
  pr_snapshot : ProbeSnapshot;
  pr_params : option (blob params);
  last_run_at_ms : option Z;
  last_trigger_run_id : option string
}.

Record ptrow : Type := mkPtrow {
  event_seq : Z;
  created_at_ms : Z;
  snapshot_json : blob ProbeSnapshot
}.

Record rollupRow_ : Type := mkRollup {
  ru_checks : Z;
  ru_ok : Z;
  ru_errors : Z;
  ru_latency_sum : Z;
  ru_latency_count : Z;
  ru_latency_min : option Z;
  ru_latency_max : option Z
}.

Abbreviation pair_key := (string * string)%type.
Abbreviation rollupKey := (string * string * Z)%type.

(** [journal] is in [seq] order; [journal_autoinc] is the AUTOINCREMENT
    counter, never below any sequence number ever used. *)
Record database : Type := mkDb {
  meta : gmap string string;
  sequences : gmap string Z;
  journal : list jrow;
  journal_autoinc : Z;
  probes_t : gmap string prow;
  pending_triggers : gmap pair_key ptrow;
  completed_triggers : gmap pair_key Z;
  rollups : gmap rollupKey rollupRow_;
  rollup_cursor : option Z;
  user_version : Z
}.

Definition empty_db : database := mkDb ∅ ∅ [] 0 ∅ ∅ ∅ ∅ None 0.

(** Field updates. *)
Definition with_meta f d := mkDb (f (meta d)) (sequences d) (journal d) (journal_autoinc d)
  (probes_t d) (pending_triggers d) (completed_triggers d) (rollups d) (rollup_cursor d) (user_version d).
Definition with_sequences f d := mkDb (meta d) (f (sequences d)) (journal d) (journal_autoinc d)
  (probes_t d) (pending_triggers d) (completed_triggers d) (rollups d) (rollup_cursor d) (user_version d).
Definition with_journal f d := mkDb (meta d) (sequences d) (f (journal d)) (journal_autoinc d)
  (probes_t d) (pending_triggers d) (completed_triggers d) (rollups d) (rollup_cursor d) (user_version d).
Definition with_autoinc n d := mkDb (meta d) (sequences d) (journal d) n
  (probes_t d) (pending_triggers d) (completed_triggers d) (rollups d) (rollup_cursor d) (user_version d).
Definition with_probes f d := mkDb (meta d) (sequences d) (journal d) (journal_autoinc d)
  (f (probes_t d)) (pending_triggers d) (completed_triggers d) (rollups d) (rollup_cursor d) (user_version d).
Definition with_pending f d := mkDb (meta d) (sequences d) (journal d) (journal_autoinc d)
  (probes_t d) (f (pending_triggers d)) (completed_triggers d) (rollups d) (rollup_cursor d) (user_version d).
Definition with_completed f d := mkDb (meta d) (sequences d) (journal d) (journal_autoinc d)
  (probes_t d) (pending_triggers d) (f (completed_triggers d)) (rollups d) (rollup_cursor d) (user_version d).
Definition with_rollups f d := mkDb (meta d) (sequences d) (journal d) (journal_autoinc d)
  (probes_t d) (pending_triggers d) (completed_triggers d) (f (rollups d)) (rollup_cursor d) (user_version d).
Definition with_cursor n d := mkDb (meta d) (sequences d) (journal d) (journal_autoinc d)
  (probes_t d) (pending_triggers d) (completed_triggers d) (rollups d) (Some n) (user_version d).
Definition with_version n d := mkDb (meta d) (sequences d) (journal d) (journal_autoinc d)
  (probes_t d) (pending_triggers d) (completed_triggers d) (rollups d) (rollup_cursor d) n.

(** ** The statement monad

    A computation consumes the fault schedule ([true]: the next statement
    fails; an exhausted schedule never faults), and leaves a database even
    when it returns an error. *)

Definition faults := list bool.

Definition sql (A : Type) : Type :=
  faults -> database -> result string A * database * faults.

#[export] Instance sql_ret : MRet sql := fun A a fs d => (Ok a, d, fs).

#[export] Instance sql_bind : MBind sql := fun A B k m fs d =>
  match m fs d with
  | (Ok a, d', fs') => k a fs' d'
  | (Err e, d', fs') => (Err e, d', fs')
  end.

Definition sql_fail {A} (e : string) : sql A := fun fs d => (Err e, d, fs).

(** One statement: fails as scheduled or on a violated constraint (the
    function returns [None]), without effect; otherwise runs. *)
Definition stmt {A} (e : string) (f : database -> option (A * database)) : sql A :=
  fun fs d =>
    match fs with
    | true :: fs' => (Err e, d, fs')
    | _ =>
        match f d with
        | Some (a, d') => (Ok a, d', tail fs)
        | None => (Err e, d, tail fs)
        end
    end.

Definition query {A} (e : string) (f : database -> A) : sql A :=
  stmt e (fun d => Some (f d, d)).

Definition exec (e : string) (f : database -> database) : sql unit :=
  stmt e (fun d => Some (tt, f d)).

(** [BeginTx] ... [Commit], with the deferred [Rollback]: any error inside,
    or in beginning or committing, leaves the database as it was. *)
Definition tx_body {A} (e_begin e_commit : string) (m : sql A) : sql A :=
  _ ← query e_begin (fun _ => tt); a ← m; _ ← query e_commit (fun _ => tt); mret a.

Definition tx {A} (e_begin e_commit : string) (m : sql A) : sql A :=
  fun fs d =>
    match tx_body e_begin e_commit m fs d with
    | (Ok a, d', fs') => (Ok a, d', fs')
    | (Err e, _, fs') => (Err e, d, fs')
    end.

(** [for _, x := range l { ... if err != nil { return err } }] *)
Fixpoint sql_for {A} (f : A -> sql unit) (l : list A) : sql unit :=
  match l with
  | [] => mret tt
  | x :: rest => _ ← f x; sql_for f rest
  end.

(** ** Reasoning rules *)

(** [m] relates the database it starts from to the one it leaves, whatever
    faults happen and whether or not it succeeds. *)
Definition always {A} (R : database -> database -> Prop) (m : sql A) : Prop :=
  forall fs d, R d (snd (fst (m fs d))).

(** The same, for successful runs only. *)
Definition on_ok {A} (R : database -> A -> database -> Prop) (m : sql A) : Prop :=
  forall fs d a d' fs', m fs d = (Ok a, d', fs') -> R d a d'.

Lemma bind_ok {A B} (m : sql A) (k : A -> sql B) fs d b d' fs' :
  (a ← m; k a) fs d = (Ok b, d', fs') ->
  exists a d1 fs1, m fs d = (Ok a, d1, fs1) /\ k a fs1 d1 = (Ok b, d', fs').
Proof.
  unfold mbind, sql_bind. destruct (m fs d) as [[[a|e] d1] fs1]; [eauto | done].
Qed.

Lemma stmt_ok {A} e (f : database -> option (A * database)) fs d a d' fs' :
  stmt e f fs d = (Ok a, d', fs') -> f d = Some (a, d') /\ fs' = tail fs.
Proof.
  unfold stmt. destruct fs as [|[] fs]; simpl; [|done|];
    destruct (f d) as [[x y]|]; intros; simplify_eq; done.
Qed.

Lemma exec_ok e f fs d u d' fs' :
  exec e f fs d = (Ok u, d', fs') -> d' = f d /\ fs' = tail fs.
Proof. unfold exec. intros [[= <- <-] ->]%stmt_ok. done. Qed.

Lemma query_ok {A} e (f : database -> A) fs d a d' fs' :
  query e f fs d = (Ok a, d', fs') -> a = f d /\ d' = d /\ fs' = tail fs.
Proof. unfold query. intros [[= <- <-] ->]%stmt_ok. done. Qed.

Lemma ret_ok {A} (a b : A) fs d d' fs' :
  (mret a : sql A) fs d = (Ok b, d', fs') -> a = b /\ d' = d /\ fs' = fs.
Proof. unfold mret, sql_ret. intros. by simplify_eq. Qed.

Lemma tx_ok {A} e1 e2 (m : sql A) fs d a d' fs' :
  tx e1 e2 m fs d = (Ok a, d', fs') ->
  exists fs1 fs2, m fs1 d = (Ok a, d', fs2).
Proof.
  unfold tx. destruct (tx_body e1 e2 m fs d) as [[[x|e] dx] fx] eqn:E; [|done].
  intros. simplify_eq. unfold tx_body in E.
  apply bind_ok in E as (u & d1 & fs1 & (-> & -> & ->)%query_ok & E).
  apply bind_ok in E as (b & d2 & fs2 & Em & E).
  apply bind_ok in E as (v & d3 & fs3 & (-> & -> & ->)%query_ok & E).
  apply ret_ok in E as (-> & -> & ->). eauto.
Qed.

(** A transaction that returns an error changed nothing. *)
Lemma tx_err {A} e1 e2 (m : sql A) fs d e d' fs' :
  tx e1 e2 m fs d = (Err e, d', fs') -> d' = d.
Proof. unfold tx. destruct (tx_body e1 e2 m fs d) as [[[x|e'] dx] fx]; intros; by simplify_eq. Qed.

Lemma tx_always {A} (R : database -> database -> Prop) e1 e2 (m : sql A) :
  (forall d, R d d) -> on_ok (fun d _ d' => R d d') m -> always R (tx e1 e2 m).
Proof.
  intros Hr Hm fs d. destruct (tx e1 e2 m fs d) as [[[a|e] d'] fs'] eqn:E; simpl.
  - apply tx_ok in E as (fs1 & fs2 & E). by eapply Hm.
  - apply tx_err in E as ->. apply Hr.
Qed.

Lemma sql_for_ok {A} (R : database -> database -> Prop) (f : A -> sql unit) l :
  (forall d, R d d) -> (forall d1 d2 d3, R d1 d2 -> R d2 d3 -> R d1 d3) ->
  (forall x, x ∈ l -> on_ok (fun d _ d' => R d d') (f x)) ->
  on_ok (fun d _ d' => R d d') (sql_for f l).
Proof.
  intros Hr Ht. induction l as [|x l IH]; intros Hf fs d u d' fs' E; simpl in E.
  - apply ret_ok in E as (_ & -> & _). apply Hr.
  - apply bind_ok in E as (v & d1 & fs1 & E1 & E2). eapply Ht.
    + eapply Hf; [left|done].
    + eapply IH; [|done]. intros y Hy. apply Hf. by right.
Qed.

(** Without faults a statement whose constraints hold succeeds. *)
Lemma stmt_run {A} e (f : database -> option (A * database)) d a d' :
  f d = Some (a, d') -> stmt e f [] d = (Ok a, d', []).
Proof. intros H. unfold stmt. by rewrite H. Qed.

Lemma exec_run e f d : exec e f [] d = (Ok tt, f d, []).
Proof. done. Qed.

Lemma query_run {A} e (f : database -> A) d : query e f [] d = (Ok (f d), d, []).
Proof. done. Qed.

Lemma bind_run {A B} (m : sql A) (k : A -> sql B) fs d a d1 fs1 :
  m fs d = (Ok a, d1, fs1) -> (a ← m; k a) fs d = k a fs1 d1.
Proof. intros H. unfold mbind, sql_bind. by rewrite H. Qed.

Lemma tx_run {A} e1 e2 (m : sql A) d a d' :
  m [] d = (Ok a, d', []) -> tx e1 e2 m [] d = (Ok a, d', []).
Proof. intros H. unfold tx, tx_body, mbind, sql_bind. simpl. by rewrite H. Qed.

(** One primitive statement of a successful run. *)
Ltac sql_prim H :=
  match type of H with
  | exec _ _ _ _ = _ => apply exec_ok in H as [? ?]; subst
  | query _ _ _ _ = _ => apply query_ok in H as (? & ? & ?); subst
  | stmt _ _ _ _ = _ => apply stmt_ok in H as [H ?]; subst
  | sql_fail _ _ _ = _ => discriminate H
  | mret _ _ _ = _ => apply ret_ok in H as (? & ? & ?); subst
  end.

(** Steps through a successful run: one statement at a time. *)
Ltac sql_step H :=
  first
    [ let a := fresh "a" in let d1 := fresh "d" in let fs1 := fresh "fs" in
      let E := fresh "E" in
      apply bind_ok in H as (a & d1 & fs1 & E & H); cbv beta in H; try sql_prim E
    | sql_prim H ].

(** ** Crash invariants

    [keeps P m]: [P] survives [m] whatever statements fail, on success and
    on error alike. *)

Definition run {A} (m : sql A) (fs : faults) (d : database) : database := snd (fst (m fs d)).

Definition keeps {A} (P : database -> Prop) (m : sql A) : Prop :=
  forall fs d, P d -> P (run m fs d).

Lemma keeps_ret {A} P (a : A) : keeps P (mret a).
Proof. by intros fs d HP. Qed.

Lemma keeps_fail {A} P e : keeps P (sql_fail e : sql A).
Proof. by intros fs d HP. Qed.

Lemma keeps_bind {A B} P (m : sql A) (k : A -> sql B) :
  keeps P m -> (forall a, keeps P (k a)) -> keeps P (a ← m; k a).
Proof.
  intros Hm Hk fs d HP. specialize (Hm fs d HP). unfold run, mbind, sql_bind in *.
  destruct (m fs d) as [[[a|e] d1] fs1]; simpl in *; [by apply Hk | done].
Qed.

Lemma keeps_stmt {A} P e (f : database -> option (A * database)) :
  (forall d a d', P d -> f d = Some (a, d') -> P d') -> keeps P (stmt e f).
Proof.
  intros Hf fs d HP. unfold run, stmt. destruct fs as [|[] fs]; [|done|];
    destruct (f d) as [[a d']|] eqn:E; simpl; try done; by eapply Hf.
Qed.

Lemma keeps_exec P e f : (forall d, P d -> P (f d)) -> keeps P (exec e f).
Proof. intros Hf. apply keeps_stmt. intros d a d' HP [= <- <-]. auto. Qed.

Lemma keeps_query {A} P e (f : database -> A) : keeps P (query e f).
Proof. apply keeps_stmt. by intros d a d' HP [= <- <-]. Qed.

Lemma keeps_for {A} P (f : A -> sql unit) l :
  (forall x, x ∈ l -> keeps P (f x)) -> keeps P (sql_for f l).
Proof.
  induction l as [|x l IH]; intros Hf; simpl; [apply keeps_ret|].
  apply keeps_bind; [apply Hf; left|]. intros _. apply IH. intros y Hy. apply Hf. by right.
Qed.

Lemma keeps_tx {A} P e1 e2 (m : sql A) : keeps P m -> keeps P (tx e1 e2 m).
Proof.
  intros Hm fs d HP. unfold run. destruct (tx e1 e2 m fs d) as [[[a|e] d'] fs'] eqn:E; simpl.
  - apply tx_ok in E as (fs1 & fs2 & E). specialize (Hm fs1 d HP). unfold run in Hm.
    by rewrite E in Hm.
  - by apply tx_err in E as ->.
Qed.

(** A transaction either changed nothing or ran its body to the end. *)
Lemma tx_run_cases {A} e1 e2 (m : sql A) fs d :
  run (tx e1 e2 m) fs d = d
  \/ exists a fs1 fs2 d', m fs1 d = (Ok a, d', fs2) /\ run (tx e1 e2 m) fs d = d'.
Proof.
  unfold run. destruct (tx e1 e2 m fs d) as [[[a|e] d'] fs'] eqn:E; simpl.
  - apply tx_ok in E as (fs1 & fs2 & E). eauto 8.
  - apply tx_err in E as ->. by left.
Qed.

Create HintDb keeps.
#[export] Hint Resolve keeps_ret keeps_fail keeps_query : keeps.

(** Splits a crash-invariant goal along the structure of the computation. *)
Ltac keeps_step :=
  lazymatch goal with
  | |- keeps _ (mbind _ _) => apply keeps_bind; [|intros ?]
  | |- keeps _ (tx _ _ _) => apply keeps_tx
  | |- keeps _ (sql_for _ _) => apply keeps_for; intros ? ?
  | |- keeps _ (mret _) => apply keeps_ret
  | |- keeps _ (sql_fail _) => apply keeps_fail
  | |- keeps _ (query _ _) => apply keeps_query
  | |- keeps _ (exec _ _) => apply keeps_exec
  | |- keeps _ (match ?x with _ => _ end) => destruct x eqn:?
  | |- keeps _ (if ?b then _ else _) => destruct b eqn:?
  end.
Ltac keeps_steps := repeat keeps_step.
