(* ===== verification/Store.v ===== *)
(** * The node store: operations

    [internal/store]: sequences, results, triggers, probes and opening.
    Each method is a computation of the statement monad; [now] is the
    reading of [time.Now().UnixMilli()]. *)

From Stdlib Require Import ZArith Lia List Bool Ascii String SpecFloat.
From stdpp Require Import base tactics gmap strings list fin_maps sorting.
From S2P Require Import Prelude Wire Sql.

Definition schemaVersion : Z := 2.

(** Whether an INSERT ignored by ON CONFLICT DO NOTHING still consumes an
    AUTOINCREMENT number is up to SQLite; nothing depends on it. *)
Section store.
Context (conflict_burns_rowid : bool).

(** ** Sequences ([sequences.go]) *)

Definition nextOriginSeq (origin : string) (count : Z) : sql Z :=
  if count <? 1 then sql_fail "store: sequence count must be positive"
  else
    next ← query "store: read origin sequence" (fun d => sequences d !! origin);
    match next with
    | None =>
        _ ← exec "store: initialize origin sequence"
              (with_sequences (<[origin := int_add count 1]>));
        mret 1
    | Some next =>
        _ ← exec "store: advance origin sequence"
              (with_sequences (<[origin := int_add next count]>));
        mret next
    end.

(** ** Inserting into the journal *)

Definition origin_seq_taken (o : string) (n : Z) (j : list jrow) : bool :=
  existsb (fun r => bool_decide (origin r = o) && (origin_seq r =? n)) j.

(** The partial unique index [journal_result_dedup]. *)
Definition result_taken (o run probe : string) (n : Z) (j : list jrow) : bool :=
  existsb (fun r =>
    match jbody r with
    | BResult c =>
        bool_decide (origin r = o) && bool_decide (run_id c = run)
        && bool_decide (probe_id c = probe) && (check_seq c =? n)
    | _ => false
    end) j.

(** Plain INSERT: the new rowid, or a violated constraint. *)
Definition insert_row (o : string) (oseq at_ : Z) (b : body) (d : database)
    : option (Z * database) :=
  if origin_seq_taken o oseq (journal d) || (max_int64 <=? journal_autoinc d) then None
  else
    let s := journal_autoinc d + 1 in
    Some (s, with_autoinc s (with_journal (fun j => j ++ [mkRow s o oseq at_ b]) d)).

(** INSERT ... ON CONFLICT DO NOTHING of a result: the rows affected. *)
Definition insert_result (o : string) (oseq at_ : Z) (c : resultCols) (d : database)
    : option (Z * database) :=
  if max_int64 <=? journal_autoinc d then None
  else if origin_seq_taken o oseq (journal d)
          || result_taken o (run_id c) (probe_id c) (check_seq c) (journal d)
  then Some (0, if conflict_burns_rowid then with_autoinc (journal_autoinc d + 1) d else d)
  else
    let s := journal_autoinc d + 1 in
    Some (1, with_autoinc s
            (with_journal (fun j => j ++ [mkRow s o oseq at_ (BResult c)]) d)).

(** ** Results ([results.go]) *)

Record RecordSummary : Type := mkSummary {
  Inserted : Z;
  Duplicates : Z;
  Skipped : Z;
  InvalidLatency : Z;
  InvalidExtra : Z
}.

Definition zeroSummary : RecordSummary := mkSummary 0 0 0 0 0.

Definition observedAtMS (raw : option time) (fallbackMS : Z) : Z :=
  match raw with
  | None => fallbackMS
  | Some parsed => if is_zero_time parsed then fallbackMS else to_unix_milli parsed
  end.

(** [math.Round] of a non-negative float64, and whether the result stays
    below 2^63: the integer the conversion to int64 yields. *)
Definition round_int64 (f : float64) : option Z :=
  match f with
  | S754_zero _ => Some 0
  | S754_finite _ m e =>
      let v := if 0 <=? e then Z.shiftl (Zpos m) e
               else Z.shiftr (Zpos m + Z.shiftl 1 (- e - 1)) (- e) in
      if 2 ^ 63 <=? v then None else Some v
  | _ => None
  end.

Definition latencyMicros (ms : option float64) : option Z * bool :=
  match ms with
  | None => (None, true)
  | Some ms =>
      if negb (finite_float ms) || SFltb ms (S754_zero false) then (None, false)
      else match round_int64 (SFmul 53 1024 ms (float_of_Z 1000)) with
           | None => (None, false)
           | Some us => (Some us, true)
           end
  end.

Definition extraJSON (ex : params) : option (blob params) * bool :=
  match ex with
  | [] => (None, true)
  | _ => if json_encodable (VObject ex) then (Some (Json ex), true) else (None, false)
  end.

Definition nullableString (value : string) : option string :=
  if decide (value = ""%string) then None else Some value.

Definition result_cols (r : Result) : resultCols :=
  {| run_id := RunID r; probe_id := ProbeID r; prober := r_Type (res r);
     target := r_Target (res r);
     check_seq := if r_Seq (res r) <? 1 then 1 else r_Seq (res r);
     ok := if r_Ok (res r) then 1 else 0;
     latency_us := fst (latencyMicros (LatencyMs (res r)));
     error_code := nullableString (ErrorCode (res r));
     error := nullableString (r_Error (res r));
     extra := fst (extraJSON (Extra (res r)));
     delivery_state := 0; delivery_reason := None; delivered_at_ms := None; attempts := 0 |}.

Definition b2z (b : bool) : Z := if b then 1 else 0.

(** The counters one result adds, given the rows its INSERT affected. *)
Definition summary_add (r : Result) (affected : Z) (s : RecordSummary) : RecordSummary :=
  {| Inserted := Inserted s + b2z (negb (affected =? 0));
     Duplicates := Duplicates s + b2z (affected =? 0);
     Skipped := Skipped s;
     InvalidLatency := InvalidLatency s + b2z (negb (snd (latencyMicros (LatencyMs (res r)))));
     InvalidExtra := InvalidExtra s + b2z (negb (snd (extraJSON (Extra (res r))))) |}.

Definition summary_skip (s : RecordSummary) : RecordSummary :=
  mkSummary (Inserted s) (Duplicates s) (Skipped s + 1) (InvalidLatency s) (InvalidExtra s).

Definition ids_empty (r : Result) : bool :=
  bool_decide (RunID r = ""%string) || bool_decide (ProbeID r = ""%string).

Fixpoint record_loop (o : string) (start now : Z) (results : list Result)
    (s : RecordSummary) : sql RecordSummary :=
  match results with
  | [] => mret s
  | r :: rest =>
      if ids_empty r then record_loop o (int_add start 1) now rest (summary_skip s)
      else
        affected ← stmt "store: insert result"
          (insert_result o start (observedAtMS (ObservedAt r) now) (result_cols r));
        record_loop o (int_add start 1) now rest (summary_add r affected s)
  end.

Definition RecordResults (o : string) (now : Z) (results : list Result) : sql RecordSummary :=
  match results with
  | [] => mret zeroSummary
  | _ =>
      tx "store: begin results" "store: commit results"
        (start ← nextOriginSeq o (Z.of_nat (length results));
         record_loop o start now results zeroSummary)
  end.

(** [resultFromRow]; a malformed [extra] is dropped. *)
Definition resultFromRow (c : resultCols) (atMS : Z) : Result :=
  {| RunID := run_id c; ProbeID := probe_id c;
     res := {| Skip := false; r_Ok := negb (ok c =? 0); r_Type := prober c;
               r_Target := target c; r_Seq := check_seq c;
               LatencyMs := (fun us => SFdiv 53 1024 (float_of_Z us) (float_of_Z 1000))
                              <$> latency_us c;
               r_Error := default ""%string (error c);
               ErrorCode := default ""%string (error_code c);
               Extra := match extra c with
                        | Some (Json m) => json_decoded_params m
                        | _ => []
                        end |};
     ObservedAt := Some (unix_milli atMS) |}.

Record PendingResult : Type := mkPending { pend_Seq : Z; pend_Result : Result }.

Definition is_pending (o : string) (r : jrow) : bool :=
  match jbody r with
  | BResult c => bool_decide (origin r = o) && (delivery_state c =? 0)
  | _ => false
  end.

Definition pending_of_row (r : jrow) : option PendingResult :=
  match jbody r with
  | BResult c => Some (mkPending (seq r) (resultFromRow c (at_ms r)))
  | _ => None
  end.

Definition pending_limit (limit : Z) : Z :=
  if (limit <=? 0) || (2000 <? limit) then 500 else limit.

Definition PendingResults (o : string) (limit : Z) : sql (list PendingResult) :=
  query "store: pending results" (fun d =>
    omap pending_of_row
      (take (Z.to_nat (pending_limit limit)) (List.filter (is_pending o) (journal d)))).

Record Outcome : Type := mkOutcome {
  out_Seq : Z;
  out_Accepted : bool;
  out_Reason : string
}.

(** [UPDATE journal SET ... WHERE seq = ? AND kind = 'result' AND
    delivery_state = 0]. *)
Definition update_pending (s : Z) (f : resultCols -> resultCols) (r : jrow) : jrow :=
  match jbody r with
  | BResult c =>
      if (seq r =? s) && (delivery_state c =? 0)
      then mkRow (seq r) (origin r) (origin_seq r) (at_ms r) (BResult (f c))
      else r
  | _ => r
  end.

Definition settle (state now : Z) (reason : option string) (c : resultCols) : resultCols :=
  {| run_id := run_id c; probe_id := probe_id c; prober := prober c; target := target c;
     check_seq := check_seq c; ok := ok c; latency_us := latency_us c;
     error_code := error_code c; error := error c; extra := extra c;
     delivery_state := state; delivery_reason := reason; delivered_at_ms := Some now;
     attempts := attempts c |}.

Definition mark_outcome (now : Z) (o : Outcome) : sql unit :=
  if out_Seq o =? 0 then mret tt
  else if out_Accepted o then
    exec "store: mark result delivered"
      (with_journal (map (update_pending (out_Seq o) (settle 1 now None))))
  else
    exec "store: mark result rejected"
      (with_journal (map (update_pending (out_Seq o) (settle 2 now (Some (out_Reason o)))))).

Definition MarkOutcomes (now : Z) (outcomes : list Outcome) : sql unit :=
  match outcomes with
  | [] => mret tt
  | _ => tx "store: begin outcomes" "store: commit outcomes" (sql_for (mark_outcome now) outcomes)
  end.

Definition bump_attempts (c : resultCols) : resultCols :=
  {| run_id := run_id c; probe_id := probe_id c; prober := prober c; target := target c;
     check_seq := check_seq c; ok := ok c; latency_us := latency_us c;
     error_code := error_code c; error := error c; extra := extra c;
     delivery_state := delivery_state c; delivery_reason := delivery_reason c;
     delivered_at_ms := delivered_at_ms c; attempts := attempts c + 1 |}.

Definition attempt_row (seqs : list Z) (r : jrow) : jrow :=
  if bool_decide (seq r ∈ seqs) then update_pending (seq r) bump_attempts r else r.

Definition MarkAttempts (seqs : list Z) : sql unit :=
  sql_for (fun chunk => exec "store: mark attempts" (with_journal (map (attempt_row chunk))))
    (chunks 500 seqs).

(** ** Triggers ([triggers.go]) *)

Record PendingTrigger : Type := mkPendingTrigger {
  ptr_ProbeID : string;
  ptr_RunID : string;
  ptr_EventSeq : Z;
  ptr_Probe : ProbeSnapshot
}.

Definition triggerAlreadySeenTx (probeID runID : string) : sql bool :=
  completed ← query "store: check completed trigger"
    (fun d => completed_triggers d !! (probeID, runID));
  match completed with
  | Some _ => mret true
  | None =>
      pending ← query "store: check pending trigger"
        (fun d => pending_triggers d !! (probeID, runID));
      match pending with
      | Some _ => mret true
      | None =>
          last ← query "store: check probe trigger state"
            (fun d => probes_t d !! probeID ≫= last_trigger_run_id);
          mret (bool_decide (last = Some runID))
      end
  end.

(** INSERT ... ON CONFLICT(probe_id, run_id) DO NOTHING. *)
Definition insert_pending (k : pair_key) (r : ptrow) (m : gmap pair_key ptrow) : gmap pair_key ptrow :=
  match m !! k with
  | Some _ => m
  | None => <[k := r]> m
  end.

Definition queueTriggerTx (ev : Event) (eventSeq atMS : Z) : sql unit :=
  if snapshot_encodable (ev_Probe ev) then
    exec "store: queue trigger"
      (with_pending (insert_pending (ID (ev_Probe ev), ev_RunID ev)
                       (mkPtrow eventSeq atMS (Json (ev_Probe ev)))))
  else sql_fail "store: encode trigger probe".

Definition trigger_event_ok (ev : Event) : bool :=
  bool_decide (EventType ev = "triggered"%string)
  && negb (bool_decide (ev_RunID ev = ""%string))
  && negb (bool_decide (ID (ev_Probe ev) = ""%string)).

Definition RecordTrigger (o : string) (now : Z) (ev : Event) : sql bool :=
  if negb (trigger_event_ok ev) then mret false
  else if negb (snapshot_encodable (ev_Probe ev)) then sql_fail "store: encode trigger event"
  else
    tx "store: begin trigger" "store: commit trigger"
      (seen ← triggerAlreadySeenTx (ID (ev_Probe ev)) (ev_RunID ev);
       if seen : bool then mret false
       else
         originSeq ← nextOriginSeq o 1;
         eventSeq ← stmt "store: insert trigger event"
           (insert_row o originSeq now
              (BTrigger (ev_RunID ev) (ID (ev_Probe ev)) (Json ev)));
         _ ← queueTriggerTx ev eventSeq now;
         mret true).

Definition ptrow_le (a b : pair_key * ptrow) : Prop := event_seq (snd a) <= event_seq (snd b).
#[export] Instance ptrow_le_dec : RelDecision ptrow_le.
Proof. intros a b. unfold ptrow_le. apply _. Defined.

(** The rows in [ORDER BY event_seq], split into the readable and the
    corrupt ones; deleting a corrupt row ignores errors. *)
Definition read_trigger (kr : pair_key * ptrow) : PendingTrigger + pair_key :=
  match snapshot_json (snd kr) with
  | Json s => inl (mkPendingTrigger (fst (fst kr)) (snd (fst kr)) (event_seq (snd kr))
                     (snapshot_decoded s))
  | Corrupt => inr (fst kr)
  end.

Definition sql_ignore {A} (m : sql A) : sql unit := fun fs d =>
  let '(_, d', fs') := m fs d in (Ok tt, d', fs').

Definition PendingTriggers : sql (list PendingTrigger) :=
  rows ← query "store: pending triggers"
    (fun d => map read_trigger (merge_sort ptrow_le (map_to_list (pending_triggers d))));
  _ ← sql_for (fun k => sql_ignore (exec "delete corrupt" (with_pending (delete k))))
        (omap (fun x => match x with inr k => Some k | inl _ => None end) rows);
  mret (omap (fun x => match x with inl t => Some t | inr _ => None end) rows).

Definition completeTriggerTx (probeID runID : string) (atMS : Z) : sql unit :=
  _ ← exec "store: clear completed trigger" (with_pending (delete (probeID, runID)));
  _ ← exec "store: record completed trigger" (with_completed (<[(probeID, runID) := atMS]>));
  exec "store: record probe trigger state"
    (with_probes (alter (fun r =>
       mkProw (pr_snapshot r) (pr_params r) (last_run_at_ms r) (Some runID)) probeID)).

Definition complete_one (o : string) (now : Z) (t : PendingTrigger) : sql unit :=
  _ ← exec "store: delete pending trigger"
        (with_pending (delete (ptr_ProbeID t, ptr_RunID t)));
  n ← nextOriginSeq o 1;
  _ ← stmt "store: insert trigger completion"
        (insert_row o n now
           (BTriggerDone (ptr_RunID t) (ptr_ProbeID t)
              (Json (mkDone (ptr_ProbeID t) (ptr_RunID t)))));
  completeTriggerTx (ptr_ProbeID t) (ptr_RunID t) now.

Definition CompleteTriggers (o : string) (now : Z) (triggers : list PendingTrigger) : sql unit :=
  match triggers with
  | [] => mret tt
  | _ => tx "store: begin trigger completion" "store: commit trigger completion"
           (sql_for (complete_one o now) triggers)
  end.

(** ** Assignments and probe states ([probes.go]) *)

Definition snapshot_params (s : ProbeSnapshot) : option (blob params) :=
  match Params s with [] => None | p => Some (Json p) end.

(** INSERT INTO probes: fails on a duplicate id. *)
Definition insert_probe (existing : gmap string prow) (s : ProbeSnapshot) (d : database)
    : option (unit * database) :=
  match probes_t d !! ID s with
  | Some _ => None
  | None =>
      let st := existing !! ID s in
      Some (tt, with_probes (<[ID s := mkProw s (snapshot_params s)
                                 (st ≫= last_run_at_ms) (st ≫= last_trigger_run_id)]>) d)
  end.

Definition applyAssignmentTx (snaps : list ProbeSnapshot) (preserve : bool) : sql unit :=
  existing ← (if preserve then query "store: read existing probes" probes_t else mret ∅);
  _ ← exec "store: clear probes" (with_probes (fun _ => ∅));
  sql_for (fun s =>
    if snapshot_encodable s then stmt "store: insert probe" (insert_probe existing s)
    else sql_fail "store: encode probe params") snaps.

Definition SaveAssignment (o : string) (now : Z) (hash : string) (snaps : list ProbeSnapshot)
    : sql unit :=
  if decide (hash = ""%string) then mret tt
  else if negb (forallb snapshot_encodable snaps) then sql_fail "store: encode assignment"
  else
    tx "store: begin assignment" "store: commit assignment"
      (n ← nextOriginSeq o 1;
       _ ← stmt "store: insert assignment"
             (insert_row o n now (BAssignment (Json (mkAssignment hash snaps))));
       _ ← applyAssignmentTx snaps true;
       exec "store: save probe hash" (with_meta (<["probe_hash"%string := hash]>))).

Record ProbeState : Type := mkProbeState_ {
  ps_Snapshot : ProbeSnapshot;
  ps_LastRunAt : time;
  ps_LastTriggerRunID : string
}.

Definition set_Params (p : params) (s : ProbeSnapshot) : ProbeSnapshot :=
  {| ID := ID s; Target := Target s; Prober := Prober s; ProbeCount := ProbeCount s;
     TimeoutMs := TimeoutMs s; ScheduleType := ScheduleType s;
     IntervalSeconds := IntervalSeconds s; StartsAt := StartsAt s; EndsAt := EndsAt s;
     Params := p; Status := Status s |}.

Definition state_of_row (r : prow) : option ProbeState :=
  let st p := mkProbeState_ (set_Params p (pr_snapshot r))
                (match last_run_at_ms r with Some ms => unix_milli ms | None => zero_time end)
                (default ""%string (last_trigger_run_id r)) in
  match pr_params r with
  | None => Some (st [])
  | Some (Json p) => Some (st (json_decoded_params p))
  | Some Corrupt => None
  end.

Definition id_le (a b : string * prow) : Prop := String.le (fst a) (fst b).
#[export] Instance id_le_dec : RelDecision id_le.
Proof. intros a b. unfold id_le. apply _. Defined.

Definition LoadProbeStates : sql (string * list ProbeState) :=
  hash ← query "store: read probe hash" (fun d => default ""%string (meta d !! "probe_hash"%string));
  states ← stmt "store: decode probe params" (fun d =>
    states ← mapM state_of_row (snd <$> merge_sort id_le (map_to_list (probes_t d)));
    Some (states, d));
  mret (hash, states).

Definition LoadAssignment : sql (string * list ProbeSnapshot) :=
  hs ← LoadProbeStates;
  mret (fst hs, map ps_Snapshot (snd hs)).

Definition mark_run_rows (ids : list string) (atMS : Z) (m : gmap string prow) : gmap string prow :=
  map_imap (fun id r => Some (if bool_decide (id ∈ ids)
    then mkProw (pr_snapshot r) (pr_params r) (Some atMS) (last_trigger_run_id r)
    else r)) m.

Definition MarkProbesRun (ids : list string) (at_ : time) : sql unit :=
  sql_for (fun chunk => exec "store: mark probes run"
             (with_probes (mark_run_rows chunk (to_unix_milli at_))))
    (chunks 500 ids).

(** *** Rebuild *)

Definition rebuild_row (r : jrow) : sql unit :=
  match jbody r with
  | BResult _ => mret tt
  | BAssignment (Json a) =>
      _ ← applyAssignmentTx (map snapshot_decoded (pl_Probes a)) false;
      exec "store: restore probe hash" (with_meta (<["probe_hash"%string := pl_Hash a]>))
  | BAssignment Corrupt => sql_fail "store: decode assignment event"
  | BTrigger _ _ (Json ev) => queueTriggerTx (event_decoded ev) (seq r) (at_ms r)
  | BTrigger _ _ Corrupt => sql_fail "store: decode trigger event"
  | BTriggerDone _ _ (Json t) => completeTriggerTx (td_ProbeID t) (td_RunID t) (at_ms r)
  | BTriggerDone _ _ Corrupt => sql_fail "store: decode trigger_done event"
  end.

(** [SELECT max(j.at_ms) ... WHERE kind = 'result' AND probe_id = ?]. *)
Definition newest_result (id : string) (j : list jrow) : option Z :=
  fold_left (fun acc r =>
    match jbody r with
    | BResult c =>
        if decide (probe_id c = id)
        then Some (match acc with Some m => Z.max m (at_ms r) | None => at_ms r end)
        else acc
    | _ => acc
    end) j None.

Definition restore_run_times (d : database) : database :=
  with_probes (map_imap (fun id r => Some
    match newest_result id (journal d) with
    | Some ms => mkProw (pr_snapshot r) (pr_params r) (Some ms) (last_trigger_run_id r)
    | None => r
    end)) d.

Definition Rebuild : sql unit :=
  tx "store: begin rebuild" "store: commit rebuild"
    (_ ← exec "store: clear probes" (with_probes (fun _ => ∅));
     _ ← exec "store: clear pending_triggers" (with_pending (fun _ => ∅));
     _ ← exec "store: clear completed_triggers" (with_completed (fun _ => ∅));
     _ ← exec "store: clear probe hash" (with_meta (delete "probe_hash"%string));
     rows ← query "store: read control events" journal;
     _ ← sql_for rebuild_row rows;
     exec "store: restore probe run times" restore_run_times).

(** ** Opening ([store.go]) *)

(** [journal_trigger d pid rid]: the newest trigger event of the pair. *)
Definition journal_trigger (d : database) (k : pair_key) : option Z :=
  fold_left (fun acc r =>
    match jbody r with
    | BTrigger run probe _ => if decide ((probe, run) = k) then Some (seq r) else acc
    | _ => acc
    end) (journal d) None.

Definition repoint (d : database) : database :=
  with_pending (map_imap (fun k r => Some
    match journal_trigger d k with
    | Some s => mkPtrow s (created_at_ms r) (snapshot_json r)
    | None => r
    end)) d.

Definition migrateV1ToV2 : sql unit :=
  tx "store: begin schema migration" "store: commit schema migration"
    (_ ← exec "store: migrate pending trigger seqs" repoint;
     exec "store: record schema version" (with_version schemaVersion)).

Definition initSchema : sql unit :=
  version ← query "store: read schema version" user_version;
  if version =? schemaVersion then mret tt
  else if version =? 1 then migrateV1ToV2
  else if version =? 0 then
    tx "store: begin schema migration" "store: commit schema"
      (_ ← exec "store: create schema" (fun d => d);
       exec "store: record schema version" (with_version schemaVersion))
  else sql_fail "store: database schema is newer than this binary supports".

(** The origin the store works under, and [fmt.Sprint(now)] as a parameter. *)
Definition initMeta (sprint : Z -> string) (now : Z) (requestedOrigin : string) : sql string :=
  found ← query "store: read origin" (fun d => meta d !! "origin"%string);
  match found with
  | None =>
      if decide (requestedOrigin = ""%string)
      then sql_fail "store: database has no origin; pass an explicit origin"
      else
        _ ← tx "store: begin metadata" "store: commit metadata"
              (stmt "store: initialize metadata" (fun d =>
                 match meta d !! "created_at_ms"%string with
                 | Some _ => None
                 | None => Some (tt, with_meta (fun m =>
                     <["created_at_ms"%string := sprint now]>
                       (<["origin"%string := requestedOrigin]> m)) d)
                 end));
        mret requestedOrigin
  | Some o =>
      if decide (requestedOrigin <> ""%string /\ o <> requestedOrigin)
      then sql_fail "store: database belongs to another origin"
      else mret o
  end.

End store.

Arguments PendingTriggers : simpl never.
