(* ===== verification/StoreMaint.v ===== *)
(** * Rollups and maintenance of the node store: operations

    [internal/store/rollups.go] and [internal/store/maintenance.go]. *)

From Stdlib Require Import ZArith Lia List Bool Ascii String.
From stdpp Require Import base tactics gmap strings list fin_maps sorting.
From S2P Require Import Prelude Wire Sql Store.

Definition rollupBucketMS : Z := 60 * 60 * 1000.
Definition rollupChunk : nat := 2000.
Definition pruneChunk : nat := 2000.

(** ** Hourly rollups ([rollups.go]) *)

(** The columns [readRollupChunk] selects. *)
Record rollupInput : Type := mkInput {
  ri_seq : Z;
  ri_origin : string;
  ri_probeID : string;
  ri_atMS : Z;
  ri_ok : Z;
  ri_latencyUS : option Z
}.

Definition rollup_input (r : jrow) : option rollupInput :=
  match jbody r with
  | BResult c => Some (mkInput (seq r) (origin r) (probe_id c) (at_ms r) (ok c) (latency_us c))
  | _ => None
  end.

(** [SELECT ... WHERE kind = 'result' AND seq > ? ORDER BY seq]. *)
Definition inputs_after (after : Z) (j : list jrow) : list rollupInput :=
  List.filter (fun r => after <? ri_seq r) (omap rollup_input j).

Definition readRollupChunk (after : Z) : sql (list rollupInput) :=
  query "store: read rollup chunk" (fun d => take rollupChunk (inputs_after after (journal d))).

(** Go's truncating division, floored at zero. *)
Definition bucket_of (atMS : Z) : Z :=
  let bucket := atMS ÷ rollupBucketMS * rollupBucketMS in
  if bucket <? 0 then 0 else bucket.

Definition key_of (r : rollupInput) : rollupKey :=
  (ri_origin r, ri_probeID r, bucket_of (ri_atMS r)).

Definition zeroAgg : rollupRow_ := mkRollup 0 0 0 0 0 None None.

Definition min_opt (a : option Z) (v : Z) : option Z :=
  match a with Some m => if v <? m then Some v else a | None => Some v end.
Definition max_opt (a : option Z) (v : Z) : option Z :=
  match a with Some m => if m <? v then Some v else a | None => Some v end.

(** One row into its bucket's aggregate. *)
Definition agg_add (r : rollupInput) (a : rollupRow_) : rollupRow_ :=
  {| ru_checks := int_add (ru_checks a) 1;
     ru_ok := if negb (ri_ok r =? 0) then int_add (ru_ok a) 1 else ru_ok a;
     ru_errors := if negb (ri_ok r =? 0) then ru_errors a else int_add (ru_errors a) 1;
     ru_latency_sum := match ri_latencyUS r with
                       | Some v => int_add (ru_latency_sum a) v
                       | None => ru_latency_sum a
                       end;
     ru_latency_count := match ri_latencyUS r with
                         | Some _ => int_add (ru_latency_count a) 1
                         | None => ru_latency_count a
                         end;
     ru_latency_min := match ri_latencyUS r with
                       | Some v => min_opt (ru_latency_min a) v
                       | None => ru_latency_min a
                       end;
     ru_latency_max := match ri_latencyUS r with
                       | Some v => max_opt (ru_latency_max a) v
                       | None => ru_latency_max a
                       end |}.

Definition aggregate (rows : list rollupInput) : gmap rollupKey rollupRow_ :=
  fold_left (fun m r => <[key_of r := agg_add r (default zeroAgg (m !! key_of r))]> m) rows ∅.

Definition last_seq (after : Z) (rows : list rollupInput) : Z :=
  fold_left (fun acc r => if acc <? ri_seq r then ri_seq r else acc) rows after.

(** A sum stored into a STRICT INTEGER column: an int64, or an error. *)
Definition checked_add (a b : Z) : option Z :=
  if (min_int64 <=? a + b) && (a + b <=? max_int64) then Some (a + b) else None.

(** The DO UPDATE SET clause. *)
Definition merge_rollup (old new : rollupRow_) : option rollupRow_ :=
  checks ← checked_add (ru_checks old) (ru_checks new);
  oks ← checked_add (ru_ok old) (ru_ok new);
  errors ← checked_add (ru_errors old) (ru_errors new);
  lsum ← checked_add (ru_latency_sum old) (ru_latency_sum new);
  lcount ← checked_add (ru_latency_count old) (ru_latency_count new);
  Some (mkRollup checks oks errors lsum lcount
    (if ru_latency_count new =? 0 then ru_latency_min old
     else match ru_latency_min old, ru_latency_min new with
          | None, m => m
          | Some o, Some n => if n <? o then Some n else Some o
          | Some o, None => Some o
          end)
    (if ru_latency_count new =? 0 then ru_latency_max old
     else match ru_latency_max old, ru_latency_max new with
          | None, m => m
          | Some o, Some n => if o <? n then Some n else Some o
          | Some o, None => Some o
          end)).

Definition upsert_rollup (k : rollupKey) (a : rollupRow_) (d : database) : option (unit * database) :=
  match rollups d !! k with
  | None => Some (tt, with_rollups (<[k := a]>) d)
  | Some old => merged ← merge_rollup old a; Some (tt, with_rollups (<[k := merged]>) d)
  end.

Inductive write_outcome : Type := Written | CursorMoved.

Section rollups.
(** Go iterates the aggregated buckets in some order. *)
Context (iterate : gmap rollupKey rollupRow_ -> list (rollupKey * rollupRow_)).
(** What other processes commit between a chunk's read and its write. *)
Context (others : database -> database).

Definition writeRollups (aggregated : gmap rollupKey rollupRow_) (expectedCursor nextCursor : Z)
    : sql write_outcome :=
  tx "store: begin rollups" "store: commit rollups"
    (current ← query "store: read rollup cursor" (fun d => default 0 (rollup_cursor d));
     if negb (current =? expectedCursor) then mret CursorMoved
     else
       _ ← sql_for (fun ka => stmt "store: upsert rollup" (upsert_rollup (fst ka) (snd ka)))
             (iterate aggregated);
       _ ← exec "store: advance rollup cursor" (with_cursor nextCursor);
       mret Written).

Definition metaInt_cursor : sql Z :=
  query "store: read meta rollup_seq" (fun d => default 0 (rollup_cursor d)).

Definition interfere : sql unit := fun fs d => (Ok tt, others d, fs).

(** The chunk loop; [moves] counts lost races. *)
Fixpoint rollup_loop (fuel : nat) (after total : Z) (moves : nat) : sql Z :=
  match fuel with
  | O => sql_fail "out of fuel"
  | S fuel' =>
      rows ← readRollupChunk after;
      match rows with
      | [] => mret total
      | _ =>
          _ ← interfere;
          w ← writeRollups (aggregate rows) after (last_seq after rows);
          match w with
          | CursorMoved =>
              if (5 <? S moves)%nat then sql_fail "store: rollup cursor kept moving"
              else after' ← metaInt_cursor; rollup_loop fuel' after' total (S moves)
          | Written => rollup_loop fuel' (last_seq after rows) (total + Z.of_nat (length rows)) moves
          end
      end
  end.

(** Every written chunk consumes a journal row, and at most six are lost to
    races, so the journal's length (plus slack) bounds the iterations when
    no rows arrive meanwhile. *)
Definition rollupResults (fuel : nat) : sql Z :=
  after ← metaInt_cursor; rollup_loop fuel after 0 0.

(** ** Maintenance ([maintenance.go]) *)

Record MaintainOptions : Type := mkMaintain {
  mo_cutoff : option Z; (** [time.Now().Add(-Retention)] in ms, when Retention > 0 *)
  mo_MaxBytes : Z
}.

Record MaintainStats : Type := mkStats {
  DeletedRows : Z;
  DeletedRollups : Z;
  RolledUpResults : Z;
  PrunedTriggers : Z;
  OverBudget : bool
}.

(** The rows retention and the size bound may delete. *)
Definition prunable (d : database) (r : jrow) : bool :=
  match jbody r with
  | BResult c => negb (delivery_state c =? 0)
  | BTrigger _ _ _ | BTriggerDone _ _ _ =>
      negb (existsb (fun kr => event_seq (snd kr) =? seq r) (map_to_list (pending_triggers d)))
  | BAssignment _ => false
  end.

(** [DELETE FROM journal WHERE seq IN (SELECT ... ORDER BY seq LIMIT n)]:
    the first [n] rows that satisfy [p] go. *)
Fixpoint delete_first (n : nat) (p : jrow -> bool) (j : list jrow) : list jrow * Z :=
  match j with
  | [] => ([], 0)
  | r :: rest =>
      match n with
      | O => (j, 0)
      | S n' =>
          if p r then let '(j', k) := delete_first n' p rest in (j', k + 1)
          else let '(j', k) := delete_first n p rest in (r :: j', k)
      end
  end.

Definition delete_rows (p : database -> jrow -> bool) (d : database) : Z * database :=
  let '(j, k) := delete_first pruneChunk (p d) (journal d) in (k, with_journal (fun _ => j) d).

(** [ctx.Err()]: the run's deadline has passed. *)
Definition ctx_err : sql unit := exec "context deadline exceeded" (fun d => d).

Definition prune_age (cutoff : Z) (d : database) (r : jrow) : bool :=
  prunable d r && (at_ms r <? cutoff).

Fixpoint prune_loop (fuel : nat) (cutoff : Z) (deleted : Z) : sql Z :=
  match fuel with
  | O => sql_fail "out of fuel"
  | S fuel' =>
      _ ← ctx_err;
      affected ← stmt "store: prune journal" (fun d => Some (delete_rows (prune_age cutoff) d));
      if affected <? Z.of_nat pruneChunk then mret (deleted + affected)
      else prune_loop fuel' cutoff (deleted + affected)
  end.

(** [seq NOT IN (SELECT max(seq) ... WHERE kind = 'assignment' GROUP BY origin)]. *)
Definition is_assignment (r : jrow) : bool :=
  match jbody r with BAssignment _ => true | _ => false end.

Definition superseded (j : list jrow) (r : jrow) : bool :=
  is_assignment r
  && existsb (fun r' => is_assignment r' && bool_decide (origin r' = origin r) && (seq r <? seq r')) j.

Definition collapse_assignments (d : database) : Z * database :=
  let kept := List.filter (fun r => negb (superseded (journal d) r)) (journal d) in
  (Z.of_nat (length (journal d)) - Z.of_nat (length kept), with_journal (fun _ => kept) d).

(** The oldest [pruneChunk] rollup buckets. *)
Definition bucket_le (a b : rollupKey * rollupRow_) : Prop := snd (fst a) <= snd (fst b).
#[export] Instance bucket_le_dec : RelDecision bucket_le.
Proof. intros a b. unfold bucket_le. apply _. Defined.

Definition delete_rollups (d : database) : Z * database :=
  let gone := take pruneChunk (merge_sort bucket_le (map_to_list (rollups d))) in
  (Z.of_nat (length gone),
   with_rollups (fun m => fold_left (fun m kr => delete (fst kr) m) gone m) d).

(** Page counts are SQLite's: what [liveBytes] reads at the [i]-th reading. *)
Context (live_bytes : nat -> database -> Z).

Definition liveBytes (i : nat) : sql Z := query "store: page size" (live_bytes i).

Fixpoint size_loop (chunks_left i : nat) (maxBytes : Z) (st : MaintainStats) : sql MaintainStats :=
  match chunks_left with
  | O => mret st
  | S left' =>
      _ ← ctx_err;
      live ← liveBytes i;
      if live <=? maxBytes then mret st
      else
        affected ← stmt "store: enforce size" (fun d => Some (delete_rows prunable d));
        let st := mkStats (DeletedRows st + affected) (DeletedRollups st) (RolledUpResults st)
                    (PrunedTriggers st) (OverBudget st) in
        if affected =? 0 then
          rolled ← stmt "store: prune rollups" (fun d => Some (delete_rollups d));
          let st := mkStats (DeletedRows st) (DeletedRollups st + rolled) (RolledUpResults st)
                      (PrunedTriggers st) (OverBudget st) in
          if rolled =? 0
          then mret (mkStats (DeletedRows st) (DeletedRollups st) (RolledUpResults st)
                       (PrunedTriggers st) true)
          else size_loop left' (S i) maxBytes st
        else size_loop left' (S i) maxBytes st
  end.

Definition prune_completed (cutoff : Z) (d : database) : Z * database :=
  let gone := filter (fun kt => snd kt < cutoff) (completed_triggers d) in
  (Z.of_nat (size gone), with_completed (filter (fun kt => ~ snd kt < cutoff)) d).

(** [Maintain], up to the page-level work (vacuum, checkpoint, optimize)
    that leaves the tables alone. *)
Definition Maintain (fuel : nat) (opts : MaintainOptions) : sql MaintainStats :=
  rolled ← rollupResults fuel;
  dp ← (match mo_cutoff opts with
        | None => mret (0, 0)
        | Some cutoff =>
            deleted ← prune_loop fuel cutoff 0;
            pruned ← stmt "store: prune completed triggers"
              (fun d => Some (prune_completed cutoff d));
            mret (deleted, pruned)
        end);
  collapsed ← stmt "store: collapse assignments" (fun d => Some (collapse_assignments d));
  let st := mkStats (fst dp + collapsed) 0 rolled (snd dp) false in
  st ← (if 0 <? mo_MaxBytes opts then size_loop 100 0 (mo_MaxBytes opts) st else mret st);
  live ← liveBytes 100;
  mret (mkStats (DeletedRows st) (DeletedRollups st) (RolledUpResults st) (PrunedTriggers st)
    (OverBudget st || ((0 <? mo_MaxBytes opts) && (mo_MaxBytes opts <? live)))).

End rollups.
