(* ===== verification/Journal.v ===== *)
(** * The journal as an abstract log

    A specification of what any caller may do to the journal, on entries of
    its own (content, and for a result whether it waits or how it was
    settled): append a fresh entry, burn a number, settle a waiting result,
    count a delivery attempt of waiting results, or drop entries that do not
    wait.  The rows of the store's journal move between the two: [log_move]
    says what a call does to rows, [log_move_spec] that the entries they
    stand for then move by the specification.  [StoreLog.v] shows that every
    store operation is such a move. *)

From Stdlib Require Import ZArith Lia List Bool Ascii String.
From stdpp Require Import base tactics gmap strings list relations.
From S2P Require Import Prelude Wire Sql Store.

(** The journal and its AUTOINCREMENT counter. *)
Definition log : Type := list jrow * Z.

Definition log_of (d : database) : log := (journal d, journal_autoinc d).

Definition row_pending (r : jrow) : bool :=
  match jbody r with BResult c => delivery_state c =? 0 | _ => false end.

Definition is_result (r : jrow) : bool :=
  match jbody r with BResult _ => true | _ => false end.

(** A result is inserted waiting and untried. *)
Definition fresh_row (r : jrow) : Prop :=
  match jbody r with BResult c => delivery_state c = 0 /\ attempts c = 0 | _ => True end.

Inductive log_move : log -> log -> Prop :=
| mv_append j a row :
    seq row = a + 1 -> fresh_row row ->
    log_move (j, a) (j ++ [row], a + 1)
| mv_burn j a : log_move (j, a) (j, a + 1)
| mv_settle j a s state now reason :
    (state = 1 /\ reason = None \/ state = 2 /\ is_Some reason) ->
    log_move (j, a) (map (update_pending s (settle state now reason)) j, a)
| mv_attempt j a chunk : log_move (j, a) (map (attempt_row chunk) j, a)
| mv_drop j j' a :
    sublist j' j -> (forall r, r ∈ j -> row_pending r = true -> r ∈ j') ->
    log_move (j, a) (j', a).

Abbreviation log_moves := (rtc log_move).

(** The delivery columns aside, a row never changes. *)
Definition cols_forget (c : resultCols) : resultCols :=
  {| run_id := run_id c; probe_id := probe_id c; prober := prober c; target := target c;
     check_seq := check_seq c; ok := ok c; latency_us := latency_us c;
     error_code := error_code c; error := error c; extra := extra c;
     delivery_state := 0; delivery_reason := None; delivered_at_ms := None; attempts := 0 |}.

Definition row_forget (r : jrow) : jrow :=
  match jbody r with
  | BResult c => mkRow (seq r) (origin r) (origin_seq r) (at_ms r) (BResult (cols_forget c))
  | _ => r
  end.

(** ** The specification *)

(** A result waits after so many attempts, or was settled: the delivery
    state, the reason and the time the settling wrote. *)
Inductive status : Type :=
| Waiting (tries : Z)
| Settled (state : Z) (reason : option string) (at_ : option Z) (tries : Z).

Record entry : Type := mkEntry {
  e_number : Z;
  e_content : jrow;
  e_status : option status
}.

Definition entries : Type := list entry * Z.

Inductive server_verdict : Type := Delivered | Rejected (reason : string).

Definition settled_with (v : server_verdict) (now tries : Z) : status :=
  match v with
  | Delivered => Settled 1 None (Some now) tries
  | Rejected reason => Settled 2 (Some reason) (Some now) tries
  end.

(** Entry [n] is given the verdict if it waits; a settled one is final. *)
Definition give_verdict (n : Z) (v : server_verdict) (now : Z) (e : entry) : entry :=
  match e_status e with
  | Some (Waiting tries) =>
      if decide (e_number e = n) then mkEntry n (e_content e) (Some (settled_with v now tries)) else e
  | _ => e
  end.

Definition count_attempt (ns : list Z) (e : entry) : entry :=
  match e_status e with
  | Some (Waiting tries) =>
      if decide (e_number e ∈ ns) then mkEntry (e_number e) (e_content e) (Some (Waiting (tries + 1))) else e
  | _ => e
  end.

Definition waits (e : entry) : Prop := exists tries, e_status e = Some (Waiting tries).

Inductive spec_move : entries -> entries -> Prop :=
| sp_append es a e :
    e_number e = a + 1 -> e_status e = None \/ e_status e = Some (Waiting 0) ->
    spec_move (es, a) (es ++ [e], a + 1)
| sp_burn es a : spec_move (es, a) (es, a + 1)
| sp_verdict es a n v now : spec_move (es, a) (map (give_verdict n v now) es, a)
| sp_attempt es a ns : spec_move (es, a) (map (count_attempt ns) es, a)
| sp_drop es es' a :
    sublist es' es -> (forall e, e ∈ es -> waits e -> e ∈ es') -> spec_move (es, a) (es', a).

Abbreviation spec_moves := (rtc spec_move).

(** What a row stands for. *)
Definition status_of (c : resultCols) : status :=
  if delivery_state c =? 0 then Waiting (attempts c)
  else Settled (delivery_state c) (delivery_reason c) (delivered_at_ms c) (attempts c).

Definition entry_of (r : jrow) : entry :=
  mkEntry (seq r) (row_forget r)
    match jbody r with BResult c => Some (status_of c) | _ => None end.

Definition entries_of (d : database) : entries := (map entry_of (journal d), journal_autoinc d).

Lemma waits_pending r : waits (entry_of r) <-> row_pending r = true.
Proof.
  unfold waits, entry_of, row_pending, status_of. cbn [e_status].
  destruct (jbody r) as [c|?|? ? ?|? ? ?]; [|naive_solver..].
  destruct (delivery_state c =? 0); naive_solver.
Qed.

Lemma entry_of_settle n state now reason v r :
  match v with Delivered => state = 1 /\ reason = None | Rejected x => state = 2 /\ reason = Some x end ->
  entry_of (update_pending n (settle state now reason) r) = give_verdict n v now (entry_of r).
Proof.
  intros Hv. unfold update_pending, give_verdict, entry_of, row_forget, status_of.
  destruct (jbody r) as [c|?|? ? ?|? ? ?] eqn:E; cbn [e_status e_number e_content]; rewrite ?E; try done.
  destruct (delivery_state c =? 0) eqn:E0; rewrite ?andb_true_r, ?andb_false_r; [|by rewrite E, E0].
  destruct (decide (seq r = n)) as [<-|Hn].
  - rewrite Z.eqb_refl. cbn. by destruct v; destruct Hv as [-> ->].
  - rewrite (proj2 (Z.eqb_neq _ _) Hn), E, E0. done.
Qed.

Lemma entry_of_attempt ns r : entry_of (attempt_row ns r) = count_attempt ns (entry_of r).
Proof.
  unfold attempt_row, update_pending, count_attempt, entry_of, row_forget, status_of.
  destruct (jbody r) as [c|?|? ? ?|? ? ?] eqn:E; cbn [e_status e_number e_content];
    destruct (bool_decide_reflect (seq r ∈ ns)) as [Hn|Hn]; rewrite ?E, ?Z.eqb_refl; try done;
    destruct (delivery_state c =? 0) eqn:E0; cbn; rewrite ?E, ?E0, ?decide_True, ?decide_False by done; try done.
Qed.

Lemma log_move_spec j a j' a' :
  log_move (j, a) (j', a') -> spec_move (map entry_of j, a) (map entry_of j', a').
Proof.
  inversion 1 as [j0 a0 row Hs Hf|j0 a0|j0 a0 s state now reason Hv|j0 a0 chunk|j0 j1 a0 Hs Hk]; subst.
  - rewrite map_app. apply sp_append; [done|]. unfold fresh_row in Hf. cbn [entry_of e_status].
    destruct (jbody row) as [c|?|? ? ?|? ? ?]; [|by left..]. right. unfold status_of.
    by destruct Hf as [-> ->].
  - apply sp_burn.
  - assert (exists v, map entry_of (map (update_pending s (settle state now reason)) j)
      = map (give_verdict s v now) (map entry_of j)) as [v ->]; [|apply sp_verdict].
    destruct Hv as [[-> ->]|[-> [x ->]]]; [exists Delivered|exists (Rejected x)];
      rewrite !map_map; apply map_ext; intros r; by apply entry_of_settle.
  - assert (map entry_of (map (attempt_row chunk) j) = map (count_attempt chunk) (map entry_of j)) as ->
      by (rewrite !map_map; apply map_ext; intros r; apply entry_of_attempt).
    apply sp_attempt.
  - apply sp_drop; [by apply sublist_fmap'|]. intros e He We.
    apply list_elem_of_In, in_map_iff in He as (r & <- & Hr). apply list_elem_of_In, in_map, list_elem_of_In, Hk.
    + by apply list_elem_of_In.
    + by apply waits_pending.
Qed.

Lemma log_moves_spec l l' :
  log_moves l l' -> spec_moves (map entry_of (fst l), snd l) (map entry_of (fst l'), snd l').
Proof. induction 1 as [|[j a] [j' a'] l' H _ IH]; [done|]. eapply rtc_l; [by apply log_move_spec|exact IH]. Qed.

(** ** What the log keeps *)

Lemma update_pending_settled s f r : row_pending r = false -> update_pending s f r = r.
Proof.
  unfold row_pending, update_pending. destruct (jbody r); try done. intros ->.
  by rewrite andb_false_r.
Qed.

Lemma attempt_settled chunk r : row_pending r = false -> attempt_row chunk r = r.
Proof. intros H. unfold attempt_row. destruct (bool_decide _); [|done]. by apply update_pending_settled. Qed.

Lemma update_pending_seq s f r : seq (update_pending s f r) = seq r.
Proof. unfold update_pending. destruct (jbody r); try done. by destruct (_ && _). Qed.

Lemma attempt_seq chunk r : seq (attempt_row chunk r) = seq r.
Proof. unfold attempt_row. destruct (bool_decide _); [apply update_pending_seq|done]. Qed.

Lemma update_pending_forget s f r :
  (forall c, cols_forget (f c) = cols_forget c) ->
  row_forget (update_pending s f r) = row_forget r.
Proof.
  intros Hf. unfold update_pending, row_forget.
  destruct (jbody r) as [c|?|? ? ?|? ? ?] eqn:E; rewrite ?E; try done.
  destruct (_ && _); simpl; rewrite ?E; [by rewrite Hf|done].
Qed.

Lemma settle_forget state now reason c : cols_forget (settle state now reason c) = cols_forget c.
Proof. done. Qed.

Lemma attempt_forget chunk r : row_forget (attempt_row chunk r) = row_forget r.
Proof.
  unfold attempt_row. destruct (bool_decide _); [|done]. by apply update_pending_forget.
Qed.

Lemma attempt_pending chunk r : row_pending (attempt_row chunk r) = row_pending r.
Proof.
  unfold attempt_row. destruct (bool_decide _); [|done]. unfold update_pending, row_pending.
  destruct (jbody r) as [c|?|? ? ?|? ? ?] eqn:E; rewrite ?E; try done.
  destruct (_ && _) eqn:Ec; simpl; rewrite ?E; done.
Qed.

(** The log holds, under number [s], at most the row [r]. *)
Definition only (s : Z) (r : jrow) (l : log) : Prop :=
  s <= snd l /\ forall r', r' ∈ fst l -> seq r' = s -> r' = r.

Lemma only_move s r l l' : row_pending r = false -> log_move l l' -> only s r l -> only s r l'.
Proof.
  intros Hr H [Ha Ho]. unfold only in *. destruct H; simpl in *; (split; [lia|]); intros r' Hin Hs.
  - apply elem_of_app in Hin as [Hin|Hin%list_elem_of_singleton]; [auto|subst; lia].
  - auto.
  - apply list_elem_of_In, in_map_iff in Hin as (r0 & <- & Hin%list_elem_of_In).
    rewrite update_pending_seq in Hs. rewrite (Ho _ Hin Hs). by apply update_pending_settled.
  - apply list_elem_of_In, in_map_iff in Hin as (r0 & <- & Hin%list_elem_of_In).
    rewrite attempt_seq in Hs. rewrite (Ho _ Hin Hs). by apply attempt_settled.
  - apply Ho; [|done]. by eapply elem_of_sublist.
Qed.

(** A settled row stays exactly as it is for as long as it exists. *)
Lemma only_moves s r l l' : row_pending r = false -> log_moves l l' -> only s r l -> only s r l'.
Proof. intros Hr. induction 1; eauto using only_move. Qed.

(** A pending row survives one move, unchanged up to its delivery columns. *)
Lemma pending_move l l' r :
  log_move l l' -> r ∈ fst l -> row_pending r = true ->
  exists r', r' ∈ fst l' /\ seq r' = seq r /\ row_forget r' = row_forget r.
Proof.
  intros H Hin Hp. destruct H; simpl in *.
  - exists r. split; [apply elem_of_app; by left|done].
  - eauto.
  - exists (update_pending s (settle state now reason) r). split_and!.
    + apply list_elem_of_In, in_map, list_elem_of_In, Hin.
    + apply update_pending_seq.
    + by apply update_pending_forget.
  - exists (attempt_row chunk r). split_and!.
    + apply list_elem_of_In, in_map, list_elem_of_In, Hin.
    + apply attempt_seq.
    + apply attempt_forget.
  - eauto.
Qed.

(** Moves other than settling: pending rows stay pending. *)
Inductive quiet_move : log -> log -> Prop :=
| qm_append j a row :
    seq row = a + 1 -> fresh_row row -> quiet_move (j, a) (j ++ [row], a + 1)
| qm_burn j a : quiet_move (j, a) (j, a + 1)
| qm_attempt j a chunk : quiet_move (j, a) (map (attempt_row chunk) j, a)
| qm_drop j j' a :
    sublist j' j -> (forall r, r ∈ j -> row_pending r = true -> r ∈ j') ->
    quiet_move (j, a) (j', a).

Abbreviation quiet_moves := (rtc quiet_move).

Lemma quiet_is_move l l' : quiet_move l l' -> log_move l l'.
Proof. destruct 1; by econstructor. Qed.

Lemma quiet_are_moves l l' : quiet_moves l l' -> log_moves l l'.
Proof. induction 1; [done|]. eapply rtc_l; [by apply quiet_is_move|done]. Qed.

Lemma quiet_pending l l' r :
  quiet_moves l l' -> r ∈ fst l -> row_pending r = true ->
  exists r', r' ∈ fst l' /\ seq r' = seq r /\ row_forget r' = row_forget r /\ row_pending r' = true.
Proof.
  intros H. revert r. induction H as [l|l l1 l2 Hm Hms IH]; intros r Hin Hp; [eauto 6|].
  assert (exists r1, r1 ∈ fst l1 /\ seq r1 = seq r /\ row_forget r1 = row_forget r
    /\ row_pending r1 = true) as (r1 & Hin1 & Hs1 & Hf1 & Hp1).
  { destruct Hm; simpl in *.
    - exists r. split_and!; [apply elem_of_app; by left|done..].
    - eauto.
    - exists (attempt_row chunk r). split_and!.
      + apply list_elem_of_In, in_map, list_elem_of_In, Hin.
      + apply attempt_seq.
      + apply attempt_forget.
      + by rewrite attempt_pending.
    - eauto 6. }
  destruct (IH _ Hin1 Hp1) as (r2 & ? & Hs2 & Hf2 & ?). exists r2.
  split_and!; [done|congruence|congruence|done].
Qed.
