(* ===== verification/StoreWf.v ===== *)
(** * Well-formedness of the node store

    The schema's constraints and the journal's bookkeeping as an invariant
    of every database the store's operations can reach, under any schedule
    of statement failures. *)

From Stdlib Require Import ZArith Lia List Bool Ascii String Sorted.
From stdpp Require Import base tactics gmap strings list fin_maps sorting.
From S2P Require Import Prelude Wire Sql Store StoreMaint Journal.

(** ** The invariant *)

Definition dedup_key (r : jrow) : option (string * string * string * Z) :=
  match jbody r with
  | BResult c => Some (origin r, run_id c, probe_id c, check_seq c)
  | _ => None
  end.

Definition oseq_key (r : jrow) : string * Z := (origin r, origin_seq r).

(** A result row: real ids, a positive check number, and a delivery record
    that agrees with its state. *)
Definition cols_ok (c : resultCols) : Prop :=
  run_id c <> ""%string /\ probe_id c <> ""%string /\ 1 <= check_seq c
  /\ (ok c = 0 \/ ok c = 1)
  /\ (forall us, latency_us c = Some us -> 0 <= us <= max_int64)
  /\ match delivery_state c with
     | 0 => delivered_at_ms c = None /\ delivery_reason c = None
     | 1 => delivered_at_ms c <> None /\ delivery_reason c = None
     | 2 => delivered_at_ms c <> None /\ delivery_reason c <> None
     | _ => False
     end.

Definition body_ok (b : body) : Prop :=
  match b with BResult c => cols_ok c | _ => True end.

Record db_wf (d : database) : Prop := {
  wf_sorted : StronglySorted Z.lt (seq <$> journal d);
  wf_bound : Forall (fun r => 0 < seq r <= journal_autoinc d) (journal d);
  wf_autoinc : 0 <= journal_autoinc d;
  wf_counter : map_Forall (fun _ n => 1 <= n <= max_int64) (sequences d);
  wf_oseq : Forall (fun r => exists n, sequences d !! origin r = Some n
                       /\ 1 <= origin_seq r < n) (journal d);
  wf_oseq_unique : NoDup (oseq_key <$> journal d);
  wf_dedup : NoDup (omap dedup_key (journal d));
  wf_cols : Forall (fun r => body_ok (jbody r)) (journal d)
}.

(** Distinct rows have distinct sequence numbers. *)
Lemma seq_unique j r r' :
  StronglySorted Z.lt (seq <$> j) -> r ∈ j -> r' ∈ j -> seq r' = seq r -> r' = r.
Proof.
  induction j as [|x j IH]; intros Hs Hr Hr' E; [by apply not_elem_of_nil in Hr|].
  rewrite fmap_cons in Hs. apply StronglySorted_inv in Hs as [Hs Hx]. rewrite Forall_forall in Hx.
  apply elem_of_cons in Hr as [->|Hr], Hr' as [->|Hr']; [done|..|by apply IH].
  - specialize (Hx (seq r') (list_elem_of_fmap_2 seq _ _ Hr')). lia.
  - specialize (Hx (seq r) (list_elem_of_fmap_2 seq _ _ Hr)). lia.
Qed.

(** ** Appending *)

Lemma origin_seq_taken_spec o n j :
  origin_seq_taken o n j = true <-> (o, n) ∈ oseq_key <$> j.
Proof.
  unfold origin_seq_taken. rewrite existsb_exists, list_elem_of_fmap. split.
  - intros (r & Hin & [H1%bool_decide_eq_true H2%Z.eqb_eq]%andb_true_iff). exists r.
    unfold oseq_key. rewrite H1, H2. by rewrite list_elem_of_In.
  - intros (r & [= -> ->] & Hin). exists r. rewrite <- list_elem_of_In.
    by rewrite bool_decide_eq_true_2, Z.eqb_refl.
Qed.

Lemma result_taken_spec o run probe n j :
  result_taken o run probe n j = true <-> (o, run, probe, n) ∈ omap dedup_key j.
Proof.
  unfold result_taken. rewrite existsb_exists, list_elem_of_omap.
  split; intros (r & H1 & H2); exists r; rewrite <- ?list_elem_of_In in *.
  - split; [done|]. unfold dedup_key. destruct (jbody r); try done. zify_bool.
    by repeat match goal with H : bool_decide _ = true |- _ => apply bool_decide_eq_true in H end; subst.
  - split; [done|]. unfold dedup_key in H2. destruct (jbody r); try done.
    injection H2 as <- <- <- <-. by rewrite !bool_decide_eq_true_2, Z.eqb_refl by done.
Qed.

Lemma append_wf d o n oseq at_ b :
  db_wf d -> sequences d !! o = Some n -> 1 <= oseq < n ->
  (o, oseq) ∉ oseq_key <$> journal d -> body_ok b ->
  (forall k, dedup_key (mkRow 0 o oseq at_ b) = Some k -> k ∉ omap dedup_key (journal d)) ->
  let s := journal_autoinc d + 1 in
  db_wf (with_autoinc s (with_journal (fun j => j ++ [mkRow s o oseq at_ b]) d)).
Proof.
  intros [Hs Hb Ha Hc Ho Hu Hd Hk] Hn Hr Hfresh Hbody Hded. cbv zeta. split; simpl.
  - rewrite fmap_app. simpl. apply StronglySorted_app_2; [|done|repeat constructor].
    intros x y Hx Hy%list_elem_of_singleton. simpl in Hy. subst y.
    apply list_elem_of_fmap in Hx as (r & -> & Hin). rewrite Forall_forall in Hb.
    specialize (Hb r Hin). cbn beta in Hb. lia.
  - apply Forall_app. split; [|repeat constructor; simpl; lia].
    eapply Forall_impl; [exact Hb|]. cbn beta. intros ? ?. lia.
  - lia.
  - done.
  - apply Forall_app. split; [done|]. repeat constructor. simpl. eauto.
  - rewrite fmap_app. apply NoDup_app. split_and!; [done| |apply NoDup_singleton].
    intros k Hk1 Hk2%list_elem_of_singleton. subst k. done.
  - rewrite omap_app. apply NoDup_app. split_and!; [done| |].
    + intros k Hk1 Hk2. simpl in Hk2. unfold dedup_key at 1 in Hk2. simpl in Hk2.
      destruct b; simpl in Hk2; try by apply not_elem_of_nil in Hk2.
      apply list_elem_of_singleton in Hk2. subst k. by eapply Hded.
    + simpl. destruct (dedup_key _); [apply NoDup_singleton | apply NoDup_nil_2].
  - apply Forall_app. split; [done|]. by repeat constructor.
Qed.

Lemma insert_row_wf d o n oseq at_ b s d' :
  db_wf d -> sequences d !! o = Some n -> 1 <= oseq < n -> body_ok b ->
  dedup_key (mkRow 0 o oseq at_ b) = None ->
  insert_row o oseq at_ b d = Some (s, d') ->
  db_wf d' /\ sequences d' = sequences d
  /\ s = journal_autoinc d + 1 /\ journal d' = journal d ++ [mkRow s o oseq at_ b].
Proof.
  unfold insert_row. intros Hwf Hn Hr Hb Hk.
  destruct (origin_seq_taken o oseq (journal d)) eqn:Et; [done|]. cbn [orb].
  destruct (max_int64 <=? journal_autoinc d); [done|]. intros [= <- <-].
  split_and!; [|done..]. eapply append_wf; eauto.
  - rewrite <- origin_seq_taken_spec. congruence.
  - by rewrite Hk.
Qed.

Lemma burn_wf d : db_wf d -> db_wf (with_autoinc (journal_autoinc d + 1) d).
Proof.
  intros [Hs Hb Ha Hc Ho Hu Hd Hk]. split; simpl; try done; [|lia].
  eapply Forall_impl; [exact Hb|]. cbn beta. intros ? ?. lia.
Qed.

Lemma insert_result_wf burn d o n oseq at_ c k d' :
  db_wf d -> sequences d !! o = Some n -> 1 <= oseq < n -> cols_ok c ->
  insert_result burn o oseq at_ c d = Some (k, d') ->
  db_wf d' /\ sequences d' = sequences d.
Proof.
  unfold insert_result. intros Hwf Hn Hr Hb.
  destruct (max_int64 <=? journal_autoinc d); [done|].
  destruct (origin_seq_taken _ _ _) eqn:E1; cbn [orb].
  - intros [= <- <-]. destruct burn; [|done]. split; [|done].
    by apply burn_wf.
  - destruct (result_taken _ _ _ _ _) eqn:E2; intros [= <- <-].
    + destruct burn; [|done]. split; [|done]. by apply burn_wf.
    + split; [|done]. eapply append_wf; eauto.
      * rewrite <- origin_seq_taken_spec. congruence.
      * intros k [= <-]. rewrite <- result_taken_spec. congruence.
Qed.

(** ** Sequences *)

(** Room for [count] more sequence numbers of [o]. *)
Definition room (o : string) (count : Z) (d : database) : Prop :=
  default 1 (sequences d !! o) + count <= max_int64.

Lemma counter_wf d o n :
  db_wf d -> n <= max_int64 -> default 1 (sequences d !! o) <= n ->
  db_wf (with_sequences (<[o := n]>) d).
Proof.
  intros [Hs Hb Ha Hc Ho Hu Hd Hk] Hn Hle. split; simpl; try done.
  - apply map_Forall_insert_2; [|done]. split; [|lia].
    destruct (sequences d !! o) as [m|] eqn:E; simpl in Hle; [|lia].
    specialize (Hc _ _ E). cbn beta in Hc. lia.
  - eapply Forall_impl; [exact Ho|]. cbn beta. intros r (m & E & Hm).
    destruct (decide (o = origin r)) as [->|Hne].
    + exists n. rewrite lookup_insert_eq. rewrite E in Hle. simpl in Hle.
      split; [done|lia].
    + exists m. by rewrite lookup_insert_ne.
Qed.

(** Reserving numbers: they are fresh, consecutive and below the counter. *)
Lemma nextOriginSeq_wf o count fs d start d' fs' :
  db_wf d -> room o count d ->
  nextOriginSeq o count fs d = (Ok start, d', fs') ->
  db_wf d' /\ sequences d' = <[o := start + count]> (sequences d)
  /\ start = default 1 (sequences d !! o) /\ 1 <= start /\ 1 <= count
  /\ d' = with_sequences (<[o := start + count]>) d.
Proof.
  intros Hwf Hroom H. unfold nextOriginSeq, room in *.
  destruct (Z.ltb_spec count 1); [done|]. repeat sql_step H.
  destruct (sequences d !! o) as [n|] eqn:Eo; simpl in Hroom; repeat sql_step H; simpl.
  - pose proof (wf_counter _ Hwf _ _ Eo) as Hn. cbn beta in Hn.
    rewrite int_add_small by (unfold in_int64, min_int64; lia).
    split_and!; try done; try lia. apply counter_wf; [done|lia|]. rewrite Eo. simpl. lia.
  - rewrite int_add_small by (unfold in_int64, min_int64; lia).
    rewrite (Z.add_comm 1 count).
    split_and!; try done; try lia. apply counter_wf; [done|lia|]. rewrite Eo. simpl. lia.
Qed.

Lemma room_mono o count d n :
  sequences d !! o = Some n -> n <= max_int64 - count -> room o count d.
Proof. unfold room. intros ->. simpl. lia. Qed.

(** ** Updates that only touch the delivery columns *)

Definition same_keys (r r' : jrow) : Prop :=
  seq r' = seq r /\ origin r' = origin r /\ origin_seq r' = origin_seq r
  /\ dedup_key r' = dedup_key r.

Lemma map_rows_wf f d :
  (forall r, same_keys r (f r)) -> (forall r, body_ok (jbody r) -> body_ok (jbody (f r))) ->
  db_wf d -> db_wf (with_journal (map f) d).
Proof.
  intros Hf Hb [Hs Hbd Ha Hc Ho Hu Hd Hk].
  assert (seq <$> map f (journal d) = seq <$> journal d) as E1.
  { rewrite <- list_fmap_compose. apply list_fmap_ext. intros i r _. apply Hf. }
  assert (oseq_key <$> map f (journal d) = oseq_key <$> journal d) as E2.
  { rewrite <- list_fmap_compose. apply list_fmap_ext. intros i r _. simpl.
    destruct (Hf r) as (_ & E & E' & _). unfold oseq_key. by rewrite E, E'. }
  assert (omap dedup_key (map f (journal d)) = omap dedup_key (journal d)) as E3.
  { clear -Hf. induction (journal d) as [|r j IH]; simpl; [done|].
    destruct (Hf r) as (_ & _ & _ & E). rewrite E.
    destruct (dedup_key r); [f_equal|]; exact IH. }
  split; simpl; rewrite ?E1, ?E2, ?E3; try done.
  - apply List.Forall_map. eapply Forall_impl; [exact Hbd|]. cbn beta. intros r.
    destruct (Hf r) as (-> & _). done.
  - apply List.Forall_map. eapply Forall_impl; [exact Ho|]. cbn beta. intros r.
    destruct (Hf r) as (_ & -> & -> & _). done.
  - apply List.Forall_map. eapply Forall_impl; [exact Hk|]. auto.
Qed.

Lemma update_pending_keys s f r :
  (forall c, run_id (f c) = run_id c /\ probe_id (f c) = probe_id c /\ check_seq (f c) = check_seq c) ->
  same_keys r (update_pending s f r).
Proof.
  intros Hf. unfold update_pending, same_keys, dedup_key.
  destruct (jbody r) as [c|?|? ? ?|? ? ?] eqn:E; rewrite ?E; try done.
  destruct (_ && _); simpl; rewrite ?E; [|done].
  destruct (Hf c) as (-> & -> & ->). done.
Qed.

Lemma update_pending_ok s f r :
  (forall c, delivery_state c = 0 -> cols_ok c -> cols_ok (f c)) ->
  body_ok (jbody r) -> body_ok (jbody (update_pending s f r)).
Proof.
  intros Hf. unfold update_pending. destruct (jbody r) as [c|?|? ? ?|? ? ?] eqn:E; rewrite ?E; try done.
  destruct (_ && _) eqn:Ec; simpl; rewrite ?E; [|done]. zify_bool. intros. by apply Hf.
Qed.

Lemma settle_ok state now reason c :
  (state = 1 /\ reason = None \/ state = 2 /\ reason <> None) ->
  cols_ok c -> cols_ok (settle state now reason c).
Proof. intros [[-> ->]|[-> Hr]] (? & ? & ? & ? & ? & ?); unfold cols_ok; simpl; done. Qed.

Lemma bump_ok c : cols_ok c -> cols_ok (bump_attempts c).
Proof. done. Qed.

(** Rows may go, in any selection. *)
Lemma sublist_wf j d :
  sublist j (journal d) -> db_wf d -> db_wf (with_journal (fun _ => j) d).
Proof.
  intros Hf [Hs Hbd Ha Hc Ho Hu Hd Hk].
  split; simpl; try done; try by eapply sublist_Forall.
  - eapply sublist_StronglySorted; [|exact Hs]. by apply sublist_fmap'.
  - eapply sublist_NoDup; [exact Hu|]. by apply sublist_fmap'.
  - eapply sublist_NoDup; [exact Hd|]. by apply sublist_omap.
Qed.

(** ** Every operation keeps the invariant *)

Lemma run_ok {A} (m : sql A) fs d a d' fs' : m fs d = (Ok a, d', fs') -> run m fs d = d'.
Proof. unfold run. by intros ->. Qed.

(** A stored latency is a non-negative int64. *)
Lemma round_int64_range f us : round_int64 f = Some us -> 0 <= us <= max_int64.
Proof.
  unfold round_int64, max_int64. destruct f as [s|s| |s m e]; try done; [intros [= <-]; lia|].
  destruct (Z.leb_spec (2 ^ 63) (if 0 <=? e then Z.shiftl (Z.pos m) e
    else Z.shiftr (Z.pos m + Z.shiftl 1 (- e - 1)) (- e))) as [?|Hlt]; [done|].
  intros [= <-]. split; [|lia]. destruct (0 <=? e).
  - apply Z.shiftl_nonneg. lia.
  - apply Z.shiftr_nonneg. pose proof (proj2 (Z.shiftl_nonneg 1 (- e - 1))). lia.
Qed.

Lemma latencyMicros_range ms us : fst (latencyMicros ms) = Some us -> 0 <= us <= max_int64.
Proof.
  unfold latencyMicros. destruct ms as [f|]; [|done]. destruct (_ || _); [done|].
  destruct (round_int64 _) eqn:E; [|done]. intros [= <-]. by eapply round_int64_range.
Qed.

Lemma result_cols_ok r : ids_empty r = false -> cols_ok (result_cols r).
Proof.
  unfold ids_empty. intros [H1 H2]%orb_false_iff. apply bool_decide_eq_false in H1, H2.
  unfold cols_ok, result_cols. simpl. split_and!; try done.
  - destruct (Z.ltb_spec (r_Seq (res r)) 1); lia.
  - destruct (r_Ok (res r)); auto.
  - apply latencyMicros_range.
Qed.

Lemma record_loop_wf burn o n now rs start s fs d s' d' fs' :
  db_wf d -> sequences d !! o = Some n -> n <= max_int64 ->
  1 <= start -> start + Z.of_nat (length rs) <= n ->
  record_loop burn o start now rs s fs d = (Ok s', d', fs') ->
  db_wf d' /\ sequences d' = sequences d.
Proof.
  revert start s fs d. induction rs as [|r rs IH]; intros start s fs d Hwf Hn Hm H1 Hl H;
    cbn [record_loop length] in *.
  - sql_step H. done.
  - rewrite int_add_small in H by (unfold in_int64, min_int64; lia).
    destruct (ids_empty r) eqn:Er.
    + eapply IH in H; eauto; lia.
    + sql_step H. apply insert_result_wf with (n := n) in E as [Hwf' Hs];
        [|done|done|lia|by apply result_cols_ok].
      apply IH in H as [Hd' Hs']; [|done|by rewrite Hs|done|lia|lia].
      split; [done|congruence].
Qed.

Lemma RecordResults_wf burn o now rs fs d :
  db_wf d -> room o (Z.of_nat (length rs)) d -> db_wf (run (RecordResults burn o now rs) fs d).
Proof.
  intros Hwf Hr. unfold RecordResults. destruct rs as [|r rs]; [done|].
  match goal with |- db_wf (run (tx ?a ?b ?m) _ _) =>
    destruct (tx_run_cases a b m fs d) as [->|(s & fs1 & fs2 & dd & H & ->)]; [done|] end.
  remember (r :: rs) as l eqn:El. clear El r rs. sql_step H.
  apply nextOriginSeq_wf in E as (Hwf' & Hs & Ha & H1 & Hc & _); [|done|done].
  unfold room in Hr. rewrite <- Ha in Hr.
  eapply record_loop_wf in H as [? _]; [done|done|by rewrite Hs, lookup_insert_eq|done|done|lia].
Qed.

Lemma queueTriggerTx_frame ev n at_ fs d u d' fs' :
  queueTriggerTx ev n at_ fs d = (Ok u, d', fs') ->
  exists f, d' = with_pending f d.
Proof.
  unfold queueTriggerTx. destruct (snapshot_encodable _); [|done]. intros H.
  sql_step H. eauto.
Qed.

(** The journal side does not see the projections. *)
Lemma proj_wf d d' :
  journal d' = journal d -> journal_autoinc d' = journal_autoinc d -> sequences d' = sequences d ->
  db_wf d -> db_wf d'.
Proof. intros E1 E2 E3 []. split; rewrite ?E1, ?E2, ?E3; done. Qed.

Lemma RecordTrigger_wf o now ev fs d :
  db_wf d -> room o 1 d -> db_wf (run (RecordTrigger o now ev) fs d).
Proof.
  intros Hwf Hr. unfold RecordTrigger.
  destruct (negb (trigger_event_ok ev)); [done|]. destruct (negb (snapshot_encodable _)); [done|].
  match goal with |- db_wf (run (tx ?a ?b ?m) _ _) =>
    destruct (tx_run_cases a b m fs d) as [->|(s & fs1 & fs2 & dd & H & ->)]; [done|] end.
  sql_step H. assert (d0 = d) as ->.
  { unfold triggerAlreadySeenTx in E. repeat sql_step E.
    destruct (completed_triggers _ !! _); repeat sql_step E; [done|].
    destruct (pending_triggers _ !! _); by repeat sql_step E. }
  destruct a.
  - sql_step H. congruence.
  - sql_step H. apply nextOriginSeq_wf in E0 as (Hwf' & Hs & Ha & H1 & Hc & _); [|done|done].
    sql_step H. sql_step H. sql_step H.
    apply queueTriggerTx_frame in E1 as [f ->].
    eapply insert_row_wf in E0 as (Hd & _); [..|done|by rewrite Hs, lookup_insert_eq|lia|done|done].
    by eapply proj_wf, Hd.
Qed.

Lemma completeTriggerTx_frame p r at_ fs d u d' fs' :
  completeTriggerTx p r at_ fs d = (Ok u, d', fs') ->
  journal d' = journal d /\ journal_autoinc d' = journal_autoinc d /\ sequences d' = sequences d.
Proof. unfold completeTriggerTx. intros H. by repeat sql_step H. Qed.

Lemma complete_one_wf o now t count fs d u d' fs' :
  db_wf d -> room o (1 + count) d -> 0 <= count ->
  complete_one o now t fs d = (Ok u, d', fs') -> db_wf d' /\ room o count d'.
Proof.
  intros Hwf Hr Hc H. unfold complete_one in H. repeat sql_step H.
  match goal with E : nextOriginSeq _ _ _ ?d0 = _ |- _ => assert (db_wf d0) as Hwf0 by by apply (proj_wf d) end.
  apply nextOriginSeq_wf in E as (Hwf' & Hs & Ha & H1 & _ & _); [|done|unfold room in *; simpl; lia].
  simpl in *. eapply insert_row_wf in E0 as (Hd & Es & _); [..|done|by rewrite Hs, lookup_insert_eq|lia|done|done].
  split; [by apply (proj_wf d1)|]. unfold room in *. simpl.
  rewrite Es, Hs, lookup_insert_eq. simpl. lia.
Qed.

Lemma CompleteTriggers_wf o now ts fs d :
  db_wf d -> room o (Z.of_nat (length ts)) d -> db_wf (run (CompleteTriggers o now ts) fs d).
Proof.
  intros Hwf Hr. unfold CompleteTriggers. destruct ts as [|t ts]; [done|].
  match goal with |- db_wf (run (tx ?a ?b ?m) _ _) =>
    destruct (tx_run_cases a b m fs d) as [->|(s & fs1 & fs2 & dd & H & ->)]; [done|] end.
  revert H Hwf Hr. generalize (t :: ts) as l. clear t ts. intros l. revert fs1 d.
  induction l as [|t l IH]; intros fs1 d H Hwf Hr; cbn [sql_for length] in *.
  - by sql_step H.
  - sql_step H. apply complete_one_wf with (count := Z.of_nat (length l)) in E as [Hd Hd'];
      [|done|unfold room in *; lia|lia].
    by eapply IH.
Qed.

(** Statements on the projections alone. *)
Definition same_journal (d d' : database) : Prop :=
  journal d' = journal d /\ journal_autoinc d' = journal_autoinc d /\ sequences d' = sequences d.

Lemma applyAssignmentTx_frame snaps b fs d u d' fs' :
  applyAssignmentTx snaps b fs d = (Ok u, d', fs') -> same_journal d d'.
Proof.
  unfold applyAssignmentTx. intros H. sql_step H.
  assert (d0 = d) as -> by (destruct b; by sql_prim E).
  sql_step H.
  assert (same_journal d (with_probes (fun _ => ∅) d)) as H0 by done.
  revert H0. eapply (sql_for_ok (fun d1 d2 => same_journal d d1 -> same_journal d d2)) in H;
    [done|auto|auto|].
  intros s _ fs1 d1 v d2 fs2 Hs (J1 & J2 & J3). cbv beta in Hs.
  destruct (snapshot_encodable s); [|done].
  sql_prim Hs. unfold insert_probe in Hs. destruct (probes_t d1 !! ID s); [done|].
  injection Hs as _ <-. done.
Qed.

Lemma SaveAssignment_wf o now hash snaps fs d :
  db_wf d -> room o 1 d -> db_wf (run (SaveAssignment o now hash snaps) fs d).
Proof.
  intros Hwf Hr. unfold SaveAssignment. destruct (decide _); [done|].
  destruct (negb (forallb _ _)); [done|].
  match goal with |- db_wf (run (tx ?a ?b ?m) _ _) =>
    destruct (tx_run_cases a b m fs d) as [->|(s & fs1 & fs2 & dd & H & ->)]; [done|] end.
  sql_step H. apply nextOriginSeq_wf in E as (Hwf' & Hs & Ha & H1 & _ & _); [|done|done].
  sql_step H. sql_step H. sql_step H.
  eapply insert_row_wf in E as (Hd & _); [..|done|by rewrite Hs, lookup_insert_eq|lia|done|done].
  apply applyAssignmentTx_frame in E0 as (J1 & J2 & J3).
  by apply (proj_wf d1).
Qed.

Lemma mark_outcome_keeps now x : keeps db_wf (mark_outcome now x).
Proof.
  unfold mark_outcome. keeps_steps; intros d Hd.
  - apply map_rows_wf; [|intros r; apply update_pending_ok|done].
    + intros r. by apply update_pending_keys.
    + intros c _. apply settle_ok. auto.
  - apply map_rows_wf; [|intros r; apply update_pending_ok|done].
    + intros r. by apply update_pending_keys.
    + intros c _. apply settle_ok. auto.
Qed.

Lemma MarkOutcomes_keeps now xs : keeps db_wf (MarkOutcomes now xs).
Proof. unfold MarkOutcomes. keeps_steps. apply mark_outcome_keeps. Qed.

Lemma MarkAttempts_keeps seqs : keeps db_wf (MarkAttempts seqs).
Proof.
  unfold MarkAttempts. keeps_steps. intros d Hd. apply map_rows_wf; [..|done].
  - intros r. unfold attempt_row. destruct (bool_decide _); [|done]. by apply update_pending_keys.
  - intros r. unfold attempt_row. destruct (bool_decide _); [|done].
    apply update_pending_ok. auto using bump_ok.
Qed.

Lemma frame_keeps e f :
  (forall d, same_journal d (f d)) -> keeps db_wf (exec e f).
Proof. intros Hf. apply keeps_exec. intros d Hd. destruct (Hf d) as (?&?&?). by apply (proj_wf d). Qed.

Lemma MarkProbesRun_keeps ids at_ : keeps db_wf (MarkProbesRun ids at_).
Proof. unfold MarkProbesRun. keeps_steps. intros d Hd. by apply (proj_wf d). Qed.

Lemma keeps_ignore {A} P (m : sql A) : keeps P m -> keeps P (sql_ignore m).
Proof.
  intros Hm fs d Hd. specialize (Hm fs d Hd). unfold run, sql_ignore in *.
  by destruct (m fs d) as [[? ?] ?].
Qed.

Lemma PendingTriggers_keeps : keeps db_wf PendingTriggers.
Proof.
  unfold PendingTriggers. keeps_steps. apply keeps_ignore, keeps_exec.
  intros d Hd. by apply (proj_wf d).
Qed.

Lemma keeps_insert_probe existing s d u d' :
  insert_probe existing s d = Some (u, d') -> same_journal d d'.
Proof. unfold insert_probe. by destruct (probes_t d !! ID s); intros; simplify_eq. Qed.

Lemma applyAssignmentTx_keeps snaps b : keeps db_wf (applyAssignmentTx snaps b).
Proof.
  unfold applyAssignmentTx. keeps_steps; try (intros d Hd; by apply (proj_wf d)).
  apply keeps_stmt. intros d u d' Hd (?&?&?)%keeps_insert_probe. by apply (proj_wf d).
Qed.

Lemma rebuild_row_keeps r : keeps db_wf (rebuild_row r).
Proof.
  unfold rebuild_row, queueTriggerTx, completeTriggerTx.
  keeps_steps; try apply applyAssignmentTx_keeps; intros d Hd; by apply (proj_wf d).
Qed.

Lemma Rebuild_keeps : keeps db_wf Rebuild.
Proof.
  unfold Rebuild. keeps_steps; try apply rebuild_row_keeps; intros d Hd; by apply (proj_wf d).
Qed.

(** *** Maintenance *)

Lemma delete_first_sublist n p j : sublist (fst (delete_first n p j)) j.
Proof.
  revert n. induction j as [|r j IH]; intros n; simpl; [done|].
  destruct n as [|n]; [done|]. destruct (p r).
  - specialize (IH n). destruct (delete_first n p j). simpl in *. by constructor.
  - specialize (IH (S n)). destruct (delete_first (S n) p j). simpl in *. by constructor.
Qed.

Lemma delete_rows_wf p d k d' : db_wf d -> delete_rows p d = (k, d') -> db_wf d'.
Proof.
  intros Hd. unfold delete_rows. pose proof (delete_first_sublist pruneChunk (p d) (journal d)) as Hs.
  destruct (delete_first _ _ _) as [j n]. intros [= <- <-]. by apply sublist_wf.
Qed.

Lemma collapse_wf d k d' : db_wf d -> collapse_assignments d = (k, d') -> db_wf d'.
Proof. intros Hd [= <- <-]. apply sublist_wf; [apply sublist_filter|done]. Qed.

Lemma upsert_frame k a d u d' : upsert_rollup k a d = Some (u, d') -> same_journal d d'.
Proof.
  unfold upsert_rollup. destruct (rollups d !! k); [|by intros; simplify_eq].
  intros (m & _ & H)%bind_Some. by simplify_eq.
Qed.

Section maint.
Context (iterate : gmap rollupKey rollupRow_ -> list (rollupKey * rollupRow_)).
Context (others : database -> database).
Hypothesis others_wf : forall d, db_wf d -> db_wf (others d).
Context (live_bytes : nat -> database -> Z).

Lemma writeRollups_keeps m a n : keeps db_wf (writeRollups iterate m a n).
Proof.
  unfold writeRollups. keeps_steps.
  - apply keeps_stmt. intros d u d' Hd (?&?&?)%upsert_frame. by apply (proj_wf d).
  - intros d Hd. by apply (proj_wf d).
Qed.

Lemma rollup_loop_keeps fuel after total moves :
  keeps db_wf (rollup_loop iterate others fuel after total moves).
Proof.
  revert after total moves. induction fuel as [|fuel IH]; intros after total moves; cbn [rollup_loop].
  - apply keeps_fail.
  - unfold readRollupChunk, metaInt_cursor.
    keeps_steps; try apply IH; try apply writeRollups_keeps.
    intros fs d Hd. by apply others_wf.
Qed.

Lemma prune_loop_keeps fuel cutoff n : keeps db_wf (prune_loop fuel cutoff n).
Proof.
  revert n. induction fuel as [|fuel IH]; intros n; cbn [prune_loop]; unfold ctx_err;
    keeps_steps; try apply IH; try done.
  apply keeps_stmt. intros d k d' Hd [= E]. by eapply delete_rows_wf.
Qed.

Lemma size_loop_keeps n i mx st : keeps db_wf (size_loop live_bytes n i mx st).
Proof.
  revert i st. induction n as [|n IH]; intros i st; cbn [size_loop]; cbv zeta;
    unfold ctx_err, liveBytes; keeps_steps; try apply IH; try done;
    apply keeps_stmt; intros d k d' Hd [= E].
  - by eapply delete_rows_wf.
  - subst. by apply (proj_wf d).
Qed.

Lemma Maintain_keeps fuel opts : keeps db_wf (Maintain iterate others live_bytes fuel opts).
Proof.
  unfold Maintain, rollupResults, metaInt_cursor, liveBytes. cbv zeta.
  keeps_steps; try apply rollup_loop_keeps; try apply prune_loop_keeps; try apply size_loop_keeps;
    apply keeps_stmt; intros d k d' Hd [= E].
  - subst. by apply (proj_wf d).
  - subst. apply sublist_wf; [apply sublist_filter|done].
Qed.
End maint.

(** ** The reachable databases *)

(** One call of the agent on an open store, under any statement faults;
    other processes may maintain the same file meanwhile. *)
Inductive store_step (burn : bool) (o : string) : database -> database -> Prop :=
| st_results now rs fs d :
    room o (Z.of_nat (length rs)) d ->
    store_step burn o d (run (RecordResults burn o now rs) fs d)
| st_trigger now ev fs d :
    room o 1 d -> store_step burn o d (run (RecordTrigger o now ev) fs d)
| st_complete now ts fs d :
    room o (Z.of_nat (length ts)) d ->
    store_step burn o d (run (CompleteTriggers o now ts) fs d)
| st_assign now hash snaps fs d :
    room o 1 d -> store_step burn o d (run (SaveAssignment o now hash snaps) fs d)
| st_outcomes now xs fs d : store_step burn o d (run (MarkOutcomes now xs) fs d)
| st_attempts seqs fs d : store_step burn o d (run (MarkAttempts seqs) fs d)
| st_ran ids t fs d : store_step burn o d (run (MarkProbesRun ids t) fs d)
| st_pending fs d : store_step burn o d (run PendingTriggers fs d)
| st_rebuild fs d : store_step burn o d (run Rebuild fs d)
| st_maintain iterate others live_bytes fuel opts fs d :
    (forall x, db_wf x -> db_wf (others x)) ->
    (forall x, quiet_moves (log_of x) (log_of (others x))) ->
    store_step burn o d (run (Maintain iterate others live_bytes fuel opts) fs d).

Lemma empty_db_wf : db_wf empty_db.
Proof.
  split; simpl; try apply List.Forall_nil; try apply NoDup_nil_2; [constructor|lia|].
  apply map_Forall_empty.
Qed.

Lemma store_step_wf burn o d d' : store_step burn o d d' -> db_wf d -> db_wf d'.
Proof.
  destruct 1; intros Hwf.
  - by apply RecordResults_wf.
  - by apply RecordTrigger_wf.
  - by apply CompleteTriggers_wf.
  - by apply SaveAssignment_wf.
  - by apply MarkOutcomes_keeps.
  - by apply MarkAttempts_keeps.
  - by apply MarkProbesRun_keeps.
  - by apply PendingTriggers_keeps.
  - by apply Rebuild_keeps.
  - by apply Maintain_keeps.
Qed.

(** C31: In every database the agent's calls can reach, whatever statements fail
    on the way, the journal is in strictly increasing sequence order below
    the AUTOINCREMENT counter, no two rows share an origin sequence number
    and all of them lie below the origin's counter, no result is stored
    twice, and every result's delivery record agrees with its state. *)
Theorem store_reachable_wf burn o d : rtc (store_step burn o) empty_db d -> db_wf d.
Proof.
  intros H. generalize empty_db_wf. revert H. generalize empty_db as d0.
  induction 1; eauto using store_step_wf.
Qed.
