(* ===== verification/StoreDemo.v ===== *)
(** * A small concrete store

    A database built by the store's own operations: one assignment, one
    trigger, three results.  The other store files instantiate their
    theorems on it. *)

From Stdlib Require Import ZArith Lia List Bool Ascii String.
From stdpp Require Import base tactics gmap strings list fin_maps relations.
From S2P Require Import Prelude Wire Sql Store StoreMaint Journal StoreWf.
Local Open Scope string_scope.
Local Open Scope Z_scope.

Definition demo_probe (id : string) : ProbeSnapshot :=
  mkSnapshot id "example.org" "tcp" 1 1000 "interval" 60 0 0 [] "active".

Definition demo_event : Event := mkEvent 1 "triggered" (demo_probe "a") "run1".

Definition demo_check (n : Z) (good : bool) : CheckResult :=
  mkCheckResult false good "tcp" "example.org" n (Some (float_of_Z 12)) "" "" [].

(** Two real results, a repetition of the first, and one without ids. *)
Definition demo_results : list Result :=
  [mkResult "run1" "a" (demo_check 1 true) None; mkResult "run1" "a" (demo_check 2 false) None;
   mkResult "run1" "a" (demo_check 1 true) None; mkResult "" "a" (demo_check 1 true) None].

Definition demo_assigned : database :=
  run (SaveAssignment "node" 1000 "h1" [demo_probe "a"]) [] empty_db.
Definition demo_triggered : database := run (RecordTrigger "node" 1500 demo_event) [] demo_assigned.
Definition demo_db : database := run (RecordResults false "node" 2000 demo_results) [] demo_triggered.

Lemma demo_db_reachable : rtc (store_step false "node") empty_db demo_db.
Proof.
  eapply rtc_l; [apply (st_assign _ _ 1000 "h1" [demo_probe "a"] []); by vm_compute|].
  eapply rtc_l; [apply (st_trigger _ _ 1500 demo_event []); by vm_compute|].
  eapply rtc_l; [apply (st_results _ _ 2000 demo_results []); by vm_compute|].
  apply rtc_refl.
Qed.

Lemma reachable_wf burn o d d' : rtc (store_step burn o) d d' -> db_wf d -> db_wf d'.
Proof. induction 1; eauto using store_step_wf. Qed.

Lemma demo_db_wf : db_wf demo_db.
Proof. exact (reachable_wf _ _ _ _ demo_db_reachable empty_db_wf). Qed.

Lemma demo_triggered_wf : db_wf demo_triggered.
Proof.
  assert (rtc (store_step false "node") empty_db demo_triggered) as H.
  { eapply rtc_l; [apply (st_assign _ _ 1000 "h1" [demo_probe "a"] []); by vm_compute|].
    eapply rtc_l; [apply (st_trigger _ _ 1500 demo_event []); by vm_compute|]. apply rtc_refl. }
  exact (reachable_wf _ _ _ _ H empty_db_wf).
Qed.

Lemma demo_room : room "node" (2 * Z.of_nat (length demo_results)) demo_triggered.
Proof. by vm_compute. Qed.

(** The journal the three calls leave: assignment, trigger, two results. *)
Example demo_journal :
  map (fun r => (seq r, origin_seq r, dedup_key r)) (journal demo_db) =
  [(1, 1, None); (2, 2, None);
   (3, 3, Some ("node", "run1", "a", 1)); (4, 4, Some ("node", "run1", "a", 2))].
Proof. vm_compute. reflexivity. Qed.

Example demo_store_summary :
  fst (fst (RecordResults false "node" 2000 demo_results [] demo_triggered))
  = Ok (mkSummary 2 1 1 0 0).
Proof. vm_compute. reflexivity. Qed.

(** The second page row's outcomes: the first accepted, the second refused. *)
Definition demo_outcomes : list Outcome := [mkOutcome 3 true ""; mkOutcome 4 false "too_old"].

Definition demo_settled : database := run (MarkOutcomes 3000 demo_outcomes) [] demo_db.

Definition demo_row (i : nat) : jrow :=
  default (mkRow 0 "" 0 0 (BAssignment Corrupt)) (journal demo_db !! i).

(** An aggressive maintenance run: nothing is young, nothing fits. *)
Definition demo_maintain : sql MaintainStats :=
  Maintain map_to_list (fun x => x) (fun _ _ => 100) 100 (mkMaintain (Some 9000) 1).

Lemma store_reachable_wf_witness :
  rtc (store_step false "node") empty_db demo_db /\ db_wf demo_db.
Proof.
  split; [exact demo_db_reachable|].
  exact (store_reachable_wf false "node" demo_db demo_db_reachable).
Defined.
