(* ===== verification/StoreResults.v ===== *)
(** * Results in the node store: recording, reading, settling

    Theorems about [RecordResults], [PendingResults], [MarkOutcomes] and
    [MarkAttempts] of [internal/store/results.go]. *)

From Stdlib Require Import ZArith Lia List Bool Ascii String Sorted.
From stdpp Require Import base tactics gmap strings list fin_maps sorting.
From S2P Require Import Prelude Wire Sql Store StoreMaint Journal StoreWf StoreDemo.

(** ** Recording *)

(** The deduplication key of a result recorded by [o]. *)
Definition result_key (o : string) (r : Result) : string * string * string * Z :=
  (o, RunID r, ProbeID r, if r_Seq (res r) <? 1 then 1 else r_Seq (res r)).

(** Every origin sequence number of [o] is below [n]. *)
Definition below (o : string) (n : Z) (j : list jrow) : Prop :=
  Forall (fun r => origin r = o -> origin_seq r < n) j.

(** The row [RecordResults] writes for [r]. *)
Definition is_row_of (o : string) (now : Z) (r : Result) (row : jrow) : Prop :=
  origin row = o /\ at_ms row = observedAtMS (ObservedAt r) now
  /\ jbody row = BResult (result_cols r).

Lemma below_fresh o n j : below o n j -> origin_seq_taken o n j = false.
Proof.
  intros H. apply not_true_iff_false. rewrite origin_seq_taken_spec.
  intros (r & [= E1 E2] & Hin)%list_elem_of_fmap. unfold below in H. rewrite Forall_forall in H.
  specialize (H r Hin (eq_sym E1)). lia.
Qed.

Lemma below_mono o n m j : n <= m -> below o n j -> below o m j.
Proof.
  intros Hnm H. eapply Forall_impl; [exact H|]. cbn beta. intros r Hr Ho. specialize (Hr Ho). lia.
Qed.

Lemma insert_result_cases burn o n at_ c d k d' :
  below o n (journal d) -> insert_result burn o n at_ c d = Some (k, d') ->
  let key := (o, run_id c, probe_id c, check_seq c) in
  (k = 0 /\ journal d' = journal d /\ key ∈ omap dedup_key (journal d))
  \/ (k = 1 /\ journal d' = journal d ++ [mkRow (journal_autoinc d + 1) o n at_ (BResult c)]).
Proof.
  intros Hb H. cbv zeta. unfold insert_result in H.
  destruct (max_int64 <=? journal_autoinc d); [done|].
  rewrite (below_fresh _ _ _ Hb) in H. cbn [orb] in H.
  destruct (result_taken _ _ _ _ _) eqn:E; injection H as <- <-.
  - left. apply result_taken_spec in E. by destruct burn.
  - right. done.
Qed.

Lemma record_loop_spec burn o now rs start s fs d s' d' fs' :
  below o start (journal d) -> start + Z.of_nat (length rs) <= max_int64 -> 0 <= start ->
  record_loop burn o start now rs s fs d = (Ok s', d', fs') ->
  exists new,
    journal d' = journal d ++ new
    /\ Inserted s' = Inserted s + Z.of_nat (length new)
    /\ Inserted s' + Duplicates s' + Skipped s'
       = Inserted s + Duplicates s + Skipped s + Z.of_nat (length rs)
    /\ Skipped s' = Skipped s + Z.of_nat (length (List.filter ids_empty rs))
    /\ Forall (fun row => exists r, r ∈ rs /\ ids_empty r = false /\ is_row_of o now r row) new
    /\ forall r, r ∈ rs -> ids_empty r = false ->
         result_key o r ∈ omap dedup_key (journal d').
Proof.
  revert start s fs d. induction rs as [|r rs IH]; intros start s fs d Hb Hm H0 H;
    cbn [record_loop length List.filter] in *.
  - sql_step H. exists []. rewrite app_nil_r. simpl. split_and!; try done; try lia.
    intros r Hr. by apply not_elem_of_nil in Hr.
  - rewrite int_add_small in H by (unfold in_int64, min_int64; lia).
    destruct (ids_empty r) eqn:Er.
    + apply IH in H as (new & J & I & A & Sk & F & K); [|by eapply below_mono, Hb; lia|lia|lia].
      exists new. simpl in *. split_and!; try done; try lia.
      * eapply Forall_impl; [exact F|]. intros row (r' & Hin & ?). exists r'. by split; [right|].
      * intros r' [->|Hr']%elem_of_cons Hi; [congruence|auto].
    + sql_step H. apply insert_result_cases in E as [(-> & J1 & Kin)|(-> & J1)]; [..|done].
      * apply IH in H as (new & J & I & A & Sk & F & K); [|rewrite J1; by eapply below_mono, Hb; lia|lia|lia].
        exists new. unfold summary_add in *. simpl in *. rewrite J1 in *. split_and!; try done; try lia.
        -- eapply Forall_impl; [exact F|]. intros row (r' & Hin & ?). exists r'. by split; [right|].
        -- intros r' [->|Hr']%elem_of_cons Hi; [|auto].
           rewrite J, omap_app. apply elem_of_app. left. exact Kin.
      * apply IH in H as (new & J & I & A & Sk & F & K); [|rewrite J1|lia|lia].
        2:{ apply Forall_app. split; [by eapply below_mono, Hb; lia|].
            repeat constructor. simpl. lia. }
        eexists (_ :: new). rewrite J, J1, <- app_assoc. unfold summary_add in *. simpl in *.
        split_and!; [done|lia|lia|lia| |].
        -- constructor; [exists r; split_and!; [left|done..]|].
           eapply Forall_impl; [exact F|]. intros row (r' & Hin & ?). exists r'. by split; [right|].
        -- intros r' [->|Hr']%elem_of_cons Hi.
           ++ rewrite !omap_app. apply elem_of_app. right. simpl. left.
           ++ specialize (K r' Hr' Hi). rewrite J, J1, <- app_assoc in K. exact K.
Qed.

Lemma wf_below d o n : db_wf d -> sequences d !! o = Some n -> below o n (journal d).
Proof.
  intros Hwf Hn. eapply Forall_impl; [exact (wf_oseq _ Hwf)|]. cbn beta.
  intros r (m & Em & Hm) Ho. rewrite Ho, Hn in Em. injection Em as <-. lia.
Qed.

Lemma wf_below_None d o : db_wf d -> sequences d !! o = None -> below o 1 (journal d).
Proof.
  intros Hwf Hn. eapply Forall_impl; [exact (wf_oseq _ Hwf)|]. cbn beta.
  intros r (m & Em & Hm) Ho. rewrite Ho, Hn in Em. done.
Qed.

Lemma wf_below_default d o :
  db_wf d -> below o (default 1 (sequences d !! o)) (journal d).
Proof.
  intros Hwf. destruct (sequences d !! o) eqn:E; simpl; [by eapply wf_below|by eapply wf_below_None].
Qed.

Lemma RecordResults_ok burn o now rs fs d s d' fs' :
  db_wf d -> room o (Z.of_nat (length rs)) d ->
  RecordResults burn o now rs fs d = (Ok s, d', fs') ->
  exists new,
    journal d' = journal d ++ new
    /\ Inserted s = Z.of_nat (length new)
    /\ Inserted s + Duplicates s + Skipped s = Z.of_nat (length rs)
    /\ Skipped s = Z.of_nat (length (List.filter ids_empty rs))
    /\ Forall (fun row => exists r, r ∈ rs /\ ids_empty r = false /\ is_row_of o now r row) new
    /\ forall r, r ∈ rs -> ids_empty r = false ->
         result_key o r ∈ omap dedup_key (journal d').
Proof.
  intros Hwf Hr H. unfold RecordResults in H. destruct rs as [|r0 rs].
  - sql_step H. exists []. rewrite app_nil_r. simpl. split_and!; try done.
    intros r Hin. by apply not_elem_of_nil in Hin.
  - apply tx_ok in H as (fs1 & fs2 & H). remember (r0 :: rs) as l eqn:El. clear El r0 rs.
    sql_step H. apply nextOriginSeq_wf in E as (Hwf' & Hs & Ha & H1 & Hc & Ed); [|done|done].
    unfold room in Hr. rewrite <- Ha in Hr.
    apply record_loop_spec in H as (new & J & I & A & Sk & F & K); [|..|lia|lia].
    + rewrite Ed in J. exists new. simpl in *. split_and!; try done; lia.
    + rewrite Ed. simpl. rewrite Ha. by apply wf_below_default.
Qed.

(** A recorded batch is accounted for exactly: every result with ids is
    either appended to the journal, once, with the columns and time of the
    result, or already there under the same (run, probe, check); results
    without ids are skipped; the three counters sum to the batch. *)
Theorem record_results_spec burn o now rs fs d s d' fs' :
  db_wf d -> room o (Z.of_nat (length rs)) d ->
  RecordResults burn o now rs fs d = (Ok s, d', fs') ->
  Inserted s + Duplicates s + Skipped s = Z.of_nat (length rs)
  /\ Skipped s = Z.of_nat (length (List.filter ids_empty rs))
  /\ (exists new, journal d' = journal d ++ new /\ Inserted s = Z.of_nat (length new)
      /\ Forall (fun row => exists r, r ∈ rs /\ ids_empty r = false /\ is_row_of o now r row) new)
  /\ (forall r, r ∈ rs -> ids_empty r = false ->
        exists row, row ∈ journal d' /\ dedup_key row = Some (result_key o r)).
Proof.
  intros Hwf Hr H. apply RecordResults_ok in H as (new & J & I & A & Sk & F & K); [|done|done].
  split_and!; [done|done|eauto|]. intros r Hin Hi. specialize (K r Hin Hi).
  apply list_elem_of_omap in K as (row & ? & ?). eauto.
Qed.

Lemma RecordResults_run_ok burn o now rs fs d s d' fs' :
  RecordResults burn o now rs fs d = (Ok s, d', fs') -> run (RecordResults burn o now rs) fs d = d'.
Proof. apply run_ok. Qed.

(** C12: Replaying a recorded batch, at any later time and under any faults,
    inserts nothing: if it succeeds it reports no insertion and leaves the
    journal as it was; if it fails it changes nothing at all. *)
Theorem record_results_idempotent burn o now now' rs fs fs2 d s d' fs' :
  db_wf d -> room o (2 * Z.of_nat (length rs)) d ->
  RecordResults burn o now rs fs d = (Ok s, d', fs') ->
  match RecordResults burn o now' rs fs2 d' with
  | (Ok s2, d2, _) =>
      Inserted s2 = 0 /\ Duplicates s2 = Inserted s + Duplicates s /\ journal d2 = journal d'
  | (Err _, d2, _) => d2 = d'
  end.
Proof.
  intros Hwf Hr H. set (n := Z.of_nat (length rs)) in *.
  assert (db_wf d' /\ room o n d') as [Hwf' Hr'].
  { split; [|].
    - rewrite <- (run_ok _ _ _ _ _ _ H). apply RecordResults_wf; [done|]. unfold room in *. lia.
    - unfold RecordResults in H. destruct rs as [|r0 l]; [sql_step H; unfold room in *; lia|].
      apply tx_ok in H as (fs1 & fs3 & H). remember (r0 :: l) as rs eqn:El. clear El r0 l.
      sql_step H. apply nextOriginSeq_wf in E as (Hwf' & Hs & Ha & H1 & Hc & Ed);
        [|done|unfold room in *; lia]. fold n in H, Hs, Hc, Ed.
      unfold room in Hr. rewrite <- Ha in Hr. fold n in Hr.
      apply record_loop_wf with (n := a + n) in H as [_ Hs'];
        [|done|by rewrite Hs, lookup_insert_eq|lia|lia|unfold n; lia].
      unfold room. rewrite Hs', Hs, lookup_insert_eq. simpl. lia. }
  pose proof H as H1. apply RecordResults_ok in H1 as (new & J & I & A & Sk & F & K);
    [|done|unfold room in *; lia].
  destruct (RecordResults burn o now' rs fs2 d') as [[[s2|e] d2] fs3] eqn:H2.
  - pose proof (run_ok _ _ _ _ _ _ H2) as Hrun.
    pose proof (RecordResults_wf burn o now' rs fs2 d' Hwf' Hr') as Hwf2. rewrite Hrun in Hwf2.
    apply RecordResults_ok in H2 as (new2 & J2 & I2 & A2 & Sk2 & F2 & K2); [|done|done].
    assert (new2 = []) as ->.
    { destruct new2 as [|row new2]; [done|exfalso].
      apply Forall_cons in F2 as [(r & Hin & Hi & Ho & _ & Hb) _].
      pose proof (wf_dedup _ Hwf2) as Hnd. rewrite J2, omap_app in Hnd.
      apply NoDup_app in Hnd as (_ & Hd & _). apply (Hd (result_key o r)); [by apply K|].
      apply list_elem_of_omap. exists row. split; [left|].
      unfold dedup_key. by rewrite Hb, Ho. }
    rewrite app_nil_r in J2. simpl in I2. split_and!; [done|lia|done].
  - unfold RecordResults in H2. destruct rs as [|r0 l]; [done|].
    by eapply tx_err.
Qed.

(** ** Reading pending results *)

Lemma omap_pending_of_row (rows : list jrow) (o : string) :
  Forall (fun r => is_pending o r = true) rows ->
  exists ps, omap pending_of_row rows = ps /\ pend_Seq <$> ps = seq <$> rows.
Proof.
  intros H. eexists. split; [done|]. induction H as [|r rows Hr Hrs IH]; [done|].
  simpl. unfold pending_of_row at 1. unfold is_pending in Hr.
  destruct (jbody r); try done. simpl. f_equal. exact IH.
Qed.

Lemma filter_take_split {A} (p : A -> bool) n l x :
  x ∈ List.filter p l -> x ∈ take n (List.filter p l) \/ x ∈ drop n (List.filter p l).
Proof. intros H. rewrite <- (take_drop n (List.filter p l)) in H. by apply elem_of_app in H. Qed.

(** Every entry of a page is a pending row of the journal. *)
Lemma pending_page_from o limit fs d ps d' fs' :
  PendingResults o limit fs d = (Ok ps, d', fs') ->
  d' = d /\ forall p, p ∈ ps -> exists row c, row ∈ journal d /\ is_pending o row = true
        /\ jbody row = BResult c /\ p = mkPending (seq row) (resultFromRow c (at_ms row)).
Proof.
  intros H. unfold PendingResults in H. sql_prim H. split; [done|].
  intros p (row & Hin & Hrow)%list_elem_of_omap.
  assert (row ∈ List.filter (is_pending o) (journal d)) as Hinl
    by (eapply elem_of_sublist; [exact Hin|apply sublist_take]).
  apply list_elem_of_In, filter_In in Hinl as [Hj%list_elem_of_In Hpend].
  unfold pending_of_row in Hrow. destruct (jbody row) as [c|?|? ? ?|? ? ?] eqn:Eb; try done.
  injection Hrow as <-. eauto 6.
Qed.

(** Reading undelivered results returns the oldest pending rows of this
    origin, in sequence order and at most 2000 of them; every returned
    entry is such a row's columns, and a pending row is left out only when
    the page is full and the row is newer than everything on it. *)
Theorem pending_results_spec o limit fs d ps d' fs' :
  db_wf d -> PendingResults o limit fs d = (Ok ps, d', fs') ->
  d' = d
  /\ Z.of_nat (length ps) <= pending_limit limit <= 2000
  /\ StronglySorted Z.lt (pend_Seq <$> ps)
  /\ (forall p, p ∈ ps -> exists row c, row ∈ journal d /\ is_pending o row = true
        /\ jbody row = BResult c /\ p = mkPending (seq row) (resultFromRow c (at_ms row)))
  /\ (forall row, row ∈ journal d -> is_pending o row = true ->
        seq row ∈ pend_Seq <$> ps
        \/ (Z.of_nat (length ps) = pending_limit limit /\ forall p, p ∈ ps -> pend_Seq p < seq row)).
Proof.
  intros Hwf H. destruct (pending_page_from _ _ _ _ _ _ _ H) as [_ Hfrom].
  unfold PendingResults in H. sql_prim H. set (n := Z.to_nat (pending_limit limit)). set (l := List.filter (is_pending o) (journal d)).
  assert (1 <= pending_limit limit <= 2000) as Hlim.
  { unfold pending_limit. destruct (Z.leb_spec limit 0), (Z.ltb_spec 2000 limit); simpl; lia. }
  assert (Forall (fun r => is_pending o r = true) l) as Hl.
  { apply Forall_forall. intros r Hr%list_elem_of_In. by apply filter_In in Hr as [_ ?]. }
  assert (StronglySorted Z.lt (seq <$> l)) as Hsl.
  { eapply sublist_StronglySorted; [|exact (wf_sorted _ Hwf)]. apply sublist_fmap', sublist_filter. }
  destruct (omap_pending_of_row (take n l) o) as (ps & E & Es); [by apply Forall_take|].
  rewrite E. assert (length ps = length (take n l)) as El.
  { rewrite <- (length_fmap pend_Seq ps), Es. apply length_fmap. }
  assert (n <= length l \/ length l < n)%nat as Hn by lia.
  split_and!; [done|rewrite El, length_take; lia|lia| | |].
  - rewrite Es. rewrite fmap_take. eapply sublist_StronglySorted; [|exact Hsl]. apply sublist_take.
  - rewrite <- E. exact Hfrom.
  - intros row Hrow Hpend. rewrite Es.
    assert (row ∈ l) as Hinl by (apply list_elem_of_In, filter_In; by rewrite <- list_elem_of_In).
    destruct (filter_take_split (is_pending o) n (journal d) row Hinl) as [Ht|Hd].
    + left. by apply list_elem_of_fmap_2.
    + right. assert (n <= length l)%nat as Hfull.
      { fold l in Hd. destruct Hn as [?|Hn]; [done|]. rewrite drop_ge in Hd by lia.
        by apply not_elem_of_nil in Hd. }
      split; [rewrite El, length_take; lia|]. intros p Hp.
      rewrite <- (take_drop n l), fmap_app in Hsl.
      eapply StronglySorted_app_1_elem_of; [exact Hsl| |].
      * rewrite <- Es. by apply list_elem_of_fmap_2.
      * by apply list_elem_of_fmap_2.
Qed.

(** ** Settling *)

(** The verdict that settles a row: the first outcome carrying its number. *)
Fixpoint first_outcome (s : Z) (xs : list Outcome) : option Outcome :=
  match xs with
  | [] => None
  | x :: rest => if negb (out_Seq x =? 0) && (out_Seq x =? s) then Some x else first_outcome s rest
  end.

Definition settle_with (now : Z) (x : Outcome) : resultCols -> resultCols :=
  if out_Accepted x then settle 1 now None else settle 2 now (Some (out_Reason x)).

(** What a batch of outcomes does to one row. *)
Definition settled_row (now : Z) (xs : list Outcome) (r : jrow) : jrow :=
  match first_outcome (seq r) xs with
  | Some x => update_pending (seq r) (settle_with now x) r
  | None => r
  end.

Lemma settle_with_state now x c : delivery_state (settle_with now x c) <> 0.
Proof. unfold settle_with. by destruct (out_Accepted x). Qed.

Lemma update_twice s f g r :
  (forall c, delivery_state (f c) <> 0) -> update_pending s g (update_pending s f r) = update_pending s f r.
Proof.
  intros Hf. unfold update_pending. destruct (jbody r) as [c|?|? ? ?|? ? ?] eqn:E; rewrite ?E; try done.
  destruct (_ && _) eqn:Ec; simpl; rewrite ?E; [|by rewrite Ec].
  rewrite (proj2 (Z.eqb_neq (delivery_state (f c)) 0)); [|apply Hf]. by rewrite andb_false_r.
Qed.

Lemma update_pending_other s f r : seq r <> s -> update_pending s f r = r.
Proof.
  intros H. unfold update_pending. destruct (jbody r); try done.
  by rewrite (proj2 (Z.eqb_neq _ _) H).
Qed.

Lemma mark_outcome_ok now x fs d u d' fs' :
  mark_outcome now x fs d = (Ok u, d', fs') ->
  d' = (if out_Seq x =? 0 then d
        else with_journal (map (update_pending (out_Seq x) (settle_with now x))) d).
Proof.
  unfold mark_outcome, settle_with. intros H.
  destruct (out_Seq x =? 0); [by sql_prim H|]. destruct (out_Accepted x); by sql_prim H.
Qed.

Lemma settled_row_cons now x xs r :
  settled_row now (x :: xs) r =
    settled_row now xs (if out_Seq x =? 0 then r else update_pending (out_Seq x) (settle_with now x) r).
Proof.
  unfold settled_row. simpl. destruct (Z.eqb_spec (out_Seq x) 0); simpl; [done|].
  rewrite update_pending_seq. destruct (Z.eqb_spec (out_Seq x) (seq r)) as [->|Hne].
  - destruct (first_outcome (seq r) xs); [|done].
    rewrite update_twice; [done|apply settle_with_state].
  - rewrite update_pending_other by done. done.
Qed.

Lemma mark_loop_ok now xs fs d u d' fs' :
  sql_for (mark_outcome now) xs fs d = (Ok u, d', fs') ->
  d' = with_journal (map (settled_row now xs)) d.
Proof.
  revert fs d. induction xs as [|x xs IH]; intros fs d H; cbn [sql_for] in H.
  - sql_prim H. unfold settled_row. simpl. destruct d. unfold with_journal. simpl. by rewrite map_id.
  - sql_step H. apply mark_outcome_ok in E as ->. apply IH in H as ->.
    unfold with_journal. destruct (out_Seq x =? 0) eqn:E0; simpl; f_equal.
    + apply map_ext. intros r. by rewrite settled_row_cons, E0.
    + rewrite map_map. apply map_ext. intros r. by rewrite settled_row_cons, E0.
Qed.

Lemma MarkOutcomes_ok now xs fs d u d' fs' :
  MarkOutcomes now xs fs d = (Ok u, d', fs') -> d' = with_journal (map (settled_row now xs)) d.
Proof.
  unfold MarkOutcomes. intros H. destruct xs as [|x xs].
  - sql_prim H. destruct d. unfold with_journal, settled_row. simpl. by rewrite map_id.
  - apply tx_ok in H as (fs1 & fs2 & H). by eapply mark_loop_ok.
Qed.

(** Settling a posted batch is all or nothing and touches only what it
    names: on success every pending result row takes the verdict of the
    first outcome that carries its number (delivered, or rejected with the
    server's reason), every other row and table stays as it was; on error
    nothing changes. *)
Theorem mark_outcomes_spec now xs fs d :
  match MarkOutcomes now xs fs d with
  | (Ok _, d', _) => d' = with_journal (map (settled_row now xs)) d
  | (Err _, d', _) => d' = d
  end.
Proof.
  destruct (MarkOutcomes now xs fs d) as [[[u|e] d'] fs'] eqn:H.
  - by eapply MarkOutcomes_ok.
  - unfold MarkOutcomes in H. destruct xs; [done|]. by eapply tx_err.
Qed.

(** A delivered page never comes back: once outcomes for all the results of
    a page have been settled, the next page has none of them. *)
Theorem settled_page_not_reread o now limit limit' fs1 fs2 fs3 d ps d1 fs1' xs u d2 fs2' ps' d3 fs3' :
  PendingResults o limit fs1 d = (Ok ps, d1, fs1') ->
  (forall p, p ∈ ps -> pend_Seq p <> 0 /\ exists x, x ∈ xs /\ out_Seq x = pend_Seq p) ->
  MarkOutcomes now xs fs2 d1 = (Ok u, d2, fs2') ->
  PendingResults o limit' fs3 d2 = (Ok ps', d3, fs3') ->
  forall p p', p ∈ ps -> p' ∈ ps' -> pend_Seq p <> pend_Seq p'.
Proof.
  intros H1 Hcov H2 H3 p p' Hp Hp' Heq.
  apply pending_page_from in H1 as [-> _]. apply MarkOutcomes_ok in H2 as ->.
  apply pending_page_from in H3 as [_ Hrows].
  destruct (Hrows p' Hp') as (row & c & Hin & Hpend & Hb & ->). simpl in *.
  apply list_elem_of_In, in_map_iff in Hin as (r0 & <- & Hin).
  destruct (Hcov p Hp) as (Hnz & x & Hx & Ex).
  assert (seq (settled_row now xs r0) = seq r0) as Es.
  { unfold settled_row. destruct (first_outcome _ _); [apply update_pending_seq|done]. }
  rewrite Es in Heq. assert (exists y, first_outcome (seq r0) xs = Some y) as [y Hy].
  { clear -Hx Ex Hnz Heq. rewrite Heq in *. induction Hx as [xs'|x y xs' Hx IH]; simpl.
    - rewrite Ex, (proj2 (Z.eqb_neq _ _) Hnz), Z.eqb_refl. simpl. eauto.
    - destruct (_ && _); eauto. }
  unfold is_pending, settled_row in Hpend. rewrite Hy in Hpend. unfold update_pending in Hpend.
  destruct (jbody r0) as [c0|?|? ? ?|? ? ?] eqn:E0; rewrite ?E0 in Hpend; try done.
  rewrite Z.eqb_refl in Hpend. simpl in Hpend.
  destruct (delivery_state c0 =? 0) eqn:Ed; simpl in Hpend; rewrite ?E0 in Hpend.
  - pose proof (settle_with_state now y c0). zify_bool. done.
  - rewrite Ed, andb_false_r in Hpend. done.
Qed.

(** ** On the small store *)

Lemma record_results_spec_witness :
  exists s d' fs', RecordResults false "node" 2000 demo_results [] demo_triggered = (Ok s, d', fs')
    /\ Inserted s + Duplicates s + Skipped s = 4
    /\ exists new, journal d' = journal demo_triggered ++ new /\ Inserted s = Z.of_nat (length new).
Proof.
  destruct (RecordResults false "node" 2000 demo_results [] demo_triggered) as [[[s|e] d'] fs'] eqn:E.
  - exists s, d', fs'. split; [reflexivity|].
    assert (room "node" (Z.of_nat (length demo_results)) demo_triggered) as Hr by (vm_compute; discriminate).
    destruct (record_results_spec false "node" 2000 demo_results [] demo_triggered s d' fs'
      demo_triggered_wf Hr E) as (H1 & _ & (new & H2 & H3 & _) & _).
    split; [exact H1|]. exists new. split; assumption.
  - exfalso. vm_compute in E. discriminate E.
Defined.

Lemma record_results_idempotent_witness :
  match RecordResults false "node" 2500 demo_results [] demo_db with
  | (Ok s2, d2, _) => Inserted s2 = 0 /\ Duplicates s2 = 3 /\ journal d2 = journal demo_db
  | (Err _, d2, _) => d2 = demo_db
  end.
Proof.
  refine (record_results_idempotent false "node" 2000 2500 demo_results [] [] demo_triggered
    (mkSummary 2 1 1 0 0) demo_db [] demo_triggered_wf demo_room _).
  vm_compute. reflexivity.
Defined.

Lemma pending_results_spec_witness :
  exists ps, PendingResults "node" 500 [] demo_db = (Ok ps, demo_db, [])
    /\ StronglySorted Z.lt (pend_Seq <$> ps) /\ Z.of_nat (length ps) <= 500.
Proof.
  destruct (PendingResults "node" 500 [] demo_db) as [[[ps|e] d'] fs'] eqn:E.
  - destruct (pending_results_spec "node" 500 [] demo_db ps d' fs' demo_db_wf E) as (-> & [H1 _] & H2 & _).
    pose proof (f_equal snd E) as Ef. vm_compute in Ef. subst fs'. exists ps. split; [reflexivity|split; [exact H2|exact H1]].
  - exfalso. vm_compute in E. discriminate E.
Defined.

Lemma settled_page_not_reread_witness :
  exists ps ps', fst (fst (PendingResults "node" 500 [] demo_db)) = Ok ps
    /\ fst (fst (PendingResults "node" 0 [] demo_settled)) = Ok ps'
    /\ length ps = 2%nat
    /\ forall p p', p ∈ ps -> p' ∈ ps' -> pend_Seq p <> pend_Seq p'.
Proof.
  eexists _, _. split; [reflexivity|]. split; [reflexivity|]. split; [vm_compute; reflexivity|].
  refine (settled_page_not_reread "node" 3000 500 0 [] [] [] demo_db _ demo_db [] demo_outcomes
    tt demo_settled [] _ demo_settled [] eq_refl _ _ eq_refl).
  - rewrite <- (Forall_forall (fun p => pend_Seq p <> 0
      /\ exists x, x ∈ demo_outcomes /\ out_Seq x = pend_Seq p)).
    repeat constructor; try discriminate.
    + exists (mkOutcome 3 true ""). split; [left|reflexivity].
    + exists (mkOutcome 4 false "too_old"). split; [right; left|reflexivity].
  - vm_compute. reflexivity.
Defined.
