(* ===== verification/StoreLog.v ===== *)
(** * The store refines the abstract log

    Every operation of [internal/store], whatever statements fail, acts on
    the journal by moves of [Journal.v], and so refines its specification;
    what the log promises about pending and settled results therefore holds
    of the store. *)

From Stdlib Require Import ZArith Lia List Bool Ascii String Sorted.
From stdpp Require Import base tactics gmap strings list fin_maps relations sorting.
From S2P Require Import Prelude Wire Sql Store StoreMaint Journal StoreWf StoreDemo.

(** [m] only makes quiet moves. *)
Definition quiet {A} (m : sql A) : Prop :=
  forall l0, keeps (fun d => quiet_moves l0 (log_of d)) m.

Lemma quiet_run {A} (m : sql A) fs d : quiet m -> quiet_moves (log_of d) (log_of (run m fs d)).
Proof. intros H. by apply (H (log_of d)). Qed.

Lemma quiet_frame l0 d d' :
  journal d' = journal d -> journal_autoinc d' = journal_autoinc d ->
  quiet_moves l0 (log_of d) -> quiet_moves l0 (log_of d').
Proof. unfold log_of. by intros -> ->. Qed.

Lemma quiet_step l0 l1 l2 : quiet_moves l0 l1 -> quiet_move l1 l2 -> quiet_moves l0 l2.
Proof. intros. by eapply rtc_r. Qed.

Ltac frame := intros ? ?; by (eapply quiet_frame; [| |eassumption]).

Lemma nextOriginSeq_quiet o n : quiet (nextOriginSeq o n).
Proof. intros l0. unfold nextOriginSeq. keeps_steps; frame. Qed.

Lemma insert_row_quiet e o n at_ b : match b with BResult _ => False | _ => True end -> quiet (stmt e (insert_row o n at_ b)).
Proof.
  intros Hb l0. apply keeps_stmt. intros d a d' Hd. unfold insert_row.
  destruct (_ || _); [done|]. intros [= <- <-]. eapply quiet_step; [exact Hd|].
  unfold log_of. simpl. constructor; [done|]. by destruct b.
Qed.

Lemma insert_result_quiet burn e o n at_ r :
  quiet (stmt e (insert_result burn o n at_ (result_cols r))).
Proof.
  intros l0. apply keeps_stmt. intros d a d' Hd. unfold insert_result.
  destruct (max_int64 <=? _); [done|]. destruct (_ || _); intros [= <- <-].
  - destruct burn; [|done]. eapply quiet_step; [exact Hd|]. constructor.
  - eapply quiet_step; [exact Hd|]. by constructor.
Qed.

Lemma record_loop_quiet burn o start now rs s : quiet (record_loop burn o start now rs s).
Proof.
  revert start s. induction rs as [|r rs IH]; intros start s l0; cbn [record_loop].
  - apply keeps_ret.
  - destruct (ids_empty r); [apply IH|]. apply keeps_bind; [apply insert_result_quiet|].
    intros k. apply IH.
Qed.

Lemma RecordResults_quiet burn o now rs : quiet (RecordResults burn o now rs).
Proof.
  intros l0. unfold RecordResults. destruct rs; [apply keeps_ret|]. keeps_steps.
  - apply nextOriginSeq_quiet.
  - apply record_loop_quiet.
Qed.

Lemma queueTriggerTx_quiet ev n at_ : quiet (queueTriggerTx ev n at_).
Proof. intros l0. unfold queueTriggerTx. keeps_steps; frame. Qed.

Lemma completeTriggerTx_quiet p r at_ : quiet (completeTriggerTx p r at_).
Proof. intros l0. unfold completeTriggerTx. keeps_steps; frame. Qed.

Lemma RecordTrigger_quiet o now ev : quiet (RecordTrigger o now ev).
Proof.
  intros l0. unfold RecordTrigger, triggerAlreadySeenTx. keeps_steps.
  - apply nextOriginSeq_quiet.
  - by apply insert_row_quiet.
  - apply queueTriggerTx_quiet.
Qed.

Lemma CompleteTriggers_quiet o now ts : quiet (CompleteTriggers o now ts).
Proof.
  intros l0. unfold CompleteTriggers, complete_one. keeps_steps.
  - frame.
  - apply nextOriginSeq_quiet.
  - by apply insert_row_quiet.
  - apply completeTriggerTx_quiet.
Qed.

Lemma applyAssignmentTx_quiet snaps b : quiet (applyAssignmentTx snaps b).
Proof.
  intros l0. unfold applyAssignmentTx. keeps_steps; try frame.
  apply keeps_stmt. intros d u d' Hd (J & A & _)%keeps_insert_probe.
  by eapply quiet_frame.
Qed.

Lemma SaveAssignment_quiet o now hash snaps : quiet (SaveAssignment o now hash snaps).
Proof.
  intros l0. unfold SaveAssignment. keeps_steps.
  - apply nextOriginSeq_quiet.
  - by apply insert_row_quiet.
  - apply applyAssignmentTx_quiet.
  - frame.
Qed.

Lemma MarkAttempts_quiet seqs : quiet (MarkAttempts seqs).
Proof.
  intros l0. unfold MarkAttempts. keeps_steps. intros d Hd. eapply quiet_step; [exact Hd|]. constructor.
Qed.

Lemma MarkProbesRun_quiet ids t : quiet (MarkProbesRun ids t).
Proof. intros l0. unfold MarkProbesRun. keeps_steps. frame. Qed.

Lemma PendingTriggers_quiet : quiet PendingTriggers.
Proof. intros l0. unfold PendingTriggers. keeps_steps. apply keeps_ignore, keeps_exec. frame. Qed.

Lemma Rebuild_quiet : quiet Rebuild.
Proof.
  intros l0. unfold Rebuild. keeps_steps; try frame. unfold rebuild_row.
  keeps_steps; try frame; [apply applyAssignmentTx_quiet|apply queueTriggerTx_quiet|apply completeTriggerTx_quiet].
Qed.

(** ** Maintenance only drops rows that are not pending *)

Lemma delete_first_keeps n p j r : r ∈ j -> p r = false -> r ∈ fst (delete_first n p j).
Proof.
  intros Hin Hp. revert n. induction j as [|x j IH]; intros n; [by apply not_elem_of_nil in Hin|].
  destruct n as [|n]; [done|]. simpl. apply elem_of_cons in Hin as [<-|Hin].
  - rewrite Hp. destruct (delete_first (S n) p j). left.
  - destruct (p x).
    + specialize (IH Hin n). by destruct (delete_first n p j).
    + specialize (IH Hin (S n)). destruct (delete_first (S n) p j). by right.
Qed.

Lemma delete_rows_quiet l0 p d k d' :
  (forall r, row_pending r = true -> p d r = false) ->
  quiet_moves l0 (log_of d) -> delete_rows p d = (k, d') -> quiet_moves l0 (log_of d').
Proof.
  intros Hp Hd. unfold delete_rows.
  pose proof (delete_first_sublist pruneChunk (p d) (journal d)) as Hs.
  pose proof (fun r Hin => delete_first_keeps pruneChunk (p d) (journal d) r Hin) as Hk.
  destruct (delete_first _ _ _) as [j n]. simpl in *. intros [= <- <-].
  eapply quiet_step; [exact Hd|]. apply qm_drop; [done|]. intros r Hin Hr. auto.
Qed.

Lemma prunable_pending d r : row_pending r = true -> prunable d r = false.
Proof. unfold row_pending, prunable. destruct (jbody r); try done. by intros ->. Qed.

Lemma superseded_pending j r : row_pending r = true -> superseded j r = false.
Proof. unfold row_pending, superseded, is_assignment. by destruct (jbody r). Qed.

Section maint.
Context (iterate : gmap rollupKey rollupRow_ -> list (rollupKey * rollupRow_)).
Context (others : database -> database).
Hypothesis others_quiet : forall d, quiet_moves (log_of d) (log_of (others d)).
Context (live_bytes : nat -> database -> Z).

Lemma writeRollups_quiet m a n : quiet (writeRollups iterate m a n).
Proof.
  intros l0. unfold writeRollups. keeps_steps; [|frame].
  apply keeps_stmt. intros d u d' Hd (J & A & _)%upsert_frame. by eapply quiet_frame.
Qed.

Lemma rollup_loop_quiet fuel after total moves :
  quiet (rollup_loop iterate others fuel after total moves).
Proof.
  intros l0. revert after total moves. induction fuel as [|fuel IH]; intros after total moves;
    cbn [rollup_loop]; [apply keeps_fail|].
  unfold readRollupChunk, metaInt_cursor.
  keeps_steps; try apply IH; try apply writeRollups_quiet.
  intros fs d Hd. unfold run, interfere. simpl. by etrans.
Qed.

Lemma prune_loop_quiet fuel cutoff n : quiet (prune_loop fuel cutoff n).
Proof.
  intros l0. revert n. induction fuel as [|fuel IH]; intros n; cbn [prune_loop]; unfold ctx_err;
    keeps_steps; try apply IH; try frame.
  apply keeps_stmt. intros d k d' Hd [= E]. eapply delete_rows_quiet; [|exact Hd|exact E].
  intros r Hr. unfold prune_age. by rewrite prunable_pending.
Qed.

Lemma size_loop_quiet n i mx st : quiet (size_loop live_bytes n i mx st).
Proof.
  intros l0. revert i st. induction n as [|n IH]; intros i st; cbn [size_loop]; cbv zeta;
    unfold ctx_err, liveBytes; keeps_steps; try apply IH; try frame;
    apply keeps_stmt; intros d k d' Hd [= E].
  - eapply delete_rows_quiet; [|exact Hd|exact E]. apply prunable_pending.
  - subst. by eapply quiet_frame.
Qed.

Lemma Maintain_quiet fuel opts : quiet (Maintain iterate others live_bytes fuel opts).
Proof.
  intros l0. unfold Maintain, rollupResults, metaInt_cursor, liveBytes. cbv zeta.
  keeps_steps; try apply rollup_loop_quiet; try apply prune_loop_quiet; try apply size_loop_quiet;
    apply keeps_stmt; intros d k d' Hd [= E]; subst.
  - by eapply quiet_frame.
  - eapply quiet_step; [exact Hd|]. apply qm_drop; [apply sublist_filter|].
    intros r Hin Hr. apply list_elem_of_In, filter_In. split; [by apply list_elem_of_In|].
    by rewrite superseded_pending.
Qed.
End maint.

(** ** The refinement *)

Lemma mark_outcome_moves now x l0 : keeps (fun d => log_moves l0 (log_of d)) (mark_outcome now x).
Proof.
  unfold mark_outcome. keeps_steps; intros d Hd; (eapply rtc_r; [exact Hd|]); apply mv_settle; auto.
Qed.

Lemma MarkOutcomes_moves now xs fs d :
  log_moves (log_of d) (log_of (run (MarkOutcomes now xs) fs d)).
Proof.
  assert (keeps (fun d' => log_moves (log_of d) (log_of d')) (MarkOutcomes now xs)) as H.
  { unfold MarkOutcomes. keeps_steps. apply mark_outcome_moves. }
  by apply H.
Qed.

Lemma store_step_moves burn o d d' :
  store_step burn o d d' -> log_moves (log_of d) (log_of d').
Proof.
  destruct 1; [..|by apply quiet_are_moves, quiet_run, Maintain_quiet].
  - apply quiet_are_moves, quiet_run, RecordResults_quiet.
  - apply quiet_are_moves, quiet_run, RecordTrigger_quiet.
  - apply quiet_are_moves, quiet_run, CompleteTriggers_quiet.
  - apply quiet_are_moves, quiet_run, SaveAssignment_quiet.
  - apply MarkOutcomes_moves.
  - apply quiet_are_moves, quiet_run, MarkAttempts_quiet.
  - apply quiet_are_moves, quiet_run, MarkProbesRun_quiet.
  - apply quiet_are_moves, quiet_run, PendingTriggers_quiet.
  - apply quiet_are_moves, quiet_run, Rebuild_quiet.
Qed.

(** Row numbers are in order and were given out. *)
Definition numbered (l : log) : Prop :=
  StronglySorted Z.lt (seq <$> fst l) /\ Forall (fun r => seq r <= snd l) (fst l).

Lemma numbered_map f j a : (forall r, seq (f r) = seq r) -> numbered (j, a) -> numbered (map f j, a).
Proof.
  intros Hf [Hs Hb]. assert (seq <$> map f j = seq <$> j) as E.
  { clear Hs Hb. induction j as [|r j IH]; [done|]. cbn. by rewrite Hf, IH. }
  split; cbn [fst snd] in *; [by rewrite E|]. apply List.Forall_map. eapply Forall_impl; [exact Hb|].
  intros r Hr. cbn in *. by rewrite Hf.
Qed.

Lemma log_move_numbered l l' : log_move l l' -> numbered l -> numbered l'.
Proof.
  destruct 1 as [j a row Hs _|j a|j a s state now reason _|j a chunk|j j' a Hs _]; intros Hn.
  - destruct Hn as [Ho Hb]. cbn [fst snd] in *. split; cbn [fst snd].
    + rewrite fmap_app. apply StronglySorted_app_2; [|done|repeat constructor].
      intros x y (r & -> & Hr)%list_elem_of_fmap ->%list_elem_of_singleton. rewrite Forall_forall in Hb.
      specialize (Hb r Hr). rewrite Hs. lia.
    + apply Forall_app. split; [eapply Forall_impl; [exact Hb|]; intros r Hr; cbn in *; lia|]. constructor; [lia|done].
  - destruct Hn as [Ho Hb]. split; [done|]. eapply Forall_impl; [exact Hb|]. intros r Hr. cbn in *. lia.
  - apply numbered_map; [|done]. intros r. apply update_pending_seq.
  - apply numbered_map; [|done]. intros r. apply attempt_seq.
  - destruct Hn as [Ho Hb]. split; cbn [fst snd] in *.
    + eapply sublist_StronglySorted; [by apply sublist_fmap'|done].
    + by eapply sublist_Forall.
Qed.

Lemma log_moves_numbered l l' : log_moves l l' -> numbered l -> numbered l'.
Proof. induction 1; eauto using log_move_numbered. Qed.

Lemma store_run_moves burn o d d' :
  rtc (store_step burn o) d d' -> log_moves (log_of d) (log_of d').
Proof.
  induction 1 as [d|d d1 d2 Hst _ IH]; [done|].
  etrans; [by eapply store_step_moves|exact IH].
Qed.

(** C4: The store refines the abstract log of [Journal.v]: any sequence of its
    operations, under any faults, acts on the journal's entries by moves of
    that log.  It only ever appends an entry under a fresh number (results
    waiting, with no attempt), burns numbers, settles results that wait
    (delivered, or rejected with a reason), counts attempts of results that
    wait, or drops entries that do not wait; a settled result and the
    content of any entry never change. *)
Theorem store_refines_log burn o d d' :
  rtc (store_step burn o) d d' -> spec_moves (entries_of d) (entries_of d').
Proof. intros H. exact (log_moves_spec _ _ (store_run_moves _ _ _ _ H)). Qed.

(** A row the store keeps, up to its delivery columns. *)
Definition kept (r : jrow) (d : database) : Prop :=
  exists r', r' ∈ journal d /\ seq r' = seq r /\ row_forget r' = row_forget r.

Lemma mark_outcome_kept now x r : keeps (kept r) (mark_outcome now x).
Proof.
  unfold mark_outcome. keeps_steps; intros d (r' & Hin & Hs & Hf); eexists (update_pending _ _ r');
    simpl; (split_and!; [apply list_elem_of_In, in_map, list_elem_of_In, Hin
      | by rewrite update_pending_seq | by rewrite update_pending_forget]).
Qed.

(** C3: An undelivered result is never lost: whatever operation runs, whatever
    statements fail, whatever the retention and size limits, a pending
    result row is still there afterwards with all its columns except the
    delivery ones; and unless the operation settles outcomes it is still
    pending. *)
Theorem pending_never_lost burn o d d' r :
  store_step burn o d d' -> r ∈ journal d -> row_pending r = true ->
  kept r d'
  /\ ((forall now xs fs, d' <> run (MarkOutcomes now xs) fs d) ->
      exists r', r' ∈ journal d' /\ seq r' = seq r /\ row_pending r' = true).
Proof.
  intros st Hin Hp.
  assert (quiet_moves (log_of d) (log_of d') \/ exists now xs fs, d' = run (MarkOutcomes now xs) fs d)
    as [Hq|(now & xs & fs & ->)].
  { destruct st; try (right; by eauto); left; try (apply quiet_run).
    - apply RecordResults_quiet.
    - apply RecordTrigger_quiet.
    - apply CompleteTriggers_quiet.
    - apply SaveAssignment_quiet.
    - apply MarkAttempts_quiet.
    - apply MarkProbesRun_quiet.
    - apply PendingTriggers_quiet.
    - apply Rebuild_quiet.
    - by apply Maintain_quiet. }
  - destruct (quiet_pending _ _ _ Hq Hin Hp) as (r' & Hin' & Hs & Hf & Hp').
    split; [by exists r'|eauto].
  - split; [|by intros H; destruct (H now xs fs)].
    assert (keeps (kept r) (MarkOutcomes now xs)) as Hk.
    { unfold MarkOutcomes. keeps_steps. apply mark_outcome_kept. }
    apply Hk. by exists r.
Qed.

(** A settled result is settled for good: over any sequence of operations
    the row that carries its number is, for as long as it exists, exactly
    the settled row; in particular it never becomes pending again and its
    number is never reused. *)
Theorem settled_forever burn o d d' r :
  db_wf d -> rtc (store_step burn o) d d' -> r ∈ journal d -> row_pending r = false ->
  forall r', r' ∈ journal d' -> seq r' = seq r -> r' = r.
Proof.
  intros Hwf Hst Hin Hp.
  assert (only (seq r) r (log_of d)) as Ho.
  { split; simpl.
    - pose proof (wf_bound _ Hwf) as Hb. rewrite Forall_forall in Hb. specialize (Hb r Hin). lia.
    - intros r' Hin' Hs. pose proof (wf_sorted _ Hwf) as Hs'. 
      by eapply seq_unique. }
  assert (only (seq r) r (log_of d')) as [_ H]; [|exact H].
  clear Hin Hwf. induction Hst as [|d1 d2 d3 H _ IH]; [done|]. apply IH.
  by eapply only_moves; [|apply (store_step_moves _ _ _ _ H)|].
Qed.

(** ** On the small store *)

Lemma store_refines_log_witness : spec_moves (entries_of empty_db) (entries_of demo_db).
Proof. exact (store_refines_log false "node" empty_db demo_db demo_db_reachable). Defined.

Lemma pending_never_lost_witness :
  kept (demo_row 2) (run demo_maintain [] demo_db) /\ length (journal (run demo_maintain [] demo_db)) = 4%nat.
Proof.
  split; [|vm_compute; reflexivity].
  refine (proj1 (pending_never_lost false "node" demo_db (run demo_maintain [] demo_db) (demo_row 2) _ _ _)).
  - apply st_maintain; [done|]. intros x. apply rtc_refl.
  - apply (list_elem_of_lookup_2 _ 2). vm_compute. reflexivity.
  - vm_compute. reflexivity.
Defined.

Definition demo_retried : database :=
  run (MarkOutcomes 4000 [mkOutcome 3 false "late"]) [] (run (MarkAttempts [3; 4]) [] demo_settled).

Lemma settled_forever_witness :
  length (List.filter (fun r => seq r =? 3) (journal demo_retried)) = 1%nat
  /\ forall r', r' ∈ journal demo_retried -> seq r' = 3 ->
     r' = default (demo_row 2) (journal demo_settled !! 2%nat).
Proof.
  split; [vm_compute; reflexivity|].
  refine (settled_forever false "node" demo_settled demo_retried
    (default (demo_row 2) (journal demo_settled !! 2%nat)) _ _ _ _).
  - apply (store_step_wf false "node" demo_db); [apply st_outcomes|exact demo_db_wf].
  - eapply rtc_l; [apply (st_attempts _ _ [3; 4] [])|]. eapply rtc_l; [apply st_outcomes|apply rtc_refl].
  - apply (list_elem_of_lookup_2 _ 2). vm_compute. reflexivity.
  - vm_compute. reflexivity.
Defined.
