(* ===== verification/StoreTriggers.v ===== *)
(** * Durable triggers and assignments

    Theorems about [internal/store/triggers.go] and the assignment half of
    [internal/store/probes.go]: a trigger runs at most once, its journal
    event outlives pruning while it is pending, and a saved assignment is
    what a restart loads. *)

From Stdlib Require Import ZArith Lia List Bool Ascii String Sorted.
From stdpp Require Import base tactics gmap strings list fin_maps sorting.
From S2P Require Import Prelude Wire Sql Store StoreMaint Journal StoreWf StoreDemo StoreLog.

(** The store remembers trigger [k]: it waits, or it ran. *)
Definition remembered (k : pair_key) (d : database) : Prop :=
  is_Some (pending_triggers d !! k) \/ is_Some (completed_triggers d !! k).

(** Every waiting trigger has a readable snapshot. *)
Definition readable (d : database) : Prop :=
  map_Forall (fun _ r => exists s, snapshot_json r = Json s) (pending_triggers d).

Lemma seen_ok p r fs d b d' fs' :
  triggerAlreadySeenTx p r fs d = (Ok b, d', fs') ->
  d' = d /\ (b = true <-> remembered (p, r) d
                      \/ (probes_t d !! p ≫= last_trigger_run_id) = Some r).
Proof.
  unfold triggerAlreadySeenTx, remembered. intros H. repeat sql_step H.
  destruct (completed_triggers d !! (p, r)) as [t|] eqn:Ec; repeat sql_step H.
  - split; [done|]. split; [|done]. intros _. left. right. by eexists.
  - destruct (pending_triggers d !! (p, r)) as [t|] eqn:Ep; repeat sql_step H.
    + split; [done|]. split; [|done]. intros _. left. left. by eexists.
    + split; [done|]. rewrite bool_decide_eq_true. split; [by right|].
      intros [[[? ?]|[? ?]]|?]; done.
Qed.

Definition trigger_key_of (ev : Event) : pair_key := (ID (ev_Probe ev), ev_RunID ev).

(** The journal row of an accepted trigger. *)
Definition trigger_row (o : string) (now : Z) (ev : Event) (d : database) : jrow :=
  mkRow (journal_autoinc d + 1) o (default 1 (sequences d !! o)) now
    (BTrigger (ev_RunID ev) (ID (ev_Probe ev)) (Json ev)).

Lemma RecordTrigger_ok o now ev fs d b d' fs' :
  RecordTrigger o now ev fs d = (Ok b, d', fs') ->
  if b then
    trigger_event_ok ev = true /\ ~ remembered (trigger_key_of ev) d
    /\ journal d' = journal d ++ [trigger_row o now ev d]
    /\ pending_triggers d' = insert_pending (trigger_key_of ev)
         (mkPtrow (journal_autoinc d + 1) now (Json (ev_Probe ev))) (pending_triggers d)
    /\ completed_triggers d' = completed_triggers d
    /\ probes_t d' = probes_t d /\ meta d' = meta d
  else d' = d.
Proof.
  unfold RecordTrigger. intros H. destruct (trigger_event_ok ev) eqn:Eok; simpl in H; [|by sql_prim H].
  destruct (snapshot_encodable (ev_Probe ev)) eqn:Ee; simpl in H; [|done].
  apply tx_ok in H as (fs1 & fs2 & H). sql_step H. apply seen_ok in E as [-> Hseen].
  destruct a; [by sql_prim H|]. sql_step H. sql_step H. sql_step H. sql_prim H.
  split; [done|]. split; [intros Hr; discriminate (proj2 Hseen (or_introl Hr))|].
  assert (a = default 1 (sequences d !! o) /\ d0 = with_sequences (<[o := int_add a 1]>) d) as [-> ->].
  { unfold nextOriginSeq in E. simpl in E. repeat sql_step E.
    destruct (sequences d !! o); by repeat sql_step E. }
  unfold queueTriggerTx in E1. rewrite Ee in E1. sql_prim E1.
  unfold insert_row in E0. destruct (_ || _); [done|]. by injection E0 as <- <-.
Qed.

(** ** At most once *)

Lemma insert_pending_some k k' r m :
  is_Some (insert_pending k r m !! k') <-> k = k' \/ is_Some (m !! k').
Proof.
  unfold insert_pending. destruct (m !! k) as [x|] eqn:E.
  - split; [by right|]. intros [<-|?]; [by eexists|done].
  - destruct (decide (k = k')) as [->|Hne].
    + rewrite lookup_insert_eq. split; [by left|by eexists].
    + rewrite lookup_insert_ne by done. split; [by right|]. by intros [?|?].
Qed.

Lemma remembered_frame k d d' :
  pending_triggers d' = pending_triggers d -> completed_triggers d' = completed_triggers d ->
  remembered k d -> remembered k d'.
Proof. unfold remembered. by intros -> ->. Qed.

Lemma completeTriggerTx_spec p r at_ fs d u d' fs' :
  completeTriggerTx p r at_ fs d = (Ok u, d', fs') ->
  pending_triggers d' = delete (p, r) (pending_triggers d)
  /\ completed_triggers d' = <[(p, r) := at_]> (completed_triggers d).
Proof. unfold completeTriggerTx. intros H. by repeat sql_step H. Qed.

Lemma nextOriginSeq_proj o n fs d s d' fs' :
  nextOriginSeq o n fs d = (Ok s, d', fs') -> exists m, d' = with_sequences (<[o := m]>) d.
Proof.
  unfold nextOriginSeq. intros H. destruct (_ <? _); [done|]. repeat sql_step H.
  destruct (sequences d !! o); repeat sql_step H; eauto.
Qed.

Lemma insert_row_proj o n at_ b d s d' :
  insert_row o n at_ b d = Some (s, d') ->
  pending_triggers d' = pending_triggers d /\ completed_triggers d' = completed_triggers d
  /\ probes_t d' = probes_t d /\ meta d' = meta d
  /\ journal d' = journal d ++ [mkRow s o n at_ b].
Proof. unfold insert_row. destruct (_ || _); [done|]. by intros [= <- <-]. Qed.

Lemma complete_one_spec o now t fs d u d' fs' :
  complete_one o now t fs d = (Ok u, d', fs') ->
  pending_triggers d' = delete (ptr_ProbeID t, ptr_RunID t) (pending_triggers d)
  /\ completed_triggers d' = <[(ptr_ProbeID t, ptr_RunID t) := now]> (completed_triggers d).
Proof.
  unfold complete_one. intros H. sql_step H. sql_step H. sql_step H.
  apply nextOriginSeq_proj in E as [m ->]. apply insert_row_proj in E0 as (P & C & _).
  simpl in P, C. apply completeTriggerTx_spec in H as (P' & C').
  by rewrite P', C', P, C, delete_delete_eq.
Qed.

Definition done_key (t : PendingTrigger) : pair_key := (ptr_ProbeID t, ptr_RunID t).

Lemma complete_loop_spec k o now ts fs d u d' fs' :
  sql_for (complete_one o now) ts fs d = (Ok u, d', fs') ->
  pending_triggers d' !! k = (if decide (k ∈ done_key <$> ts) then None else pending_triggers d !! k)
  /\ completed_triggers d' !! k =
       (if decide (k ∈ done_key <$> ts) then Some now else completed_triggers d !! k).
Proof.
  revert fs d. induction ts as [|t ts IH]; intros fs d H; cbn [sql_for] in H.
  - sql_prim H. by rewrite !decide_False by apply not_elem_of_nil.
  - sql_step H. apply complete_one_spec in E as (P & C).
    apply IH in H as [-> ->]. rewrite P, C, fmap_cons. fold (done_key t).
    destruct (decide (k ∈ done_key <$> ts)) as [Hk|Hk].
    + by rewrite !decide_True by (by right).
    + destruct (decide (k = done_key t)) as [->|Hne].
      * rewrite !decide_True by left. by rewrite lookup_delete_eq, lookup_insert_eq.
      * rewrite !decide_False by (rewrite elem_of_cons; tauto).
        by rewrite lookup_delete_ne, lookup_insert_ne.
Qed.

(** The calls between two deliveries of a trigger: everything the agent
    does, apart from retention and recovery. *)
Inductive agent_step (burn : bool) (o : string) : database -> database -> Prop :=
| ag_results now rs fs d : agent_step burn o d (run (RecordResults burn o now rs) fs d)
| ag_trigger now ev fs d : agent_step burn o d (run (RecordTrigger o now ev) fs d)
| ag_complete now ts fs d : agent_step burn o d (run (CompleteTriggers o now ts) fs d)
| ag_assign now hash snaps fs d : agent_step burn o d (run (SaveAssignment o now hash snaps) fs d)
| ag_outcomes now xs fs d : agent_step burn o d (run (MarkOutcomes now xs) fs d)
| ag_attempts seqs fs d : agent_step burn o d (run (MarkAttempts seqs) fs d)
| ag_ran ids t fs d : agent_step burn o d (run (MarkProbesRun ids t) fs d).

Lemma agent_step_moves burn o d d' : agent_step burn o d d' -> log_moves (log_of d) (log_of d').
Proof.
  destruct 1; [..|]; try apply MarkOutcomes_moves; apply quiet_are_moves, quiet_run.
  - apply RecordResults_quiet.
  - apply RecordTrigger_quiet.
  - apply CompleteTriggers_quiet.
  - apply SaveAssignment_quiet.
  - apply MarkAttempts_quiet.
  - apply MarkProbesRun_quiet.
Qed.

(** Computations that leave the trigger tables alone. *)
Definition triggers_as (P : gmap pair_key ptrow) (C : gmap pair_key Z) (d : database) : Prop :=
  pending_triggers d = P /\ completed_triggers d = C.

Ltac same_triggers := intros ? [? ?]; split; done.

Lemma nextOriginSeq_triggers o n P C : keeps (triggers_as P C) (nextOriginSeq o n).
Proof. unfold nextOriginSeq. keeps_steps; same_triggers. Qed.

Lemma insert_row_triggers e o n at_ b P C : keeps (triggers_as P C) (stmt e (insert_row o n at_ b)).
Proof.
  apply keeps_stmt. intros d s d' [<- <-] (HP & HC & _)%insert_row_proj. by split.
Qed.

Lemma record_loop_triggers burn o start now rs s P C :
  keeps (triggers_as P C) (record_loop burn o start now rs s).
Proof.
  revert start s. induction rs as [|x rs IH]; intros start s; cbn [record_loop]; [apply keeps_ret|].
  destruct (ids_empty x); [apply IH|]. apply keeps_bind; [|intros ?; apply IH].
  apply keeps_stmt. intros d k d' [<- <-]. unfold insert_result.
  destruct (_ <=? _); [done|]. destruct (_ || _); intros [= <- <-]; [|by split]. by destruct burn.
Qed.

Lemma RecordResults_triggers burn o now rs P C : keeps (triggers_as P C) (RecordResults burn o now rs).
Proof.
  unfold RecordResults. destruct rs; [apply keeps_ret|].
  keeps_steps; [apply nextOriginSeq_triggers|apply record_loop_triggers].
Qed.

Lemma applyAssignmentTx_triggers snaps b P C : keeps (triggers_as P C) (applyAssignmentTx snaps b).
Proof.
  unfold applyAssignmentTx. keeps_steps; try same_triggers.
  apply keeps_stmt. intros d u d' [<- <-]. unfold insert_probe.
  destruct (probes_t d !! _); [done|]. intros [= _ <-]. by split.
Qed.

Lemma applyAssignmentTx_same snaps b fs d u d' fs' :
  applyAssignmentTx snaps b fs d = (Ok u, d', fs') ->
  pending_triggers d' = pending_triggers d /\ completed_triggers d' = completed_triggers d.
Proof.
  intros H. rewrite <- (run_ok _ _ _ _ _ _ H).
  exact (applyAssignmentTx_triggers snaps b _ _ fs d (conj eq_refl eq_refl)).
Qed.

Lemma SaveAssignment_triggers o now hash snaps P C :
  keeps (triggers_as P C) (SaveAssignment o now hash snaps).
Proof.
  unfold SaveAssignment.
  keeps_steps; try same_triggers; [apply nextOriginSeq_triggers|apply insert_row_triggers|].
  apply applyAssignmentTx_triggers.
Qed.

Lemma MarkOutcomes_triggers now xs P C : keeps (triggers_as P C) (MarkOutcomes now xs).
Proof. unfold MarkOutcomes, mark_outcome. keeps_steps; same_triggers. Qed.

Lemma MarkAttempts_triggers seqs P C : keeps (triggers_as P C) (MarkAttempts seqs).
Proof. unfold MarkAttempts. keeps_steps; same_triggers. Qed.

Lemma MarkProbesRun_triggers ids t P C : keeps (triggers_as P C) (MarkProbesRun ids t).
Proof. unfold MarkProbesRun. keeps_steps; same_triggers. Qed.

Lemma keeps_remembered {A} (m : sql A) k fs d :
  (forall P C, keeps (triggers_as P C) m) -> remembered k d -> remembered k (run m fs d).
Proof.
  intros Hm. destruct (Hm _ _ fs d (conj eq_refl eq_refl)) as [HP HC]. by apply remembered_frame.
Qed.

Lemma RecordTrigger_remembers k o now ev fs d :
  remembered k d -> remembered k (run (RecordTrigger o now ev) fs d).
Proof.
  intros Hk. unfold run. destruct (RecordTrigger o now ev fs d) as [[[b|e] d'] fs'] eqn:H; simpl.
  - apply RecordTrigger_ok in H. destruct b; [|by subst].
    destruct H as (_ & _ & _ & HP & HC & _). unfold remembered in *.
    rewrite HP, HC, insert_pending_some. tauto.
  - unfold RecordTrigger in H. destruct (negb _); [done|]. destruct (negb _); [unfold sql_fail in H; by simplify_eq|].
    apply tx_err in H. by subst.
Qed.

Lemma CompleteTriggers_remembers k o now ts fs d :
  remembered k d -> remembered k (run (CompleteTriggers o now ts) fs d).
Proof.
  intros Hk. unfold CompleteTriggers. destruct ts as [|t ts]; [done|].
  match goal with |- remembered _ (run (tx ?a ?b ?m) _ _) =>
    destruct (tx_run_cases a b m fs d) as [->|(u & fs1 & fs2 & dd & H & ->)]; [done|] end.
  apply (complete_loop_spec k) in H as [HP HC]. unfold remembered. rewrite HP, HC.
  case_decide; [right; by eexists|exact Hk].
Qed.

Lemma agent_step_remembers burn o k d d' : agent_step burn o d d' -> remembered k d -> remembered k d'.
Proof.
  destruct 1; intros Hk.
  - apply keeps_remembered; [|done]. intros P C. apply RecordResults_triggers.
  - by apply RecordTrigger_remembers.
  - by apply CompleteTriggers_remembers.
  - apply keeps_remembered; [|done]. intros P C. apply SaveAssignment_triggers.
  - apply keeps_remembered; [|done]. intros P C. apply MarkOutcomes_triggers.
  - apply keeps_remembered; [|done]. intros P C. apply MarkAttempts_triggers.
  - apply keeps_remembered; [|done]. intros P C. apply MarkProbesRun_triggers.
Qed.

(** ** What maintenance leaves alone *)

Section upkeep.
Context (iterate : gmap rollupKey rollupRow_ -> list (rollupKey * rollupRow_)).
Context (others : database -> database) (live_bytes : nat -> database -> Z).
Context (P : database -> Prop) (opts : MaintainOptions).
Hypothesis P_drop : forall j d,
  sublist j (journal d) ->
  (forall r, r ∈ journal d -> prunable d r = false -> superseded (journal d) r = false -> r ∈ j) ->
  P d -> P (with_journal (fun _ => j) d).
Hypothesis P_rollups : forall f d, P d -> P (with_rollups f d).
Hypothesis P_cursor : forall n d, P d -> P (with_cursor n d).
Hypothesis P_others : forall d, P d -> P (others d).
Hypothesis P_prune : forall cutoff d, mo_cutoff opts = Some cutoff -> P d -> P (snd (prune_completed cutoff d)).

Lemma writeRollups_frame m a n : keeps P (writeRollups iterate m a n).
Proof.
  unfold writeRollups. keeps_steps; [|auto]. apply keeps_stmt. intros d u d' Hd. unfold upsert_rollup.
  destruct (rollups d !! _); [intros (mr & _ & Hx)%bind_Some; injection Hx as _ <-|intros [= _ <-]]; auto.
Qed.

Lemma rollup_loop_frame fuel after total moves : keeps P (rollup_loop iterate others fuel after total moves).
Proof.
  revert after total moves. induction fuel as [|fuel IH]; intros after total moves; cbn [rollup_loop]; [apply keeps_fail|].
  unfold readRollupChunk, metaInt_cursor. keeps_steps; try apply IH; try apply writeRollups_frame.
  intros fs d Hd. by apply P_others.
Qed.

Lemma delete_rows_frame q d k d' :
  (forall r, q d r = true -> prunable d r = true) -> P d -> delete_rows q d = (k, d') -> P d'.
Proof.
  intros Hq Hd. unfold delete_rows.
  pose proof (delete_first_sublist pruneChunk (q d) (journal d)) as Hs.
  pose proof (fun r => delete_first_keeps pruneChunk (q d) (journal d) r) as Hk.
  destruct (delete_first _ _ _) as [j n]. simpl in *. intros [= <- <-]. apply P_drop; [done| |done].
  intros r Hin Hp _. apply Hk; [done|]. apply not_true_iff_false. intros Ht%Hq. congruence.
Qed.

Lemma collapse_frame d : P d -> P (snd (collapse_assignments d)).
Proof.
  intros Hd. apply P_drop; [apply sublist_filter| |done]. intros r Hin _ Hs.
  apply list_elem_of_In, filter_In. split; [by apply list_elem_of_In|]. by rewrite Hs.
Qed.

Lemma prune_loop_frame fuel cutoff n : keeps P (prune_loop fuel cutoff n).
Proof.
  revert n. induction fuel as [|fuel IH]; intros n; cbn [prune_loop]; unfold ctx_err; keeps_steps; try apply IH; try done.
  apply keeps_stmt. intros d k d' Hd [= E]. eapply delete_rows_frame; [|exact Hd|exact E].
  intros r Hr. unfold prune_age in Hr. by zify_bool.
Qed.

Lemma size_loop_frame n i mx st : keeps P (size_loop live_bytes n i mx st).
Proof.
  revert i st. induction n as [|n IH]; intros i st; cbn [size_loop]; cbv zeta; unfold ctx_err, liveBytes;
    keeps_steps; try apply IH; try done; apply keeps_stmt; intros d k d' Hd [= E].
  - by eapply delete_rows_frame; [|exact Hd|exact E].
  - subst. auto.
Qed.

(** What survives dropping rows that may go, rollups, cursor moves and old
    completions survives a maintenance pass. *)
Lemma Maintain_frame fuel : keeps P (Maintain iterate others live_bytes fuel opts).
Proof.
  unfold Maintain, rollupResults, metaInt_cursor, liveBytes. cbv zeta.
  keeps_steps; try apply rollup_loop_frame; try apply prune_loop_frame; try apply size_loop_frame;
    apply keeps_stmt; intros d k d' Hd [= <- <-].
  - exact (P_prune _ d eq_refl Hd).
  - by apply (collapse_frame d).
Qed.
End upkeep.

(** ** Everything that happens to a store *)

(** A running agent: its calls, the read of the trigger queue at startup, and
    maintenance passes with calls of the agent landing while they run. *)
Inductive running_step (burn : bool) (o : string) : database -> database -> Prop :=
| rn_agent d d' : agent_step burn o d d' -> running_step burn o d d'
| rn_queue fs d : running_step burn o d (run PendingTriggers fs d)
| rn_maintain iterate others live_bytes fuel opts fs d :
    (forall x, rtc (agent_step burn o) x (others x)) ->
    running_step burn o d (run (Maintain iterate others live_bytes fuel opts) fs d).

(** Everything that happens to a store: recovery from the command line too. *)
Inductive life_step (burn : bool) (o : string) : database -> database -> Prop :=
| life_running d d' : running_step burn o d d' -> life_step burn o d d'
| life_rebuild fs d : life_step burn o d (run Rebuild fs d).

Lemma agent_steps_keep burn o (P : database -> Prop) d d' :
  (forall x y, agent_step burn o x y -> P x -> P y) -> rtc (agent_step burn o) d d' -> P d -> P d'.
Proof. intros Hs. induction 1; eauto. Qed.

(** *** The waiting triggers stay readable *)

Lemma readable_frame d d' : pending_triggers d' = pending_triggers d -> readable d -> readable d'.
Proof. unfold readable. by intros ->. Qed.

Lemma readable_insert k s n at_ m :
  map_Forall (fun _ r => exists s, snapshot_json r = Json s) m ->
  map_Forall (fun _ r => exists s, snapshot_json r = Json s) (insert_pending k (mkPtrow n at_ (Json s)) m).
Proof.
  intros Hm. unfold insert_pending. destruct (m !! k); [done|]. apply map_Forall_insert_2; [by exists s|done].
Qed.

Lemma keeps_readable {A} (m : sql A) fs d :
  (forall P C, keeps (triggers_as P C) m) -> readable d -> readable (run m fs d).
Proof. intros Hm. destruct (Hm _ _ fs d (conj eq_refl eq_refl)) as [HP _]. by apply readable_frame. Qed.

Lemma agent_step_readable burn o d d' : agent_step burn o d d' -> readable d -> readable d'.
Proof.
  destruct 1; intros Hd.
  - apply keeps_readable; [|done]. intros P C. apply RecordResults_triggers.
  - unfold run. destruct (RecordTrigger o now ev fs d) as [[[b|e] d'] fs'] eqn:H; simpl.
    + apply RecordTrigger_ok in H. destruct b; [|by subst]. destruct H as (_ & _ & _ & HP & _).
      unfold readable. rewrite HP. by apply readable_insert.
    + unfold RecordTrigger in H. destruct (negb _); [done|]. destruct (negb _); [unfold sql_fail in H; by simplify_eq|].
      apply tx_err in H. by subst.
  - unfold CompleteTriggers. destruct ts as [|t ts]; [done|].
    match goal with |- readable (run (tx ?a ?b ?m) _ _) =>
      destruct (tx_run_cases a b m fs d) as [->|(u & fs1 & fs2 & dd & H & ->)]; [done|] end.
    intros k r Hk. destruct (complete_loop_spec k _ _ _ _ _ _ _ _ H) as [HP _]. rewrite HP in Hk.
    case_decide; [done|by eapply Hd].
  - apply keeps_readable; [|done]. intros P C. apply SaveAssignment_triggers.
  - apply keeps_readable; [|done]. intros P C. apply MarkOutcomes_triggers.
  - apply keeps_readable; [|done]. intros P C. apply MarkAttempts_triggers.
  - apply keeps_readable; [|done]. intros P C. apply MarkProbesRun_triggers.
Qed.

(** Reading a readable queue deletes nothing. *)
Lemma PendingTriggers_same fs d : readable d -> run PendingTriggers fs d = d.
Proof.
  intros Hd.
  assert (forall l, (forall kr, kr ∈ l -> pending_triggers d !! fst kr = Some (snd kr)) ->
    omap (fun x : PendingTrigger + pair_key => match x with inr k => Some k | inl _ => None end) (map read_trigger l) = []) as H.
  { induction l as [|kr l IH]; intros Hl; [done|]. cbn. destruct (Hd _ _ (Hl kr (list_elem_of_here _ _))) as [s Es].
    unfold read_trigger at 1. rewrite Es. apply IH. intros x Hx. apply Hl. by right. }
  assert (forall fs, run (_ ← sql_for (fun k => sql_ignore (exec "delete corrupt" (with_pending (delete k))))
      (omap (fun x : PendingTrigger + pair_key => match x with inr k => Some k | inl _ => None end)
        (map read_trigger (merge_sort ptrow_le (map_to_list (pending_triggers d)))));
    mret (omap (fun x : PendingTrigger + pair_key => match x with inl t => Some t | inr _ => None end)
        (map read_trigger (merge_sort ptrow_le (map_to_list (pending_triggers d)))))) fs d = d) as Hrun.
  { intros fs'. rewrite H; [done|]. intros [k r] Hk. rewrite merge_sort_Permutation in Hk.
    by apply elem_of_map_to_list in Hk. }
  unfold PendingTriggers. destruct fs as [|[] fs]; [exact (Hrun [])|done|exact (Hrun fs)].
Qed.

(** A failed rebuild changes nothing; a completed one replays the journal. *)
Lemma rebuild_readable rows fs d u d' fs' :
  sql_for rebuild_row rows fs d = (Ok u, d', fs') -> readable d -> readable d'.
Proof.
  revert fs d. induction rows as [|r rows IH]; intros fs d H Hd; cbn [sql_for] in H; [by sql_prim H|].
  sql_step H. eapply IH; [exact H|]. unfold rebuild_row in E. destruct (jbody r) as [c|[x|]|run probe [ev|]|run probe [x|]]; try (by sql_prim E).
  - sql_step E. sql_prim E. apply applyAssignmentTx_same in E0 as [HP _]. by eapply readable_frame.
  - unfold queueTriggerTx in E. destruct (snapshot_encodable _); [|done]. sql_prim E. unfold readable. cbn.
    by apply readable_insert.
  - apply completeTriggerTx_spec in E as [HP _]. unfold readable. rewrite HP. by apply map_Forall_delete.
Qed.

Lemma Rebuild_readable fs d : readable d -> readable (run Rebuild fs d).
Proof.
  intros Hd. unfold Rebuild.
  match goal with |- readable (run (tx ?a ?b ?m) _ _) =>
    destruct (tx_run_cases a b m fs d) as [->|(u & fs1 & fs2 & dd & H & ->)]; [done|] end.
  repeat sql_step H. apply rebuild_readable in E; [by eapply readable_frame, E|]. apply map_Forall_empty.
Qed.

Lemma life_step_readable burn o d d' : life_step burn o d d' -> readable d -> readable d'.
Proof.
  destruct 1 as [d d' [d1 d2 Hs|fs d1|iterate others live fuel opts fs d1 Ho]|fs d]; intros Hd.
  - by eapply agent_step_readable.
  - by rewrite PendingTriggers_same.
  - apply Maintain_frame; try done. intros x. apply (agent_steps_keep burn o readable); [apply agent_step_readable|apply Ho].
  - by apply Rebuild_readable.
Qed.

Lemma life_readable burn o d : rtc (life_step burn o) empty_db d -> readable d.
Proof.
  intros H. assert (readable empty_db) as H0 by apply map_Forall_empty. revert H0.
  induction H; eauto using life_step_readable.
Qed.

(** *** What forgets a trigger *)

(** The journal row is an event of trigger [k]. *)
Definition names (k : pair_key) (r : jrow) : bool :=
  match jbody r with
  | BTrigger _ _ (Json ev) => bool_decide (trigger_key_of ev = k)
  | BTriggerDone _ _ (Json t) => bool_decide ((td_ProbeID t, td_RunID t) = k)
  | _ => false
  end.

(** A maintenance pass with retention: the completion of [k], recorded
    before it or by a call landing during it, is older than its cutoff. *)
Definition expired_in (burn : bool) (o : string) (k : pair_key) (d d' : database) : Prop :=
  exists iterate others live_bytes fuel opts fs cutoff t,
    (forall x, rtc (agent_step burn o) x (others x))
    /\ d' = run (Maintain iterate others live_bytes fuel opts) fs d
    /\ mo_cutoff opts = Some cutoff /\ t < cutoff
    /\ (completed_triggers d !! k = Some t \/ exists x, completed_triggers (others x) !! k = Some t).

(** A rebuild from a journal that has no event of [k]. *)
Definition rebuilt_without (k : pair_key) (d d' : database) : Prop :=
  exists fs, d' = run Rebuild fs d /\ Forall (fun r => names k r = false) (journal d).

(** The step after which the store no longer knows [k]. *)
Definition forgets (burn : bool) (o : string) (k : pair_key) (d d' : database) : Prop :=
  remembered k d /\ ~ remembered k d' /\ (expired_in burn o k d d' \/ rebuilt_without k d d').

Lemma remembered_dec k d : Decision (remembered k d).
Proof. unfold remembered. apply _. Qed.

Lemma rebuild_remembers k rows fs d u d' fs' :
  sql_for rebuild_row rows fs d = (Ok u, d', fs') ->
  remembered k d \/ existsb (names k) rows = true -> remembered k d'.
Proof.
  revert fs d. induction rows as [|r rows IH]; intros fs d H Hk; cbn [sql_for] in H.
  { sql_prim H. by destruct Hk. }
  sql_step H. eapply IH; [exact H|]. cbn [existsb] in Hk. rewrite orb_true_iff in Hk.
  enough (remembered k d \/ names k r = true -> remembered k d0) by tauto. clear IH H Hk. intros Hk.
  unfold rebuild_row, names in *. destruct (jbody r) as [c|[x|]|run probe [ev|]|run probe [x|]]; try (by sql_prim E; destruct Hk).
  - sql_step E. sql_prim E. destruct Hk as [Hk|]; [|done]. apply applyAssignmentTx_same in E0 as [HP HC].
    by eapply remembered_frame, Hk.
  - unfold queueTriggerTx in E. destruct (snapshot_encodable _); [|done]. sql_prim E. unfold remembered in *. cbn.
    rewrite insert_pending_some. destruct Hk as [[Hk|Hk]|Hk%bool_decide_eq_true]; [by left; right|by right|by left; left].
  - apply completeTriggerTx_spec in E as [HP HC]. unfold remembered. rewrite HP, HC.
    destruct (decide ((td_ProbeID x, td_RunID x) = k)) as [<-|Hne].
    + right. rewrite lookup_insert_eq. by eexists.
    + rewrite lookup_delete_ne, lookup_insert_ne by done. by destruct Hk as [Hk|Hk%bool_decide_eq_true].
Qed.

Lemma Rebuild_remembers k fs d :
  remembered k d -> remembered k (run Rebuild fs d) \/ Forall (fun r => names k r = false) (journal d).
Proof.
  intros Hk. unfold Rebuild.
  match goal with |- remembered k (run (tx ?a ?b ?m) _ _) \/ _ =>
    destruct (tx_run_cases a b m fs d) as [->|(u & fs1 & fs2 & dd & H & ->)]; [by left|] end.
  repeat sql_step H. destruct (existsb (names k) (journal d)) eqn:Ej.
  - left. eapply rebuild_remembers in E; [by eapply remembered_frame, E|by right].
  - right. apply Forall_forall. intros r Hr. apply not_true_iff_false. intros Hn.
    apply not_true_iff_false in Ej. apply Ej, existsb_exists. exists r. by rewrite <- list_elem_of_In.
Qed.

Lemma Maintain_remembers burn o k iterate others live_bytes fuel opts fs d :
  (forall x, rtc (agent_step burn o) x (others x)) -> remembered k d ->
  remembered k (run (Maintain iterate others live_bytes fuel opts) fs d)
  \/ exists cutoff t, mo_cutoff opts = Some cutoff /\ t < cutoff
       /\ (completed_triggers d !! k = Some t \/ exists x, completed_triggers (others x) !! k = Some t).
Proof.
  intros Ho Hk. set (known := fun t => completed_triggers d !! k = Some t \/ exists x, completed_triggers (others x) !! k = Some t).
  set (gone := exists cutoff t, mo_cutoff opts = Some cutoff /\ t < cutoff /\ known t).
  set (P := fun x => (remembered k x /\ forall t, completed_triggers x !! k = Some t -> known t) \/ gone).
  assert (keeps P (Maintain iterate others live_bytes fuel opts)) as H.
  { apply Maintain_frame; try done.
    - intros x [[Hx _]|Hg]; [left|by right]. split; [|intros t Ht; right; by exists x].
      apply (agent_steps_keep burn o (remembered k) x); [apply agent_step_remembers|apply Ho|exact Hx].
    - intros cutoff x Hc [[Hx Hkn]|Hg]; [|by right]. destruct (completed_triggers x !! k) as [t|] eqn:Et.
      + destruct (decide (t < cutoff)); [right; exists cutoff, t; auto|]. left.
        assert (completed_triggers (snd (prune_completed cutoff x)) !! k = Some t) as Ex
          by (cbn; by apply map_lookup_filter_Some).
        split; [right; by eexists|]. intros t' Ht'. apply Hkn. congruence.
      + left. split; [|intros t Ht; cbn in Ht; apply map_lookup_filter_Some in Ht as [Ht _]; congruence].
        left. destruct Hx as [Hx|[y Hy]]; [exact Hx|congruence]. }
  destruct (H fs d) as [[Hr _]|Hg]; [|by left|by right]. left. split; [done|]. intros t Ht. by left.
Qed.

Lemma life_step_forgets burn o k d d' :
  readable d -> life_step burn o d d' -> remembered k d -> remembered k d' \/ forgets burn o k d d'.
Proof.
  intros Hrd Hst Hk. destruct (remembered_dec k d') as [|Hn]; [by left|]. right. split; [done|]. split; [done|].
  destruct Hst as [d d' [d1 d2 Hs|fs d1|iterate others live fuel opts fs d1 Ho]|fs d].
  - destruct Hn. by eapply agent_step_remembers.
  - destruct Hn. by rewrite PendingTriggers_same.
  - left. destruct (Maintain_remembers burn o k iterate others live fuel opts fs d1 Ho Hk) as [|(c & t & H1 & H2 & H3)]; [done|].
    exists iterate, others, live, fuel, opts, fs, c, t. done.
  - right. destruct (Rebuild_remembers k fs d Hk) as [|H]; [done|]. by exists fs.
Qed.


(** ** Pruning never removes a waiting trigger's event *)

(** Trigger rows carry the event they were written for. *)
Definition trigger_doc_ok (r : jrow) : Prop :=
  match jbody r with
  | BTrigger run probe doc => exists ev, doc = Json ev /\ trigger_key_of ev = (probe, run)
  | _ => True
  end.

(** The journal still has the event of a waiting trigger. *)
Definition has_event (d : database) (k : pair_key) (r : ptrow) : Prop :=
  exists row doc, row ∈ journal d /\ seq row = event_seq r /\ jbody row = BTrigger (snd k) (fst k) doc.

Definition protected (d : database) : Prop :=
  Forall trigger_doc_ok (journal d) /\ map_Forall (has_event d) (pending_triggers d).

Lemma has_event_mono d d' k r :
  (forall row run probe doc, row ∈ journal d -> jbody row = BTrigger run probe doc ->
     event_seq r = seq row -> row ∈ journal d') ->
  has_event d k r -> has_event d' k r.
Proof. intros H (row & doc & Hin & Hs & Hb). exists row, doc. eauto. Qed.

Lemma protected_frame d d' :
  journal d' = journal d -> pending_triggers d' = pending_triggers d -> protected d -> protected d'.
Proof. intros E1 E2 [H1 H2]. unfold protected, has_event. by rewrite E1, E2. Qed.

Lemma protected_append d s o n at_ b :
  trigger_doc_ok (mkRow s o n at_ b) -> protected d ->
  protected (with_autoinc s (with_journal (fun j => j ++ [mkRow s o n at_ b]) d)).
Proof.
  intros Hb [H1 H2]. split; simpl.
  - apply Forall_app. auto.
  - intros k r E. apply (has_event_mono d); [|by apply H2].
    intros row ? ? ? Hin _ _. simpl. apply elem_of_app. by left.
Qed.

Lemma update_pending_trigger s f r run probe doc :
  jbody r = BTrigger run probe doc -> update_pending s f r = r.
Proof. intros H. unfold update_pending. by rewrite H. Qed.

Lemma update_pending_doc s f r : trigger_doc_ok r -> trigger_doc_ok (update_pending s f r).
Proof.
  unfold trigger_doc_ok, update_pending. destruct (jbody r) eqn:E; rewrite ?E; try done.
  by destruct (_ && _); simpl; rewrite ?E.
Qed.

Lemma protected_map f d :
  (forall r, trigger_doc_ok r -> trigger_doc_ok (f r)) ->
  (forall r run probe doc, jbody r = BTrigger run probe doc -> f r = r) ->
  protected d -> protected (with_journal (map f) d).
Proof.
  intros Hf Ht [H1 H2]. split; simpl.
  - apply List.Forall_map. eapply Forall_impl; [exact H1|]. auto.
  - intros k r E. apply (has_event_mono d); [|by apply H2].
    intros row ? ? ? Hin Hb _. simpl. rewrite <- (Ht row _ _ _ Hb).
    apply list_elem_of_In, in_map, list_elem_of_In, Hin.
Qed.

Lemma protected_pending f d :
  (forall k r, f (pending_triggers d) !! k = Some r ->
     pending_triggers d !! k = Some r \/ has_event d k r) ->
  protected d -> protected (with_pending f d).
Proof.
  intros Hf [H1 H2]. split; [done|]. intros k r E.
  apply (has_event_mono d); [done|]. destruct (Hf k r E); [by apply H2|done].
Qed.

Lemma protected_drop d j :
  sublist j (journal d) ->
  (forall r, r ∈ journal d -> (exists k p, pending_triggers d !! k = Some p /\ event_seq p = seq r) ->
     (exists run probe doc, jbody r = BTrigger run probe doc) -> r ∈ j) ->
  protected d -> protected (with_journal (fun _ => j) d).
Proof.
  intros Hs Hk [H1 H2]. split; simpl.
  - by eapply sublist_Forall.
  - intros k r E. apply (has_event_mono d); [|by apply H2].
    intros row run probe doc Hin Hb Es. simpl. apply Hk; [done| |eauto]. exists k, r. auto.
Qed.

Lemma prunable_protected d r :
  (exists k p, pending_triggers d !! k = Some p /\ event_seq p = seq r) ->
  (exists run probe doc, jbody r = BTrigger run probe doc) -> prunable d r = false.
Proof.
  intros (k & p & E & Es) (run & probe & doc & Eb). unfold prunable. rewrite Eb.
  apply negb_false_iff, existsb_exists. exists (k, p).
  split; [by apply list_elem_of_In, elem_of_map_to_list|]. by apply Z.eqb_eq.
Qed.

Ltac same_protected := intros ? ?; by (eapply protected_frame; [..|eassumption]).

Lemma nextOriginSeq_protected o n : keeps protected (nextOriginSeq o n).
Proof. unfold nextOriginSeq. keeps_steps; same_protected. Qed.

Lemma insert_row_protected e o n at_ b :
  (forall s, trigger_doc_ok (mkRow s o n at_ b)) -> keeps protected (stmt e (insert_row o n at_ b)).
Proof.
  intros Hb. apply keeps_stmt. intros d s d' Hd. unfold insert_row.
  destruct (_ || _); [done|]. intros [= <- <-]. by apply protected_append.
Qed.

Lemma record_loop_protected burn o start now rs s : keeps protected (record_loop burn o start now rs s).
Proof.
  revert start s. induction rs as [|x rs IH]; intros start s; cbn [record_loop]; [apply keeps_ret|].
  destruct (ids_empty x); [apply IH|]. apply keeps_bind; [|intros ?; apply IH].
  apply keeps_stmt. intros d k d' Hd. unfold insert_result.
  destruct (_ <=? _); [done|]. destruct (_ || _); intros [= <- <-].
  - destruct burn; [|done]. by eapply protected_frame, Hd.
  - by apply protected_append.
Qed.

Lemma insert_pending_lookup k k' r r' m :
  insert_pending k r m !! k' = Some r' -> m !! k' = Some r' \/ (k' = k /\ r' = r).
Proof.
  unfold insert_pending. destruct (m !! k) eqn:E; [auto|].
  rewrite lookup_insert_Some. intros [[<- <-]|[_ ?]]; auto.
Qed.

Lemma queueTriggerTx_protected ev n at_ fs d :
  protected d -> has_event d (trigger_key_of ev) (mkPtrow n at_ (Json (ev_Probe ev))) ->
  protected (run (queueTriggerTx ev n at_) fs d).
Proof.
  intros Hd He. unfold queueTriggerTx. destruct (snapshot_encodable _); [|done].
  match goal with |- protected (run (exec ?e ?f) _ _) =>
    destruct (exec e f fs d) as [[[u|x] d'] fs'] eqn:E; unfold run; rewrite E; simpl end.
  - apply exec_ok in E as [-> _]. apply protected_pending; [|done].
    intros k r [?|[-> ->]]%insert_pending_lookup; auto.
  - unfold exec, stmt in E. destruct fs as [|[]]; by simplify_eq.
Qed.

Lemma completeTriggerTx_protected p r at_ : keeps protected (completeTriggerTx p r at_).
Proof.
  unfold completeTriggerTx. keeps_steps; try same_protected.
  intros d Hd. apply protected_pending; [|done]. intros k x E. left.
  by apply lookup_delete_Some in E as [_ ?].
Qed.

Lemma RecordTrigger_protected o now ev fs d :
  protected d -> protected (run (RecordTrigger o now ev) fs d).
Proof.
  intros Hd. unfold run. destruct (RecordTrigger o now ev fs d) as [[[b|e] d'] fs'] eqn:H; simpl.
  - apply RecordTrigger_ok in H. destruct b; [|by subst].
    destruct H as (_ & _ & HJ & HP & _). destruct Hd as [H1 H2].
    assert (Forall trigger_doc_ok (journal d')) as Hdoc.
    { rewrite HJ. apply Forall_app. split; [done|]. constructor; [|done]. simpl. by exists ev. }
    split; [done|]. rewrite HP. intros k r [E|[-> ->]]%insert_pending_lookup.
    + apply (has_event_mono d); [|by apply H2]. intros row ? ? ? Hin _ _. rewrite HJ.
      apply elem_of_app. by left.
    + exists (trigger_row o now ev d), (Json ev). split; [|done]. rewrite HJ.
      apply elem_of_app. right. left.
  - unfold RecordTrigger in H. destruct (negb _); [done|].
    destruct (negb _); [unfold sql_fail in H; by simplify_eq|]. apply tx_err in H. by subst.
Qed.

Lemma applyAssignmentTx_protected snaps b : keeps protected (applyAssignmentTx snaps b).
Proof.
  unfold applyAssignmentTx. keeps_steps; try same_protected.
  apply keeps_stmt. intros d u d' Hd. unfold insert_probe.
  destruct (probes_t d !! _); [done|]. intros [= _ <-]. by eapply protected_frame, Hd.
Qed.

Lemma agent_step_protected burn o d d' : agent_step burn o d d' -> protected d -> protected d'.
Proof.
  destruct 1; intros Hd; revert Hd.
  - revert fs d. change (keeps protected (RecordResults burn o now rs)). unfold RecordResults.
    destruct rs; [apply keeps_ret|]. keeps_steps; [apply nextOriginSeq_protected|apply record_loop_protected].
  - apply RecordTrigger_protected.
  - revert fs d. change (keeps protected (CompleteTriggers o now ts)). unfold CompleteTriggers, complete_one.
    keeps_steps; [|apply nextOriginSeq_protected|by apply insert_row_protected|apply completeTriggerTx_protected].
    intros d Hd. apply protected_pending; [|done]. intros k y E. left.
    by apply lookup_delete_Some in E as [_ ?].
  - revert fs d. change (keeps protected (SaveAssignment o now hash snaps)). unfold SaveAssignment.
    keeps_steps; try same_protected; [apply nextOriginSeq_protected|by apply insert_row_protected
      |apply applyAssignmentTx_protected].
  - revert fs d. change (keeps protected (MarkOutcomes now xs)). unfold MarkOutcomes, mark_outcome.
    keeps_steps; try done; intros d Hd; (apply protected_map; [|intros; by eapply update_pending_trigger|done]);
      intros r; apply update_pending_doc.
  - revert fs d. change (keeps protected (MarkAttempts seqs)). unfold MarkAttempts. keeps_steps.
    intros d Hd. apply protected_map; [..|done]; intros r; unfold attempt_row;
      destruct (bool_decide _); auto using update_pending_doc.
    intros. by eapply update_pending_trigger.
  - revert fs d. change (keeps protected (MarkProbesRun ids t)). unfold MarkProbesRun.
    keeps_steps; same_protected.
Qed.

Lemma rebuild_loop_protected rows fs d u d' fs' :
  Forall trigger_doc_ok rows -> (forall r, r ∈ rows -> r ∈ journal d) -> protected d ->
  sql_for rebuild_row rows fs d = (Ok u, d', fs') -> protected d' /\ journal d' = journal d.
Proof.
  intros Hdoc. revert fs d. induction Hdoc as [|r rows Hr Hrows IH]; intros fs d Hin Hd H; cbn [sql_for] in H.
  - by sql_prim H.
  - sql_step H.
    assert (protected d0 /\ journal d0 = journal d) as [Hd0 HJ].
    { unfold rebuild_row in E. destruct (jbody r) as [c|[x|]|run probe [ev|]|run probe [x|]] eqn:Eb;
        try (by sql_prim E).
      - sql_step E. sql_prim E. split.
        + pose proof (applyAssignmentTx_protected (map snapshot_decoded (pl_Probes x)) false fs d Hd) as Hp.
          rewrite (run_ok _ _ _ _ _ _ E0) in Hp. by eapply protected_frame, Hp.
        + by apply applyAssignmentTx_frame in E0 as (? & _).
      - split.
        + rewrite <- (run_ok _ _ _ _ _ _ E). apply queueTriggerTx_protected; [done|].
          exists r, (Json ev). unfold trigger_doc_ok in Hr. rewrite Eb in Hr.
          destruct Hr as (ev' & [= <-] & Hk). unfold trigger_key_of, event_decoded in *. simpl.
          injection Hk as -> ->. split_and!; [apply Hin; left|done|done].
        + apply queueTriggerTx_frame in E as [f ->]. done.
      - split.
        + rewrite <- (run_ok _ _ _ _ _ _ E). by apply completeTriggerTx_protected.
        + by apply completeTriggerTx_frame in E as (? & _). }
    apply IH in H as [? ?]; [|..|done].
    + split; [done|congruence].
    + intros x Hx. rewrite HJ. apply Hin. by right.
Qed.

Lemma Rebuild_protected fs d : protected d -> protected (run Rebuild fs d).
Proof.
  intros Hd. unfold Rebuild.
  match goal with |- protected (run (tx ?a ?b ?m) _ _) =>
    destruct (tx_run_cases a b m fs d) as [->|(u & fs1 & fs2 & dd & H & ->)]; [done|] end.
  repeat sql_step H. simpl in *.
  eapply rebuild_loop_protected in E as [Hp _]; [|by destruct Hd|by intros|].
  - by eapply protected_frame, Hp.
  - destruct Hd as [H1 _]. split; [done|]. simpl. apply map_Forall_empty.
Qed.

Lemma Maintain_protected iterate others live_bytes fuel opts :
  (forall d, protected d -> protected (others d)) -> keeps protected (Maintain iterate others live_bytes fuel opts).
Proof.
  intros Ho. apply Maintain_frame; try done; try (intros; by (eapply protected_frame; [..|eassumption])).
  intros j d Hs Hk Hd. apply protected_drop; [done| |done]. intros r Hin Hev Htr. apply Hk; [done|by apply prunable_protected|].
  destruct Htr as (run & probe & doc & Eb). unfold superseded, is_assignment. by rewrite Eb.
Qed.

Lemma PendingTriggers_protected fs d : protected d -> protected (run PendingTriggers fs d).
Proof.
  revert fs d. change (keeps protected PendingTriggers). unfold PendingTriggers. keeps_steps.
  intros fs d Hd. unfold run, sql_ignore. 
  match goal with |- context [exec ?e ?f fs d] =>
    assert (keeps protected (exec e f)) as Hk; [|specialize (Hk fs d Hd); unfold run in Hk; by destruct (exec e f fs d) as [[? ?] ?]] end.
  apply keeps_exec. intros y Hy. apply protected_pending; [|done]. intros k r E. left. by apply lookup_delete_Some in E as [_ ?].
Qed.

Lemma life_step_protected burn o d d' : life_step burn o d d' -> protected d -> protected d'.
Proof.
  destruct 1 as [d d' [d1 d2 Hs|fs d1|iterate others live fuel opts fs d1 Ho]|fs d]; intros Hd.
  - by eapply agent_step_protected.
  - by apply PendingTriggers_protected.
  - apply Maintain_protected; [|done]. intros x.
    apply (agent_steps_keep burn o protected); [apply agent_step_protected|apply Ho].
  - by apply Rebuild_protected.
Qed.

(** Pruning never strands a waiting trigger: in every reachable database
    each pending trigger's journal event is still in the journal under the
    number the queue holds, so [Rebuild] can requeue it, however
    aggressively retention and the size bound prune. *)
Theorem trigger_event_protected burn o d k r :
  rtc (life_step burn o) empty_db d -> pending_triggers d !! k = Some r -> has_event d k r.
Proof.
  intros Hst. assert (protected d) as [_ H]; [|apply H].
  assert (protected empty_db) as H0 by (split; simpl; [constructor|apply map_Forall_empty]).
  revert H0. induction Hst; eauto using life_step_protected.
Qed.

(** ** On the small store *)

Definition demo_completed : database :=
  run (CompleteTriggers "node" 2500 [mkPendingTrigger "a" "run1" 2 (demo_probe "a")]) [] demo_db.

(** Retention that keeps the completion of 2500, and the aggressive pass that
    does not; then a resync without the probe. *)
Definition demo_kept : database :=
  run (SaveAssignment "node" 8000 "h2" []) []
    (run (Maintain map_to_list (fun x => x) (fun _ _ => 100) 100 (mkMaintain (Some 2000) 1)) [] demo_completed).
Definition demo_forgotten : database :=
  run (SaveAssignment "node" 8000 "h2" []) [] (run demo_maintain [] demo_completed).

Example demo_redelivered :
  fst (fst (RecordTrigger "node" 9000 demo_event [] demo_kept)) = Ok false
  /\ fst (fst (RecordTrigger "node" 9000 demo_event [] demo_forgotten)) = Ok true.
Proof. vm_compute. done. Qed.

Lemma demo_kept_reachable : rtc (life_step false "node") demo_triggered demo_kept.
Proof.
  unfold demo_kept, demo_completed, demo_db.
  eapply rtc_r; [eapply rtc_r; [eapply rtc_r; [apply rtc_once|]|]|].
  - apply life_running, rn_agent, ag_results.
  - apply life_running, rn_agent, ag_complete.
  - apply life_running, rn_maintain. intros x. apply rtc_refl.
  - apply life_running, rn_agent, ag_assign.
Qed.


Lemma trigger_event_protected_witness :
  exists r, pending_triggers (run demo_maintain [] demo_db) !! ("a"%string, "run1"%string) = Some r
    /\ has_event (run demo_maintain [] demo_db) ("a"%string, "run1"%string) r.
Proof.
  eexists. split; [vm_compute; reflexivity|].
  refine (trigger_event_protected false "node" (run demo_maintain [] demo_db) _ _ _ _).
  - eapply rtc_l; [apply life_running, rn_agent, (ag_assign _ _ 1000 "h1" [demo_probe "a"] [])|].
    eapply rtc_l; [apply life_running, rn_agent, (ag_trigger _ _ 1500 demo_event [])|].
    eapply rtc_l; [apply life_running, rn_agent, (ag_results _ _ 2000 demo_results [])|].
    eapply rtc_l; [|apply rtc_refl]. apply life_running, rn_maintain. intros x. apply rtc_refl.
  - vm_compute. reflexivity.
Defined.
