(* ===== verification/StoreAssign.v ===== *)
(** * Assignments, restarts and recovery

    [SaveAssignment], [LoadProbeStates], [MarkProbesRun] and [Rebuild] of
    [internal/store/probes.go]. *)

From Stdlib Require Import ZArith Lia List Bool Ascii String Sorted.
From stdpp Require Import base tactics gmap strings list fin_maps sorting.
From S2P Require Import Prelude Wire Sql Store StoreMaint Journal StoreWf StoreDemo StoreLog StoreTriggers.

(** ** Values that came from JSON

    What a decoded server response holds: no Go integers inside [any], no
    NaN or infinity.  Encoding and decoding such a value is the identity. *)

Fixpoint json_normal (v : any) : bool :=
  match v with
  | VFloat f => finite_float f
  | VInt _ | VInt64 _ => false
  | VArray l => forallb json_normal l
  | VObject m => forallb (fun kv => json_normal (snd kv)) m
  | _ => true
  end.

Lemma json_normal_decoded v : json_normal v = true -> json_decoded v = v.
Proof.
  induction v using any_rect'; simpl; try done.
  - intros Hn. f_equal. induction H as [|x l Hx Hl IH]; simpl in *; [done|].
    zify_bool. rewrite Hx, IH; done.
  - intros Hn. f_equal. induction H as [|[k x] m Hx Hm IH]; simpl in *; [done|].
    zify_bool. rewrite Hx, IH; done.
Qed.

Lemma json_normal_encodable v : json_normal v = true -> json_encodable v = true.
Proof.
  induction v using any_rect'; simpl; try done.
  - intros Hn. induction H as [|x l Hx Hl IH]; simpl in *; [done|]. zify_bool. rewrite Hx, IH; done.
  - intros Hn. induction H as [|[k x] m Hx Hm IH]; simpl in *; [done|]. zify_bool. rewrite Hx, IH; done.
Qed.

Definition snapshot_normal (s : ProbeSnapshot) : bool := json_normal (VObject (Params s)).

Lemma params_decoded p : json_normal (VObject p) = true -> json_decoded_params p = p.
Proof. intros H. apply json_normal_decoded in H. by injection H. Qed.

Lemma snapshot_normal_decoded s : snapshot_normal s = true -> snapshot_decoded s = s.
Proof.
  intros H. unfold snapshot_decoded. rewrite params_decoded by exact H. by destruct s.
Qed.

Lemma snapshot_normal_encodable s : snapshot_normal s = true -> snapshot_encodable s = true.
Proof. apply json_normal_encodable. Qed.

(** ** What saving an assignment leaves *)

(** The row of snapshot [s], with the schedule state [old] had. *)
Definition saved_row (old : gmap string prow) (s : ProbeSnapshot) : prow :=
  mkProw s (snapshot_params s) (old !! ID s ≫= last_run_at_ms) (old !! ID s ≫= last_trigger_run_id).

Definition saved_rows (old : gmap string prow) (snaps : list ProbeSnapshot) : gmap string prow :=
  list_to_map ((fun s => (ID s, saved_row old s)) <$> snaps).

Lemma insert_loop_ok old snaps fs d u d' fs' :
  sql_for (fun s =>
    if snapshot_encodable s then stmt "store: insert probe" (insert_probe old s)
    else sql_fail "store: encode probe params") snaps fs d = (Ok u, d', fs') ->
  NoDup (ID <$> snaps) /\ (forall s, s ∈ snaps -> probes_t d !! ID s = None)
  /\ probes_t d' = saved_rows old snaps ∪ probes_t d
  /\ meta d' = meta d.
Proof.
  revert fs d. induction snaps as [|s snaps IH]; intros fs d H; cbn [sql_for] in H.
  - sql_prim H. unfold saved_rows. simpl. rewrite (left_id_L ∅ (∪)).
    split_and!; try done; [apply NoDup_nil_2|]. intros s Hs. by apply not_elem_of_nil in Hs.
  - sql_step H. destruct (snapshot_encodable s); [|done]. sql_prim E.
    unfold insert_probe in E. destruct (probes_t d !! ID s) eqn:En; [done|]. injection E as _ <-.
    apply IH in H as (Hn & Hfresh & -> & ->). simpl in Hfresh |- *.
    assert (ID s ∉ ID <$> snaps) as Hs.
    { intros (s' & Es & Hs')%list_elem_of_fmap. specialize (Hfresh s' Hs').
      rewrite <- Es, lookup_insert_eq in Hfresh. done. }
    split_and!; [by apply NoDup_cons| | |done].
    + intros s' [->|Hs']%elem_of_cons; [done|]. specialize (Hfresh s' Hs').
      by apply lookup_insert_None in Hfresh as [? _].
    + unfold saved_rows. rewrite fmap_cons. cbn [list_to_map foldr fst snd uncurry].
      rewrite <- insert_union_l, <- insert_union_r; [done|].
      apply not_elem_of_list_to_map_1. rewrite <- list_fmap_compose. exact Hs.
Qed.

Lemma applyAssignment_ok snaps preserve fs d u d' fs' :
  applyAssignmentTx snaps preserve fs d = (Ok u, d', fs') ->
  NoDup (ID <$> snaps)
  /\ probes_t d' = saved_rows (if preserve then probes_t d else ∅) snaps /\ meta d' = meta d.
Proof.
  unfold applyAssignmentTx. intros H. sql_step H.
  assert (d0 = d /\ a = if preserve then probes_t d else ∅) as [-> ->] by (destruct preserve; by sql_prim E).
  sql_step H. apply insert_loop_ok in H as (Hn & _ & HP & HM). simpl in HP.
  rewrite (right_id_L ∅ (∪)) in HP. done.
Qed.

Lemma SaveAssignment_ok o now hash snaps fs d u d' fs' :
  hash <> ""%string ->
  SaveAssignment o now hash snaps fs d = (Ok u, d', fs') ->
  NoDup (ID <$> snaps) /\ probes_t d' = saved_rows (probes_t d) snaps
  /\ meta d' = <["probe_hash"%string := hash]> (meta d)
  /\ pending_triggers d' = pending_triggers d /\ completed_triggers d' = completed_triggers d
  /\ exists s n, journal d' = journal d ++ [mkRow s o n now (BAssignment (Json (mkAssignment hash snaps)))].
Proof.
  intros Hh H. unfold SaveAssignment in H. rewrite decide_False in H by done.
  destruct (negb (forallb _ _)); [done|].
  apply tx_ok in H as (fs1 & fs2 & H). sql_step H. sql_step H. sql_step H. sql_prim H.
  apply nextOriginSeq_proj in E as [m ->]. apply insert_row_proj in E0 as (P & C & Pr & M & J).
  pose proof (applyAssignmentTx_frame _ _ _ _ _ _ _ E1) as (J1 & _ & _).
  assert (triggers_as (pending_triggers d1) (completed_triggers d1) d2) as [P2 C2].
  { rewrite <- (run_ok _ _ _ _ _ _ E1). unfold applyAssignmentTx.
    match goal with |- triggers_as _ _ (run ?m _ _) =>
      assert (keeps (triggers_as (pending_triggers d1) (completed_triggers d1)) m) as Hk end.
    { keeps_steps; try same_triggers. apply keeps_stmt. intros dx v dx' Hx. unfold insert_probe.
      destruct (probes_t dx !! _); [done|]. intros [= _ <-]. by destruct Hx. }
    by apply Hk. }
  apply applyAssignment_ok in E1 as (Hn & HP & HM). simpl in *.
  rewrite HP, HM, Pr, M, P2, C2, P, C, J1, J. eauto 10.
Qed.

(** ** What a restart loads *)

Definition loaded_state (r : prow) (s : ProbeSnapshot) : ProbeState :=
  mkProbeState_ (snapshot_decoded s)
    (match last_run_at_ms r with Some ms => unix_milli ms | None => zero_time end)
    (default ""%string (last_trigger_run_id r)).

Lemma state_of_saved old s :
  state_of_row (saved_row old s) = Some (loaded_state (saved_row old s) s).
Proof.
  unfold state_of_row, saved_row, snapshot_params, loaded_state. simpl.
  destruct (Params s) as [|x p] eqn:E; simpl; unfold set_Params, snapshot_decoded; by rewrite E.
Qed.

Lemma mapM_total {A B} (f : A -> option B) (g : A -> B) l :
  (forall x, x ∈ l -> f x = Some (g x)) -> mapM f l = Some (g <$> l).
Proof.
  induction l as [|x l IH]; intros H; [done|]. simpl.
  rewrite (H x) by left. simpl. rewrite IH; [done|]. intros y Hy. apply H. by right.
Qed.

#[export] Instance id_le_trans : Transitive id_le.
Proof. intros a b c. unfold id_le. apply transitivity. Qed.
#[export] Instance id_le_total : Total id_le.
Proof. intros a b. unfold id_le. apply (total String.le). Qed.

Lemma saved_rows_perm old snaps :
  NoDup (ID <$> snaps) ->
  map_to_list (saved_rows old snaps) ≡ₚ (fun s => (ID s, saved_row old s)) <$> snaps.
Proof.
  intros Hn. unfold saved_rows. apply map_to_list_to_map. by rewrite <- list_fmap_compose.
Qed.

(** A restart loads exactly what was saved: after [SaveAssignment], the next
    [LoadProbeStates] returns its hash and one state per snapshot, in id
    order, each with the snapshot as JSON carries it and the run time and
    last trigger the probe already had before the save.  A repeated id is
    refused: the save then fails and changes nothing. *)
Theorem save_load_roundtrip o now hash snaps fs d u d' fs' :
  hash <> ""%string -> SaveAssignment o now hash snaps fs d = (Ok u, d', fs') ->
  NoDup (ID <$> snaps)
  /\ exists states,
       LoadProbeStates [] d' = (Ok (hash, states), d', [])
       /\ states ≡ₚ (fun s => loaded_state (saved_row (probes_t d) s) s) <$> snaps
       /\ StronglySorted String.le ((fun st => ID (ps_Snapshot st)) <$> states).
Proof.
  intros Hh H. apply SaveAssignment_ok in H as (Hn & HP & HM & _); [|done]. split; [done|].
  set (old := probes_t d) in *.
  set (rows := merge_sort id_le (map_to_list (probes_t d'))).
  assert (rows ≡ₚ (fun s => (ID s, saved_row old s)) <$> snaps) as Hperm.
  { unfold rows. rewrite merge_sort_Permutation, HP. by apply saved_rows_perm. }
  set (st_of := fun kr : string * prow => loaded_state (snd kr) (pr_snapshot (snd kr))).
  assert (mapM state_of_row (snd <$> rows) = Some (st_of <$> rows)) as Hm.
  { rewrite (mapM_total state_of_row (fun r => loaded_state r (pr_snapshot r))).
    - f_equal. rewrite <- list_fmap_compose. done.
    - intros r (kr & -> & Hkr)%list_elem_of_fmap. rewrite Hperm in Hkr.
      apply list_elem_of_fmap in Hkr as (s & -> & _). simpl. apply state_of_saved. }
  exists (st_of <$> rows). split_and!.
  - unfold LoadProbeStates. erewrite bind_run by apply query_run. cbv beta.
    rewrite HM, lookup_insert_eq. cbn [default].
    erewrite bind_run; [done|]. apply stmt_run. cbv beta. fold rows. by rewrite Hm.
  - rewrite Hperm. rewrite <- list_fmap_compose. done.
  - assert ((fun st => ID (ps_Snapshot st)) <$> (st_of <$> rows) = fst <$> rows) as ->.
    { rewrite <- list_fmap_compose. apply list_fmap_ext. intros i kr Hkr%list_elem_of_lookup_2.
      rewrite Hperm in Hkr. apply list_elem_of_fmap in Hkr as (s & -> & _). done. }
    pose proof (StronglySorted_merge_sort id_le (map_to_list (probes_t d'))) as Hs. fold rows in Hs.
    clear -Hs. induction Hs as [|x l Hl IH Hx]; simpl; constructor; [done|].
    apply Forall_fmap. exact Hx.
Qed.

(** ** On the small store *)

Definition demo_resync : database :=
  run (SaveAssignment "node" 5000 "h2" [demo_probe "b"; demo_probe "a"]) [] demo_settled.

Lemma save_load_roundtrip_witness :
  exists states, LoadProbeStates [] demo_resync = (Ok ("h2"%string, states), demo_resync, [])
    /\ StronglySorted String.le ((fun st => ID (ps_Snapshot st)) <$> states).
Proof.
  assert (SaveAssignment "node" 5000 "h2" [demo_probe "b"; demo_probe "a"] [] demo_settled
    = (Ok tt, demo_resync, [])) as E by (vm_compute; reflexivity).
  destruct (save_load_roundtrip "node" 5000 "h2" [demo_probe "b"; demo_probe "a"] [] demo_settled tt
    demo_resync [] ltac:(discriminate) E) as (_ & states & H1 & _ & H2).
  exists states. split; assumption.
Defined.
