(* ===== verification/StoreRebuild.v ===== *)
(** * Recovery: the projections are a fold of the journal

    [Rebuild] of [internal/store/probes.go] against an independent replay
    of the control events: on every database the agent's calls produce, the
    trigger queue, the completed set, the assignment and its hash are what
    the journal says, so recovery reproduces them exactly; and once
    maintenance has dropped rows, it still reproduces the assignment, its hash
    and every waiting trigger. *)

From Stdlib Require Import ZArith Lia List Bool Ascii String Sorted.
From stdpp Require Import base tactics gmap strings list fin_maps sorting.
From S2P Require Import Prelude Wire Sql Store StoreMaint Journal StoreWf StoreDemo StoreLog StoreTriggers StoreAssign.

(** ** The abstract projections *)

Record proj : Type := mkProj {
  pj_pending : gmap pair_key ptrow;
  pj_completed : gmap pair_key Z;
  pj_probes : gmap string ProbeSnapshot;
  pj_hash : option string
}.

Definition proj0 : proj := mkProj ∅ ∅ ∅ None.

Definition by_id (snaps : list ProbeSnapshot) : gmap string ProbeSnapshot :=
  list_to_map ((fun s => (ID s, s)) <$> snaps).

(** What one journal row does to the projections. *)
Definition replay_row (p : proj) (r : jrow) : proj :=
  match jbody r with
  | BAssignment (Json a) => mkProj (pj_pending p) (pj_completed p) (by_id (pl_Probes a)) (Some (pl_Hash a))
  | BTrigger _ _ (Json ev) =>
      mkProj (insert_pending (trigger_key_of ev) (mkPtrow (seq r) (at_ms r) (Json (ev_Probe ev)))
                (pj_pending p)) (pj_completed p) (pj_probes p) (pj_hash p)
  | BTriggerDone _ _ (Json t) =>
      mkProj (delete (td_ProbeID t, td_RunID t) (pj_pending p))
        (<[(td_ProbeID t, td_RunID t) := at_ms r]> (pj_completed p)) (pj_probes p) (pj_hash p)
  | _ => p
  end.

Definition replay (p : proj) (j : list jrow) : proj := fold_left replay_row j p.

Definition proj_of (d : database) : proj :=
  mkProj (pending_triggers d) (completed_triggers d) (pr_snapshot <$> probes_t d)
    (meta d !! "probe_hash"%string).

(** Control rows hold readable, JSON-normal documents without repeated ids. *)
Definition row_normal (r : jrow) : Prop :=
  match jbody r with
  | BResult _ => True
  | BAssignment doc => exists a, doc = Json a /\ NoDup (ID <$> pl_Probes a)
                         /\ Forall (fun s => snapshot_normal s = true) (pl_Probes a)
  | BTrigger _ _ doc => exists ev, doc = Json ev /\ snapshot_normal (ev_Probe ev) = true
  | BTriggerDone _ _ doc => exists t, doc = Json t
  end.

Definition consistent (d : database) : Prop :=
  Forall row_normal (journal d) /\ proj_of d = replay proj0 (journal d).

Lemma saved_rows_snapshots old snaps : pr_snapshot <$> saved_rows old snaps = by_id snaps.
Proof.
  unfold saved_rows, by_id. rewrite <- list_to_map_fmap. f_equal.
  rewrite <- !list_fmap_compose. done.
Qed.

(** ** The agent's calls keep the projections consistent *)

Definition result_row (r : jrow) : Prop := is_result r = true.

(** Only result rows are appended, nothing else changes. *)
Definition only_results (d0 d : database) : Prop :=
  proj_of d = proj_of d0 /\ exists new, journal d = journal d0 ++ new /\ Forall result_row new.

Lemma only_results_consistent d d' : only_results d d' -> consistent d -> consistent d'.
Proof.
  intros (HP & new & HJ & Hnew) [Hn He]. split.
  - rewrite HJ. apply Forall_app. split; [done|]. eapply Forall_impl; [exact Hnew|].
    unfold result_row, is_result, row_normal. intros r. by destruct (jbody r).
  - rewrite HP, He, HJ. unfold replay. rewrite fold_left_app.
    generalize (fold_left replay_row (journal d) proj0) as p. clear -Hnew.
    induction Hnew as [|r new Hr Hnew IH]; intros p; [done|]. simpl. rewrite <- IH.
    unfold replay_row, result_row, is_result in *. by destruct (jbody r).
Qed.

Lemma only_results_refl d : only_results d d.
Proof. split; [done|]. exists []. by rewrite app_nil_r. Qed.

Lemma proj_frame d d' :
  pending_triggers d' = pending_triggers d -> completed_triggers d' = completed_triggers d ->
  pr_snapshot <$> probes_t d' = pr_snapshot <$> probes_t d -> meta d' = meta d ->
  proj_of d' = proj_of d.
Proof. unfold proj_of. by intros -> -> -> ->. Qed.

Lemma record_loop_only burn o start now rs s d0 :
  keeps (only_results d0) (record_loop burn o start now rs s).
Proof.
  revert start s. induction rs as [|x rs IH]; intros start s; cbn [record_loop]; [apply keeps_ret|].
  destruct (ids_empty x); [apply IH|]. apply keeps_bind; [|intros ?; apply IH].
  apply keeps_stmt. intros d k d' (HP & new & HJ & Hn). unfold insert_result.
  destruct (_ <=? _); [done|]. destruct (_ || _); intros [= <- <-].
  - destruct burn; [|split; eauto]. split; [done|]. by exists new.
  - split; [done|]. eexists. split; [simpl; rewrite HJ, <- app_assoc; done|].
    apply Forall_app. split; [done|]. by constructor.
Qed.

Lemma RecordResults_only burn o now rs d0 : keeps (only_results d0) (RecordResults burn o now rs).
Proof.
  unfold RecordResults, nextOriginSeq. destruct rs; [apply keeps_ret|].
  keeps_steps; try apply record_loop_only; intros d (HP & new & HJ & Hn); (split; [done|]); by exists new.
Qed.

(** Rewriting result rows in place. *)
Lemma map_results_consistent f d :
  (forall r, is_result r = false -> f r = r) -> (forall r, is_result r = true -> is_result (f r) = true) ->
  consistent d -> consistent (with_journal (map f) d).
Proof.
  intros Hc Hr [Hn He]. split; simpl.
  - apply List.Forall_map. eapply Forall_impl; [exact Hn|]. intros r Hrow.
    destruct (is_result r) eqn:E; [|by rewrite Hc].
    specialize (Hr r E). unfold row_normal, is_result in *. by destruct (jbody (f r)).
  - change (proj_of d = replay proj0 (map f (journal d))). rewrite He.
    generalize proj0 as p. clear -Hc Hr. induction (journal d) as [|r j IH]; intros p; [done|].
    cbn [replay fold_left map]. unfold replay in IH.
    assert (replay_row p (f r) = replay_row p r) as ->; [|apply IH].
    destruct (is_result r) eqn:E; [|by rewrite Hc].
    specialize (Hr r E). unfold replay_row, is_result in *.
    destruct (jbody (f r)), (jbody r); done.
Qed.

Lemma update_pending_result s f r : is_result (update_pending s f r) = is_result r.
Proof.
  unfold update_pending, is_result. destruct (jbody r) eqn:E; rewrite ?E; try done.
  by destruct (_ && _); simpl; rewrite ?E.
Qed.

Lemma update_pending_control s f r : is_result r = false -> update_pending s f r = r.
Proof. unfold update_pending, is_result. by destruct (jbody r). Qed.

Lemma MarkOutcomes_consistent now xs : keeps consistent (MarkOutcomes now xs).
Proof.
  unfold MarkOutcomes, mark_outcome. keeps_steps; try done; intros d Hd;
    (apply map_results_consistent; [..|done]; intros r; [apply update_pending_control|by rewrite update_pending_result]).
Qed.

Lemma MarkAttempts_consistent seqs : keeps consistent (MarkAttempts seqs).
Proof.
  unfold MarkAttempts. keeps_steps. intros d Hd.
  apply map_results_consistent; [..|done]; intros r; unfold attempt_row; destruct (bool_decide _);
    auto using update_pending_control. by rewrite update_pending_result.
Qed.

Lemma MarkProbesRun_consistent ids t : keeps consistent (MarkProbesRun ids t).
Proof.
  unfold MarkProbesRun. keeps_steps. intros d [Hn He]. split; [done|]. etrans; [|exact He].
  apply proj_frame; try done. apply map_eq. intros i. simpl. unfold mark_run_rows.
  rewrite !lookup_fmap, map_lookup_imap. destruct (probes_t d !! i); simpl; [|done].
  by destruct (bool_decide _).
Qed.

Lemma RecordTrigger_consistent o now ev fs d :
  snapshot_normal (ev_Probe ev) = true -> consistent d -> consistent (run (RecordTrigger o now ev) fs d).
Proof.
  intros Hev Hd. unfold run. destruct (RecordTrigger o now ev fs d) as [[[b|e] d'] fs'] eqn:H; simpl.
  - apply RecordTrigger_ok in H. destruct b; [|by subst].
    destruct H as (_ & _ & HJ & HP & HC & HPr & HM). destruct Hd as [Hn He]. split.
    + rewrite HJ. apply Forall_app. split; [done|]. constructor; [|done]. by exists ev.
    + rewrite HJ. unfold replay. rewrite fold_left_app.
      change (fold_left replay_row (journal d) proj0) with (replay proj0 (journal d)).
      rewrite <- He. unfold proj_of. rewrite HP, HC, HPr, HM. done.
  - unfold RecordTrigger in H. destruct (negb _); [done|].
    destruct (negb _); [unfold sql_fail in H; by simplify_eq|]. apply tx_err in H. by subst.
Qed.

Lemma SaveAssignment_consistent o now hash snaps fs d :
  Forall (fun s => snapshot_normal s = true) snaps -> consistent d ->
  consistent (run (SaveAssignment o now hash snaps) fs d).
Proof.
  intros Hs Hd. unfold run.
  destruct (SaveAssignment o now hash snaps fs d) as [[[u|e] d'] fs'] eqn:H; simpl.
  - destruct (decide (hash = ""%string)) as [->|Hh].
    { unfold SaveAssignment in H. rewrite decide_True in H by done. by sql_prim H. }
    apply SaveAssignment_ok in H as (Hnd & HP & HM & HPe & HC & s & n & HJ); [|done].
    destruct Hd as [Hn He]. split.
    + rewrite HJ. apply Forall_app. split; [done|]. constructor; [|done]. by eexists.
    + rewrite HJ. unfold replay. rewrite fold_left_app.
      change (fold_left replay_row (journal d) proj0) with (replay proj0 (journal d)).
      rewrite <- He. unfold proj_of. rewrite HP, HM, HPe, HC, saved_rows_snapshots, lookup_insert_eq. done.
  - unfold SaveAssignment in H. destruct (decide _); [done|].
    destruct (negb _); [unfold sql_fail in H; by simplify_eq|]. apply tx_err in H. by subst.
Qed.

Lemma alter_snapshots f i (m : gmap string prow) :
  (forall r, pr_snapshot (f r) = pr_snapshot r) -> pr_snapshot <$> alter f i m = pr_snapshot <$> m.
Proof.
  intros Hf. apply map_eq. intros k. rewrite !lookup_fmap, lookup_alter. case_decide; [|done].
  subst. destruct (m !! _); simpl; [by rewrite Hf|done].
Qed.

Lemma complete_one_consistent o now t fs d u d' fs' :
  complete_one o now t fs d = (Ok u, d', fs') -> consistent d -> consistent d'.
Proof.
  intros H [Hn He]. unfold complete_one in H. sql_step H. sql_step H. sql_step H.
  apply nextOriginSeq_proj in E as [m ->]. apply insert_row_proj in E0 as (P & C & Pr & M & J).
  unfold completeTriggerTx in H. repeat sql_step H. split; simpl in *.
  - rewrite J. apply Forall_app. split; [done|]. constructor; [|done]. by eexists.
  - rewrite J. unfold replay. rewrite fold_left_app.
    change (fold_left replay_row (journal d) proj0) with (replay proj0 (journal d)).
    rewrite <- He. unfold proj_of. simpl.
    by rewrite P, C, Pr, M, delete_delete_eq, alter_snapshots.
Qed.

Lemma CompleteTriggers_consistent o now ts fs d :
  consistent d -> consistent (run (CompleteTriggers o now ts) fs d).
Proof.
  intros Hd. unfold CompleteTriggers. destruct ts as [|t ts]; [done|].
  match goal with |- consistent (run (tx ?a ?b ?m) _ _) =>
    destruct (tx_run_cases a b m fs d) as [->|(u & fs1 & fs2 & dd & H & ->)]; [done|] end.
  eapply (sql_for_ok (fun d d' => consistent d -> consistent d')) in H; [by apply H|auto|auto|].
  intros x _ fs3 d1 v d2 fs4 Hx. by eapply complete_one_consistent.
Qed.

(** The agent's calls with values that came from the server's JSON. *)
Inductive json_step (burn : bool) (o : string) : database -> database -> Prop :=
| js_results now rs fs d : json_step burn o d (run (RecordResults burn o now rs) fs d)
| js_trigger now ev fs d :
    snapshot_normal (ev_Probe ev) = true -> json_step burn o d (run (RecordTrigger o now ev) fs d)
| js_complete now ts fs d : json_step burn o d (run (CompleteTriggers o now ts) fs d)
| js_assign now hash snaps fs d :
    Forall (fun s => snapshot_normal s = true) snaps ->
    json_step burn o d (run (SaveAssignment o now hash snaps) fs d)
| js_outcomes now xs fs d : json_step burn o d (run (MarkOutcomes now xs) fs d)
| js_attempts seqs fs d : json_step burn o d (run (MarkAttempts seqs) fs d)
| js_ran ids t fs d : json_step burn o d (run (MarkProbesRun ids t) fs d).

Lemma json_step_consistent burn o d d' : json_step burn o d d' -> consistent d -> consistent d'.
Proof.
  destruct 1; intros Hd.
  - eapply only_results_consistent; [|exact Hd]. apply RecordResults_only, only_results_refl.
  - by apply RecordTrigger_consistent.
  - by apply CompleteTriggers_consistent.
  - by apply SaveAssignment_consistent.
  - by apply MarkOutcomes_consistent.
  - by apply MarkAttempts_consistent.
  - by apply MarkProbesRun_consistent.
Qed.

(** ** Rebuild computes the replay *)

Lemma insert_loop_run old snaps d :
  Forall (fun s => snapshot_normal s = true) snaps -> NoDup (ID <$> snaps) ->
  (forall s, s ∈ snaps -> probes_t d !! ID s = None) ->
  exists d', sql_for (fun s =>
    if snapshot_encodable s then stmt "store: insert probe" (insert_probe old s)
    else sql_fail "store: encode probe params") snaps [] d = (Ok tt, d', []).
Proof.
  intros Hs. revert d. induction Hs as [|s snaps Hs Hss IH]; intros d Hn Hf; [by eexists|].
  cbn [sql_for]. rewrite (snapshot_normal_encodable _ Hs).
  apply NoDup_cons in Hn as [Hni Hn]. erewrite bind_run.
  2:{ apply stmt_run. unfold insert_probe. rewrite Hf by left. done. }
  cbv beta. apply IH; [done|]. intros s' Hs'. simpl. rewrite lookup_insert_ne.
  - apply Hf. by right.
  - intros E. apply Hni. rewrite E. by apply list_elem_of_fmap_2.
Qed.

Lemma applyAssignment_run snaps d :
  Forall (fun s => snapshot_normal s = true) snaps -> NoDup (ID <$> snaps) ->
  exists d', applyAssignmentTx snaps false [] d = (Ok tt, d', [])
    /\ same_journal d d' /\ pending_triggers d' = pending_triggers d
    /\ completed_triggers d' = completed_triggers d
    /\ pr_snapshot <$> probes_t d' = by_id snaps /\ meta d' = meta d.
Proof.
  intros Hs Hn.
  destruct (insert_loop_run ∅ snaps (with_probes (fun _ => ∅) d) Hs Hn) as [d' E];
    [intros; apply lookup_empty|].
  assert (applyAssignmentTx snaps false [] d = (Ok tt, d', [])) as Ha.
  { unfold applyAssignmentTx. erewrite bind_run by done. erewrite bind_run by apply exec_run. exact E. }
  exists d'. split; [done|]. pose proof (applyAssignmentTx_frame _ _ _ _ _ _ _ Ha) as HJ.
  assert (triggers_as (pending_triggers d) (completed_triggers d) d') as [HP HC].
  { rewrite <- (run_ok _ _ _ _ _ _ Ha).
    assert (keeps (triggers_as (pending_triggers d) (completed_triggers d)) (applyAssignmentTx snaps false)) as Hk.
    { unfold applyAssignmentTx. keeps_steps; try same_triggers.
      apply keeps_stmt. intros dx v dx' Hx. unfold insert_probe.
      destruct (probes_t dx !! _); [done|]. intros [= _ <-]. by destruct Hx. }
    by apply Hk. }
  apply applyAssignment_ok in Ha as (_ & HPr & HM).
  rewrite HPr, saved_rows_snapshots. done.
Qed.

Lemma map_decoded snaps :
  Forall (fun s => snapshot_normal s = true) snaps -> map snapshot_decoded snaps = snaps.
Proof.
  induction 1 as [|s snaps Hs Hss IH]; simpl; [done|]. by rewrite snapshot_normal_decoded, IH.
Qed.

Lemma rebuild_row_run r d :
  row_normal r ->
  exists d', rebuild_row r [] d = (Ok tt, d', []) /\ journal d' = journal d
    /\ proj_of d' = replay_row (proj_of d) r.
Proof.
  unfold row_normal, rebuild_row, replay_row.
  destruct (jbody r) as [c|doc|run probe doc|run probe doc].
  - intros _. by exists d.
  - intros (a & -> & Hn & Hs). rewrite map_decoded by done.
    destruct (applyAssignment_run (pl_Probes a) d Hs Hn) as (d1 & E & (HJ & _) & HP & HC & HPr & HM).
    eexists. split; [|split].
    + erewrite bind_run by exact E. apply exec_run.
    + simpl. exact HJ.
    + unfold proj_of. simpl. by rewrite HP, HC, HPr, lookup_insert_eq.
  - intros (ev & -> & Hs). unfold queueTriggerTx, event_decoded. simpl.
    rewrite (snapshot_normal_decoded _ Hs), (snapshot_normal_encodable _ Hs).
    eexists. split; [apply exec_run|]. split; [done|]. done.
  - intros (t & ->). unfold completeTriggerTx. eexists. split; [|split].
    + erewrite bind_run by apply exec_run. erewrite bind_run by apply exec_run. apply exec_run.
    + done.
    + unfold proj_of. simpl. by rewrite alter_snapshots.
Qed.

Lemma rebuild_rows_run rows d :
  Forall row_normal rows ->
  exists d', sql_for rebuild_row rows [] d = (Ok tt, d', []) /\ journal d' = journal d
    /\ proj_of d' = replay (proj_of d) rows.
Proof.
  intros H. revert d. induction H as [|r rows Hr Hrows IH]; intros d; [by exists d|].
  destruct (rebuild_row_run r d Hr) as (d1 & E1 & J1 & P1).
  destruct (IH d1) as (d2 & E2 & J2 & P2). exists d2. cbn [sql_for].
  erewrite bind_run by exact E1. split; [exact E2|]. split; [congruence|].
  rewrite P2, P1. done.
Qed.

Lemma Rebuild_run d :
  Forall row_normal (journal d) ->
  exists d', Rebuild [] d = (Ok tt, d', []) /\ journal d' = journal d
    /\ proj_of d' = replay proj0 (journal d).
Proof.
  intros Hn.
  set (d0 := with_meta (delete "probe_hash"%string) (with_completed (fun _ => ∅)
    (with_pending (fun _ => ∅) (with_probes (fun _ => ∅) d)))).
  destruct (rebuild_rows_run (journal d) d0 Hn) as (d1 & E & HJ & HP).
  exists (restore_run_times d1). split_and!.
  - unfold Rebuild. apply tx_run.
    do 4 (erewrite bind_run by apply exec_run). erewrite bind_run by apply query_run.
    erewrite bind_run by exact E. apply exec_run.
  - unfold restore_run_times. simpl. exact HJ.
  - assert (proj_of d0 = proj0) as Hd0.
    { unfold proj_of, d0, proj0. simpl. rewrite fmap_empty, lookup_delete_eq. done. }
    rewrite Hd0 in HP. rewrite <- HP. unfold restore_run_times. apply proj_frame; try done.
    simpl. apply map_eq. intros i. rewrite !lookup_fmap, map_lookup_imap.
    destruct (probes_t d1 !! i); simpl; [|done]. by destruct (newest_result _ _).
Qed.

Lemma json_run_consistent burn o d : rtc (json_step burn o) empty_db d -> consistent d.
Proof.
  intros Hst. assert (consistent empty_db) as H0 by (split; [constructor|done]).
  revert H0. induction Hst; eauto using json_step_consistent.
Qed.

(** ** What maintenance leaves recoverable *)

(** The assignment part of the projections. *)
Definition assigned (p : proj) : gmap string ProbeSnapshot * option string := (pj_probes p, pj_hash p).

Definition assigned_by (r : jrow) : option (gmap string ProbeSnapshot * option string) :=
  match jbody r with BAssignment (Json a) => Some (by_id (pl_Probes a), Some (pl_Hash a)) | _ => None end.

Lemma replay_app p j j' : replay p (j ++ j') = replay (replay p j) j'.
Proof. apply fold_left_app. Qed.

(** The last assignment row says what is assigned. *)
Lemma assigned_replay p j :
  assigned (replay p j) = default (assigned p) (last (omap assigned_by j)).
Proof.
  induction j as [|r j IH] using rev_ind; [done|]. rewrite replay_app, omap_app. cbn [replay fold_left omap list_omap].
  unfold assigned_by at 2, replay_row. destruct (jbody r) as [c|[a|]|run probe [ev|]|run probe [t|]];
    rewrite ?app_nil_r; try exact IH. by rewrite last_snoc.
Qed.

(** The row of trigger [k]'s completion. *)
Definition completes (k : pair_key) (r : jrow) : Prop :=
  match jbody r with BTriggerDone _ _ (Json t) => (td_ProbeID t, td_RunID t) = k | _ => False end.

(** The journal has [k]'s event under number [s], and no completion past it. *)
Definition due (k : pair_key) (s : Z) (j : list jrow) : Prop :=
  (exists r run probe ev, r ∈ j /\ seq r = s /\ jbody r = BTrigger run probe (Json ev) /\ trigger_key_of ev = k)
  /\ Forall (fun r => completes k r -> seq r < s) j.

Lemma waits_on k p r : is_Some (pj_pending p !! k) -> ~ completes k r -> is_Some (pj_pending (replay_row p r) !! k).
Proof.
  unfold completes, replay_row. destruct (jbody r) as [c|[a|]|run probe [ev|]|run probe [t|]]; try done; intros Hk Hc.
  - cbn. apply insert_pending_some. by right.
  - cbn. by rewrite lookup_delete_ne.
Qed.

Lemma due_waits k s j p : StronglySorted Z.lt (seq <$> j) -> due k s j -> is_Some (pj_pending (replay p j) !! k).
Proof.
  intros Hs [(r & run & probe & ev & Hr & <- & Hb & Hk) Hc]. apply list_elem_of_split in Hr as (j1 & j2 & ->).
  rewrite replay_app. cbn [replay fold_left]. fold (replay p j1).
  rewrite fmap_app, fmap_cons in Hs. apply StronglySorted_app_1_r, StronglySorted_inv in Hs as [_ Hlt].
  apply Forall_app in Hc as [_ Hc]. apply Forall_cons in Hc as [_ Hc].
  assert (is_Some (pj_pending (replay_row (replay p j1) r) !! k)) as H0.
  { unfold replay_row. rewrite Hb. cbn. apply insert_pending_some. by left. }
  revert H0. generalize (replay_row (replay p j1) r) as q. clear -Hlt Hc.
  induction j2 as [|r2 j2 IH]; intros q H0; [done|]. cbn [fold_left]. rewrite fmap_cons in Hlt.
  apply Forall_cons in Hlt as [Hl Hlt]. apply Forall_cons in Hc as [Hc1 Hc]. apply IH; [done..|].
  apply waits_on; [done|]. intros H%Hc1. lia.
Qed.

(** What recovery needs of the journal. *)
Record recoverable (d : database) : Prop := {
  rc_rows : Forall row_normal (journal d);
  rc_numbered : numbered (log_of d);
  rc_readable : readable d;
  rc_assigned : assigned (proj_of d) = assigned (replay proj0 (journal d));
  rc_due : map_Forall (fun k t => due k (event_seq t) (journal d)) (pending_triggers d)
}.

Lemma empty_recoverable : recoverable empty_db.
Proof. split; [constructor|split; constructor|apply map_Forall_empty|done|apply map_Forall_empty]. Qed.

Lemma due_append k s j r : ~ completes k r -> due k s j -> due k s (j ++ [r]).
Proof.
  intros Hr [(r0 & run & probe & ev & Hin & E) Hc]. split.
  - exists r0, run, probe, ev. split; [|done]. apply elem_of_app. by left.
  - apply Forall_app. split; [done|]. constructor; [done|constructor].
Qed.

(** Rows that keep their control documents keep what is due. *)
Lemma due_map f k s j :
  (forall r, is_result r = false -> f r = r) -> (forall r, is_result r = true -> is_result (f r) = true) ->
  due k s j -> due k s (map f j).
Proof.
  intros Hc Hr [(r & run & probe & ev & Hin & Es & Eb & Ek) Hd]. split.
  - exists r, run, probe, ev. split; [|done]. apply list_elem_of_In, in_map_iff. exists r. split; [|by apply list_elem_of_In].
    apply Hc. unfold is_result. by rewrite Eb.
  - apply List.Forall_map. eapply Forall_impl; [exact Hd|]. intros x Hx. cbn in *. destruct (is_result x) eqn:E; [|by rewrite Hc].
    specialize (Hr x E). unfold completes. unfold is_result in Hr. by destruct (jbody (f x)).
Qed.

(** A step that keeps the queue needs to show only the journal's part. *)
Lemma recoverable_step burn o d d' :
  agent_step burn o d d' -> recoverable d -> Forall row_normal (journal d') ->
  assigned (proj_of d') = assigned (replay proj0 (journal d')) ->
  map_Forall (fun k t => due k (event_seq t) (journal d')) (pending_triggers d') -> recoverable d'.
Proof.
  intros Hs [H1 H2 H3 H4 H5] ? ? ?. split; try done.
  - eapply log_moves_numbered; [by eapply agent_step_moves|done].
  - by eapply agent_step_readable.
Qed.

Lemma map_recoverable f d :
  (forall r, is_result r = false -> f r = r) -> (forall r, is_result r = true -> is_result (f r) = true) ->
  (forall r, seq (f r) = seq r) -> recoverable d -> recoverable (with_journal (map f) d).
Proof.
  intros Hc Hr Hseq [H1 H2 H3 H4 H5]. split; cbn; [|by apply numbered_map|done| |].
  - apply List.Forall_map. eapply Forall_impl; [exact H1|]. intros r Hrow. cbn. destruct (is_result r) eqn:E; [|by rewrite Hc].
    specialize (Hr r E). unfold row_normal, is_result in *. by destruct (jbody (f r)).
  - change (assigned (proj_of d) = assigned (replay proj0 (map f (journal d)))).
    rewrite H4, !assigned_replay. do 2 f_equal. clear -Hc Hr. induction (journal d) as [|r j IH]; [done|]. cbn [map omap list_omap].
    assert (assigned_by (f r) = assigned_by r) as ->.
    { destruct (is_result r) eqn:E; [|by rewrite Hc]. specialize (Hr r E). unfold assigned_by, is_result in *.
      destruct (jbody (f r)), (jbody r); done. }
    destruct (assigned_by r); [f_equal|]; exact IH.
  - intros k t Ht. by apply due_map, H5.
Qed.

(** One more control row. *)
Lemma append_rows d r d' :
  recoverable d -> journal d' = journal d ++ [r] -> row_normal r ->
  assigned (proj_of d') = default (assigned (proj_of d)) (assigned_by r) ->
  Forall row_normal (journal d') /\ assigned (proj_of d') = assigned (replay proj0 (journal d')).
Proof.
  intros [H1 _ _ H4 _] HJ Hr Ha. rewrite HJ. split; [apply Forall_app; by repeat constructor|].
  rewrite replay_app, assigned_replay, <- H4, Ha. cbn [omap list_omap]. by destruct (assigned_by r).
Qed.

(** [recoverable] without the order of the rows. *)
Definition accounted (d : database) : Prop :=
  Forall row_normal (journal d) /\ Forall (fun r => seq r <= journal_autoinc d) (journal d)
  /\ assigned (proj_of d) = assigned (replay proj0 (journal d))
  /\ map_Forall (fun k t => due k (event_seq t) (journal d)) (pending_triggers d).

Lemma complete_one_accounted o now t fs d u d' fs' :
  complete_one o now t fs d = (Ok u, d', fs') -> accounted d -> accounted d'.
Proof.
  unfold accounted. intros H (Hn & Hb & Ha & Hd). unfold complete_one in H. sql_step H. sql_step H. sql_step H.
  apply nextOriginSeq_proj in E as [m ->]. unfold insert_row in E0. destruct (_ || _); [done|]. injection E0 as <- <-.
  unfold completeTriggerTx in H. repeat sql_step H. cbn. split_and!.
  - apply Forall_app. split; [done|]. constructor; [by eexists|constructor].
  - apply Forall_app. split; [|apply Forall_singleton; cbn; lia]. eapply Forall_impl; [exact Hb|]. intros r Hr. cbn in *. lia.
  - rewrite fold_left_app. cbn [fold_left]. unfold replay_row at 1. cbn [jbody].
    change (fold_left replay_row (journal d) proj0) with (replay proj0 (journal d)).
    unfold assigned, proj_of in *. cbn [pj_probes pj_hash with_probes with_completed with_pending with_autoinc with_journal
      with_sequences probes_t meta] in *. rewrite alter_snapshots by done. exact Ha.
  - intros k x. rewrite delete_delete_eq. intros [Hne Hx]%lookup_delete_Some. apply due_append; [|by apply Hd].
    unfold completes. cbn. done.
Qed.

Lemma json_step_recoverable burn o d d' : json_step burn o d d' -> recoverable d -> recoverable d'.
Proof.
  intros Hs Hd. assert (agent_step burn o d d') as Hag by (destruct Hs; constructor).
  pose proof Hd as [H1 H2 H3 H4 H5].
  destruct Hs as [now rs fs d|now ev fs d Hev|now ts fs d|now hash snaps fs d Hsn|now xs fs d|seqs fs d|ids t fs d].
  - destruct (RecordResults_only burn o now rs d fs d (only_results_refl d)) as (HP & new & HJ & Hnew).
    apply (recoverable_step burn o d _ Hag Hd).
    + rewrite HJ. apply Forall_app. split; [done|]. eapply Forall_impl; [exact Hnew|].
      unfold result_row, is_result, row_normal. intros r. by destruct (jbody r).
    + rewrite HP, H4, HJ, !assigned_replay, omap_app. assert (omap assigned_by new = []) as ->; [|by rewrite app_nil_r].
      clear -Hnew. induction Hnew as [|r new Hr _ IH]; [done|]. cbn. unfold result_row, is_result in Hr. unfold assigned_by at 1. by destruct (jbody r).
    + assert (pending_triggers (run (RecordResults burn o now rs) fs d) = pending_triggers d) as -> by (injection HP; done).
      intros k t Ht. rewrite HJ. clear HJ HP. revert Hnew. generalize (H5 k t Ht). generalize (journal d) as j.
      induction new as [|r new IH]; intros j Hj Hnew; [by rewrite app_nil_r|]. apply Forall_cons in Hnew as [Hr Hnew].
      rewrite cons_middle, app_assoc. apply IH; [|done]. apply due_append; [|done]. unfold result_row, is_result in Hr. unfold completes.
      destruct (jbody r); [by intros []|done..].
  - unfold run in *. destruct (RecordTrigger o now ev fs d) as [[[b|e] d'] fs'] eqn:H; simpl in *.
    2: { unfold RecordTrigger in H. destruct (negb _); [done|]. destruct (negb _); [unfold sql_fail in H; by simplify_eq|].
         apply tx_err in H. by subst. }
    apply RecordTrigger_ok in H. destruct b; [|by subst]. destruct H as (_ & _ & HJ & HP & _ & HPr & HM).
    destruct (append_rows d _ d' Hd HJ) as [Hn Ha]; [by exists ev|unfold assigned, proj_of; cbn; by rewrite HPr, HM|].
    apply (recoverable_step burn o d _ Hag Hd Hn Ha). rewrite HP. intros k t [Ht|[-> ->]]%insert_pending_lookup.
    + rewrite HJ. apply due_append; [by intros []|by apply H5].
    + rewrite HJ. split.
      * eexists _, _, _, ev. split; [apply elem_of_app; right; left|]. done.
      * apply Forall_app. split; [|apply Forall_singleton; by intros []]. destruct H2 as [_ H2]. eapply Forall_impl; [exact H2|].
        intros r Hr _. cbn in *. lia.
  - unfold CompleteTriggers in *. destruct ts as [|t ts]; [done|].
    match goal with |- recoverable (run (tx ?a ?b ?m) _ _) =>
      destruct (tx_run_cases a b m fs d) as [E|(u & fs1 & fs2 & dd & H & E)]; rewrite E in *; [done|] end.
    destruct H2 as [_ H2]. assert (accounted d) as Hacc by done.
    eapply (sql_for_ok (fun d d' => accounted d -> accounted d')) in H; [|auto|auto|].
    + destruct (H Hacc) as (? & ? & ? & ?). by apply (recoverable_step burn o d _ Hag Hd).
    + intros x _ fs3 d1 v d2 fs4 Hx. by eapply complete_one_accounted.
  - unfold run in *. destruct (SaveAssignment o now hash snaps fs d) as [[[u|e] d'] fs'] eqn:H; simpl in *.
    2: { unfold SaveAssignment in H. destruct (decide _); [done|]. destruct (negb _); [unfold sql_fail in H; by simplify_eq|].
         apply tx_err in H. by subst. }
    destruct (decide (hash = ""%string)) as [->|Hh].
    { unfold SaveAssignment in H. rewrite decide_True in H by done. by sql_prim H. }
    apply SaveAssignment_ok in H as (Hnd & HP & HM & HPe & HC & s & n & HJ); [|done].
    destruct (append_rows d _ d' Hd HJ) as [Hn Ha]; [by eexists| |].
    { unfold assigned, proj_of. cbn. by rewrite HP, HM, saved_rows_snapshots, lookup_insert_eq. }
    apply (recoverable_step burn o d _ Hag Hd Hn Ha). rewrite HPe, HJ. intros k t Ht. apply due_append; [by intros []|by apply H5].
  - revert Hd. clear. revert fs d. change (keeps recoverable (MarkOutcomes now xs)). unfold MarkOutcomes, mark_outcome.
    keeps_steps; try done; intros d Hd; (apply map_recoverable; [..|done]; intros r;
      [apply update_pending_control|by rewrite update_pending_result|apply update_pending_seq]).
  - revert Hd. clear. revert fs d. change (keeps recoverable (MarkAttempts seqs)). unfold MarkAttempts. keeps_steps.
    intros d Hd. apply map_recoverable; [..|done]; intros r; [| |apply attempt_seq]; unfold attempt_row; destruct (bool_decide _);
      auto using update_pending_control. by rewrite update_pending_result.
  - revert Hag. unfold MarkProbesRun, run. intros Hag.
    assert (keeps (fun x => journal x = journal d /\ pending_triggers x = pending_triggers d /\ assigned (proj_of x) = assigned (proj_of d))
      (MarkProbesRun ids t)) as Hk.
    { unfold MarkProbesRun. keeps_steps. intros y (E1 & E2 & E3). split_and!; [done..|]. rewrite <- E3. unfold assigned, proj_of. cbn.
      f_equal. apply map_eq. intros i. unfold mark_run_rows. rewrite !lookup_fmap, map_lookup_imap.
      destruct (probes_t y !! i); simpl; [|done]. by destruct (bool_decide _). }
    destruct (Hk fs d) as (E1 & E2 & E3); [done|]. unfold run, MarkProbesRun in E1, E2, E3.
    apply (recoverable_step burn o d _ Hag Hd); rewrite ?E1, ?E2, ?E3; done.
Qed.

(** *** Maintenance *)

Lemma last_of_sorted (l : list jrow) r :
  StronglySorted Z.lt (seq <$> l) -> r ∈ l -> Forall (fun x => seq x <= seq r) l -> last l = Some r.
Proof.
  induction l as [|x l IH] using rev_ind; intros Hs Hr Hle; [by apply not_elem_of_nil in Hr|].
  rewrite last_snoc. apply elem_of_app in Hr as [Hr|Hr%list_elem_of_singleton]; [|congruence].
  rewrite fmap_app in Hs. apply Forall_app in Hle as [_ Hx]. apply Forall_cons in Hx as [Hx _].
  assert (seq r < seq x); [|lia]. eapply StronglySorted_app_1_elem_of; [exact Hs|by apply list_elem_of_fmap_2|by left].
Qed.

Lemma last_assigned j :
  Forall row_normal j -> last (omap assigned_by j) = last (List.filter is_assignment j) ≫= assigned_by.
Proof.
  induction j as [|r j IH] using rev_ind; [done|]. intros [Hj Hr]%Forall_app. apply Forall_cons in Hr as [Hr _].
  rewrite omap_app, List.filter_app. cbn [omap list_omap List.filter]. unfold row_normal, is_assignment, assigned_by in *.
  destruct (jbody r) as [c|doc|run probe doc|run probe doc] eqn:E; rewrite ?app_nil_r; try (by apply IH).
  destruct Hr as (a & -> & _). rewrite !last_snoc. cbn. by rewrite E.
Qed.

(** Dropping what may go leaves the last assignment, and so what it says. *)
Lemma drop_assigned j j' :
  StronglySorted Z.lt (seq <$> j) -> Forall row_normal j -> sublist j' j ->
  (forall r, r ∈ j -> is_assignment r = true -> superseded j r = false -> r ∈ j') ->
  last (omap assigned_by j') = last (omap assigned_by j).
Proof.
  intros Hs Hn Hsub Hk. rewrite !last_assigned by (done || by eapply sublist_Forall). f_equal.
  assert (forall l x, x ∈ List.filter is_assignment l <-> x ∈ l /\ is_assignment x = true) as Hf.
  { intros l x. rewrite !list_elem_of_In. apply filter_In. }
  assert (StronglySorted Z.lt (seq <$> List.filter is_assignment j)) as HsL.
  { eapply sublist_StronglySorted; [apply sublist_fmap', sublist_filter|exact Hs]. }
  destruct (last (List.filter is_assignment j)) as [r|] eqn:El.
  - assert (Forall (fun x => seq x <= seq r) (List.filter is_assignment j)) as Hmax.
    { apply last_Some in El as [l El]. rewrite El in *. apply Forall_app. split; [|apply Forall_singleton; lia].
      apply Forall_forall. intros x Hx. rewrite fmap_app in HsL.
      assert (seq x < seq r); [|lia]. eapply StronglySorted_app_1_elem_of; [exact HsL| |by left]. by apply list_elem_of_fmap_2. }
    assert (r ∈ List.filter is_assignment j) as Hr by (apply last_Some in El as [l ->]; apply elem_of_app; right; by left).
    apply Hf in Hr as [Hr Ha]. rewrite Forall_forall in Hmax. apply last_of_sorted.
    + eapply sublist_StronglySorted; [apply sublist_fmap'; etrans; [apply sublist_filter|exact Hsub]|exact Hs].
    + apply Hf. split; [|done]. apply Hk; [done..|]. unfold superseded. rewrite Ha. cbn [andb]. apply not_true_iff_false.
      intros (x & Hx & Hb)%existsb_exists. apply list_elem_of_In in Hx. zify_bool.
      assert (seq x <= seq r); [|lia]. apply Hmax, Hf. by split.
    + apply Forall_forall. intros x [Hx Hxa]%Hf. apply Hmax, Hf. split; [|done]. by eapply elem_of_sublist.
  - apply last_None in El. destruct (List.filter is_assignment j') as [|x l] eqn:E; [done|].
    assert (x ∈ List.filter is_assignment j') as [Hx Hxa]%Hf by (rewrite E; by left).
    assert (x ∈ List.filter is_assignment j) as Hin by (apply Hf; split; [by eapply elem_of_sublist|done]).
    rewrite El in Hin. by apply not_elem_of_nil in Hin.
Qed.

Lemma Maintain_recoverable iterate others live_bytes fuel opts :
  (forall x, recoverable x -> recoverable (others x)) ->
  keeps recoverable (Maintain iterate others live_bytes fuel opts).
Proof.
  intros Ho. apply Maintain_frame; try done; try (intros; by match goal with H : recoverable _ |- _ => destruct H end).
  intros j d Hsub Hk [H1 H2 H3 H4 H5]. destruct H2 as [H2 Hb]. split; cbn.
  - by eapply sublist_Forall.
  - split; cbn; [eapply sublist_StronglySorted; [by apply sublist_fmap'|exact H2]|by eapply sublist_Forall].
  - done.
  - change (assigned (proj_of d) = assigned (replay proj0 j)). rewrite H4, !assigned_replay. f_equal. symmetry.
    apply drop_assigned; [done..|]. intros r Hr Ha. apply Hk; [done|]. unfold prunable. unfold is_assignment in Ha. by destruct (jbody r).
  - intros k t Ht. destruct (H5 k t Ht) as [(r & run & probe & ev & Hr & Es & Eb & Ek) Hc]. split; [|by eapply sublist_Forall].
    exists r, run, probe, ev. split; [|done]. apply Hk; [done| |by unfold superseded, is_assignment; rewrite Eb].
    apply prunable_protected; [by exists k, t|by exists run, probe, (Json ev)].
Qed.

(** A running agent: its calls, starts, and maintenance passes with calls
    landing while they run. *)
Inductive kept_step (burn : bool) (o : string) : database -> database -> Prop :=
| kp_call d d' : json_step burn o d d' -> kept_step burn o d d'
| kp_queue fs d : kept_step burn o d (run PendingTriggers fs d)
| kp_maintain iterate others live_bytes fuel opts fs d :
    (forall x, rtc (json_step burn o) x (others x)) ->
    kept_step burn o d (run (Maintain iterate others live_bytes fuel opts) fs d).

Lemma kept_step_recoverable burn o d d' : kept_step burn o d d' -> recoverable d -> recoverable d'.
Proof.
  destruct 1 as [d d' Hs|fs d|iterate others live fuel opts fs d Ho]; intros Hd.
  - by eapply json_step_recoverable.
  - rewrite PendingTriggers_same; [done|apply Hd].
  - apply Maintain_recoverable; [|done]. intros x. specialize (Ho x). induction Ho; eauto using json_step_recoverable.
Qed.

(** C15: Recovery brings back what the agent still needs.  On every database a
    running agent leaves (its calls, starts and maintenance passes, whatever
    statements fail), [Rebuild] succeeds, leaves the journal alone, yields
    exactly the assigned probes and the assignment hash the database had, and
    has every waiting trigger waiting again.  As long as no maintenance pass
    has run, it yields exactly the waiting and the completed triggers too. *)
Theorem rebuild_reproduces burn o d :
  rtc (kept_step burn o) empty_db d ->
  exists d', Rebuild [] d = (Ok tt, d', []) /\ journal d' = journal d
    /\ pr_snapshot <$> probes_t d' = pr_snapshot <$> probes_t d
    /\ meta d' !! "probe_hash"%string = meta d !! "probe_hash"%string
    /\ (forall k, is_Some (pending_triggers d !! k) -> is_Some (pending_triggers d' !! k))
    /\ (rtc (json_step burn o) empty_db d ->
         pending_triggers d' = pending_triggers d /\ completed_triggers d' = completed_triggers d).
Proof.
  intros Hst. assert (recoverable d) as [H1 [H2 _] _ H4 H5].
  { generalize empty_recoverable. induction Hst; eauto using kept_step_recoverable. }
  destruct (Rebuild_run d H1) as (d' & E & HJ & HP). exists d'. rewrite <- HP in H4. injection H4 as Hpr Hh. split_and!; try done.
  - intros k [t Ht]. change (is_Some (pj_pending (proj_of d') !! k)). rewrite HP. eapply due_waits; [exact H2|by apply H5].
  - intros Hj%json_run_consistent. destruct Hj as [_ He]. rewrite <- He in HP. by injection HP.
Qed.
(** ** On the small store *)

Definition demo_pruned : database := run demo_maintain [] demo_completed.

Lemma demo_pruned_reachable : rtc (kept_step false "node") empty_db demo_pruned.
Proof.
  unfold demo_pruned, demo_completed, demo_db, demo_triggered, demo_assigned.
  eapply rtc_r; [eapply rtc_r; [eapply rtc_r; [eapply rtc_r; [apply rtc_once|]|]|]|].
  - apply kp_call, (js_assign _ _ 1000 "h1" [demo_probe "a"] []). by repeat constructor.
  - apply kp_call, (js_trigger _ _ 1500 demo_event []). reflexivity.
  - apply kp_call, js_results.
  - apply kp_call, js_complete.
  - apply kp_maintain. intros x. apply rtc_refl.
Qed.

Lemma rebuild_reproduces_witness :
  exists d', Rebuild [] demo_pruned = (Ok tt, d', []) /\ journal d' = journal demo_pruned
    /\ meta d' !! "probe_hash"%string = Some "h1"%string.
Proof.
  destruct (rebuild_reproduces false "node" demo_pruned demo_pruned_reachable) as (d' & E & HJ & _ & Hh & _).
  exists d'. split; [exact E|]. split; [exact HJ|]. rewrite Hh. vm_compute. reflexivity.
Defined.

(** Completed triggers are recovered only as far as the journal goes: the size
    bound drops the events, retention keeps the row, a rebuild loses it, and
    the trigger is accepted again after a resync. *)
Definition demo_squeezed : database :=
  run (Maintain map_to_list (fun x => x) (fun _ _ => 100) 100 (mkMaintain (Some 1000) 1)) [] demo_completed.

Example rebuild_forgets_completed :
  completed_triggers demo_squeezed !! ("a"%string, "run1"%string) = Some 2500
  /\ completed_triggers (run Rebuild [] demo_squeezed) !! ("a"%string, "run1"%string) = None.
Proof. vm_compute. done. Qed.
