(* ===== verification/StoreRetention.v ===== *)
(** * Retention deletes what is old and settled, and nothing else

    The chunked deletes of [Maintain] in [internal/store/maintenance.go] against
    one pass over the journal: retention by age in full, and each pass of the
    size bound. *)

From Stdlib Require Import ZArith Lia List Bool Ascii String.
From stdpp Require Import base tactics gmap strings list fin_maps pretty.
From S2P Require Import Prelude Wire Sql Store StoreMaint Journal StoreWf StoreDemo StoreLog.

Open Scope string_scope.
Open Scope list_scope.
Open Scope Z_scope.

(** ** One chunk *)

Definition keep (p : jrow -> bool) (j : list jrow) : list jrow := List.filter (fun r => negb (p r)) j.
Definition hits (p : jrow -> bool) (j : list jrow) : list jrow := List.filter p j.

(** A chunk takes the first [n] hits; with fewer than [n] it takes them all. *)
Lemma delete_first_spec p n j j' k :
  delete_first n p j = (j', k) ->
  k = Z.of_nat (length (take n (hits p j))) /\ keep p j' = keep p j /\ hits p j' = drop n (hits p j) /\ sublist j' j.
Proof.
  unfold keep, hits. revert n j' k. induction j as [|r j IH]; intros n j' k H; cbn [delete_first] in H.
  - simplify_eq. cbn [List.filter]. by rewrite take_nil, drop_nil.
  - destruct n as [|n]; [simplify_eq; by rewrite drop_0|]. destruct (p r) eqn:Er.
    + destruct (delete_first n p j) as [j1 k1] eqn:E. simplify_eq. apply IH in E as (-> & Hk & Hh & Hs).
      cbn [List.filter]. rewrite Er. cbn [negb take drop length]. split_and!; [lia|done|done|by constructor].
    + destruct (delete_first (S n) p j) as [j1 k1] eqn:E. simplify_eq. apply IH in E as (-> & Hk & Hh & Hs).
      cbn [List.filter]. rewrite Er. cbn [negb]. split_and!; [done|by f_equal|done|by constructor].
Qed.

Lemma keep_all p j : hits p j = [] -> keep p j = j.
Proof.
  unfold keep, hits. induction j as [|r j IH]; [done|]. cbn [List.filter]. destruct (p r); [done|]. intros H. cbn [negb]. by rewrite IH.
Qed.

(** What may go by age depends on the triggers that wait, not on the journal. *)
Lemma prune_age_journal cutoff d j : prune_age cutoff (with_journal (fun _ => j) d) = prune_age cutoff d.
Proof. done. Qed.

Lemma prune_loop_run cutoff fuel deleted d :
  (length (hits (prune_age cutoff d) (journal d)) < fuel)%nat ->
  prune_loop fuel cutoff deleted [] d
  = (Ok (deleted + Z.of_nat (length (hits (prune_age cutoff d) (journal d)))),
     with_journal (fun _ => keep (prune_age cutoff d) (journal d)) d, []).
Proof.
  revert deleted d. induction fuel as [|fuel IH]; intros deleted d Hf; [lia|]. cbn [prune_loop].
  assert (0 < pruneChunk)%nat as Hc by (unfold pruneChunk; lia).
  erewrite bind_run by (unfold ctx_err; apply exec_run). unfold delete_rows.
  destruct (delete_first pruneChunk (prune_age cutoff d) (journal d)) as [j k] eqn:E.
  erewrite bind_run by (apply stmt_run; by rewrite E). apply delete_first_spec in E as (-> & Hk & Hh & _).
  rewrite length_take in *. destruct (Z.ltb_spec (Z.of_nat (Nat.min pruneChunk (length (hits (prune_age cutoff d) (journal d))))) (Z.of_nat pruneChunk)) as [Hlt|Hge].
  - rewrite drop_ge in Hh by lia. apply keep_all in Hh. rewrite Hk in Hh. rewrite Hh, Nat.min_r by lia. done.
  - rewrite IH.
    + rewrite prune_age_journal. cbn [journal with_journal]. rewrite Hh, Hk, length_drop. do 3 f_equal. lia.
    + rewrite prune_age_journal. cbn [journal with_journal]. rewrite Hh, length_drop. lia.
Qed.

(** ** What may go *)

(** Nothing waits on the row: a delivered or rejected result, or a control event
    that no queued trigger was written for.  An assignment is never done with. *)
Definition settled (d : database) (r : jrow) : Prop :=
  match jbody r with
  | BResult c => delivery_state c <> 0
  | BTrigger _ _ _ | BTriggerDone _ _ _ => map_Forall (fun _ t => event_seq t <> seq r) (pending_triggers d)
  | BAssignment _ => False
  end.

Definition outlived (cutoff : Z) (d : database) (r : jrow) : Prop := at_ms r < cutoff /\ settled d r.

#[export] Instance settled_dec d r : Decision (settled d r).
Proof. unfold settled. destruct (jbody r); apply _. Defined.
#[export] Instance outlived_dec cutoff d r : Decision (outlived cutoff d r).
Proof. unfold outlived. apply _. Defined.

(** No queued trigger was written for the event with this number. *)
Lemma unreferenced (m : gmap (string * string) ptrow) n :
  existsb (fun kr => event_seq (snd kr) =? n) (map_to_list m) = false <-> map_Forall (fun _ t => event_seq t <> n) m.
Proof.
  rewrite <- not_true_iff_false, existsb_exists. split.
  - intros H k t Ht E. apply H. exists (k, t). split; [by apply list_elem_of_In, elem_of_map_to_list|by apply Z.eqb_eq].
  - intros H ([k t] & Hin & E%Z.eqb_eq). apply list_elem_of_In, elem_of_map_to_list in Hin. by apply (H k t).
Qed.

Lemma prune_age_outlived cutoff d r : prune_age cutoff d r = bool_decide (outlived cutoff d r).
Proof.
  apply Bool.eq_true_iff_eq. rewrite bool_decide_eq_true. unfold prune_age, outlived, prunable, settled.
  rewrite andb_true_iff, Z.ltb_lt. destruct (jbody r) as [c|doc|run probe doc|run probe doc].
  - rewrite negb_true_iff, Z.eqb_neq. tauto.
  - split; [by intros [? _]|tauto].
  - rewrite negb_true_iff, unreferenced. tauto.
  - rewrite negb_true_iff, unreferenced. tauto.
Qed.

Lemma filter_outlived cutoff d j : List.filter (prune_age cutoff d) j = base.filter (outlived cutoff d) j.
Proof.
  induction j as [|r j IH]; [done|]. cbn [List.filter]. rewrite prune_age_outlived. rewrite filter_cons.
  case_bool_decide; [rewrite decide_True by done; by f_equal|by rewrite decide_False].
Qed.

Lemma keep_outlived cutoff d j : keep (prune_age cutoff d) j = base.filter (fun r => ~ outlived cutoff d r) j.
Proof.
  unfold keep. induction j as [|r j IH]; [done|]. cbn [List.filter]. rewrite prune_age_outlived. rewrite filter_cons.
  case_bool_decide; cbn [negb]; [rewrite decide_False by tauto; done|rewrite decide_True by done; by f_equal].
Qed.

(** What a pass has done so far, whatever failed. *)
Definition pruned (cutoff : Z) (d d' : database) : Prop :=
  (exists j, d' = with_journal (fun _ => j) d /\ sublist j (journal d))
  /\ forall r, r ∈ journal d -> ~ outlived cutoff d r -> r ∈ journal d'.

Lemma prune_loop_pruned cutoff fuel deleted d : keeps (pruned cutoff d) (prune_loop fuel cutoff deleted).
Proof.
  revert deleted. induction fuel as [|fuel IH]; intros deleted; cbn [prune_loop]; unfold ctx_err; keeps_steps; try apply IH; try done.
  apply keeps_stmt. intros x k y [(j & -> & Hs) Hk] [= E]. unfold delete_rows in E.
  pose proof (delete_first_sublist pruneChunk (prune_age cutoff (with_journal (fun _ => j) d)) j) as Hsub.
  pose proof (fun r => delete_first_keeps pruneChunk (prune_age cutoff (with_journal (fun _ => j) d)) j r) as Hkeep.
  cbn [journal with_journal] in E, Hk. destruct (delete_first _ _ _) as [j' n]. injection E as <- <-. cbn [fst] in *. split.
  - exists j'. split; [done|]. by etrans.
  - intros r Hr Ho. cbn. apply Hkeep; [by apply Hk|]. rewrite prune_age_journal, prune_age_outlived. by apply bool_decide_eq_false.
Qed.

(** C23: Retention by age is one pass over the journal.  However many chunks it
    takes, it ends, deletes exactly the rows older than the cutoff that nothing
    waits on (delivered or rejected results, events of no queued trigger),
    counts each of them, keeps every other row in its place, and touches no
    other table; and a pass that is cut short by any failure has deleted some
    of those rows and nothing else. *)
Theorem retention_is_one_pass cutoff fuel d :
  ((length (journal d) < fuel)%nat ->
   prune_loop fuel cutoff 0 [] d
   = (Ok (Z.of_nat (length (base.filter (outlived cutoff d) (journal d)))),
      with_journal (fun _ => base.filter (fun r => ~ outlived cutoff d r) (journal d)) d, []))
  /\ forall fs, exists j, run (prune_loop fuel cutoff 0) fs d = with_journal (fun _ => j) d /\ sublist j (journal d)
       /\ forall r, r ∈ journal d -> ~ outlived cutoff d r -> r ∈ j.
Proof.
  split.
  - intros Hf. rewrite prune_loop_run.
    + unfold hits. by rewrite Z.add_0_l, filter_outlived, keep_outlived.
    + unfold hits. pose proof (filter_length_le (prune_age cutoff d) (journal d)). lia.
  - intros fs. destruct (prune_loop_pruned cutoff fuel 0 d fs d) as [(j & E & Hs) Hk].
    + split; [|done]. exists (journal d). split; [by destruct d|done].
    + exists j. split; [exact E|]. split; [exact Hs|]. rewrite E in Hk. exact Hk.
Qed.

(** ** On the small store *)

Lemma retention_is_one_pass_witness :
  exists d', prune_loop 9 9999 0 [] demo_settled = (Ok 2, d', []) /\ map seq (journal d') = [1; 2].
Proof.
  eexists. split.
  - etransitivity; [refine (proj1 (retention_is_one_pass 9999 9 demo_settled) _); vm_compute; lia|].
    assert (Z.of_nat (length (base.filter (outlived 9999 demo_settled) (journal demo_settled))) = 2) as -> by (vm_compute; reflexivity). reflexivity.
  - vm_compute. reflexivity.
Defined.
