(* ===== verification/StoreRollup.v ===== *)
(** * Rollups count every result exactly once

    The chunked [rollupResults] of [internal/store/rollups.go] against a
    one-pass reference: each bucket's row is the fold of every journal
    result of that bucket past the cursor, in unbounded arithmetic.  First
    one undisturbed pass; then any number of passes with failing statements,
    interleaved with each other and with the agent's calls. *)

From Stdlib Require Import ZArith Lia List Bool Ascii String Sorted.
From stdpp Require Import base tactics gmap strings list fin_maps sorting.
From S2P Require Import Prelude Wire Sql Store StoreMaint Journal StoreWf StoreDemo StoreTriggers.

(** ** The reference aggregate *)

Definition agg_exact (a : rollupRow_) (r : rollupInput) : rollupRow_ :=
  {| ru_checks := ru_checks a + 1;
     ru_ok := if negb (ri_ok r =? 0) then ru_ok a + 1 else ru_ok a;
     ru_errors := if negb (ri_ok r =? 0) then ru_errors a else ru_errors a + 1;
     ru_latency_sum := ru_latency_sum a + default 0 (ri_latencyUS r);
     ru_latency_count := match ri_latencyUS r with
                         | Some _ => ru_latency_count a + 1
                         | None => ru_latency_count a
                         end;
     ru_latency_min := match ri_latencyUS r with
                       | Some v => min_opt (ru_latency_min a) v
                       | None => ru_latency_min a
                       end;
     ru_latency_max := match ri_latencyUS r with
                       | Some v => max_opt (ru_latency_max a) v
                       | None => ru_latency_max a
                       end |}.

(** The rows of one bucket. *)
Definition in_bucket (k : rollupKey) (rows : list rollupInput) : list rollupInput :=
  List.filter (fun r => bool_decide (key_of r = k)) rows.

(** A bucket after one pass over [rows]. *)
Definition bucket_fold (old : option rollupRow_) (rows : list rollupInput) : option rollupRow_ :=
  match rows with
  | [] => old
  | _ => Some (fold_left agg_exact rows (default zeroAgg old))
  end.

(** ** Bounds *)

Definition weight (r : rollupInput) : Z := 1 + default 0 (ri_latencyUS r).
Definition total_weight (rows : list rollupInput) : Z := sumZ (weight <$> rows).

(** All counters of [a] lie in [0, b]. *)
Definition fits (b : Z) (a : rollupRow_) : Prop :=
  0 <= ru_checks a <= b /\ 0 <= ru_ok a <= b /\ 0 <= ru_errors a <= b
  /\ 0 <= ru_latency_sum a <= b /\ 0 <= ru_latency_count a <= b
  /\ (ru_latency_count a = 0 <-> ru_latency_min a = None)
  /\ (ru_latency_count a = 0 <-> ru_latency_max a = None).

Definition latency_ok (r : rollupInput) : Prop := 0 <= default 0 (ri_latencyUS r).

Lemma fits_mono b c a : b <= c -> fits b a -> fits c a.
Proof. unfold fits. intros. intuition lia. Qed.

Lemma fits_zero : fits 0 zeroAgg.
Proof. unfold fits, zeroAgg. simpl. intuition lia. Qed.

Lemma min_opt_some a v : min_opt a v <> None.
Proof. unfold min_opt. destruct a; [|done]. by destruct (_ <? _). Qed.
Lemma max_opt_some a v : max_opt a v <> None.
Proof. unfold max_opt. destruct a; [|done]. by destruct (_ <? _). Qed.

Lemma agg_exact_fits b a r : latency_ok r -> fits b a -> fits (b + weight r) (agg_exact a r).
Proof.
  unfold latency_ok, fits, weight. intros Hr (H1 & H2 & H3 & H4 & H5 & H6 & H7). simpl.
  assert (forall v, ru_latency_count a + 1 = 0 <-> min_opt (ru_latency_min a) v = None) as Hmin.
  { intros v. pose proof (min_opt_some (ru_latency_min a) v). split; [lia|done]. }
  assert (forall v, ru_latency_count a + 1 = 0 <-> max_opt (ru_latency_max a) v = None) as Hmax.
  { intros v. pose proof (max_opt_some (ru_latency_max a) v). split; [lia|done]. }
  destruct (ri_latencyUS r) as [v|], (negb (ri_ok r =? 0)); simpl in *;
    (split_and!; try lia; auto).
Qed.

Lemma agg_add_exact b a r :
  latency_ok r -> fits b a -> b + weight r <= max_int64 -> agg_add r a = agg_exact a r.
Proof.
  unfold latency_ok, fits, weight, agg_add, agg_exact. intros Hr (H1 & H2 & H3 & H4 & H5 & _) Hb.
  assert (forall x y, 0 <= x <= b -> 0 <= y <= 1 + default 0 (ri_latencyUS r) -> int_add x y = x + y) as Hadd.
  { intros x y Hx Hy. apply int_add_small. unfold in_int64, min_int64, max_int64 in *. lia. }
  destruct (ri_latencyUS r) as [v|]; simpl in *; rewrite !Hadd by lia; f_equal; lia.
Qed.

Lemma total_weight_cons r rows : total_weight (r :: rows) = weight r + total_weight rows.
Proof. done. Qed.

Lemma total_weight_nonneg rows : Forall latency_ok rows -> 0 <= total_weight rows.
Proof.
  induction 1 as [|r rows Hr _ IH]; [done|]. rewrite total_weight_cons.
  unfold latency_ok, weight in *. lia.
Qed.

Lemma total_weight_app rows rows' : total_weight (rows ++ rows') = total_weight rows + total_weight rows'.
Proof. unfold total_weight. by rewrite fmap_app, sumZ_app. Qed.

Lemma fold_exact_fits rows b a :
  Forall latency_ok rows -> fits b a -> fits (b + total_weight rows) (fold_left agg_exact rows a).
Proof.
  intros H. revert b a. induction H as [|r rows Hr Hrows IH]; intros b a Ha; simpl.
  - unfold total_weight. simpl. by rewrite Z.add_0_r.
  - rewrite total_weight_cons, Z.add_assoc. apply IH. by apply agg_exact_fits.
Qed.

Lemma in_bucket_weight k rows : Forall latency_ok rows -> total_weight (in_bucket k rows) <= total_weight rows.
Proof.
  induction 1 as [|r rows Hr Hrows IH]; [done|]. unfold in_bucket in *. simpl.
  destruct (bool_decide _); rewrite ?total_weight_cons; unfold latency_ok, weight in *; lia.
Qed.

Lemma in_bucket_ok k rows : Forall latency_ok rows -> Forall latency_ok (in_bucket k rows).
Proof. intros H. eapply sublist_Forall; [apply sublist_filter|done]. Qed.

(** ** Aggregating one chunk *)

Lemma in_bucket_snoc k rows r :
  in_bucket k (rows ++ [r]) = in_bucket k rows ++ (if bool_decide (key_of r = k) then [r] else []).
Proof. unfold in_bucket. rewrite List.filter_app. done. Qed.

Lemma aggregate_snoc rows r :
  aggregate (rows ++ [r]) =
    <[key_of r := agg_add r (default zeroAgg (aggregate rows !! key_of r))]> (aggregate rows).
Proof. unfold aggregate. by rewrite fold_left_app. Qed.

Lemma aggregate_lookup rows k :
  Forall latency_ok rows -> total_weight rows <= max_int64 ->
  aggregate rows !! k = bucket_fold None (in_bucket k rows).
Proof.
  induction rows as [|r rows IH] using rev_ind; intros Hok Hw; [apply lookup_empty|].
  apply Forall_app in Hok as [Hok Hr]. apply Forall_cons in Hr as [Hr _].
  rewrite total_weight_app in Hw. rewrite total_weight_cons in Hw. unfold total_weight at 2 in Hw.
  simpl in Hw. rewrite aggregate_snoc, in_bucket_snoc.
  assert (0 <= weight r) by (unfold latency_ok, weight in *; lia).
  assert (aggregate rows !! k = bucket_fold None (in_bucket k rows)) as IHk by (apply IH; [done|lia]).
  case_bool_decide as Hk.
  - subst k. rewrite lookup_insert_eq, IHk.
    pose proof (fold_exact_fits (in_bucket (key_of r) rows) 0 zeroAgg
      (in_bucket_ok _ _ Hok) fits_zero) as Hf.
    pose proof (in_bucket_weight (key_of r) rows Hok) as Hle.
    assert (default zeroAgg (bucket_fold None (in_bucket (key_of r) rows))
      = fold_left agg_exact (in_bucket (key_of r) rows) zeroAgg) as ->
      by (by destruct (in_bucket (key_of r) rows)).
    rewrite (agg_add_exact (0 + total_weight (in_bucket (key_of r) rows))); [|done|done|lia].
    unfold bucket_fold. destruct (in_bucket (key_of r) rows ++ [r]) as [|x l] eqn:El.
    { by apply app_eq_nil in El as [_ ?]. }
    cbn [default]. by rewrite <- El, fold_left_app.
  - rewrite lookup_insert_ne by done. by rewrite app_nil_r.
Qed.

(** ** Merging a chunk's bucket into the table *)

Definition merge_exact (old new : rollupRow_) : rollupRow_ :=
  mkRollup (ru_checks old + ru_checks new) (ru_ok old + ru_ok new) (ru_errors old + ru_errors new)
    (ru_latency_sum old + ru_latency_sum new) (ru_latency_count old + ru_latency_count new)
    (match ru_latency_min new with None => ru_latency_min old | Some n => min_opt (ru_latency_min old) n end)
    (match ru_latency_max new with None => ru_latency_max old | Some n => max_opt (ru_latency_max old) n end).

Lemma merge_rollup_exact b c old new :
  fits b old -> fits c new -> b + c <= max_int64 -> merge_rollup old new = Some (merge_exact old new).
Proof.
  intros (H1 & H2 & H3 & H4 & H5 & H6 & H7) (N1 & N2 & N3 & N4 & N5 & N6 & N7) Hb.
  assert (forall x y, 0 <= x <= b -> 0 <= y <= c -> checked_add x y = Some (x + y)) as Hadd.
  { intros x y Hx Hy. unfold checked_add, min_int64, max_int64 in *.
    rewrite (proj2 (Z.leb_le _ _)) by lia. by rewrite (proj2 (Z.leb_le _ _)) by lia. }
  unfold merge_rollup. rewrite !Hadd by lia. simpl. f_equal. unfold merge_exact. f_equal.
  - destruct (Z.eqb_spec (ru_latency_count new) 0) as [E|E].
    + by rewrite (proj1 N6 E).
    + destruct (ru_latency_min new) as [n|]; [|by destruct E; apply N6].
      unfold min_opt. destruct (ru_latency_min old); [|done]. by destruct (_ <? _).
  - destruct (Z.eqb_spec (ru_latency_count new) 0) as [E|E].
    + by rewrite (proj1 N7 E).
    + destruct (ru_latency_max new) as [n|]; [|by destruct E; apply N7].
      unfold max_opt. destruct (ru_latency_max old); [|done]. by destruct (_ <? _).
Qed.

Lemma min_opt_assoc o n v :
  match min_opt n v with None => o | Some m => min_opt o m end
  = min_opt (match n with None => o | Some m => min_opt o m end) v.
Proof.
  unfold min_opt. destruct n as [n|], o as [o|]; repeat (case_match; zify_bool; simplify_eq/=); 
    try done; f_equal; lia.
Qed.

Lemma max_opt_assoc o n v :
  match max_opt n v with None => o | Some m => max_opt o m end
  = max_opt (match n with None => o | Some m => max_opt o m end) v.
Proof.
  unfold max_opt. destruct n as [n|], o as [o|]; repeat (case_match; zify_bool; simplify_eq/=);
    try done; f_equal; lia.
Qed.

(** Aggregating first and merging after is aggregating onto the old row. *)
Lemma merge_agg old new r : merge_exact old (agg_exact new r) = agg_exact (merge_exact old new) r.
Proof.
  unfold merge_exact, agg_exact. simpl. f_equal; try (destruct (negb _); lia); try lia.
  - destruct (ri_latencyUS r); lia.
  - destruct (ri_latencyUS r); [apply min_opt_assoc|done].
  - destruct (ri_latencyUS r); [apply max_opt_assoc|done].
Qed.

Lemma merge_zero old : merge_exact old zeroAgg = old.
Proof. unfold merge_exact, zeroAgg. simpl. rewrite !Z.add_0_r. by destruct old. Qed.

Lemma merge_fold rows old new :
  merge_exact old (fold_left agg_exact rows new) = fold_left agg_exact rows (merge_exact old new).
Proof. revert new. induction rows as [|r rows IH]; intros new; simpl; [done|]. by rewrite IH, merge_agg. Qed.

Lemma bucket_fold_app old rows rows' :
  bucket_fold (bucket_fold old rows) rows' = bucket_fold old (rows ++ rows').
Proof.
  destruct rows as [|r rows]; [done|]. destruct rows' as [|r' rows']; [by rewrite app_nil_r|].
  unfold bucket_fold. simpl. by rewrite fold_left_app.
Qed.

(** Every row of the table has room for [w] more. *)
Definition table_fits (w : Z) (m : gmap rollupKey rollupRow_) : Prop :=
  map_Forall (fun _ a => exists b, fits b a /\ b + w <= max_int64) m.

(** What a chunk's upserts leave in one bucket. *)
Definition upserted (old new : option rollupRow_) : option rollupRow_ :=
  match new with
  | None => old
  | Some a => Some (match old with None => a | Some o => merge_exact o a end)
  end.

Lemma upsert_loop (l : list (rollupKey * rollupRow_)) w d :
  NoDup l.*1 ->
  (forall k a, k ∈ l.*1 -> rollups d !! k = Some a -> exists b, fits b a /\ b + w <= max_int64) ->
  Forall (fun ka => fits w (snd ka)) l ->
  exists d', sql_for (fun ka => stmt "store: upsert rollup" (upsert_rollup (fst ka) (snd ka))) l [] d
      = (Ok tt, d', [])
    /\ (forall k, rollups d' !! k
          = upserted (rollups d !! k) ((list_to_map l : gmap rollupKey rollupRow_) !! k))
    /\ journal d' = journal d /\ rollup_cursor d' = rollup_cursor d.
Proof.
  intros Hn Ht Hl. revert d Ht. induction Hl as [|[k a] l Ha Hl IH]; intros d Ht.
  - exists d. split_and!; try done.
  - apply NoDup_cons in Hn as [Hk Hn]. simpl in Hk, Ha.
    set (v := match rollups d !! k with None => a | Some o => merge_exact o a end).
    assert (upsert_rollup k a d = Some (tt, with_rollups (<[k := v]>) d)) as E1.
    { unfold upsert_rollup, v. destruct (rollups d !! k) as [o|] eqn:Eo; [|done].
      destruct (Ht _ _ (list_elem_of_here _ _) Eo) as (b & Hb & Hbw).
      by rewrite (merge_rollup_exact b w). }
    destruct (IH Hn (with_rollups (<[k := v]>) d)) as (d' & E & HP & HJ & HC).
    { intros k' a' Hk' E. simpl in E. rewrite lookup_insert_ne in E by (by intros ->).
      apply (Ht k' a'); [by right|done]. }
    exists d'. cbn [sql_for fst snd]. split_and!; [|..|done|done].
    + by erewrite bind_run by (apply stmt_run, E1).
    + intros k'. rewrite HP. simpl. destruct (decide (k' = k)) as [->|Hne].
      * rewrite !lookup_insert_eq, not_elem_of_list_to_map_1 by done. simpl.
        unfold v. by destruct (rollups d !! k).
      * by rewrite !lookup_insert_ne.
Qed.

Section rollup.
Context (iterate : gmap rollupKey rollupRow_ -> list (rollupKey * rollupRow_)).
Hypothesis iterate_perm : forall m, iterate m ≡ₚ map_to_list m.

Lemma fits_aggregate rows :
  Forall latency_ok rows -> total_weight rows <= max_int64 ->
  Forall (fun ka => fits (total_weight rows) (snd ka)) (iterate (aggregate rows)).
Proof.
  intros Hok Hw. rewrite iterate_perm. apply Forall_forall. intros [k a] Hk%elem_of_map_to_list. simpl.
  rewrite aggregate_lookup in Hk by done. unfold bucket_fold in Hk.
  destruct (in_bucket k rows) as [|r l] eqn:El; [done|]. injection Hk as <-.
  pose proof (fold_exact_fits (in_bucket k rows) 0 zeroAgg (in_bucket_ok k _ Hok) fits_zero) as Hf.
  pose proof (in_bucket_weight k rows Hok). rewrite El in *. eapply fits_mono, Hf. lia.
Qed.

(** One chunk's transaction, when the cursor has not moved. *)
Lemma write_chunk_run rows after next d :
  Forall latency_ok rows -> default 0 (rollup_cursor d) = after ->
  table_fits (total_weight rows) (rollups d) -> total_weight rows <= max_int64 ->
  exists d', writeRollups iterate (aggregate rows) after next [] d = (Ok Written, d', [])
    /\ (forall k, rollups d' !! k = bucket_fold (rollups d !! k) (in_bucket k rows))
    /\ journal d' = journal d /\ rollup_cursor d' = Some next.
Proof.
  intros Hok Hc Ht Hw.
  destruct (upsert_loop (iterate (aggregate rows)) (total_weight rows) d)
    as (d1 & E & HP & HJ & _).
  - rewrite iterate_perm. apply NoDup_fst_map_to_list.
  - intros k a _ Ea. exact (Ht _ _ Ea).
  - by apply fits_aggregate.
  - exists (with_cursor next d1). split_and!; [|..|done|done].
    + unfold writeRollups. apply tx_run. erewrite bind_run by apply query_run. cbv beta.
      rewrite Hc, Z.eqb_refl. cbn [negb]. erewrite bind_run by exact E.
      erewrite bind_run by apply exec_run. done.
    + intros k. simpl. rewrite HP.
      assert ((list_to_map (iterate (aggregate rows)) : gmap _ _) = aggregate rows) as ->.
      { rewrite (list_to_map_proper _ (map_to_list (aggregate rows))); [apply list_to_map_to_list| |done].
        rewrite iterate_perm. apply NoDup_fst_map_to_list. }
      rewrite aggregate_lookup by done. unfold upserted, bucket_fold.
      destruct (in_bucket k rows) as [|r l]; [done|]. f_equal.
      destruct (rollups d !! k) as [o|]; [|done].
      by rewrite merge_fold, merge_zero.
Qed.

(** ** The chunk loop *)

Lemma inputs_after_sorted after d :
  db_wf d -> StronglySorted Z.lt (ri_seq <$> inputs_after after (journal d)).
Proof.
  intros Hwf. pose proof (wf_sorted _ Hwf) as Hs.
  assert (sublist (ri_seq <$> omap rollup_input (journal d)) (seq <$> journal d)) as Hsub.
  { clear. induction (journal d) as [|r j IH]; [constructor|]. simpl.
    unfold rollup_input at 1. destruct (jbody r); simpl; by constructor. }
  eapply sublist_StronglySorted; [|exact Hs]. etrans; [|exact Hsub].
  apply sublist_fmap', sublist_filter.
Qed.

Lemma last_seq_spec after rows :
  StronglySorted Z.lt (ri_seq <$> rows) -> Forall (fun r => after < ri_seq r) rows ->
  last_seq after rows = match last rows with Some r => ri_seq r | None => after end.
Proof.
  induction rows as [|r rows IH] using rev_ind; intros Hs Hf; [done|].
  rewrite fmap_app in Hs. apply Forall_app in Hf as [Hf Hr]. apply Forall_cons in Hr as [Hr _].
  rewrite last_snoc. unfold last_seq. rewrite fold_left_app. simpl. fold (last_seq after rows).
  rewrite IH; [|by apply StronglySorted_app_1_l in Hs|done].
  destruct (last rows) as [x|] eqn:El; [|destruct (Z.ltb_spec after (ri_seq r)); lia].
  apply last_Some in El as [l ->].
  assert (ri_seq x < ri_seq r) as Hlt.
  { eapply StronglySorted_app_1_elem_of; [exact Hs| |by left].
    rewrite fmap_app. apply elem_of_app. right. left. }
  destruct (Z.ltb_spec (ri_seq x) (ri_seq r)); lia.
Qed.

Lemma last_seq_ge after rows : after <= last_seq after rows.
Proof.
  unfold last_seq. revert after. induction rows as [|r rows IH]; intros after; simpl; [lia|].
  specialize (IH (if after <? ri_seq r then ri_seq r else after)).
  destruct (Z.ltb_spec after (ri_seq r)); lia.
Qed.

(** Filtering past the last of the first [n] leaves the rest. *)
Lemma filter_sorted_drop n (l : list rollupInput) after :
  StronglySorted Z.lt (ri_seq <$> l) -> Forall (fun r => after < ri_seq r) l ->
  List.filter (fun r => last_seq after (take n l) <? ri_seq r) l = drop n l.
Proof.
  intros Hs Hf. rewrite last_seq_spec.
  2:{ rewrite fmap_take. eapply sublist_StronglySorted; [apply sublist_take|exact Hs]. }
  2:{ by apply Forall_take. }
  set (p := fun r => _ <? ri_seq r).
  transitivity (List.filter p (take n l ++ drop n l)); [by rewrite take_drop|].
  rewrite List.filter_app. subst p.
  rewrite <- (take_drop n l), fmap_app in Hs.
  destruct (last (take n l)) as [x|] eqn:El.
  - apply last_Some in El as [l' El].
    assert (List.filter (fun r => ri_seq x <? ri_seq r) (take n l) = []) as ->.
    { apply StronglySorted_app_1_l in Hs. rewrite El in Hs |- *.
      apply filter_none. clear -Hs. rewrite fmap_app in Hs. simpl in Hs.
      intros r Hr. apply elem_of_app in Hr. apply Z.ltb_ge.
      destruct Hr as [Hr|Hr%list_elem_of_singleton]; [|subst; lia].
      assert (ri_seq r < ri_seq x); [|lia].
      eapply StronglySorted_app_1_elem_of; [exact Hs| |by left]. by apply list_elem_of_fmap_2. }
    simpl. apply filter_all. intros r Hr. apply Z.ltb_lt.
    eapply StronglySorted_app_1_elem_of; [exact Hs| |].
    + rewrite El, fmap_app. apply elem_of_app. right. left.
    + by apply list_elem_of_fmap_2.
  - apply last_None in El. rewrite El. simpl. apply filter_all. intros r Hr.
    apply Z.ltb_lt. rewrite Forall_forall in Hf. apply Hf.
    eapply elem_of_sublist; [exact Hr|apply sublist_drop].
Qed.

Lemma inputs_after_next n after d :
  db_wf d ->
  inputs_after (last_seq after (take n (inputs_after after (journal d)))) (journal d)
  = drop n (inputs_after after (journal d)).
Proof.
  intros Hwf. set (l := inputs_after after (journal d)).
  rewrite <- (filter_sorted_drop n l after).
  - pose proof (last_seq_ge after (take n l)) as Hge. revert Hge.
    generalize (last_seq after (take n l)) as s. intros s Hge. unfold l, inputs_after.
    rewrite filter_filter_and. apply List.filter_ext. intros r.
    destruct (Z.ltb_spec after (ri_seq r)), (Z.ltb_spec s (ri_seq r)); simpl; try done; lia.
  - by apply inputs_after_sorted.
  - apply Forall_forall. intros r Hr%list_elem_of_In. apply filter_In in Hr as [_ Hr].
    by apply Z.ltb_lt.
Qed.

Lemma wf_latency after d : db_wf d -> Forall latency_ok (inputs_after after (journal d)).
Proof.
  intros Hwf. eapply sublist_Forall; [apply sublist_filter|].
  pose proof (wf_cols _ Hwf) as Hc. induction Hc as [|r j Hr Hj IH]; [constructor|].
  simpl. unfold rollup_input at 1. destruct (jbody r) as [c|?|? ? ?|? ? ?]; try done.
  constructor; [|done]. unfold latency_ok. simpl. destruct Hr as (_ & _ & _ & _ & Hl & _).
  destruct (latency_us c) as [us|] eqn:E; simpl; [by apply Hl|lia].
Qed.

Lemma table_fits_after (k_rows rest : list rollupInput) (m m' : gmap rollupKey rollupRow_) :
  Forall latency_ok k_rows -> total_weight k_rows + total_weight rest <= max_int64 ->
  table_fits (total_weight k_rows + total_weight rest) m ->
  (forall k, m' !! k = bucket_fold (m !! k) (in_bucket k k_rows)) ->
  table_fits (total_weight rest) m'.
Proof.
  intros Hok Hw Hm Hm' k a Ha. rewrite Hm' in Ha.
  pose proof (in_bucket_weight k k_rows Hok) as Hle. pose proof (in_bucket_ok k _ Hok) as Hbok.
  pose proof (total_weight_nonneg _ Hbok) as H0.
  unfold bucket_fold in Ha. destruct (in_bucket k k_rows) as [|r l].
  - destruct (Hm _ _ Ha) as (b & Hb & Hbw). exists b. split; [done|lia].
  - injection Ha as <-. destruct (m !! k) as [o|] eqn:Eo; cbn [default from_option id].
    + destruct (Hm _ _ Eo) as (b & Hb & Hbw). eexists. split; [by apply (fold_exact_fits (r :: l) b)|lia].
    + eexists. split; [apply (fold_exact_fits (r :: l) 0 zeroAgg Hbok fits_zero)|lia].
Qed.

Lemma in_bucket_app k rows rows' : in_bucket k (rows ++ rows') = in_bucket k rows ++ in_bucket k rows'.
Proof. apply List.filter_app. Qed.

Lemma rollup_loop_run fuel after total moves d :
  let rows := inputs_after after (journal d) in
  db_wf d -> default 0 (rollup_cursor d) = after ->
  table_fits (total_weight rows) (rollups d) -> total_weight rows <= max_int64 ->
  (length rows < fuel)%nat ->
  exists d', rollup_loop iterate (fun x => x) fuel after total moves [] d
      = (Ok (total + Z.of_nat (length rows)), d', [])
    /\ (forall k, rollups d' !! k = bucket_fold (rollups d !! k) (in_bucket k rows))
    /\ journal d' = journal d /\ default 0 (rollup_cursor d') = last_seq after rows.
Proof.
  revert after total d. induction fuel as [|fuel IH]; intros after total d rows Hwf Hc Ht Hw Hf; [lia|].
  cbn [rollup_loop]. unfold readRollupChunk. erewrite bind_run by apply query_run. cbv beta. fold rows.
  destruct rows as [|r0 l0] eqn:Erows.
  { exists d. simpl. rewrite Z.add_0_r. split_and!; try done. }
  set (chunk := take rollupChunk (r0 :: l0)). set (rest := drop rollupChunk (r0 :: l0)).
  assert (r0 :: l0 = chunk ++ rest) as Esplit by (symmetry; apply take_drop).
  assert (exists x xs, chunk = x :: xs) as (x & xs & Ech) by (eexists _, _; reflexivity).
  assert (Forall latency_ok (chunk ++ rest)) as Hok.
  { rewrite <- Esplit, <- Erows. by apply wf_latency. }
  apply Forall_app in Hok as [Hok1 Hok2].
  rewrite Esplit, total_weight_app in Ht, Hw.
  pose proof (total_weight_nonneg _ Hok1). pose proof (total_weight_nonneg _ Hok2).
  destruct (write_chunk_run chunk after (last_seq after chunk) d) as (d1 & Ew & HP & HJ & HC).
  { done. } { done. }
  { intros k a Ha. destruct (Ht _ _ Ha) as (b & ? & ?). exists b. split; [done|lia]. }
  { lia. }
  assert (db_wf d1) as Hwf1.
  { rewrite <- (run_ok _ _ _ _ _ _ Ew). by apply writeRollups_keeps. }
  assert (inputs_after (last_seq after chunk) (journal d1) = rest) as Erest.
  { rewrite HJ. unfold chunk, rest. rewrite <- Erows. unfold rows. by apply inputs_after_next. }
  destruct (IH (last_seq after chunk) (total + Z.of_nat (length chunk)) d1)
    as (d' & El & HP' & HJ' & HC').
  { done. } { by rewrite HC. }
  { rewrite Erest. exact (table_fits_after chunk rest (rollups d) (rollups d1) Hok1 Hw Ht HP). }
  { rewrite Erest. lia. }
  { rewrite Erest. rewrite Esplit, length_app, Ech in Hf. simpl in Hf. lia. }
  rewrite Erest in El, HP', HC'. exists d'. split_and!.
  - rewrite Ech. rewrite <- Ech. erewrite bind_run by reflexivity. cbv beta.
    erewrite bind_run by exact Ew. cbv beta iota. rewrite El, Esplit, length_app. do 3 f_equal. lia.
  - intros k. rewrite HP', HP, bucket_fold_app, Esplit, in_bucket_app. done.
  - congruence.
  - rewrite HC', Esplit. unfold last_seq. by rewrite fold_left_app.
Qed.

(** An undisturbed pass over a well-formed store with room in its counters
    terminates, returns the number of journal results past the cursor, and
    leaves in every bucket the fold of exactly those results onto what the
    bucket held, whatever the chunk boundaries; running it again counts
    nothing. *)
Lemma rollup_pass_counts fuel d :
  let after := default 0 (rollup_cursor d) in
  let rows := inputs_after after (journal d) in
  db_wf d -> table_fits (total_weight rows) (rollups d) -> total_weight rows <= max_int64 ->
  (length rows < fuel)%nat ->
  exists d', rollupResults iterate (fun x => x) fuel [] d = (Ok (Z.of_nat (length rows)), d', [])
    /\ (forall k, rollups d' !! k = bucket_fold (rollups d !! k) (in_bucket k rows))
    /\ journal d' = journal d
    /\ inputs_after (default 0 (rollup_cursor d')) (journal d') = [].
Proof.
  intros after rows Hwf Ht Hw Hf.
  destruct (rollup_loop_run fuel after 0 0 d Hwf eq_refl Ht Hw Hf) as (d' & E & HP & HJ & HC).
  exists d'. fold rows in E, HP, HC. split_and!; [|done|done|].
  - unfold rollupResults, metaInt_cursor. erewrite bind_run by apply query_run. exact E.
  - rewrite HC, HJ. pose proof (inputs_after_next (length rows) after d Hwf) as Hn.
    fold rows in Hn. rewrite take_ge in Hn by lia. rewrite Hn. apply drop_ge. lia.
Qed.
End rollup.

(** ** Passes that fail, and passes that interleave *)

(** The calls of a running agent, with room in the origin's counter, and
    rollup passes: each with its own order of buckets, its own failing
    statements, and, between the read and the write of a chunk, any sequence
    of such calls and of other passes nested [n] deep. *)
Inductive roll_step (burn : bool) (o : string) : nat -> database -> database -> Prop :=
| rl_call n d d' : agent_step burn o d d' -> store_step burn o d d' -> roll_step burn o n d d'
| rl_pass n iterate others fuel fs d :
    (forall m, iterate m ≡ₚ map_to_list m) -> (forall x, rtc (roll_step burn o n) x (others x)) ->
    roll_step burn o (S n) d (run (rollupResults iterate others fuel) fs d).

Definition cursor (d : database) : Z := default 0 (rollup_cursor d).

Definition inputs (j : list jrow) : list rollupInput := omap rollup_input j.

(** The results numbered up to [b]. *)
Definition upto (b : Z) (rows : list rollupInput) : list rollupInput := List.filter (fun r => ri_seq r <=? b) rows.

(** The journal's results grew at the end, past every number given out. *)
Definition grown (x y : database) : Prop :=
  journal_autoinc x <= journal_autoinc y
  /\ exists more, inputs (journal y) = inputs (journal x) ++ more /\ Forall (fun r => journal_autoinc x < ri_seq r) more.

Definition extends (x y : database) : Prop :=
  rollups y = rollups x /\ rollup_cursor y = rollup_cursor x /\ grown x y.

Lemma extends_refl x : extends x x.
Proof. split_and!; try done. split; [lia|]. exists []. by rewrite app_nil_r. Qed.

(** *** The agent's calls leave the rollups alone *)

Lemma extends_same x d d' :
  inputs (journal d') = inputs (journal d) -> journal_autoinc d <= journal_autoinc d' ->
  rollups d' = rollups d -> rollup_cursor d' = rollup_cursor d -> extends x d -> extends x d'.
Proof.
  intros E1 E2 E3 E4 (H1 & H2 & H3 & more & H4 & H5). split_and!; [congruence..|]. split; [lia|].
  exists more. by rewrite E1.
Qed.

Lemma extends_append x d d' r :
  journal d' = journal d ++ [r] -> journal_autoinc d < seq r -> journal_autoinc d <= journal_autoinc d' ->
  rollups d' = rollups d -> rollup_cursor d' = rollup_cursor d -> extends x d -> extends x d'.
Proof.
  intros E1 E2 E3 E4 E5 (H1 & H2 & H3 & more & H4 & H5). split_and!; [congruence..|]. split; [lia|].
  exists (more ++ inputs [r]). unfold inputs in *. rewrite E1, omap_app, H4, app_assoc. split; [done|].
  apply Forall_app. split; [done|]. cbn. unfold rollup_input. destruct (jbody r); repeat constructor. cbn. lia.
Qed.

Lemma inputs_map f j : (forall r, rollup_input (f r) = rollup_input r) -> inputs (map f j) = inputs j.
Proof. intros Hf. unfold inputs. induction j as [|r j IH]; [done|]. cbn. rewrite Hf, IH. done. Qed.

Lemma update_pending_input s f r :
  (forall c, probe_id (f c) = probe_id c /\ ok (f c) = ok c /\ latency_us (f c) = latency_us c) ->
  rollup_input (update_pending s f r) = rollup_input r.
Proof.
  intros Hf. unfold update_pending, rollup_input. destruct (jbody r) as [c|?|? ? ?|? ? ?] eqn:E; rewrite ?E; try done.
  destruct (_ && _); cbn; rewrite ?E; [|done]. by destruct (Hf c) as (-> & -> & ->).
Qed.

Ltac same_rollups := intros ? ?; by (eapply extends_same; [..|eassumption]).

Lemma nextOriginSeq_extends x o n : keeps (extends x) (nextOriginSeq o n).
Proof. unfold nextOriginSeq. keeps_steps; same_rollups. Qed.

Lemma insert_row_extends x e o n at_ b : keeps (extends x) (stmt e (insert_row o n at_ b)).
Proof.
  apply keeps_stmt. intros d s d' Hd. unfold insert_row. destruct (_ || _); [done|]. intros [= <- <-].
  eapply extends_append; [reflexivity|..|exact Hd]; cbn; try done; lia.
Qed.

Lemma record_loop_extends x burn o start now rs s : keeps (extends x) (record_loop burn o start now rs s).
Proof.
  revert start s. induction rs as [|r rs IH]; intros start s; cbn [record_loop]; [apply keeps_ret|].
  destruct (ids_empty r); [apply IH|]. apply keeps_bind; [|intros ?; apply IH].
  apply keeps_stmt. intros d k d' Hd. unfold insert_result.
  destruct (_ <=? _); [done|]. destruct (_ || _); intros [= <- <-].
  - destruct burn; [|done]. eapply extends_same; [..|exact Hd]; cbn; try done; lia.
  - eapply extends_append; [reflexivity|..|exact Hd]; cbn; try done; lia.
Qed.

Lemma completeTriggerTx_extends x p r at_ : keeps (extends x) (completeTriggerTx p r at_).
Proof. unfold completeTriggerTx. keeps_steps; same_rollups. Qed.

Lemma applyAssignmentTx_extends x snaps b : keeps (extends x) (applyAssignmentTx snaps b).
Proof.
  unfold applyAssignmentTx. keeps_steps; try same_rollups.
  apply keeps_stmt. intros d u d' Hd. unfold insert_probe. destruct (probes_t d !! _); [done|]. intros [= _ <-].
  by (eapply extends_same; [..|exact Hd]).
Qed.

Lemma map_extends x f d :
  (forall r, rollup_input (f r) = rollup_input r) -> extends x d -> extends x (with_journal (map f) d).
Proof. intros Hf. apply extends_same; cbn; try done. by apply inputs_map. Qed.

Lemma agent_step_extends burn o d d' : agent_step burn o d d' -> extends d d'.
Proof.
  assert (forall {A} (m : sql A) fs x, keeps (extends x) m -> extends x (run m fs x)) as Hrun.
  { intros A m fs x Hm. apply Hm, extends_refl. }
  destruct 1; apply Hrun; clear Hrun.
  - unfold RecordResults. destruct rs; [apply keeps_ret|].
    keeps_steps; [apply nextOriginSeq_extends|apply record_loop_extends].
  - unfold RecordTrigger, triggerAlreadySeenTx, queueTriggerTx.
    keeps_steps; try same_rollups; [apply nextOriginSeq_extends|apply insert_row_extends].
  - unfold CompleteTriggers, complete_one.
    keeps_steps; [same_rollups|apply nextOriginSeq_extends|apply insert_row_extends|apply completeTriggerTx_extends].
  - unfold SaveAssignment.
    keeps_steps; try same_rollups; [apply nextOriginSeq_extends|apply insert_row_extends|apply applyAssignmentTx_extends].
  - unfold MarkOutcomes, mark_outcome. keeps_steps; intros y Hy; apply map_extends; try done; intros r; by apply update_pending_input.
  - unfold MarkAttempts. keeps_steps. intros y Hy. apply map_extends; [|done]. intros r. unfold attempt_row.
    destruct (bool_decide _); [|done]. by apply update_pending_input.
  - unfold MarkProbesRun. keeps_steps; same_rollups.
Qed.

(** *** One pass, whatever fails and whatever lands in between *)

Definition sound (d : database) : Prop := db_wf d /\ cursor d <= journal_autoinc d.

(** From [x] to [y] the counters have room for everything past [x]'s cursor. *)
Definition roomy (x y : database) : Prop :=
  let rows := inputs_after (cursor x) (journal y) in
  table_fits (total_weight rows) (rollups x) /\ total_weight rows <= max_int64.

(** The cursor moved on, and every bucket of [y] is that of [x] with exactly
    the results between the two cursors added. *)
Definition tallied (x y : database) : Prop :=
  cursor x <= cursor y /\ grown x y
  /\ (roomy x y -> forall k, rollups y !! k
        = bucket_fold (rollups x !! k) (in_bucket k (upto (cursor y) (inputs_after (cursor x) (journal y))))).

Lemma upto_none a j : upto a (inputs_after a j) = [].
Proof.
  unfold upto, inputs_after. rewrite filter_filter_and. apply filter_none. intros r _.
  destruct (Z.ltb_spec a (ri_seq r)), (Z.leb_spec (ri_seq r) a); try done; lia.
Qed.

Lemma tallied_still x y : rollups y = rollups x -> rollup_cursor y = rollup_cursor x -> grown x y -> tallied x y.
Proof.
  intros E1 E2 Hg. unfold tallied, cursor in *. rewrite E2, E1. split_and!; [lia|done|]. intros _ k. by rewrite upto_none.
Qed.

Lemma tallied_refl x : tallied x x.
Proof. apply tallied_still; [done..|]. split; [lia|]. exists []. by rewrite app_nil_r. Qed.

Lemma grown_trans x y z : grown x y -> grown y z -> grown x z.
Proof.
  intros (H1 & m1 & E1 & F1) (H2 & m2 & E2 & F2). split; [lia|]. exists (m1 ++ m2). rewrite E2, E1, app_assoc. split; [done|].
  apply Forall_app. split; [done|]. eapply Forall_impl; [exact F2|]. intros r; cbn. lia.
Qed.

(** What was past a cursor stays so, with more behind it. *)
Lemma grown_after x y a :
  grown x y -> exists more, inputs_after a (journal y) = inputs_after a (journal x) ++ more
                            /\ Forall (fun r => journal_autoinc x < ri_seq r) more.
Proof.
  intros (_ & more & E & F). unfold inputs_after. fold (inputs (journal y)) (inputs (journal x)). rewrite E, List.filter_app.
  eexists. split; [done|]. eapply sublist_Forall; [apply sublist_filter|exact F].
Qed.

Lemma upto_beyond b rows : Forall (fun r => b < ri_seq r) rows -> upto b rows = [].
Proof. intros F. apply filter_none. rewrite Forall_forall in F. intros r Hr%F. apply Z.leb_gt. lia. Qed.

Lemma upto_grown x y a b : grown x y -> b <= journal_autoinc x -> upto b (inputs_after a (journal y)) = upto b (inputs_after a (journal x)).
Proof.
  intros Hg Hb. destruct (grown_after x y a Hg) as (more & -> & F). unfold upto. rewrite List.filter_app. fold (upto b more).
  rewrite upto_beyond, app_nil_r; [done|]. eapply Forall_impl; [exact F|]. intros r; cbn; lia.
Qed.

(** Rows in order split at a cursor. *)
Lemma span_split a b j :
  StronglySorted Z.lt (ri_seq <$> inputs_after a j) -> a <= b ->
  inputs_after a j = upto b (inputs_after a j) ++ inputs_after b j.
Proof.
  intros Hs Hab. assert (inputs_after b j = List.filter (fun r => b <? ri_seq r) (inputs_after a j)) as ->.
  { unfold inputs_after. rewrite filter_filter_and. apply List.filter_ext. intros r.
    destruct (Z.ltb_spec a (ri_seq r)), (Z.ltb_spec b (ri_seq r)); simpl; try done; lia. }
  revert Hs. generalize (inputs_after a j) as l. induction l as [|r l IH]; intros Hs; [done|]. rewrite fmap_cons in Hs.
  apply StronglySorted_inv in Hs as [Hs Hr]. unfold upto in *. cbn [List.filter].
  destruct (Z.leb_spec (ri_seq r) b), (Z.ltb_spec b (ri_seq r)); try lia.
  - cbn [app]. f_equal. by apply IH.
  - assert (Forall (fun r' => b < ri_seq r') l) as F.
    { apply (proj1 (Forall_fmap ri_seq (Z.lt (ri_seq r)) l)) in Hr. eapply Forall_impl; [exact Hr|]. intros r'; cbn; lia. }
    fold (upto b l). rewrite (upto_beyond b l F). cbn [app]. f_equal. symmetry. apply filter_all. rewrite Forall_forall in F. intros r' Hr'%F.
    by apply Z.ltb_lt.
Qed.

Lemma upto_weight b a d : db_wf d -> total_weight (upto b (inputs_after a (journal d))) <= total_weight (inputs_after a (journal d)).
Proof.
  intros Hwf. pose proof (wf_latency a d Hwf) as H. revert H. generalize (inputs_after a (journal d)) as l.
  induction 1 as [|r l Hr Hl IH]; [done|]. unfold upto in *. cbn [List.filter].
  destruct (_ <=? _); rewrite ?total_weight_cons; unfold latency_ok, weight in *; lia.
Qed.

Lemma roomy_earlier x y z : db_wf z -> grown y z -> roomy x z -> roomy x y.
Proof.
  unfold roomy. intros Hwf Hg [Ht Hw]. destruct (grown_after y z (cursor x) Hg) as (more & E & _).
  pose proof (wf_latency (cursor x) z Hwf) as Hok. rewrite E in *. rewrite total_weight_app in Ht, Hw.
  apply Forall_app in Hok as [Hok1 Hok2]. pose proof (total_weight_nonneg _ Hok2). split; [|lia].
  intros k a Ha. destruct (Ht _ _ Ha) as (b & ? & ?). exists b. split; [done|lia].
Qed.

Lemma tallied_trans x y z : sound y -> db_wf z -> tallied x y -> tallied y z -> tallied x z.
Proof.
  intros [Hwfy Hby] Hwfz (Hc1 & Hg1 & Ht1) (Hc2 & Hg2 & Ht2). split_and!; [lia|by eapply grown_trans|]. intros Hroom k.
  pose proof (roomy_earlier x y z Hwfz Hg2 Hroom) as Hroom1. pose proof (span_split (cursor x) (cursor y) (journal z)
    (inputs_after_sorted _ _ Hwfz) Hc1) as Esp.
  rewrite <- (upto_grown y z (cursor x) (cursor y) Hg2 Hby) in Ht1.
  set (first := upto (cursor y) (inputs_after (cursor x) (journal z))) in *.
  assert (Forall latency_ok first /\ Forall latency_ok (inputs_after (cursor y) (journal z))) as [Hok1 Hok2].
  { apply Forall_app. rewrite <- Esp. by apply wf_latency. }
  pose proof (total_weight_nonneg _ Hok1). pose proof (total_weight_nonneg _ Hok2).
  assert (roomy y z) as Hroom2.
  { destruct Hroom as [Htf Hw]. rewrite Esp, total_weight_app in Htf, Hw. split; [|lia].
    eapply table_fits_after; [exact Hok1|exact Hw|exact Htf|exact (Ht1 Hroom1)]. }
  rewrite (Ht2 Hroom2), (Ht1 Hroom1), bucket_fold_app, <- in_bucket_app. do 2 f_equal.
  rewrite Esp. unfold upto. rewrite List.filter_app. f_equal. symmetry. apply filter_all.
  intros r Hr. apply list_elem_of_In, filter_In in Hr as [_ Hr%Z.leb_le]. apply Z.leb_le. lia.
Qed.

Lemma upserts_nofault l fs d u d' fs' :
  sql_for (fun ka => stmt "store: upsert rollup" (upsert_rollup (fst ka) (snd ka))) l fs d = (Ok u, d', fs') ->
  sql_for (fun ka => stmt "store: upsert rollup" (upsert_rollup (fst ka) (snd ka))) l [] d = (Ok u, d', []).
Proof.
  revert fs d. induction l as [|ka l IH]; intros fs d H; cbn [sql_for] in *.
  - by sql_prim H.
  - apply bind_ok in H as (v & d1 & fs1 & [E _]%stmt_ok & H). erewrite bind_run by (apply stmt_run, E). by eapply IH.
Qed.

(** A chunk read in [x] and written in [y]: nothing, or exactly its rows. *)
Lemma write_tallied iterate x y after n fs :
  (forall m, iterate m ≡ₚ map_to_list m) -> sound x -> sound y -> grown x y ->
  let rows := take n (inputs_after after (journal x)) in
  let y' := run (writeRollups iterate (aggregate rows) after (last_seq after rows)) fs y in
  sound y' /\ tallied y y'.
Proof.
  intros Hperm [Hwfx Hbx] [Hwfy Hby] Hg rows y'.
  assert (db_wf y') as Hwf' by (by apply writeRollups_keeps). subst y'. revert Hwf'. unfold writeRollups.
  match goal with |- db_wf (run (tx ?a ?b ?m) _ _) -> _ =>
    destruct (tx_run_cases a b m fs y) as [->|(w & fs1 & fs2 & d' & H & ->)] end; intros Hwf'.
  { split; [by split|apply tallied_refl]. }
  sql_step H. destruct (negb _) eqn:Ec; [sql_prim H; split; [by split|apply tallied_refl]|].
  sql_step H. sql_step H. sql_prim H. apply negb_false_iff, Z.eqb_eq in Ec.
  pose proof (upserts_nofault _ _ _ _ _ _ E) as E0.
  assert (same_journal y d) as (HJ & HA & _).
  { assert (keeps (same_journal y) (sql_for (fun ka => stmt "store: upsert rollup" (upsert_rollup (fst ka) (snd ka))) (iterate (aggregate rows)))) as Hk.
    { keeps_steps. apply keeps_stmt. intros d0 v d1 (J1 & J2 & J3) (K1 & K2 & K3)%upsert_frame. split_and!; congruence. }
    rewrite <- (run_ok _ _ _ _ _ _ E). by apply Hk. }
  assert (Forall (fun r => after < ri_seq r) rows) as Hpast.
  { apply Forall_take. apply Forall_forall. intros r [_ Hr]%list_elem_of_In%filter_In. by apply Z.ltb_lt. }
  assert (last_seq after rows <= journal_autoinc y) as Hnext.
  { rewrite last_seq_spec; [|unfold rows; rewrite fmap_take; eapply sublist_StronglySorted; [apply sublist_take|by apply inputs_after_sorted]|done].
    destruct (last rows) as [r|] eqn:El; [|unfold cursor in Hby; lia].
    assert (r ∈ inputs_after after (journal x)) as Hr.
    { apply last_Some in El as [l El]. eapply elem_of_sublist; [|apply (sublist_take _ n)]. fold rows. rewrite El. apply elem_of_app. right. left. }
    apply list_elem_of_In, filter_In in Hr as [Hr _]. apply list_elem_of_In, list_elem_of_omap in Hr as (row & Hrow & Er).
    pose proof (wf_bound _ Hwfx) as Hb. rewrite Forall_forall in Hb. specialize (Hb row Hrow).
    assert (ri_seq r = seq row) as -> by (unfold rollup_input in Er; destruct (jbody row); by simplify_eq/=).
    destruct Hg as [Hg _]. lia. }
  destruct (grown_after x y after Hg) as (more & Emore & _).
  assert (upto (last_seq after rows) (inputs_after after (journal y)) = rows) as Espan.
  { destruct (grown_after x y after Hg) as (m2 & E2 & F2).
    assert (inputs_after after (journal y) = rows ++ (drop n (inputs_after after (journal x)) ++ m2)) as Eall
      by (unfold rows; by rewrite E2, app_assoc, take_drop).
    pose proof (inputs_after_sorted after y Hwfy) as Hs. 
    pose proof (span_split after (last_seq after rows) (journal y) Hs (last_seq_ge after rows)) as Esp.
    assert (rows = take (length rows) (inputs_after after (journal y))) as Etk by (rewrite Eall, take_app_length; done).
    pose proof (inputs_after_next (length rows) after y Hwfy) as Edrop. rewrite <- Etk in Edrop. rewrite Edrop, Eall, drop_app_length in Esp.
    rewrite <- Eall in Esp. rewrite Eall in Esp at 1. by apply app_inv_tail in Esp. }
  split; [split; [exact Hwf'|unfold cursor; cbn; lia]|].
  split_and!.
  - unfold cursor. cbn. pose proof (last_seq_ge after rows). unfold cursor in *. lia.
  - split; cbn; [lia|]. exists []. rewrite HJ. by rewrite app_nil_r.
  - intros [Htf Hw] k. cbn [with_cursor journal rollups] in *. rewrite HJ in *. unfold cursor at 1. cbn [with_cursor rollup_cursor default].
    assert (cursor y = after) as Ecur by (unfold cursor; congruence). rewrite Ecur in *.
    change (id (last_seq after rows)) with (last_seq after rows). rewrite Espan.
    pose proof (wf_latency after y Hwfy) as Hok. pose proof (upto_weight (last_seq after rows) after y Hwfy) as Hle. rewrite Espan in Hle.
    assert (Forall latency_ok rows) as Hokr by (rewrite <- Espan; eapply sublist_Forall; [apply sublist_filter|exact Hok]).
    destruct (write_chunk_run iterate Hperm rows after (last_seq after rows) y) as (d2 & E2 & Hb & _); [done|done| |lia|].
    { intros k' a' Ha'. destruct (Htf _ _ Ha') as (b & ? & ?). exists b. split; [done|lia]. }
    unfold writeRollups in E2. apply tx_ok in E2 as (f1 & f2 & E2). sql_step E2. rewrite Z.eqb_refl in E2. cbn [negb] in E2.
    sql_step E2. sql_step E2. sql_prim E2. apply upserts_nofault in E1. rewrite E0 in E1. injection E1 as <- <-. exact (Hb k).
Qed.

Lemma run_bind_query {A B} e (f : database -> A) (k : A -> sql B) fs d :
  run (a ← query e f; k a) fs d = d \/ exists fs', run (a ← query e f; k a) fs d = run (k (f d)) fs' d.
Proof. unfold run, mbind, sql_bind, query, stmt. destruct fs as [|[] fs]; [right; by exists []|by left|right; by exists fs]. Qed.

Lemma run_bind {A B} (m : sql A) (k : A -> sql B) fs d :
  run (mbind k m) fs d = run m fs d
  \/ exists a fs', run (mbind k m) fs d = run (k a) fs' (run m fs d).
Proof.
  unfold run, mbind, sql_bind. destruct (m fs d) as [[[a|er] d'] fs']; [right|by left]. by exists a, fs'.
Qed.

Lemma loop_tallied iterate others fuel after total moves fs d :
  (forall m, iterate m ≡ₚ map_to_list m) -> (forall x, sound x -> sound (others x) /\ tallied x (others x)) -> sound d ->
  let d' := run (rollup_loop iterate others fuel after total moves) fs d in sound d' /\ tallied d d'.
Proof.
  intros Hperm Ho. cbv zeta. revert after total moves fs d.
  induction fuel as [|fuel IH]; intros after total moves fs d Hd; [split; [done|apply tallied_refl]|].
  cbn [rollup_loop]. unfold readRollupChunk.
  match goal with |- context [run (mbind ?k (query ?e ?f)) fs d] =>
    destruct (run_bind_query e f k fs d) as [->|(fs1 & ->)]; [split; [done|apply tallied_refl]|] end.
  set (rows := take rollupChunk (inputs_after after (journal d))). destruct rows as [|r rs] eqn:Er; [split; [done|apply tallied_refl]|].
  rewrite <- Er. clear Er r rs. destruct (Ho d Hd) as [Hx Htx].
  match goal with |- context [run (mbind ?k (interfere _)) fs1 d] => change (run (mbind k (interfere others)) fs1 d) with (run (k tt) fs1 (others d)) end.
  cbv beta. match goal with |- context [run (mbind ?k ?m) fs1 (others d)] => set (k0 := k); set (w := m) end.
  pose proof Htx as (_ & Hg & _).
  destruct (write_tallied iterate d (others d) after rollupChunk fs1 Hperm Hd Hx Hg) as [Hy Hty].
  fold rows in Hy, Hty. fold w in Hy, Hty.
  assert (tallied d (run w fs1 (others d))) as Hdy by (apply (tallied_trans d (others d)); [done|by destruct Hy|done|done]).
  destruct (run_bind w k0 fs1 (others d)) as [->|(out & fs2 & ->)]; [by split|].
  revert Hy Hdy. generalize (run w fs1 (others d)) as y. intros y Hy Hdy.
  assert (forall d', sound d' /\ tallied y d' -> sound d' /\ tallied d d') as Hthen.
  { intros d' [Hs Ht]. split; [done|]. apply (tallied_trans d y); [done|by destruct Hs|done|done]. }
  subst k0. cbv beta. destruct out.
  - apply Hthen. by apply IH.
  - destruct (5 <? S moves)%nat; [by split|]. unfold metaInt_cursor.
    match goal with |- context [run (mbind ?k (query ?e ?f)) fs2 y] =>
      destruct (run_bind_query e f k fs2 y) as [->|(fs3 & ->)]; [by split|] end.
    apply Hthen. by apply IH.
Qed.

Lemma agent_step_tallied burn o d d' : agent_step burn o d d' -> store_step burn o d d' -> sound d -> sound d' /\ tallied d d'.
Proof.
  intros Ha Hs [Hwf Hb]. destruct (agent_step_extends burn o d d' Ha) as (E1 & E2 & Hg).
  split; [split|by apply tallied_still].
  - by eapply store_step_wf.
  - unfold cursor in *. rewrite E2. destruct Hg as [Hg _]. lia.
Qed.

Lemma tallied_steps (R : database -> database -> Prop) d d' :
  (forall x y, R x y -> sound x -> sound y /\ tallied x y) -> rtc R d d' -> sound d -> sound d' /\ tallied d d'.
Proof.
  intros HR. induction 1 as [x|x y z Hxy _ IH]; intros Hx; [split; [done|apply tallied_refl]|].
  destruct (HR x y Hxy Hx) as [Hy Ht]. destruct (IH Hy) as [Hz Ht']. split; [done|].
  apply (tallied_trans x y); [done|by destruct Hz|done|done].
Qed.

Lemma roll_step_tallied burn o n d d' : roll_step burn o n d d' -> sound d -> sound d' /\ tallied d d'.
Proof.
  revert d d'. induction n as [|n IH]; intros d d' H Hd; inversion H; subst; try (by eapply agent_step_tallied).
  unfold rollupResults, metaInt_cursor.
  match goal with |- context [run (mbind ?k (query ?e ?f)) fs d] =>
    destruct (run_bind_query e f k fs d) as [->|(fs1 & ->)]; [split; [done|apply tallied_refl]|] end.
  apply loop_tallied; [done| |done]. intros x. by apply (tallied_steps (roll_step burn o n)).
Qed.

(** C14: Rollups count every result exactly once, as long as retention deletes
    nothing.  From a well-formed store, run any number of passes and calls of
    the agent, with any statements failing and passes interleaved with calls
    and with each other between any chunk's read and its write.  Then, with
    room in the counters, every bucket is what it was with exactly the
    results between the first cursor and the last one folded in, each once,
    and one more undisturbed pass ends, counts all the rest, and leaves
    nothing to count. *)
Theorem rollup_exactly_once burn o n d0 d :
  db_wf d0 -> cursor d0 <= journal_autoinc d0 -> rtc (roll_step burn o n) d0 d ->
  let rows := inputs_after (cursor d0) (journal d) in
  table_fits (total_weight rows) (rollups d0) -> total_weight rows <= max_int64 ->
  cursor d0 <= cursor d
  /\ (forall k, rollups d !! k
        = bucket_fold (rollups d0 !! k) (in_bucket k (List.filter (fun r => ri_seq r <=? cursor d) rows)))
  /\ forall iterate fuel, (forall m, iterate m ≡ₚ map_to_list m) -> (length rows < fuel)%nat ->
      exists d', rollupResults iterate (fun x => x) fuel [] d
          = (Ok (Z.of_nat (length (inputs_after (cursor d) (journal d)))), d', [])
        /\ (forall k, rollups d' !! k = bucket_fold (rollups d0 !! k) (in_bucket k rows))
        /\ journal d' = journal d /\ inputs_after (cursor d') (journal d') = [].
Proof.
  intros Hwf Hb Hst rows Htf Hw.
  destruct (tallied_steps _ _ _ (roll_step_tallied burn o n) Hst (conj Hwf Hb)) as [[Hwfd Hbd] (Hc & _ & Ht)].
  specialize (Ht (conj Htf Hw)). split; [done|]. split; [exact Ht|]. intros iterate fuel Hperm Hfuel.
  pose proof (span_split (cursor d0) (cursor d) (journal d) (inputs_after_sorted _ _ Hwfd) Hc) as Esp. fold rows in Esp, Ht.
  pose proof (wf_latency (cursor d0) d Hwfd) as Hok. fold rows in Hok. rewrite Esp in Hok. apply Forall_app in Hok as [Hok1 Hok2].
  pose proof (total_weight_nonneg _ Hok1). pose proof (total_weight_nonneg _ Hok2).
  rewrite Esp, total_weight_app in Htf, Hw. apply (f_equal length) in Esp as Elen. rewrite length_app in Elen.
  destruct (rollup_pass_counts iterate Hperm fuel d Hwfd) as (d' & E & Hk & HJ & Hn).
  - eapply table_fits_after; [exact Hok1|exact Hw|exact Htf|exact Ht].
  - fold (cursor d). lia.
  - fold (cursor d). lia.
  - exists d'. split; [exact E|]. split; [|by split]. intros k. fold (cursor d) in Hk.
    by rewrite Hk, Ht, bucket_fold_app, <- in_bucket_app, <- Esp.
Qed.

(** ** On the small store *)

(** A pass during which another one runs, and whose own write fails; the
    outcomes of the first batch are settled in between. *)
Definition demo_rolled : database :=
  run (rollupResults map_to_list (fun x => run (rollupResults map_to_list (fun y => y) 3) [] x) 3)
    [false; false; false; false; true] (run (MarkOutcomes 3000 demo_outcomes) [] demo_db).

Lemma demo_rolled_reachable : rtc (roll_step false "node" 2) demo_db demo_rolled.
Proof.
  unfold demo_rolled. eapply rtc_r; [apply rtc_once, rl_call; [apply ag_outcomes|apply st_outcomes]|].
  apply rl_pass; [intros m; apply Permutation_refl|]. intros x. apply rtc_once.
  apply (rl_pass _ _ 0); [intros m; apply Permutation_refl|]. intros y. apply rtc_refl.
Qed.

Lemma rollup_exactly_once_witness :
  cursor demo_rolled = 4
  /\ (forall k, rollups demo_rolled !! k = bucket_fold None (in_bucket k
        (List.filter (fun r => ri_seq r <=? cursor demo_rolled) (inputs_after 0 (journal demo_rolled)))))
  /\ exists d', rollupResults map_to_list (fun x => x) 3 [] demo_rolled = (Ok 0, d', []).
Proof.
  split; [vm_compute; reflexivity|].
  destruct (rollup_exactly_once false "node" 2 demo_db demo_rolled) as (_ & Hk & Hrun).
  - exact demo_db_wf.
  - vm_compute. discriminate.
  - exact demo_rolled_reachable.
  - assert (rollups demo_db = ∅) as -> by (vm_compute; reflexivity). apply map_Forall_empty.
  - vm_compute. discriminate.
  - split; [exact Hk|].
    destruct (Hrun map_to_list 3%nat (fun m => Permutation_refl _)) as (d' & E & _); [vm_compute; lia|].
    exists d'. exact E.
Defined.
