(* ===== verification/StoreMeta.v ===== *)
(** * The store's metadata

    Which operations of [internal/store] leave the [meta] table, and with it
    the saved assignment's hash, as it was: all but [SaveAssignment] and
    [Rebuild]. *)

From Stdlib Require Import ZArith Lia List Bool Ascii String.
From stdpp Require Import base tactics gmap strings list fin_maps.
From S2P Require Import Prelude Wire Sql Store StoreMaint Journal StoreWf StoreTriggers StoreAssign.

Definition meta_is (M : gmap string string) (d : database) : Prop := meta d = M.

#[local] Ltac same_meta := let d := fresh in let E := fresh in intros d E; exact E.

Lemma nextOriginSeq_meta M o n : keeps (meta_is M) (nextOriginSeq o n).
Proof. unfold nextOriginSeq. keeps_steps; same_meta. Qed.

Lemma insert_row_meta M e o n at_ b : keeps (meta_is M) (stmt e (insert_row o n at_ b)).
Proof.
  apply keeps_stmt. intros d s d' Hd (_ & _ & _ & E & _)%insert_row_proj. unfold meta_is in *. congruence.
Qed.

Lemma record_loop_meta M burn o start now rs s : keeps (meta_is M) (record_loop burn o start now rs s).
Proof.
  revert start s. induction rs as [|x rs IH]; intros start s; cbn [record_loop]; [apply keeps_ret|].
  destruct (ids_empty x); [apply IH|]. apply keeps_bind; [|intros ?; apply IH].
  apply keeps_stmt. intros d k d' Hd. unfold insert_result.
  destruct (_ <=? _); [done|]. destruct (_ || _); intros [= <- <-]; [|exact Hd]. by destruct burn.
Qed.

Lemma RecordResults_meta M burn o now rs : keeps (meta_is M) (RecordResults burn o now rs).
Proof.
  unfold RecordResults. destruct rs; [apply keeps_ret|].
  keeps_steps; [apply nextOriginSeq_meta|apply record_loop_meta].
Qed.

Lemma MarkOutcomes_meta M now xs : keeps (meta_is M) (MarkOutcomes now xs).
Proof. unfold MarkOutcomes, mark_outcome. keeps_steps; same_meta. Qed.

Lemma MarkAttempts_meta M seqs : keeps (meta_is M) (MarkAttempts seqs).
Proof. unfold MarkAttempts. keeps_steps; same_meta. Qed.

Lemma MarkProbesRun_meta M ids t : keeps (meta_is M) (MarkProbesRun ids t).
Proof. unfold MarkProbesRun. keeps_steps; same_meta. Qed.

Lemma RecordTrigger_meta M o now ev : keeps (meta_is M) (RecordTrigger o now ev).
Proof.
  unfold RecordTrigger, triggerAlreadySeenTx, queueTriggerTx.
  keeps_steps; try apply nextOriginSeq_meta; try apply insert_row_meta; same_meta.
Qed.

Lemma CompleteTriggers_meta M o now ts : keeps (meta_is M) (CompleteTriggers o now ts).
Proof.
  unfold CompleteTriggers, complete_one, completeTriggerTx.
  keeps_steps; try apply nextOriginSeq_meta; try apply insert_row_meta; same_meta.
Qed.

Lemma PendingTriggers_meta M : keeps (meta_is M) PendingTriggers.
Proof. unfold PendingTriggers. keeps_steps. apply keeps_ignore, keeps_exec. same_meta. Qed.

Lemma LoadProbeStates_same fs d r d' fs' : LoadProbeStates fs d = (r, d', fs') -> d' = d.
Proof.
  intros H. assert (keeps (eq d) LoadProbeStates) as K.
  { unfold LoadProbeStates. keeps_steps. apply keeps_stmt. intros x y x' Hx.
    intros Hs. apply bind_Some in Hs as (z & _ & Hz). injection Hz as _ <-. exact Hx. }
  specialize (K fs d eq_refl). unfold run in K. by rewrite H in K.
Qed.

Lemma LoadProbeStates_hash fs d h states d' fs' :
  LoadProbeStates fs d = (Ok (h, states), d', fs') -> h = default ""%string (meta d !! "probe_hash"%string).
Proof.
  unfold LoadProbeStates. intros H. sql_step H.
  sql_step H.
  apply ret_ok in H as (E1 & _ & _). by injection E1 as <- _.
Qed.

(** A save either records its hash or changes nothing. *)
Lemma SaveAssignment_meta o now hash snaps fs d r d' fs' :
  hash <> ""%string -> SaveAssignment o now hash snaps fs d = (r, d', fs') ->
  match r with
  | Ok _ => meta d' = <["probe_hash"%string := hash]> (meta d)
  | Err _ => d' = d
  end.
Proof.
  intros Hh H. destruct r as [u|er].
  - by apply SaveAssignment_ok in H as (_ & _ & -> & _).
  - unfold SaveAssignment in H. rewrite decide_False in H by done. destruct (negb _).
    + by injection H as _ <- _.
    + by eapply tx_err.
Qed.

(** ** Maintenance *)

(** A part of the database that retention, rollups and the size bound have no
    business with. *)
Class MaintView {T} (view : database -> T) : Prop := {
  view_journal f d : view (with_journal f d) = view d;
  view_completed f d : view (with_completed f d) = view d;
  view_rollups f d : view (with_rollups f d) = view d;
  view_cursor n d : view (with_cursor n d) = view d
}.

Definition view_is {T} (view : database -> T) (V : T) (d : database) : Prop := view d = V.

#[export] Instance meta_view : MaintView meta.
Proof. done. Qed.

(** What triggers and assignments live in. *)
Definition trigger_tables (d : database) : gmap pair_key ptrow * gmap string prow := (pending_triggers d, probes_t d).

#[export] Instance trigger_view : MaintView trigger_tables.
Proof. done. Qed.

Section maint.
Context (iterate : gmap rollupKey rollupRow_ -> list (rollupKey * rollupRow_)).
Context (others : database -> database) (live_bytes : nat -> database -> Z).
Context {T} (view : database -> T) `{!MaintView view} (V : T) (others_view : forall d, view (others d) = view d).

Lemma Maintain_view fuel opts : keeps (view_is view V) (Maintain iterate others live_bytes fuel opts).
Proof.
  apply Maintain_frame; unfold view_is; intros;
    rewrite ?view_journal, ?view_rollups, ?view_cursor, ?others_view; try done.
  cbn. by rewrite view_completed.
Qed.
End maint.

Lemma Maintain_meta iterate others live_bytes M :
  (forall d, meta (others d) = meta d) -> forall fuel opts, keeps (meta_is M) (Maintain iterate others live_bytes fuel opts).
Proof. intros Ho fuel opts. exact (Maintain_view iterate others live_bytes meta M Ho fuel opts). Qed.
