(* ===== verification/Clock.v ===== *)
(** * Clock correction

    [internal/agent/clock.go]: the offset from the server's clock, measured
    on every heartbeat against the midpoint of the round trip. *)

From Stdlib Require Import ZArith Lia.
From stdpp Require Import base tactics.
From S2P Require Import Prelude.

Record clockSync : Type := mkClock { offset : duration }.

(** [update]; Go's [/] on durations truncates. *)
Definition update (serverTime sentAt receivedAt : time) (_ : clockSync) : clockSync :=
  let midpoint := time_add sentAt (time_sub receivedAt sentAt ÷ 2) in
  mkClock (time_sub serverTime midpoint).

(** [now], given the reading of [time.Now()]. *)
Definition clock_now (s : clockSync) (local : time) : time := time_add local (offset s).

(** The correction is NTP's: if the server's clock is [skew] ahead of ours
    and it read its clock at any instant of the round trip, the corrected
    time is within half the round trip (rounded up) of the server's, for
    every later reading. *)
Theorem clock_error_bounded s sentAt receivedAt read skew local :
  sentAt <= read <= receivedAt ->
  in_int64 (receivedAt - sentAt) -> in_int64 (2 * (read + skew - sentAt)) ->
  in_int64 (2 * (read + skew - receivedAt)) ->
  let s' := update (read + skew) sentAt receivedAt s in
  2 * Z.abs (clock_now s' local - (local + skew)) <= receivedAt - sentAt + 1.
Proof.
  intros Hr H1 H2 H3. unfold update, clock_now, time_add, time_sub. simpl.
  rewrite (sat64_small (receivedAt - sentAt)) by done.
  rewrite Z.quot_div_nonneg by lia.
  pose proof (Z.div_mod (receivedAt - sentAt) 2 ltac:(lia)) as Hd.
  pose proof (Z.mod_pos_bound (receivedAt - sentAt) 2 ltac:(lia)) as Hm.
  rewrite sat64_small; unfold in_int64, min_int64, max_int64 in *; lia.
Qed.

(** A second measurement forgets the first: the offset is that of the most
    recent heartbeat alone. *)
Theorem clock_latest_wins s s' a b c : update a b c s = update a b c s'.
Proof. done. Qed.

Lemma clock_error_bounded_witness :
  let s' := update (unix_milli 5050 + hour) (unix_milli 5000) (unix_milli 5100) (mkClock 7) in
  2 * Z.abs (clock_now s' 0 - (0 + hour)) <= unix_milli 5100 - unix_milli 5000 + 1.
Proof.
  apply (clock_error_bounded (mkClock 7) (unix_milli 5000) (unix_milli 5100) (unix_milli 5050) hour 0);
    vm_compute; intuition discriminate.
Defined.
