(* ===== verification/Health.v ===== *)
(** * Resource health and its hysteresis

    [internal/agent/health.go]: at most one resource sample per 30 s, a
    pressure state with hysteresis per resource, and the clamped heartbeat
    counters.  What gopsutil and the runtime report is an argument. *)

From Stdlib Require Import ZArith Lia List Bool Ascii String SpecFloat.
From stdpp Require Import base tactics list strings.
From S2P Require Import Prelude Wire.

Definition healthSampleInterval : duration := 30 * second.

(** The telemetry the sampler fills in ([wire.NodeHealth]). *)
Record NodeHealth : Type := mkHealth {
  CPUCount : Z;
  Goroutines : Z;
  MemUsedPct : float64;
  Load1 : float64;
  RSSBytes : Z;
  CPUStealPct : float64;
  Pressure : string;
  HeartbeatRTTMs : float64;
  ConsecutiveFailures : Z;
  DeferredJobs : Z;
  Path : string;
  UptimeSeconds : float64
}.

Definition f0 : float64 := S754_zero false.
Definition zeroHealth : NodeHealth := mkHealth 0 0 f0 f0 0 f0 "" f0 0 0 "" f0.

Record healthSampler : Type := mkSampler {
  started : time;
  lastSample : time;
  resource : NodeHealth;
  prevCPUTotal : float64;
  prevCPUSteal : float64;
  lastRTT : duration;
  failures : Z;
  memHot : bool;
  loadHot : bool;
  stealHot : bool;
  memStreak : Z;
  loadStreak : Z;
  stealStreak : Z
}.

Definition newHealthSampler (now : time) : healthSampler :=
  mkSampler now zero_time zeroHealth f0 f0 0 0 false false false 0 0 0.

Definition noteHeartbeat (d : duration) (ok : bool) (s : healthSampler) : healthSampler :=
  mkSampler (started s) (lastSample s) (resource s) (prevCPUTotal s) (prevCPUSteal s)
    (if ok then d else lastRTT s) (if ok then 0 else int_add (failures s) 1)
    (memHot s) (loadHot s) (stealHot s) (memStreak s) (loadStreak s) (stealStreak s).

(** [hysteresis]. *)
Definition hysteresis (active : bool) (streak : Z) (high low : bool) : bool * Z :=
  if high then
    let streak := if streak <? 0 then 1 else int_add streak 1 in
    (active || (2 <=? streak), streak)
  else if low then
    let streak := if 0 <? streak then -1 else int_add streak (-1) in
    if streak <=? -2 then (false, 0) else (active, streak)
  else (active, streak).

(** What the operating system reports at one sample; [None] is an error. *)
Record readings : Type := mkReadings {
  rd_cpus : Z;
  rd_goroutines : Z;
  rd_mem : option float64;
  rd_load : option float64;
  rd_rss : option Z;
  rd_cpu : option (list float64 * float64)  (** the eight time fields, and steal *)
}.

Definition fadd (a b : float64) : float64 := SFadd 53 1024 a b.
Definition fsub (a b : float64) : float64 := SFsub 53 1024 a b.
Definition fmul (a b : float64) : float64 := SFmul 53 1024 a b.
Definition fdiv (a b : float64) : float64 := SFdiv 53 1024 a b.
Definition fz (z : Z) : float64 := float_of_Z z.

(** The running sum of Go's left-associated additions. *)
Definition fsum (l : list float64) : float64 :=
  match l with [] => f0 | x :: r => fold_left fadd r x end.

Definition steal_pct (prevTotal prevSteal total steal old : float64) : float64 :=
  if SFltb f0 prevTotal then
    let totalDelta := fsub total prevTotal in
    let stealDelta := fsub steal prevSteal in
    if SFltb f0 totalDelta then
      let pct := fmul (fdiv stealDelta totalDelta) (fz 100) in
      let pct := if SFltb pct f0 then f0 else pct in
      if SFltb (fz 100) pct then fz 100 else pct
    else old
  else old.

Definition one_and_half : float64 := S754_finite false 6755399441055744 (-52).

Definition pressure_of (mem load steal : bool) : string :=
  if (mem && (load || steal)) || (load && steal) then "mixed"
  else if mem then "memory"
  else if load then "load"
  else if steal then "steal"
  else "ok".

Definition sampleLocked (now : time) (rd : readings) (s : healthSampler) : healthSampler :=
  let r := resource s in
  let memPct := default (MemUsedPct r) (rd_mem rd) in
  let load1 := default (Load1 r) (rd_load rd) in
  let rss := default (RSSBytes r) (rd_rss rd) in
  let '(stealPct, total, steal) :=
    match rd_cpu rd with
    | None => (CPUStealPct r, prevCPUTotal s, prevCPUSteal s)
    | Some (fields, st) =>
        let total := fsum fields in
        (steal_pct (prevCPUTotal s) (prevCPUSteal s) total st (CPUStealPct r), total, st)
    end in
  let cpuCount := let c := fz (rd_cpus rd) in if SFltb c (fz 1) then fz 1 else c in
  let '(mh, ms) := hysteresis (memHot s) (memStreak s) (SFleb (fz 92) memPct) (SFleb memPct (fz 85)) in
  let '(lh, ls) := hysteresis (loadHot s) (loadStreak s)
    (SFltb (fmul cpuCount (fz 2)) load1) (SFleb load1 (fmul cpuCount one_and_half)) in
  let '(sh, ss) := hysteresis (stealHot s) (stealStreak s) (SFleb (fz 30) stealPct) (SFleb stealPct (fz 15)) in
  mkSampler (started s) now
    (mkHealth (rd_cpus rd) (rd_goroutines rd) memPct load1 rss stealPct (pressure_of mh lh sh)
       (HeartbeatRTTMs r) (ConsecutiveFailures r) (DeferredJobs r) (Path r) (UptimeSeconds r))
    total steal (lastRTT s) (failures s) mh lh sh ms ls ss.

Definition clamp_int (z hi : Z) : Z := if hi <? z then hi else z.
Definition clamp_float (f hi : float64) : float64 := if SFltb hi f then hi else f.

(** [snapshot]: the refreshed sampler and the health to send.  The uptime
    in seconds is [Duration.Seconds()], an argument. *)
Definition snapshot (now : time) (rd : readings) (pathState : string) (deferredJobs : Z)
    (seconds : duration -> float64) (s : healthSampler) : NodeHealth * healthSampler :=
  let s := if is_zero_time (lastSample s) || (healthSampleInterval <=? time_sub now (lastSample s))
           then sampleLocked now rd s else s in
  let r := resource s in
  let up := seconds (time_sub now (started s)) in
  (mkHealth (CPUCount r) (Goroutines r) (MemUsedPct r) (Load1 r) (RSSBytes r) (CPUStealPct r)
     (Pressure r)
     (clamp_float (fdiv (fz (lastRTT s)) (fz millisecond)) (fz 600000))
     (clamp_int (failures s) 1000000) (clamp_int deferredJobs 1000000) pathState
     (if SFltb up f0 then f0 else up), s).

(** ** The hysteresis against its specification *)

Inductive level : Type := High | Low | Mid.

Definition hyst_step (st : bool * Z) (l : level) : bool * Z :=
  hysteresis (fst st) (snd st)
    (match l with High => true | _ => false end) (match l with Low => true | _ => false end).

(** The state a sequence of levels should lead to: high after two highs, low
    after two lows, otherwise as before; levels in between do not count. *)
Fixpoint settled_state (prev : option level) (active : bool) (ls : list level) : bool :=
  match ls with
  | [] => active
  | Mid :: rest => settled_state prev active rest
  | High :: rest =>
      settled_state (Some High) (active || match prev with Some High => true | _ => false end) rest
  | Low :: rest =>
      settled_state (Some Low) (active && match prev with Some Low => false | _ => true end) rest
  end.

(** The streak counter records the last decisive level. *)
Definition streak_of (prev : option level) (active : bool) (streak : Z) : Prop :=
  match prev with
  | Some High => 1 <= streak
  | Some Low => streak = -1 \/ (streak = 0 /\ active = false)
  | _ => streak = 0 /\ active = false
  end.

Lemma hyst_refines ls prev st :
  streak_of prev (fst st) (snd st) -> Z.abs (snd st) + Z.of_nat (length ls) <= max_int64 ->
  fst (fold_left hyst_step ls st) = settled_state prev (fst st) ls.
Proof.
  revert prev st. induction ls as [|l ls IH]; intros prev [active streak] Hs Hb; [done|].
  cbn [fold_left length fst snd] in *. unfold hyst_step at 2. cbn [fst snd].
  unfold hysteresis, max_int64 in *. destruct l; cbn [settled_state].
  - rewrite (IH (Some High)); cbn [fst snd].
    + f_equal. f_equal. destruct prev as [[| |]|]; simpl in Hs;
        (destruct (Z.ltb_spec streak 0);
         [|rewrite int_add_small by (unfold in_int64, min_int64, max_int64; lia)]);
        (lia || (apply Z.leb_le; lia) || (apply Z.leb_gt; lia)).
    + simpl. destruct (Z.ltb_spec streak 0); [lia|].
      rewrite int_add_small by (unfold in_int64, min_int64, max_int64; lia).
      destruct prev as [[| |]|]; simpl in Hs; lia.
    + destruct (Z.ltb_spec streak 0); [lia|].
      rewrite int_add_small by (unfold in_int64, min_int64, max_int64; lia). lia.
  - assert (int_add streak (-1) = streak - 1) as ->.
    { rewrite int_add_small; [lia|]. unfold in_int64, min_int64, max_int64. lia. }
    destruct (Z.ltb_spec 0 streak).
    + cbn. rewrite (IH (Some Low)); cbn [fst snd]; [|by left|lia].
      f_equal. destruct prev as [[| |]|]; simpl in Hs; try lia; by rewrite andb_true_r.
    + destruct (Z.leb_spec (streak - 1) (-2)); rewrite (IH (Some Low)); cbn [fst snd]; try lia.
      * destruct prev as [[| |]|]; simpl in Hs; try lia. by rewrite andb_false_r.
      * by right.
      * f_equal. destruct prev as [[| |]|]; simpl in Hs; try lia;
          destruct Hs as [?|[? ->]] || destruct Hs as [? ->]; try lia; by destruct active.
      * left. destruct prev as [[| |]|]; simpl in Hs; lia.
  - rewrite (IH prev); cbn [fst snd]; [done|done|lia].
Qed.

(** Pressure follows the last two decisive samples.  From a fresh sampler,
    over fewer than 2^63 samples, a resource is under pressure exactly when
    its last two decisive samples (high or low; samples in between are
    ignored) were both high, or it already was and they were not both low:
    one transient spike never raises it, one dip never clears it. *)
Theorem hysteresis_spec ls :
  Z.of_nat (length ls) <= max_int64 ->
  fst (fold_left hyst_step ls (false, 0)) = settled_state None false ls.
Proof. intros H. apply hyst_refines; simpl; [done|lia]. Qed.

(** The reported pressure is "ok" exactly when no resource is hot. *)
Lemma pressure_ok mem load steal :
  pressure_of mem load steal = "ok"%string <-> mem = false /\ load = false /\ steal = false.
Proof. destruct mem, load, steal; vm_compute; intuition discriminate. Qed.

(** A sample in between two highs does not reset the count: pressure rises
    although the two high samples are not consecutive. *)
Theorem mid_sample_keeps_streak :
  fst (fold_left hyst_step [High; Mid; High] (false, 0)) = true
  /\ fst (fold_left hyst_step [High; Low; High] (false, 0)) = false.
Proof. done. Qed.

(** ** Sampling *)

(** Resource sampling is rate limited: a snapshot less than 30 s after the
    last sample reports the stored resource figures and keeps the sampler,
    whatever the system would report now; the heartbeat counters it carries
    are always fresh and clamped to the protocol's limits. *)
Theorem snapshot_rate_limited now rd path deferred seconds s :
  lastSample s <> zero_time -> lastSample s <= now < lastSample s + healthSampleInterval ->
  let '(h, s') := snapshot now rd path deferred seconds s in
  s' = s /\ MemUsedPct h = MemUsedPct (resource s) /\ Pressure h = Pressure (resource s)
  /\ Path h = path /\ ConsecutiveFailures h = Z.min (failures s) 1000000
  /\ DeferredJobs h = Z.min deferred 1000000.
Proof.
  intros Hz Ht. unfold snapshot, healthSampleInterval in *.
  assert (time_sub now (lastSample s) = now - lastSample s) as ->.
  { unfold time_sub. apply sat64_small. unfold in_int64, min_int64, max_int64, second in *. lia. }
  rewrite (proj2 (Z.eqb_neq _ _) Hz : is_zero_time (lastSample s) = false).
  rewrite (proj2 (Z.leb_gt (30 * second) _)) by (unfold second in *; lia). cbn [orb].
  unfold clamp_int. simpl. split_and!; try done.
  - destruct (Z.ltb_spec 1000000 (failures s)); lia.
  - destruct (Z.ltb_spec 1000000 deferred); lia.
Qed.

Definition demo_sampler : healthSampler :=
  mkSampler 0 (unix_milli 1000) zeroHealth f0 f0 0 3 false false false 0 0 0.
Definition demo_readings : readings := mkReadings 4 10 (Some (fz 95)) None None None.

Lemma hysteresis_spec_witness :
  fst (fold_left hyst_step [High; Low; High; High; Low; Mid; Low] (false, 0))
  = settled_state None false [High; Low; High; High; Low; Mid; Low].
Proof. apply hysteresis_spec. vm_compute. discriminate. Defined.

Lemma snapshot_rate_limited_witness :
  let '(h, s') := snapshot (unix_milli 2000) demo_readings "ok" 5 (fun _ => f0) demo_sampler in
  s' = demo_sampler /\ MemUsedPct h = f0 /\ Pressure h = ""%string
  /\ Path h = "ok"%string /\ ConsecutiveFailures h = Z.min 3 1000000
  /\ DeferredJobs h = Z.min 5 1000000.
Proof.
  apply (snapshot_rate_limited (unix_milli 2000) demo_readings "ok" 5 (fun _ => f0) demo_sampler);
    vm_compute; intuition discriminate.
Defined.

