(* ===== verification/PathHealth.v ===== *)
(** * The rolling path-health window

    [internal/agent/pathhealth.go]: distinguishes one failing target from a
    broadly failing network path. *)

From Stdlib Require Import ZArith Lia List Bool Ascii String SpecFloat.
From stdpp Require Import base tactics gmap strings list fin_sets.
From S2P Require Import Prelude Wire.

Definition pathHealthWindow : duration := 60 * second.
Definition pathMinTargets : nat := 5.
(** The float64 nearest to 0.70. *)
Definition pathNetworkRatio : float64 := S754_finite false 6305039478318694 (-53).
Definition pathMaxTrackedHosts : nat := 4096.

(** ** Text classification *)

(** [strings.ToLower], on bytes, as far as ASCII output is concerned: ASCII
    letters, and the two non-ASCII code points whose lower case is an ASCII
    letter (U+0130 and U+212A). *)
Fixpoint to_lower_bytes (l : list ascii) : list ascii :=
  match l with
  | [] => []
  | "196"%char :: (("176"%char :: rest) as tl) => "i"%char :: to_lower_bytes rest
  | "226"%char :: (("132"%char :: "170"%char :: rest) as tl) => "k"%char :: to_lower_bytes rest
  | c :: rest =>
      let n := N_of_ascii c in
      (if (65 <=? n)%N && (n <=? 90)%N then ascii_of_N (n + 32) else c) :: to_lower_bytes rest
  end.

Definition to_lower (s : string) : list ascii := to_lower_bytes (list_ascii_of_string s).

Fixpoint has_prefix (p l : list ascii) : bool :=
  match p, l with
  | [], _ => true
  | a :: p', b :: l' => Ascii.eqb a b && has_prefix p' l'
  | _ :: _, [] => false
  end.

(** [strings.Contains]. *)
Fixpoint contains (l p : list ascii) : bool :=
  has_prefix p l || match l with [] => false | _ :: l' => contains l' p end.

Definition network_markers : list string :=
  ["timeout"; "deadline exceeded"; "connection refused"; "connection reset"; "no such host";
   "network is unreachable"; "network is down"; "i/o timeout"; "dial tcp"; "dial udp";
   "connect: "; "read: "; "write: "; "eof"]%string.

Definition isNetworkError (errText errCode : string) : bool :=
  if bool_decide (errCode = "invalid_params"%string) || bool_decide (errText = ""%string) then false
  else existsb (fun m => contains (to_lower errText) (list_ascii_of_string m)) network_markers.

(** ** The window *)

Record pathHealth : Type := mkPath {
  windowStart : time;
  ph_total : Z;
  networkErrors : Z;
  targets : gset string
}.

Definition newPathHealth : pathHealth := mkPath zero_time 0 0 ∅.

Definition resetLocked (now : time) (p : pathHealth) : pathHealth :=
  if is_zero_time (windowStart p) || (pathHealthWindow <=? time_sub now (windowStart p))
  then mkPath now 0 0 ∅ else p.

Definition record (target errText errCode : string) (at_ : time) (p : pathHealth) : pathHealth :=
  if bool_decide (errCode = "invalid_params"%string) then p
  else
    let p := resetLocked at_ p in
    mkPath (windowStart p) (ph_total p + 1)
      (if isNetworkError errText errCode then networkErrors p + 1 else networkErrors p)
      (if negb (bool_decide (target = ""%string)) && (size (targets p) <? pathMaxTrackedHosts)%nat
       then {[target]} ∪ targets p else targets p).

Definition state (now : time) (p : pathHealth) : string * pathHealth :=
  let p := resetLocked now p in
  (if (pathMinTargets <=? size (targets p))%nat && (0 <? ph_total p)
      && SFleb pathNetworkRatio (SFdiv 53 1024 (float_of_Z (networkErrors p)) (float_of_Z (ph_total p)))
   then "degraded" else "ok"%string, p).

(** ** The window against the checks it covers *)

Record check_event : Type := mkCheck {
  ce_target : string;
  ce_error : string;
  ce_code : string;
  ce_at : time
}.

Definition record_event (p : pathHealth) (e : check_event) : pathHealth :=
  record (ce_target e) (ce_error e) (ce_code e) (ce_at e) p.

Definition counted (e : check_event) : bool := negb (bool_decide (ce_code e = "invalid_params"%string)).

Definition event_targets (es : list check_event) : gset string :=
  list_to_set (List.filter (fun t => negb (bool_decide (t = ""%string))) (ce_target <$> es)).

Definition event_errors (es : list check_event) : Z :=
  Z.of_nat (length (List.filter (fun e => isNetworkError (ce_error e) (ce_code e)) es)).

(** [p] summarises the checks [es] of its window. *)
Record summarises (p : pathHealth) (es : list check_event) : Prop := {
  su_counted : Forall (fun e => counted e = true) es;
  su_total : ph_total p = Z.of_nat (length es);
  su_errors : networkErrors p = event_errors es;
  su_targets : targets p ⊆ event_targets es;
  su_targets_full : (size (targets p) < pathMaxTrackedHosts)%nat -> targets p = event_targets es;
  su_bound : (size (targets p) <= pathMaxTrackedHosts)%nat;
  su_window : windowStart p = zero_time \/ Forall (fun e => windowStart p <= ce_at e) es
}.

Lemma summarises_empty t : summarises (mkPath t 0 0 ∅) [].
Proof.
  split; cbn [targets ph_total networkErrors windowStart]; try done.
  - rewrite size_empty. unfold pathMaxTrackedHosts. lia.
  - by right.
Qed.

Lemma event_targets_snoc es e :
  event_targets (es ++ [e]) =
    (if bool_decide (ce_target e = ""%string) then ∅ else {[ce_target e]}) ∪ event_targets es.
Proof.
  unfold event_targets. rewrite fmap_app, List.filter_app, list_to_set_app_L. simpl.
  destruct (bool_decide _); simpl; [by rewrite (right_id_L ∅ (∪)), (left_id_L ∅ (∪))|].
  by rewrite (right_id_L ∅ (∪)), (comm_L (∪)).
Qed.

Lemma event_errors_snoc es e :
  event_errors (es ++ [e]) =
    event_errors es + (if isNetworkError (ce_error e) (ce_code e) then 1 else 0).
Proof.
  unfold event_errors. rewrite List.filter_app, length_app. simpl.
  destruct (isNetworkError _ _); simpl; lia.
Qed.

(** One more check inside the same window. *)
Lemma record_same_window p es e :
  summarises p es -> counted e = true -> resetLocked (ce_at e) p = p ->
  windowStart p <= ce_at e -> summarises (record_event p e) (es ++ [e]).
Proof.
  intros [H1 H2 H3 H4 H5 H6 H7] Hc Hr Hw. unfold record_event, record.
  pose proof Hc as Hc'. unfold counted in Hc'. apply negb_true_iff in Hc'. rewrite Hc', Hr.
  split; simpl.
  - apply Forall_app. by repeat constructor.
  - rewrite length_app. simpl. lia.
  - rewrite event_errors_snoc, H3. destruct (isNetworkError _ _); lia.
  - rewrite event_targets_snoc. destruct (bool_decide (ce_target e = ""%string)); simpl; [by rewrite (left_id_L ∅ (∪))|].
    destruct (_ <? _)%nat; [by apply union_mono_l|etrans; [exact H4|apply union_subseteq_r]].
  - rewrite event_targets_snoc. destruct (bool_decide (ce_target e = ""%string)); simpl; [by rewrite (left_id_L ∅ (∪))|].
    destruct (Nat.ltb_spec (size (targets p)) pathMaxTrackedHosts).
    + intros _. by rewrite H5.
    + intros; lia.
  - destruct (negb _); simpl; [|done].
    destruct (Nat.ltb_spec (size (targets p)) pathMaxTrackedHosts) as [Hlt|]; [|done].
    destruct (decide (ce_target e ∈ targets p)) as [e0|e0].
    + assert ({[ce_target e]} ∪ targets p = targets p) as -> by (apply subseteq_union_1_L, singleton_subseteq_l, e0). lia.
    + rewrite size_union, size_singleton by (by apply disjoint_singleton_l). lia.
  - destruct H7 as [H7|H7]; [by left|]. right. apply Forall_app. by repeat constructor.
Qed.

(** A check that opens a new window. *)
Lemma record_new_window p e :
  counted e = true -> resetLocked (ce_at e) p = mkPath (ce_at e) 0 0 ∅ ->
  summarises (record_event p e) [e].
Proof.
  intros Hc Hr. set (p0 := mkPath (ce_at e) 0 0 ∅) in *.
  assert (resetLocked (ce_at e) p0 = p0) as E0.
  { unfold resetLocked, p0. simpl. by destruct (_ || _). }
  assert (record_event p e = record_event p0 e) as ->.
  { unfold record_event, record. rewrite Hr, E0. unfold counted in Hc.
    by destruct (bool_decide (ce_code e = _)). }
  apply (record_same_window p0 []); [apply summarises_empty|done|exact E0|simpl; lia].
Qed.

Lemma resetLocked_cases now p : resetLocked now p = p \/ resetLocked now p = mkPath now 0 0 ∅.
Proof. unfold resetLocked. destruct (_ || _); auto. Qed.

(** The window stays a faithful summary: after any sequence of checks in
    time order, the counters are exactly those of some of the checks
    recorded, all of them real (not misconfigured) and inside the window,
    with never more than [pathMaxTrackedHosts] tracked targets. *)
Theorem path_window_summarises es :
  Forall (fun e => zero_time < ce_at e) es ->
  (forall i j a b, (i <= j)%nat -> es !! i = Some a -> es !! j = Some b -> ce_at a <= ce_at b) ->
  exists win, summarises (fold_left record_event es newPathHealth) win
    /\ sublist win es.
Proof.
  intros Hpos Hord.
  assert (exists win, summarises (fold_left record_event es newPathHealth) win /\ sublist win es
    /\ (windowStart (fold_left record_event es newPathHealth) = zero_time
        \/ exists e, e ∈ es /\ windowStart (fold_left record_event es newPathHealth) = ce_at e))
    as (win & ? & ? & _); [|eauto].
  induction es as [|e es IH] using rev_ind.
  - exists []. split_and!; [apply summarises_empty|constructor|by left].
  - apply Forall_app in Hpos as [Hpos He]. apply Forall_cons in He as [He _]. cbn beta in He.
    destruct IH as (win & Hsum & Hsub & Hw); [done| |].
    { intros i j a b Hij Ha Hb. apply (Hord i j a b Hij); by apply lookup_app_l_Some. }
    rewrite fold_left_app. cbn [fold_left].
    set (p := fold_left record_event es newPathHealth) in *.
    destruct (counted e) eqn:Hc.
    + destruct (resetLocked_cases (ce_at e) p) as [E|E].
      * exists (win ++ [e]). split_and!.
        -- apply record_same_window; [done|done|done|].
           destruct Hw as [->|(x & Hx & ->)]; [lia|].
           apply list_elem_of_lookup in Hx as [i Hi].
           apply (Hord i (length es)); [by apply lookup_lt_Some in Hi; lia| |].
           ++ by apply lookup_app_l_Some.
           ++ by apply list_lookup_middle.
        -- by apply sublist_app.
        -- unfold record_event, record. unfold counted in Hc. apply negb_true_iff in Hc.
           rewrite Hc, E. simpl. destruct Hw as [?|(x & ? & ?)]; [by left|].
           right. exists x. split; [apply elem_of_app; by left|done].
      * exists [e]. split_and!.
        -- by apply record_new_window.
        -- by apply sublist_inserts_l.
        -- unfold record_event, record. unfold counted in Hc. apply negb_true_iff in Hc.
           rewrite Hc, E. simpl. right. exists e. split; [apply elem_of_app; right; left|done].
    + assert (record_event p e = p) as ->.
      { unfold record_event, record. unfold counted in Hc. apply negb_false_iff in Hc. by rewrite Hc. }
      exists win. split_and!; [done|by apply sublist_inserts_r|].
      destruct Hw as [?|(x & ? & ?)]; [by left|]. right. exists x.
      split; [apply elem_of_app; by left|done].
Qed.

(** One failing target is never a failing path: "degraded" needs checks
    against at least five distinct targets inside the window, none of them
    a misconfigured probe. *)
Theorem degraded_needs_many_targets p es now :
  summarises p es -> fst (state now p) = "degraded"%string ->
  (pathMinTargets <= size (event_targets es))%nat /\ es <> []
  /\ Forall (fun e => ce_code e <> "invalid_params"%string) es.
Proof.
  intros [H1 H2 H3 H4 H5 H6 H7]. unfold state.
  destruct (resetLocked_cases now p) as [->| ->]; cbn [fst targets ph_total networkErrors].
  - destruct (Nat.leb_spec pathMinTargets (size (targets p))) as [Hle|]; [|done].
    intros _. apply subseteq_size in H4. split_and!; [lia| |].
    + intros ->. assert (size (event_targets []) = 0)%nat as E0 by reflexivity. rewrite E0 in H4.
      unfold pathMinTargets in *. lia.
    + eapply Forall_impl; [exact H1|]. unfold counted. intros e He.
      apply negb_true_iff in He. by apply bool_decide_eq_false in He.
  - by rewrite size_empty.
Qed.

(** Misconfigured probes carry no information about the path. *)
Theorem invalid_params_ignored target err at_ p :
  record target err ErrorCodeInvalidParams at_ p = p /\ isNetworkError err ErrorCodeInvalidParams = false.
Proof. done. Qed.

(** ** Witnesses *)

Definition demo_checks : list check_event :=
  [mkCheck "a" "dial tcp: i/o timeout" "" (unix_milli 1); mkCheck "b" "TIMEOUT" "" (unix_milli 2);
   mkCheck "c" "connection refused" "" (unix_milli 3); mkCheck "d" "EOF" "" (unix_milli 4);
   mkCheck "e" "" "" (unix_milli 5); mkCheck "f" "bad" "invalid_params" (unix_milli 6)].

Lemma demo_checks_order i j a b :
  (i <= j)%nat -> demo_checks !! i = Some a -> demo_checks !! j = Some b -> ce_at a <= ce_at b.
Proof.
  intros Hij Ha Hb. 
  assert (forall k c, demo_checks !! k = Some c -> ce_at c = unix_milli (Z.of_nat k + 1)) as H.
  { intros k c Hc. do 6 (destruct k as [|k]; [by injection Hc as <-|]). done. }
  rewrite (H _ _ Ha), (H _ _ Hb). unfold unix_milli, millisecond. lia.
Qed.

Lemma path_window_summarises_witness :
  exists win, summarises (fold_left record_event demo_checks newPathHealth) win /\ sublist win demo_checks.
Proof.
  apply (path_window_summarises demo_checks); [|exact demo_checks_order].
  repeat constructor.
Defined.

Lemma demo_summary : summarises (fold_left record_event demo_checks newPathHealth) (take 5 demo_checks).
Proof.
  split; try (vm_compute; reflexivity).
  - repeat constructor.
  - vm_compute. set_solver.
  - vm_compute. lia.
  - right. repeat constructor; vm_compute; discriminate.
Qed.

Lemma degraded_needs_many_targets_witness :
  fst (state (unix_milli 10) (fold_left record_event demo_checks newPathHealth)) = "degraded"%string
  /\ (pathMinTargets <= size (event_targets (take 5 demo_checks)))%nat /\ take 5 demo_checks <> []
  /\ Forall (fun e => ce_code e <> "invalid_params"%string) (take 5 demo_checks).
Proof.
  split; [vm_compute; reflexivity|].
  apply (degraded_needs_many_targets _ _ (unix_milli 10) demo_summary). vm_compute. reflexivity.
Defined.
