(* ===== verification/DestGate.v ===== *)
(** * The destination gate

    [internal/destgate/destgate.go]: a node-wide minimum spacing between
    connection attempts at one destination.  One lock section of [Wait] is
    one atomic step; between two of them other goroutines may act. *)

From Stdlib Require Import ZArith Lia List Bool Ascii String Sorted.
From stdpp Require Import base tactics gmap strings list fin_maps sorting relations.
From S2P Require Import Prelude.

Definition maxDestinations : nat := 4096.
#[global] Arguments maxDestinations : simpl never.

(** The package's variables under [mu]. *)
Record gate : Type := mkGate {
  last : gmap string time;
  floor : duration;
  maxWait : duration
}.

Definition emptyGate : gate := mkGate ∅ 0 0.

Definition Configure (floorD maxWaitD : duration) (g : gate) : gate := mkGate (last g) floorD maxWaitD.

Definition at_le (a b : string * time) : Prop := snd a <= snd b.
#[export] Instance at_le_dec : RelDecision at_le.
Proof. intros a b. unfold at_le. apply _. Defined.

(** [evictOldestLocked]; [iter] is the map in some iteration order. *)
Definition evict_count (n : nat) : nat := let r := (n / 4)%nat in if (r <? 1)%nat then 1%nat else r.

Definition evictOldestLocked (iter : list (string * time)) (m : gmap string time) : gmap string time :=
  let entries := merge_sort at_le iter in
  fold_left (fun m e => delete (fst e) m) (take (evict_count (length entries)) entries) m.

Inductive attempt : Type :=
| Passed                    (** no gating: empty destination or no floor *)
| Granted
| Busy (remaining : duration).

(** One pass of [Wait]'s loop under the lock, at clock reading [now]. *)
Definition try_grant (iter : list (string * time)) (now : time) (dest : string) (g : gate)
    : attempt * gate :=
  if bool_decide (dest = ""%string) || (floor g <=? 0) then (Passed, g)
  else
    match last g !! dest with
    | Some prev =>
        if floor g <=? time_sub now prev
        then (Granted, mkGate (<[dest := now]> (last g)) (floor g) (maxWait g))
        else (Busy (int_add (floor g) (- time_sub now prev)), g)
    | None =>
        let m := if (maxDestinations <=? size (last g))%nat
                 then evictOldestLocked iter (last g) else last g in
        (Granted, mkGate (<[dest := now]> m) (floor g) (maxWait g))
    end.

(** How a call of [Wait] ends, and when. *)
Inductive wait_result : Type :=
| WaitOk (at_ : time)
| WaitTimeout (at_ : time).

(** The loop of [Wait].  [others i t] is what other goroutines did to the gate
    before the pass at time [t]; timers fire exactly on time, and when the timer
    and the deadline are due together [tie] decides. *)
Fixpoint wait_loop (fuel : nat) (others : nat -> time -> gate -> gate)
    (iter : nat -> gate -> list (string * time)) (tie : bool)
    (deadline : option time) (now : time) (dest : string) (g : gate) : option (wait_result * gate) :=
  match fuel with
  | O => None
  | S fuel' =>
      let g := others fuel now g in
      match try_grant (iter fuel g) now dest g with
      | (Busy remaining, g') =>
          let wake := now + remaining in
          match deadline with
          | Some dl =>
              if (wake <? dl) || ((wake =? dl) && tie)
              then wait_loop fuel' others iter tie deadline wake dest g'
              else Some (WaitTimeout dl, g')
          | None => wait_loop fuel' others iter tie deadline wake dest g'
          end
      | (_, g') => Some (WaitOk now, g')
      end
  end.

(** [Wait], entered at [now] with the configured [maxWait] and no earlier
    deadline in the caller's context. *)
Definition Wait (fuel : nat) others iter tie (now : time) (dest : string) (g : gate) :=
  wait_loop fuel others iter tie
    (if 0 <? maxWait g then Some (now + maxWait g) else None) now dest g.

(** ** Bounded memory *)

Definition iterates_gate (iter : list (string * time)) (g : gate) : Prop := iter ≡ₚ map_to_list (last g).

Lemma fold_delete_lookup (es : list (string * time)) (m : gmap string time) k :
  fold_left (fun m e => delete (fst e) m) es m !! k = if decide (k ∈ es.*1) then None else m !! k.
Proof.
  revert m. induction es as [|e es IH]; intros m; cbn [fold_left fmap list_fmap].
  - by rewrite decide_False by apply not_elem_of_nil.
  - rewrite IH. destruct (decide (k ∈ es.*1)).
    + by rewrite decide_True by (by right).
    + destruct (decide (k = fst e)) as [->|Hne].
      * by rewrite lookup_delete_eq, decide_True by left.
      * rewrite lookup_delete_ne, decide_False by (try rewrite elem_of_cons; naive_solver). done.
Qed.

Lemma evict_count_pos n : (1 <= evict_count n)%nat.
Proof. unfold evict_count. destruct (Nat.ltb_spec (n / 4) 1); lia. Qed.

Lemma evict_smaller iter g :
  iterates_gate iter g -> (0 < size (last g))%nat ->
  (size (evictOldestLocked iter (last g)) < size (last g))%nat.
Proof.
  intros Hi Hs. unfold evictOldestLocked. set (es := merge_sort at_le iter).
  assert (es ≡ₚ map_to_list (last g)) as He by (unfold es; by rewrite merge_sort_Permutation).
  assert (length es = size (last g)) as Hl by (rewrite He; apply length_map_to_list).
  pose proof (evict_count_pos (length es)) as Hc.
  destruct es as [|[k t] es']; [simpl in Hl; lia|].
  apply map_subset_size, map_subset_alt. split.
  - apply map_subseteq_spec. intros i x. rewrite fold_delete_lookup. by case_decide.
  - exists k. split.
    + rewrite fold_delete_lookup, decide_True; [done|].
      destruct (evict_count _) as [|n]; [lia|]. simpl. left.
    + exists t. apply elem_of_map_to_list. rewrite <- He. left.
Qed.

Lemma try_grant_size iter now dest g :
  iterates_gate iter g -> (size (last g) <= maxDestinations)%nat ->
  (size (last (snd (try_grant iter now dest g))) <= maxDestinations)%nat.
Proof.
  intros Hi Hs. unfold try_grant. destruct (_ || _); [done|].
  destruct (last g !! dest) as [prev|] eqn:E.
  - destruct (_ <=? _); [|done]. cbn [snd last]. rewrite map_size_insert_Some by eauto. done.
  - cbn [snd last]. destruct (Nat.leb_spec maxDestinations (size (last g))).
    + assert (size (evictOldestLocked iter (last g)) < size (last g))%nat as Hlt.
      { apply evict_smaller; [done|unfold maxDestinations in *; lia]. }
      rewrite map_size_insert. destruct (evictOldestLocked _ _ !! dest); simpl; lia.
    + rewrite map_size_insert_None by done. lia.
Qed.

(** ** Grants and their spacing *)

(** One lock section of any goroutine: what it asked and what it got. *)
Inductive gate_step (g : gate) : (time * string * attempt) -> gate -> Prop :=
| step_try iter now dest :
    iterates_gate iter g ->
    gate_step g (now, dest, fst (try_grant iter now dest g)) (snd (try_grant iter now dest g)).

(** Lock sections in the order they take the lock. *)
Inductive gate_trace : gate -> list (time * string * attempt) -> gate -> Prop :=
| trace_nil g : gate_trace g [] g
| trace_cons g e g1 es g2 : gate_step g e g1 -> gate_trace g1 es g2 -> gate_trace g (e :: es) g2.

Definition reading (e : time * string * attempt) : time := fst (fst e).
Definition asked (e : time * string * attempt) : string := snd (fst e).

(** The distinct destinations asked for. *)
Definition destinations (es : list (time * string * attempt)) : gset string := list_to_set (asked <$> es) ∖ {[""%string]}.

(** Those and the ones already recorded fit in the table: eviction never runs. *)
Definition no_eviction (g : gate) (es : list (time * string * attempt)) : Prop :=
  (size (dom (last g) ∪ destinations es) <= maxDestinations)%nat.

Lemma granted_records g iter (now : time) dest :
  fst (try_grant iter now dest g) = Granted -> last (snd (try_grant iter now dest g)) !! dest = Some now.
Proof.
  unfold try_grant. destruct (_ || _); [done|].
  destruct (last g !! dest); [destruct (_ <=? _); [|done]|]; intros _; apply lookup_insert_eq.
Qed.

Lemma try_grant_floor g iter now dest : floor (snd (try_grant iter now dest g)) = floor g.
Proof.
  unfold try_grant. destruct (_ || _); [done|]. destruct (last g !! dest); [|done].
  by destruct (_ <=? _).
Qed.

Lemma try_grant_keeps g iter now dest d (t : time) :
  (last g !! dest = None -> dest <> ""%string -> (size (last g) < maxDestinations)%nat) -> last g !! d = Some t ->
  (d = dest -> fst (try_grant iter now dest g) <> Granted) ->
  last (snd (try_grant iter now dest g)) !! d = Some t.
Proof.
  intros Hs Hd Hne. unfold try_grant in *. case_bool_decide; [done|]. destruct (_ || _); [done|].
  destruct (last g !! dest) as [prev|] eqn:E.
  - destruct (_ <=? _); [|done]. simpl in *. rewrite lookup_insert_ne; [done|]. intros ->. by apply Hne.
  - specialize (Hs eq_refl ltac:(done)). cbn [snd last]. destruct (Nat.leb_spec maxDestinations (size (last g))); [lia|].
    rewrite lookup_insert_ne; [done|]. intros ->. congruence.
Qed.

Lemma evict_subseteq iter (m : gmap string time) : dom (evictOldestLocked iter m) ⊆ dom m.
Proof.
  unfold evictOldestLocked. intros k. rewrite !elem_of_dom, fold_delete_lookup. case_decide; [by intros []|done].
Qed.

Lemma try_grant_dom iter now dest g :
  dom (last (snd (try_grant iter now dest g))) ⊆ dom (last g) ∪ ({[dest]} ∖ {[""%string]}).
Proof.
  unfold try_grant. case_bool_decide; cbn [orb snd]; [set_solver|]. destruct (_ <=? _); cbn [snd]; [set_solver|].
  destruct (last g !! dest) as [prev|]; [destruct (_ <=? _)|]; cbn [snd last]; rewrite ?dom_insert; [set_solver..|].
  destruct (_ <=? _)%nat; [|set_solver]. pose proof (evict_subseteq iter (last g)). set_solver.
Qed.

(** The room left for one lock section, and for those after it. *)
Lemma no_eviction_room g now dest a es :
  no_eviction g ((now, dest, a) :: es) -> last g !! dest = None -> dest <> ""%string -> (size (last g) < maxDestinations)%nat.
Proof.
  unfold no_eviction, destinations. cbn. intros H E Hne. rewrite <- size_dom.
  assert (size ({[dest]} ∪ dom (last g)) <= maxDestinations)%nat as Hs by (etrans; [|exact H]; apply subseteq_size; set_solver).
  rewrite size_union, size_singleton in Hs by (apply not_elem_of_dom in E; set_solver). lia.
Qed.

Lemma no_eviction_next g iter now dest a es :
  no_eviction g ((now, dest, a) :: es) -> no_eviction (snd (try_grant iter now dest g)) es.
Proof.
  unfold no_eviction, destinations. cbn. intros H. etrans; [|exact H]. apply subseteq_size.
  pose proof (try_grant_dom iter now dest g). set_solver.
Qed.

(** A recorded grant holds the destination until the floor has passed. *)
Lemma spacing_after g es g' dest (t : time) :
  gate_trace g es g' -> no_eviction g es -> dest <> ""%string -> 0 < floor g ->
  last g !! dest = Some t ->
  forall i e, es !! i = Some e -> asked e = dest -> snd e = Granted ->
  (forall j e', (j < i)%nat -> es !! j = Some e' -> asked e' = dest -> snd e' <> Granted) ->
  t + floor g <= reading e.
Proof.
  intros Htr. induction Htr as [g|g e0 g1 es g2 Hst Htr IH]; intros Hev Hne Hf Hl i e Hi Ha Hg Hfirst;
    [done|].
  destruct Hst as [iter now d Hit]. destruct i as [|i].
  - injection Hi as <-. unfold asked, reading in *. cbn [fst snd] in *. subst d.
    unfold try_grant in Hg. rewrite bool_decide_eq_false_2 in Hg by done.
    rewrite (proj2 (Z.leb_gt _ _)) in Hg by lia. cbn [orb] in Hg. rewrite Hl in Hg.
    destruct (Z.leb_spec (floor g) (time_sub now t)) as [Hle|]; [|done].
    unfold time_sub, sat64, min_int64, max_int64 in Hle. lia.
  - rewrite <- (try_grant_floor g iter now d). eapply (IH) with (i := i) (e := e); try done.
    + by eapply no_eviction_next.
    + by rewrite try_grant_floor.
    + apply try_grant_keeps; [by eapply no_eviction_room|done|]. intros <-.
      exact (Hfirst 0%nat (now, dest, _) ltac:(lia) eq_refl eq_refl).
    + intros j e' Hj He'. apply (Hfirst (S j)); [lia|done].
Qed.

(** C29: Grants are spaced.  In any interleaving of lock sections, however
    many, whose distinct destinations fit in the table beside those already
    there, two successive grants for the same destination are at least the
    floor apart: whichever probes, goroutines or accounts asked. *)
Theorem grants_spaced g es g' i j ei ej :
  gate_trace g es g' -> no_eviction g es -> 0 < floor g ->
  es !! i = Some ei -> es !! j = Some ej -> (i < j)%nat ->
  asked ei = asked ej -> asked ei <> ""%string -> snd ei = Granted -> snd ej = Granted ->
  (forall k ek, (i < k < j)%nat -> es !! k = Some ek -> asked ek = asked ei -> snd ek <> Granted) ->
  reading ei + floor g <= reading ej.
Proof.
  intros Htr. revert i j. induction Htr as [g|g e0 g1 es g2 Hst Htr IH]; intros i j Hev Hf Hi Hj Hij Hs Hne Gi Gj Hmid;
    [done|].
  destruct Hst as [iter now d Hit]. destruct j as [|j]; [lia|]. destruct i as [|i].
  - injection Hi as <-. simpl in Hj. unfold asked, reading in *. cbn [fst snd] in *.
    rewrite <- (try_grant_floor g iter now d).
    eapply (spacing_after _ es g2 d now) with (i := j) (e := ej); try done.
    + by eapply no_eviction_next.
    + by rewrite try_grant_floor.
    + by apply granted_records.
    + intros k e' Hk He'. apply (Hmid (S k)); [lia|done].
  - rewrite <- (try_grant_floor g iter now d). apply (IH i j); try done; try lia.
    + by eapply no_eviction_next.
    + by rewrite try_grant_floor.
    + intros k ek Hk. apply (Hmid (S k)). lia.
Qed.

(** The gate's memory is bounded: whatever destinations are asked for, in
    whatever order, the table never exceeds [maxDestinations]. *)
Theorem gate_bounded g es g' :
  gate_trace g es g' -> (size (last g) <= maxDestinations)%nat -> (size (last g') <= maxDestinations)%nat.
Proof.
  induction 1 as [g|g e0 g1 es g2 Hst Htr IH]; intros Hs; [done|]. apply IH.
  destruct Hst. by apply try_grant_size.
Qed.

(** ** Waiting is bounded *)

(** Nobody recorded a grant for [dest] later than [t]: readings are taken
    under the lock. *)
Definition recorded (dest : string) (t : time) (g : gate) : Prop :=
  in_int64 (floor g) /\ forall prev : time, last g !! dest = Some prev -> prev <= t.

Lemma try_grant_busy iter now dest g r g' :
  try_grant iter now dest g = (Busy r, g') -> recorded dest now g -> 1 <= r /\ g' = g.
Proof.
  unfold try_grant, recorded. destruct (_ || _); [done|].
  destruct (last g !! dest) as [prev|]; [|done].
  destruct (Z.leb_spec (floor g) (time_sub now prev)) as [|Hlt]; [done|]. intros [= <- <-] [Hf Hp].
  specialize (Hp prev eq_refl). split; [|done].
  unfold time_sub, sat64, in_int64, min_int64, max_int64 in *.
  rewrite int_add_small; unfold in_int64, min_int64, max_int64; lia.
Qed.

Lemma recorded_later dest t t' g : t <= t' -> recorded dest t g -> recorded dest t' g.
Proof. intros Ht [Hf Hp]. split; [done|]. intros prev Hprev. specialize (Hp prev Hprev). lia. Qed.

(** C39: A call of [Wait] never outlives its budget.  With a positive [maxWait],
    whatever other goroutines do to the gate between its passes (as long as
    they record grants with the clock readings they took), the call returns no
    later than [maxWait] after it started; a fuel of one pass per nanosecond
    of budget is enough, so it always returns. *)
Theorem wait_bounded others iter tie now dest g :
  0 < maxWait g -> recorded dest now g ->
  (forall i t x, recorded dest t x -> recorded dest t (others i t x)) ->
  exists r g', Wait (S (Z.to_nat (maxWait g))) others iter tie now dest g = Some (r, g')
    /\ match r with WaitOk t | WaitTimeout t => now <= t <= now + maxWait g end.
Proof.
  intros Hm Hg Ho. unfold Wait. rewrite (proj2 (Z.ltb_lt _ _)) by lia.
  set (dl := now + maxWait g) in *.
  assert (forall fuel t x, recorded dest t x -> now <= t <= dl -> dl - t < Z.of_nat fuel ->
    exists r g', wait_loop fuel others iter tie (Some dl) t dest x = Some (r, g')
      /\ match r with WaitOk t' | WaitTimeout t' => now <= t' <= dl end) as H.
  { induction fuel as [|fuel IH]; intros t x Hx Ht Hfuel; [lia|]. cbn [wait_loop].
    apply (Ho (S fuel)) in Hx.
    destruct (try_grant _ _ _ _) as [[| |r] g'] eqn:E; try by eexists _, _.
    destruct (try_grant_busy _ _ _ _ _ _ E Hx) as [Hr ->].
    destruct ((t + r <? dl) || ((t + r =? dl) && tie)) eqn:Ew.
    - apply IH; [by eapply recorded_later, Hx; lia| |]; zify_bool; lia.
    - eexists _, _. split; [done|]. cbn. lia. }
  apply H; [done|unfold dl; lia..].
Qed.

(** An uncontended caller waits exactly as long as the floor requires. *)
Theorem wait_uncontended iter tie now dest g (prev : time) fuel :
  dest <> ""%string -> 0 < floor g <= max_int64 ->
  last g !! dest = Some prev -> 0 <= now - prev < floor g ->
  maxWait g = 0 \/ prev + floor g < now + maxWait g ->
  exists g', Wait (S (S fuel)) (fun _ _ x => x) iter tie now dest g = Some (WaitOk (prev + floor g), g')
    /\ last g' !! dest = Some (prev + floor g).
Proof.
  intros Hd Hf Hl Hn Hw. unfold Wait. cbn [wait_loop].
  assert (forall it t, 0 <= t - prev <= max_int64 -> try_grant it t dest g =
    if floor g <=? t - prev then (Granted, mkGate (<[dest := t]> (last g)) (floor g) (maxWait g))
    else (Busy (floor g - (t - prev)), g)) as Ht.
  { intros it t Ht. unfold try_grant. rewrite bool_decide_eq_false_2 by done.
    rewrite (proj2 (Z.leb_gt (floor g) 0)) by lia. cbn [orb]. rewrite Hl.
    unfold time_sub. rewrite sat64_small by (unfold in_int64, min_int64, max_int64 in *; lia).
    destruct (Z.leb_spec (floor g) (t - prev)); [done|].
    rewrite int_add_small by (unfold in_int64, min_int64, max_int64 in *; lia). done. }
  rewrite Ht by lia. rewrite (proj2 (Z.leb_gt (floor g) (now - prev))) by lia.
  replace (now + (floor g - (now - prev))) with (prev + floor g) by lia.
  assert (exists g', match try_grant (iter (S fuel) g) (prev + floor g) dest g with
    | (Busy remaining, g') => None | (_, g') => Some (WaitOk (prev + floor g), g') end
      = Some (WaitOk (prev + floor g), g') /\ last g' !! dest = Some (prev + floor g)) as (g' & E & Eg).
  { rewrite Ht by lia. rewrite (proj2 (Z.leb_le _ _)) by lia. eexists. split; [done|].
    apply lookup_insert_eq. }
  exists g'. split; [|done].
  destruct (Z.ltb_spec 0 (maxWait g)).
  - rewrite (proj2 (Z.ltb_lt _ _)) by lia. cbn [orb].
    by destruct (try_grant _ _ _ _) as [[| |r] x].
  - by destruct (try_grant _ _ _ _) as [[| |r] x].
Qed.

(** ** Concrete gates *)

Definition demo_gate : gate := Configure 100 250 emptyGate.

Definition demo_iter (g : gate) : list (string * time) := map_to_list (last g).

Fixpoint demo_run (asks : list (time * string)) (g : gate) : list (time * string * attempt) * gate :=
  match asks with
  | [] => ([], g)
  | (now, dest) :: asks' =>
      let r := try_grant (demo_iter g) now dest g in
      let '(es, g') := demo_run asks' (snd r) in ((now, dest, fst r) :: es, g')
  end.

Lemma demo_run_trace asks g : gate_trace g (fst (demo_run asks g)) (snd (demo_run asks g)).
Proof.
  revert g. induction asks as [|[now dest] asks IH]; intros g; cbn [demo_run]; [constructor|].
  specialize (IH (snd (try_grant (demo_iter g) now dest g))).
  destruct (demo_run asks _) as [es g'] eqn:E. cbn [fst snd] in *.
  eapply trace_cons; [|done]. constructor. unfold iterates_gate, demo_iter. reflexivity.
Qed.

Definition demo_asks : list (time * string) :=
  [(1000, "a"); (1050, "a"); (1060, "b"); (1100, "a")]%string.

Example demo_grants :
  fst (demo_run demo_asks demo_gate) =
  [(1000, "a", Granted); (1050, "a", Busy 50); (1060, "b", Granted); (1100, "a", Granted)]%string.
Proof. vm_compute. reflexivity. Qed.

Lemma grants_spaced_witness : 1000 + floor demo_gate <= 1100.
Proof.
  refine (grants_spaced demo_gate (fst (demo_run demo_asks demo_gate)) _ 0 3
    (1000, "a"%string, Granted) (1100, "a"%string, Granted) (demo_run_trace demo_asks demo_gate)
    _ _ _ _ _ _ _ _ _ _); try (vm_compute; reflexivity || lia).
  - discriminate.
  - rewrite demo_grants. intros [|[|[|k]]] ek Hk; simpl; try lia; intros [= <-]; discriminate.
Defined.

Lemma gate_bounded_witness :
  (size (last (snd (demo_run demo_asks demo_gate))) <= maxDestinations)%nat.
Proof.
  refine (gate_bounded demo_gate _ _ (demo_run_trace demo_asks demo_gate) _). apply Nat.leb_le. reflexivity.
Defined.

(** A rival takes the destination before every pass: the caller is turned
    away at its deadline. *)
Definition rival (i : nat) (t : time) (g : gate) : gate :=
  mkGate (<["a"%string := t]> (last g)) (floor g) (maxWait g).

Lemma wait_bounded_witness :
  exists r g', Wait 251 rival (fun _ => demo_iter) true 1000 "a" demo_gate = Some (r, g')
    /\ match r with WaitOk t | WaitTimeout t => 1000 <= t <= 1000 + maxWait demo_gate end.
Proof.
  refine (wait_bounded rival (fun _ => demo_iter) true 1000 "a" demo_gate _ _ _).
  - reflexivity.
  - split; [vm_compute; split; discriminate|]. intros prev. discriminate.
  - intros i t x [Hf Hp]. split; [exact Hf|]. intros prev. cbn [rival last].
    rewrite lookup_insert_eq. intros [= ->]. apply Z.le_refl.
Defined.

Example demo_wait_timeout :
  fst <$> Wait 251 rival (fun _ => demo_iter) true 1000 "a" demo_gate = Some (WaitTimeout 1250).
Proof. vm_compute. reflexivity. Qed.
