(* ===== verification/Spool.v ===== *)
(** * The result spool

    [internal/agent/spool.go]: one file per undelivered batch, published by
    rename, listed oldest first by name, and bounded in bytes by evicting
    the oldest files. *)

From Stdlib Require Import ZArith Lia List Bool Ascii String Sorted.
From stdpp Require Import base tactics gmap strings list fin_maps sorting.
From S2P Require Import Prelude Wire.

Definition defaultSpoolMaxBytes : Z := Z.shiftl 16 20.

Record spoolBatch : Type := mkBatch {
  Version : Z;
  SentAt : string;
  sb_Results : list Result
}.

(** What a file holds: a batch document, or bytes that do not decode. *)
Inductive content : Type :=
| Batch (b : spoolBatch)
| Garbage.

(** One entry of the spool's directory. *)
Record dirEntry : Type := mkEntry {
  IsDir : bool;
  Size : Z;
  data : content
}.

Record spoolEntry : Type := mkSpoolEntry { path : string; size_ : Z }.

(** The directory, by file name; the spool's own fields beside it. *)
Record resultSpool : Type := mkSpool {
  maxBytes : Z;
  files : gmap string dirEntry
}.

Definition with_files (f : gmap string dirEntry -> gmap string dirEntry) (s : resultSpool) : resultSpool :=
  mkSpool (maxBytes s) (f (files s)).

(** [newResultSpool] once the directory exists; [None] is the nil spool. *)
Definition newResultSpool (dir : string) (maxB : Z) (existing : gmap string dirEntry) : option resultSpool :=
  if bool_decide (dir = ""%string) then None
  else Some (mkSpool (if maxB <=? 0 then defaultSpoolMaxBytes else maxB) existing).

(** [strings.HasSuffix]. *)
Fixpoint has_suffix (s suf : string) : bool :=
  bool_decide (s = suf) || match s with EmptyString => false | String _ s' => has_suffix s' suf end.

Definition path_le (a b : spoolEntry) : Prop := String.le (path a) (path b).
#[export] Instance path_le_dec : RelDecision path_le.
Proof. intros a b. unfold path_le. apply _. Defined.
#[export] Instance path_le_trans : Transitive path_le.
Proof. intros a b c. unfold path_le. apply (transitivity (R := String.le)). Qed.
#[export] Instance path_le_total : Total path_le.
Proof. intros a b. apply (total String.le). Qed.

Definition batch_file (kv : string * dirEntry) : option spoolEntry :=
  if IsDir (snd kv) || negb (has_suffix (fst kv) ".json") then None
  else Some (mkSpoolEntry (fst kv) (Size (snd kv))).

(** [pending] on a readable directory. *)
Definition pending (s : resultSpool) : list spoolEntry :=
  merge_sort path_le (omap batch_file (map_to_list (files s))).

Inductive read_error : Type := ReadFailed | BadVersion (v : Z) | EmptyBatch.

Definition read (p : string) (s : resultSpool) : result read_error spoolBatch :=
  match files s !! p with
  | None => Err ReadFailed
  | Some e =>
      match data e with
      | Garbage => Err ReadFailed
      | Batch b =>
          if negb (Version b =? 1) then Err (BadVersion (Version b))
          else match sb_Results b with [] => Err EmptyBatch | _ => Ok b end
      end
  end.

(** [os.Remove] on this file system may refuse some files, and [os.ReadDir]
    may fail. *)
Section removal.
Context (removable : string -> bool) (listable : bool).

Definition remove (p : string) (s : resultSpool) : resultSpool :=
  if removable p then with_files (delete p) s else s.

Fixpoint prune_files (entries : list spoolEntry) (n : nat) (total removed : Z) (s : resultSpool)
    : Z * resultSpool :=
  match entries with
  | [] => (removed, s)
  | entry :: rest =>
      if (total <=? maxBytes s) || (Z.of_nat n - removed <=? 1) then (removed, s)
      else if removable (path entry)
      then prune_files rest n (int_add total (- size_ entry)) (removed + 1) (with_files (delete (path entry)) s)
      else prune_files rest n total removed s
  end.

Definition prune (s : resultSpool) : Z * resultSpool :=
  let entries := pending s in
  let total := fold_left (fun t e => int_add t (size_ e)) entries 0 in
  if listable then prune_files entries (length entries) total 0 s else (0, s).

(** ** Publishing a batch *)

(** [%020d] of a non-negative number: at least twenty decimal digits. *)
Fixpoint digits (n : nat) (z : Z) : string :=
  match n with
  | O => ""
  | S n' => String (ascii_of_nat (48 + Z.to_nat (z / 10 ^ Z.of_nat n' mod 10))) (digits n' z)
  end.

Definition batch_name (unixNano : Z) (hex : string) : string :=
  "batch-" +:+ digits 20 unixNano +:+ "-" +:+ hex +:+ ".json".

(** The file-system call of [enqueue] that fails, if one does. *)
Inductive stage : Type := CreateTemp | WriteTemp | SyncTemp | CloseTemp | RenameTemp.

Definition result_encodable (r : Result) : bool :=
  match LatencyMs (res r) with Some f => finite_float f | None => true end
  && json_encodable (VObject (Extra (res r))).

(** What the encoded batch decodes to: [Skip] is not in the document and
    numbers of [Extra] come back as float64. *)
Definition result_decoded (r : Result) : Result :=
  let c := res r in
  mkResult (RunID r) (ProbeID r)
    (mkCheckResult false (r_Ok c) (r_Type c) (r_Target c) (r_Seq c) (LatencyMs c) (r_Error c)
       (ErrorCode c) (json_decoded_params (Extra c))) (ObservedAt r).

(** [enqueue]: [tmp] is the temporary file's name, [size] the encoded
    batch's length; a failing stage removes the temporary file if it can. *)
Definition enqueue (fails : option stage) (tmp : string) (size nano : Z) (hex : string)
    (results : list Result) (sentAt : string) (s : resultSpool) : result string string * resultSpool :=
  match results with
  | [] => (Ok "", s)
  | _ =>
      if negb (forallb result_encodable results) then (Err "encode spool batch", s)
      else
        let half := with_files (<[tmp := mkEntry false size Garbage]>) s in
        match fails with
        | Some CreateTemp => (Err "create spool file", s)
        | Some WriteTemp => (Err "write spool file", remove tmp half)
        | Some SyncTemp => (Err "sync spool file", remove tmp half)
        | Some CloseTemp => (Err "close spool file", remove tmp half)
        | Some RenameTemp => (Err "publish spool file", remove tmp half)
        | None =>
            let final := batch_name nano hex in
            let published := with_files (fun fs =>
              <[final := mkEntry false size (Batch (mkBatch 1 sentAt (map result_decoded results)))]> (delete tmp fs)) half in
            (Ok final, snd (prune published))
        end
  end.
End removal.


(** ** Names sort by time *)

Lemma digits_compare n a b x y :
  0 <= a -> 0 <= b -> a mod 10 ^ Z.of_nat n < b mod 10 ^ Z.of_nat n ->
  String.compare (digits n a +:+ x) (digits n b +:+ y) = Lt.
Proof.
  intros Ha Hb. induction n as [|n IH]; [change (10 ^ Z.of_nat 0) with 1; rewrite !Z.mod_1_r; lia|].
  replace (10 ^ Z.of_nat (S n)) with (10 ^ Z.of_nat n * 10) by (rewrite Nat2Z.inj_succ, Z.pow_succ_r by lia; lia).
  assert (0 < 10 ^ Z.of_nat n) as Hp by lia.
  rewrite !Z.rem_mul_r by lia. cbn [digits]. intros Hlt.
  pose proof (Z.mod_pos_bound a (10 ^ Z.of_nat n) Hp). pose proof (Z.mod_pos_bound b (10 ^ Z.of_nat n) Hp).
  set (qa := a / 10 ^ Z.of_nat n mod 10) in *. set (qb := b / 10 ^ Z.of_nat n mod 10) in *.
  assert (0 <= qa < 10) by (apply Z.mod_pos_bound; lia).
  assert (0 <= qb < 10) by (apply Z.mod_pos_bound; lia).
  change (match Ascii.compare (ascii_of_nat (48 + Z.to_nat qa)) (ascii_of_nat (48 + Z.to_nat qb)) with
    | Eq => String.compare (digits n a +:+ x) (digits n b +:+ y) | c => c end = Lt).
  unfold Ascii.compare, ascii_of_nat. rewrite !N_ascii_embedding by lia.
  destruct (N.compare_spec (N.of_nat (48 + Z.to_nat qa)) (N.of_nat (48 + Z.to_nat qb))) as [E| |];
    [apply IH; nia|done|nia].
Qed.

Lemma batch_name_lt a b ha hb :
  0 <= a < b -> b < 10 ^ 20 -> String.compare (batch_name a ha) (batch_name b hb) = Lt.
Proof.
  intros H Hb. unfold batch_name.
  change (String.compare (digits 20 a +:+ ("-" +:+ ha +:+ ".json")) (digits 20 b +:+ ("-" +:+ hb +:+ ".json")) = Lt).
  apply digits_compare; [lia..|]. change (10 ^ Z.of_nat 20) with (10 ^ 20). rewrite !Z.mod_small by lia. lia.
Qed.

Lemma has_suffix_app a s suf : has_suffix s suf = true -> has_suffix (a +:+ s) suf = true.
Proof.
  intros H. induction a as [|c a IH]; [done|]. cbn [has_suffix String.app].
  change (String c a +:+ s) with (String c (a +:+ s)). cbn [has_suffix]. by rewrite IH, orb_true_r.
Qed.

Lemma batch_name_json nano hex : has_suffix (batch_name nano hex) ".json" = true.
Proof. unfold batch_name. repeat apply has_suffix_app. reflexivity. Qed.

(** ** Listing *)

Lemma pending_perm s : pending s ≡ₚ omap batch_file (map_to_list (files s)).
Proof. apply merge_sort_Permutation. Qed.

Lemma pending_sorted s : StronglySorted path_le (pending s).
Proof.
  apply (StronglySorted_merge_sort _).
Qed.

Lemma pending_elem e s :
  e ∈ pending s <-> exists x, files s !! path e = Some x /\ batch_file (path e, x) = Some e.
Proof.
  rewrite pending_perm, list_elem_of_omap. split.
  - intros ([k x] & Hin%elem_of_map_to_list & Hb). exists x.
    assert (path e = k) as ->; [|done].
    unfold batch_file in Hb. destruct (_ || _); [done|]. by injection Hb as <-.
  - intros (x & Hx & Hb). exists (path e, x). by rewrite elem_of_map_to_list.
Qed.

Lemma pending_unique e e' s : e ∈ pending s -> e' ∈ pending s -> path e = path e' -> e = e'.
Proof.
  intros (x & Hx & Hb)%pending_elem (x' & Hx' & Hb')%pending_elem E. rewrite <- E in *. congruence.
Qed.

(** The listing is the only sorted arrangement of the batch files. *)
Lemma pending_is es s :
  StronglySorted path_le es -> es ≡ₚ omap batch_file (map_to_list (files s)) -> pending s = es.
Proof.
  intros Hs Hp. symmetry. eapply StronglySorted_unique_strong; [|exact Hs|apply pending_sorted|].
  - intros e e' He He' H1 H2.
    assert (forall x, x ∈ es -> x ∈ pending s) as Hin by (intros x; by rewrite pending_perm, Hp).
    apply (pending_unique _ _ s); [by apply Hin|done|]. by apply (anti_symm String.le).
  - by rewrite Hp, pending_perm.
Qed.

Lemma pending_delete_head e es s :
  pending s = e :: es -> pending (with_files (delete (path e)) s) = es.
Proof.
  intros E. pose proof (pending_sorted s) as Hs. rewrite E in Hs. apply StronglySorted_inv in Hs as [Hs _].
  apply pending_is; [done|]. cbn [with_files files].
  assert (e ∈ pending s) as (x & Hx & Hb)%pending_elem by (rewrite E; left).
  apply (Permutation_cons_inv (a := e)). rewrite <- E, pending_perm.
  rewrite <- (map_to_list_delete _ _ _ Hx). cbn [omap list_omap]. by rewrite Hb.
Qed.

Lemma pending_insert_other k x s :
  files s !! k = None -> batch_file (k, x) = None -> pending (with_files <[k := x]> s) = pending s.
Proof.
  intros Hk Hb. apply pending_is; [apply pending_sorted|]. cbn [with_files files].
  rewrite map_to_list_insert by done. cbn [omap list_omap]. rewrite Hb. apply pending_perm.
Qed.

Lemma pending_delete_other k s :
  has_suffix k ".json" = false -> pending (with_files (delete k) s) = pending s.
Proof.
  intros Hk. destruct (files s !! k) as [x|] eqn:Hx.
  - symmetry. apply pending_is; [apply pending_sorted|]. rewrite pending_perm. cbn [with_files files].
    rewrite <- (map_to_list_delete _ _ _ Hx). cbn [omap list_omap].
    unfold batch_file at 2. cbn [fst snd]. by rewrite Hk, orb_true_r.
  - unfold with_files. rewrite delete_id by done. by destruct s.
Qed.

(** A file that sorts after every batch is listed last. *)
Lemma pending_insert_last k x e s :
  files s !! k = None -> batch_file (k, x) = Some e ->
  Forall (fun e' => String.le (path e') k) (pending s) ->
  pending (with_files <[k := x]> s) = pending s ++ [e].
Proof.
  intros Hk Hb Hl. assert (path e = k) as Hp.
  { unfold batch_file in Hb. destruct (_ || _); [done|]. by injection Hb as <-. }
  apply pending_is.
  - apply StronglySorted_app_2; [|apply pending_sorted|repeat constructor].
    intros e1 e2 H1 ->%list_elem_of_singleton. rewrite Forall_forall in Hl. unfold path_le.
    rewrite Hp. by apply Hl.
  - cbn [with_files files]. rewrite map_to_list_insert by done. cbn [omap list_omap]. rewrite Hb.
    rewrite <- pending_perm. apply (Permutation_app_comm _ [e]).
Qed.

(** ** Pruning *)

Definition entry_total (es : list spoolEntry) : Z := sumZ (size_ <$> es).

Definition sizes_fit (es : list spoolEntry) : Prop :=
  Forall (fun e => 0 <= size_ e) es /\ entry_total es <= max_int64.

Lemma entry_total_cons e es : entry_total (e :: es) = size_ e + entry_total es.
Proof. done. Qed.

Lemma entry_total_nonneg es : Forall (fun e => 0 <= size_ e) es -> 0 <= entry_total es.
Proof. intros H. apply sumZ_nonneg. by apply Forall_fmap. Qed.

Lemma entry_total_fold es :
  sizes_fit es -> fold_left (fun t e => int_add t (size_ e)) es 0 = entry_total es.
Proof.
  intros [Hn Hm]. rewrite fold_int_add by (unfold in_int64, min_int64, max_int64; lia).
  pose proof (entry_total_nonneg es Hn).
  assert (foldr (fun a z => size_ a + z) 0 es = entry_total es) as ->.
  { unfold entry_total, sumZ. clear. induction es as [|e es IH]; [done|]. cbn. by rewrite IH. }
  apply wrap64_small. unfold in_int64, min_int64, max_int64 in *. lia.
Qed.

(** Evicting files one by one, all removable: the listing loses a prefix. *)
Lemma prune_files_spec removable es n total removed s :
  (forall p, has_suffix p ".json" = true -> removable p = true) ->
  pending s = es -> sizes_fit es -> total = entry_total es -> Z.of_nat n - removed = Z.of_nat (length es) ->
  exists k, let '(r, s') := prune_files removable es n total removed s in
    r = removed + Z.of_nat k /\ (k <= length es)%nat /\ pending s' = drop k es /\ maxBytes s' = maxBytes s
    /\ (entry_total (drop k es) <= maxBytes s \/ (length (drop k es) <= 1)%nat)
    /\ (es <> [] -> drop k es <> [])
    /\ (forall j, (j < k)%nat -> maxBytes s < entry_total (drop j es))
    /\ (forall p, (forall e, e ∈ take k es -> path e <> p) -> files s' !! p = files s !! p).
Proof.
  intros Hr. revert n total removed s. induction es as [|e es IH]; intros n total removed s Hp Hs -> Hn.
  { exists 0%nat. cbn. split_and!; try done; try lia; by right; lia. }
  cbn [prune_files]. destruct ((entry_total (e :: es) <=? maxBytes s) || (Z.of_nat n - removed <=? 1)) eqn:Et.
  { exists 0%nat. cbn [drop]. split_and!; try done; try lia; try (simpl; lia). }
  zify_bool. assert (removable (path e) = true) as ->.
  { apply Hr. assert (e ∈ pending s) as (x & _ & Hb)%pending_elem by (rewrite Hp; left).
    unfold batch_file in Hb. cbn [fst snd] in Hb. destruct (has_suffix (path e) ".json"); [done|].
    by rewrite orb_true_r in Hb. }
  destruct Hs as [Hf Hm]. apply Forall_cons in Hf as [He Hf].
  pose proof (entry_total_nonneg es Hf). rewrite entry_total_cons in Hm.
  edestruct (IH n (int_add (entry_total (e :: es)) (- size_ e)) (removed + 1)
    (with_files (delete (path e)) s)) as [k Hk].
  - by apply pending_delete_head.
  - split; [done|lia].
  - rewrite entry_total_cons, int_add_small; [lia|]. unfold in_int64, min_int64, max_int64 in *. lia.
  - cbn [length] in Hn. lia.
  - exists (S k). destruct (prune_files _ _ _ _ _ _) as [r s']. cbn [maxBytes with_files] in Hk.
    destruct Hk as (-> & Hlen & Hd & Hm' & Hfit & Hne & Hj & Hfiles). cbn [drop length].
    split_and!; try done; try lia.
    + intros _. destruct es; [cbn [length] in *; lia|by apply Hne].
    + intros [|j] Hlt; [done|apply Hj; lia].
    + intros p Hpn. cbn [take] in Hpn. rewrite Hfiles.
      * cbn [with_files files]. apply lookup_delete_ne. apply Hpn. left.
      * intros e' He'. apply Hpn. by right.
Qed.

(** Eviction is oldest first and no more than needed.  When every batch file
    can be removed, pruning removes a prefix of the listing: what is left
    fits the budget or is a single file, the newest batch always stays, and
    a batch is evicted only while the directory was still over budget. *)
Theorem prune_evicts_oldest removable s :
  (forall p, has_suffix p ".json" = true -> removable p = true) -> sizes_fit (pending s) ->
  exists k, let '(removed, s') := prune removable true s in
    removed = Z.of_nat k /\ pending s' = drop k (pending s)
    /\ (entry_total (pending s') <= maxBytes s \/ (length (pending s') <= 1)%nat)
    /\ (pending s <> [] -> last (pending s') = last (pending s) /\ pending s' <> [])
    /\ (forall j, (j < k)%nat -> maxBytes s < entry_total (drop j (pending s))).
Proof.
  intros Hr Hs. unfold prune. rewrite entry_total_fold by done. cbn [pending].
  destruct (prune_files_spec removable (pending s) (length (pending s)) (entry_total (pending s)) 0 s
    Hr eq_refl Hs eq_refl ltac:(lia)) as [k Hk].
  exists k. destruct (prune_files _ _ _ _ _ _) as [r s'].
  destruct Hk as (-> & Hl & Hd & _ & Hfit & Hne & Hj & _). rewrite Hd.
  split_and!; [lia|done|done| |done]. intros Hp. specialize (Hne Hp). split; [|done].
  rewrite <- (take_drop k (pending s)) at 2. rewrite last_app. 
  destruct (last (drop k (pending s))) eqn:El; [done|]. by apply last_None in El.
Qed.

(** Every waiting batch was published before [nano]. *)
Definition older_than (nano : Z) (s : resultSpool) : Prop :=
  Forall (fun e => exists n h, path e = batch_name n h /\ 0 <= n < nano) (pending s) /\ nano < 10 ^ 20.

Lemma older_le nano hex s :
  older_than nano s -> Forall (fun e => String.le (path e) (batch_name nano hex)) (pending s).
Proof.
  intros [Ho Hn]. eapply Forall_impl; [exact Ho|]. cbn beta. intros e (n & h & -> & Hlt).
  unfold String.le, String.leb. by rewrite (batch_name_lt n nano h hex Hlt Hn).
Qed.

(** Publishing a batch is atomic and durable.  If [enqueue] succeeds, the
    new batch is the newest of the listing, reads back as the results that
    were written, and pruning dropped only the oldest ones before it; if it
    fails, at whatever stage, the waiting batches are exactly as before,
    even when the temporary file cannot be removed. *)
Theorem enqueue_durable removable fails tmp size nano hex results sentAt s :
  (forall p, has_suffix p ".json" = true -> removable p = true) ->
  older_than nano s -> files s !! batch_name nano hex = None ->
  files s !! tmp = None -> has_suffix tmp ".json" = false ->
  sizes_fit (pending s ++ [mkSpoolEntry (batch_name nano hex) size]) -> results <> [] ->
  let '(r, s') := enqueue removable true fails tmp size nano hex results sentAt s in
  match r with
  | Ok p =>
      p = batch_name nano hex /\ read p s' = Ok (mkBatch 1 sentAt (map result_decoded results))
      /\ exists k, pending s' = drop k (pending s) ++ [mkSpoolEntry p size]
         /\ (entry_total (pending s') <= maxBytes s \/ pending s' = [mkSpoolEntry p size])
  | Err _ => pending s' = pending s
  end.
Proof.
  intros Hr Ho Hf Ht Htj Hs Hne. unfold enqueue. destruct results as [|r0 rs]; [done|].
  set (results := r0 :: rs) in *. destruct (negb (forallb _ _)); [done|].
  set (half := with_files _ s).
  assert (pending half = pending s) as Hhalf.
  { apply pending_insert_other; [done|]. unfold batch_file. cbn [fst snd]. by rewrite Htj, orb_true_r. }
  destruct fails as [[| | | |]|]; cbn [pending];
    try (unfold remove; destruct (removable tmp); rewrite ?pending_delete_other by done; done).
  set (e := mkSpoolEntry (batch_name nano hex) size) in *.
  set (x := mkEntry false size (Batch (mkBatch 1 sentAt (map result_decoded results)))).
  set (pub := with_files _ half).
  assert (pub = with_files <[batch_name nano hex := x]> s) as Hpub.
  { unfold pub, half, with_files. cbn [files maxBytes]. by rewrite delete_insert_id. }
  clearbody pub half. subst pub. set (pub := with_files _ s).
  assert (pending pub = pending s ++ [e]) as Hp.
  { apply pending_insert_last; [done| |by apply older_le]. unfold batch_file. cbn [fst snd IsDir x].
    by rewrite batch_name_json. }
  unfold prune. rewrite Hp, entry_total_fold by done.
  destruct (prune_files_spec removable (pending s ++ [e]) (length (pending s ++ [e]))
    (entry_total (pending s ++ [e])) 0 pub Hr Hp Hs eq_refl ltac:(lia)) as [k Hk].
  destruct (prune_files _ _ _ _ _ _) as [removed s'].
  destruct Hk as (_ & Hlen & Hd & _ & Hfit & Hne' & _ & Hfiles). cbn [snd].
  assert (k <= length (pending s))%nat as Hkl.
  { assert (drop k (pending s ++ [e]) <> []) as Hn by (apply Hne'; by destruct (pending s)).
    destruct (decide (k <= length (pending s))%nat); [done|]. rewrite drop_ge in Hn; [done|].
    rewrite length_app. simpl. lia. }
  rewrite drop_app_le in Hd, Hfit by done. split_and!; [done| |].
  - unfold read. rewrite Hfiles.
    + unfold pub, with_files. cbn [files]. by rewrite lookup_insert_eq.
    + intros e' He' E. rewrite take_app_le in He' by done.
      assert (e' ∈ pending s) as (x' & Hx' & _)%pending_elem by (eapply elem_of_sublist; [exact He'|apply sublist_take]).
      rewrite E in Hx'. congruence.
  - exists k. split; [done|]. rewrite Hd. destruct Hfit as [Hfit|Hl]; [by left|right].
    rewrite length_app in Hl. simpl in Hl. destruct (drop k (pending s)); [done|simpl in Hl; lia].
Qed.

(** ** Concrete spools *)

Definition demo_stored : Result :=
  mkResult "run1" "p" (mkCheckResult false true "tcp" "t" 1 None "" "" []) None.

Definition demo_file (size : Z) : dirEntry := mkEntry false size (Batch (mkBatch 1 "" [demo_stored])).

Definition demo_spool : resultSpool :=
  mkSpool 100 (list_to_map [(batch_name 1000 "aa", demo_file 60); (batch_name 2000 "bb", demo_file 60);
    (batch_name 3000 "cc", demo_file 60); (".batch-1.tmp", mkEntry false 9 Garbage)]%string).

Lemma demo_pending : pending demo_spool =
  [mkSpoolEntry (batch_name 1000 "aa") 60; mkSpoolEntry (batch_name 2000 "bb") 60;
   mkSpoolEntry (batch_name 3000 "cc") 60].
Proof. vm_compute. reflexivity. Qed.

Lemma demo_fits extra : 0 <= extra <= 100 ->
  sizes_fit (pending demo_spool ++ [mkSpoolEntry (batch_name 4000 "dd") extra]) /\ sizes_fit (pending demo_spool).
Proof.
  intros H. rewrite demo_pending. unfold sizes_fit, entry_total, max_int64. cbn.
  repeat split; repeat constructor; cbn; lia.
Qed.

Lemma prune_evicts_oldest_witness :
  exists k, let '(removed, s') := prune (fun _ => true) true demo_spool in
    removed = Z.of_nat k /\ pending s' = drop k (pending demo_spool)
    /\ (entry_total (pending s') <= 100 \/ (length (pending s') <= 1)%nat)
    /\ (pending demo_spool <> [] -> last (pending s') = last (pending demo_spool) /\ pending s' <> [])
    /\ (forall j, (j < k)%nat -> 100 < entry_total (drop j (pending demo_spool))).
Proof. exact (prune_evicts_oldest (fun _ => true) demo_spool (fun _ _ => eq_refl)
  (proj2 (demo_fits 0 ltac:(lia)))). Defined.

Example demo_pruned :
  path <$> pending (snd (prune (fun _ => true) true demo_spool)) = [batch_name 3000 "cc"].
Proof. vm_compute. reflexivity. Qed.

(** The newest batch is not always kept: when the oldest file cannot be
    removed, the loop goes on to younger ones and, counting only successful
    removals, evicts the newest batch. *)
Theorem prune_can_evict_newest :
  let removable p := negb (bool_decide (p = batch_name 1000 "aa"))
                     && negb (bool_decide (p = batch_name 2000 "bb")) in
  path <$> pending (snd (prune removable true demo_spool)) = [batch_name 1000 "aa"; batch_name 2000 "bb"].
Proof. vm_compute. reflexivity. Qed.

Lemma enqueue_durable_witness :
  let '(r, s') := enqueue (fun _ => true) true None ".batch-2.tmp" 70 4000 "dd" [demo_stored] "now" demo_spool in
  match r with
  | Ok p => p = batch_name 4000 "dd" /\ read p s' = Ok (mkBatch 1 "now" [demo_stored])
      /\ exists k, pending s' = drop k (pending demo_spool) ++ [mkSpoolEntry p 70]
         /\ (entry_total (pending s') <= 100 \/ pending s' = [mkSpoolEntry p 70])
  | Err _ => pending s' = pending demo_spool
  end.
Proof.
  refine (enqueue_durable (fun _ => true) None ".batch-2.tmp" 70 4000 "dd" [demo_stored] "now" demo_spool
    (fun _ _ => eq_refl) _ _ _ _ _ _).
  - split; [|reflexivity]. apply Forall_forall. intros e He.
    rewrite demo_pending in He. set_unfold in He.
    destruct He as [->|[->|[->|[]]]]; eexists _, _; (split; [reflexivity|lia]).
  - vm_compute. reflexivity.
  - vm_compute. reflexivity.
  - vm_compute. reflexivity.
  - exact (proj1 (demo_fits 70 ltac:(lia))).
  - discriminate.
Defined.
