(* ===== verification/Delivery.v ===== *)
(** * Delivering results

    [internal/agent/store_delivery.go] and the delivery half of
    [internal/agent/spool.go]: draining the local store, or the spool,
    against the server, with exponential retry backoff.

    The server is not part of the repository: [server n results] is its
    answer to the [n]-th POST, [None] when the request fails.  [expired i]
    says whether the drain deadline has passed before page [i]. *)

From Stdlib Require Import ZArith Lia List Bool Ascii String Sorted.
From stdpp Require Import base tactics gmap strings list fin_maps sorting pretty.
From S2P Require Import Prelude Wire Sql Store StoreMaint Journal StoreWf StoreDemo StoreResults Spool.

Definition deliveryRetryInitial : duration := 5 * second.
Definition deliveryRetryMax : duration := minute.

(** ** Backoff *)

Record delivery : Type := mkDelivery {
  deliveryBackoff : duration;
  deliveryNextAttempt : time
}.

Definition nextDeliveryBackoff (previous : duration) : duration :=
  if previous <=? 0 then deliveryRetryInitial
  else
    let next := int_mul previous 2 in
    if deliveryRetryMax <? next then deliveryRetryMax else next.

Definition backoffDelivery (now : time) (d : delivery) : delivery :=
  let b := nextDeliveryBackoff (deliveryBackoff d) in mkDelivery b (time_add now b).

Definition clearDeliveryBackoff (d : delivery) : delivery := mkDelivery 0 zero_time.

(** The guard at the top of both drains. *)
Definition backing_off (now : time) (d : delivery) : bool :=
  negb (is_zero_time (deliveryNextAttempt d)) && before now (deliveryNextAttempt d).

(** ** Acks *)

Definition ackKey (runID : string) (seq : Z) : string := runID +:+ nul +:+ pretty seq.

Definition ack_map (acks : list ResultAck) : gmap string ResultAck :=
  fold_left (fun m a => <[ackKey (ack_RunID a) (ack_Seq a) := a]> m) acks ∅.

Definition outcome_of (acks : gmap string ResultAck) (item : PendingResult) : Outcome :=
  match acks !! ackKey (RunID (pend_Result item)) (r_Seq (res (pend_Result item))) with
  | None => mkOutcome (pend_Seq item) true ""
  | Some ack => mkOutcome (pend_Seq item) (Accepted ack) (Reason ack)
  end.

Definition outcomesFor (batch : list PendingResult) (resp : option ResultsResponse) : list Outcome :=
  match resp with
  | None => map (fun item => mkOutcome (pend_Seq item) true "") batch
  | Some r => map (outcome_of (ack_map (resp_Results r))) batch
  end.

(** ** Draining *)

(** What a drain counts. *)
Record totals : Type := mkTotals { delivered : Z; accepted : Z; rejected : Z }.
Definition no_totals : totals := mkTotals 0 0 0.

Definition add_totals (n : nat) (resp : ResultsResponse) (t : totals) : totals :=
  mkTotals (int_add (delivered t) (Z.of_nat n)) (int_add (accepted t) (resp_Accepted resp))
    (int_add (rejected t) (resp_Rejected resp)).

Section drain.
Context (server : nat -> list Result -> option ResultsResponse)
        (clock : nat -> time) (expired : nat -> bool).

(** The store, the requests made so far and the retry state. *)
Record store_world : Type := mkStoreWorld {
  w_db : database;
  w_faults : faults;
  w_sent : list (list Result);
  w_delivery : delivery
}.

(** [postResults]: the request is recorded, then answered. *)
Definition postResults (results : list Result) (sent : list (list Result))
    : option ResultsResponse * list (list Result) :=
  (server (length sent) results, sent ++ [results]).

Fixpoint drain_pages (fuel : nat) (o : string) (page : nat) (t : totals) (w : store_world)
    : option (totals * option string * store_world) :=
  match fuel with
  | O => None
  | S fuel' =>
      if expired page then Some (t, None, w)
      else
        let failed e db fs sent :=
          Some (t, Some e, mkStoreWorld db fs sent (backoffDelivery (clock page) (w_delivery w))) in
        match PendingResults o 500 (w_faults w) (w_db w) with
        | (Err e, db, fs) => failed e db fs (w_sent w)
        | (Ok [], db, fs) => Some (t, None, mkStoreWorld db fs (w_sent w) (w_delivery w))
        | (Ok batch, db, fs) =>
            let '(_, db, fs) := MarkAttempts (pend_Seq <$> batch) fs db in
            match postResults (pend_Result <$> batch) (w_sent w) with
            | (None, sent) => failed "post results" db fs sent
            | (Some resp, sent) =>
                match MarkOutcomes (to_unix_milli (clock page)) (outcomesFor batch (Some resp)) fs db with
                | (Err e, db, fs) => failed e db fs sent
                | (Ok _, db, fs) =>
                    let t := add_totals (length batch) resp t in
                    let w := mkStoreWorld db fs sent (clearDeliveryBackoff (w_delivery w)) in
                    if (length batch <? 500)%nat then Some (t, None, w)
                    else drain_pages fuel' o (S page) t w
                end
            end
        end
  end.

Definition drainStore (fuel : nat) (o : string) (now : time) (w : store_world)
    : option (totals * option string * store_world) :=
  if backing_off now (w_delivery w) then Some (no_totals, None, w)
  else drain_pages fuel o 0 no_totals w.

(** The spool's side. *)
Record spool_world : Type := mkSpoolWorld {
  s_spool : resultSpool;
  s_sent : list (list Result);
  s_delivery : delivery
}.

Fixpoint drain_batches (removable : string -> bool) (entries : list spoolEntry) (i : nat)
    (t : totals) (w : spool_world) : totals * option string * spool_world :=
  match entries with
  | [] => (t, None, w)
  | entry :: rest =>
      if expired i then (t, None, w)
      else
        match read (path entry) (s_spool w) with
        | Err _ =>
            drain_batches removable rest (S i) t
              (mkSpoolWorld (remove removable (path entry) (s_spool w)) (s_sent w) (s_delivery w))
        | Ok batch =>
            match postResults (sb_Results batch) (s_sent w) with
            | (None, sent) =>
                (t, Some "post results"%string,
                 mkSpoolWorld (s_spool w) sent (backoffDelivery (clock i) (s_delivery w)))
            | (Some resp, sent) =>
                drain_batches removable rest (S i) (add_totals (length (sb_Results batch)) resp t)
                  (mkSpoolWorld (remove removable (path entry) (s_spool w)) sent
                     (clearDeliveryBackoff (s_delivery w)))
            end
        end
  end.

Definition drainSpool (removable : string -> bool) (listable : bool) (now : time) (w : spool_world)
    : totals * option string * spool_world :=
  if backing_off now (s_delivery w) then (no_totals, None, w)
  else if negb listable then (no_totals, Some "read spool directory"%string, w)
  else drain_batches removable (pending (s_spool w)) 0 no_totals w.
End drain.

(** ** Backing off *)

Fixpoint backoff_after (failures : nat) : duration :=
  match failures with O => 0 | S n => nextDeliveryBackoff (backoff_after n) end.

Lemma backoff_after_eq n : backoff_after (S n) = Z.min (2 ^ Z.of_nat n * deliveryRetryInitial) deliveryRetryMax.
Proof.
  induction n as [|n IH]; [done|]. change (backoff_after (S (S n))) with (nextDeliveryBackoff (backoff_after (S n))).
  rewrite IH, Nat2Z.inj_succ, Z.pow_succ_r by lia.
  assert (0 < 2 ^ Z.of_nat n) by lia. unfold nextDeliveryBackoff.
  assert (0 < deliveryRetryInitial /\ 0 < deliveryRetryMax /\ deliveryRetryMax < 2 ^ 61) as (? & ? & ?)
    by (vm_compute; done).
  rewrite (proj2 (Z.leb_gt _ _)) by nia.
  rewrite int_mul_small by (unfold in_int64, min_int64, max_int64; nia).
  destruct (Z.ltb_spec deliveryRetryMax (Z.min (2 ^ Z.of_nat n * deliveryRetryInitial) deliveryRetryMax * 2)); nia.
Qed.

(** The retry delay doubles and is capped.  After [n+1] failures in a row the
    next attempt is not before min(5 s * 2^n, 60 s) after the last of them,
    and exactly until then both drains return at once; a success resets the
    count. *)
Theorem backoff_schedule (ts : list time) now d0 :
  let d := fold_left (fun d t => backoffDelivery t d) (ts ++ [now]) (clearDeliveryBackoff d0) in
  deliveryBackoff d = Z.min (2 ^ Z.of_nat (length ts) * deliveryRetryInitial) deliveryRetryMax
  /\ deliveryNextAttempt d = now + deliveryBackoff d
  /\ (zero_time < now -> forall t, backing_off t d = (t <? now + deliveryBackoff d)).
Proof.
  rewrite fold_left_app. cbn [fold_left]. set (d1 := fold_left _ ts _).
  assert (deliveryBackoff d1 = backoff_after (length ts)) as Hb.
  { unfold d1. induction ts as [|t ts IH] using rev_ind; [done|].
    rewrite fold_left_app, length_app, Nat.add_comm. cbn [fold_left length Nat.add backoff_after].
    unfold backoffDelivery at 1. cbn [deliveryBackoff]. by rewrite IH. }
  unfold backoffDelivery. cbn [deliveryBackoff deliveryNextAttempt]. rewrite Hb.
  change (nextDeliveryBackoff (backoff_after (length ts))) with (backoff_after (S (length ts))).
  rewrite backoff_after_eq. split; [done|]. split; [done|]. intros Hz t.
  assert (0 < 2 ^ Z.of_nat (length ts)) by lia.
  assert (0 < deliveryRetryInitial /\ 0 < deliveryRetryMax) as [? ?] by (vm_compute; done).
  unfold backing_off, is_zero_time, before. cbn [deliveryNextAttempt]. unfold time_add.
  rewrite (proj2 (Z.eqb_neq _ _)) by nia. done.
Qed.

(** ** Matching acks *)

(** The key never confuses two results, whatever bytes the run id has. *)
Lemma ackKey_inj r1 s1 r2 s2 : ackKey r1 s1 = ackKey r2 s2 -> r1 = r2 /\ s1 = s2.
Proof.
  intros E. apply nul_split in E as [-> E]; [|apply pretty_Z_nul..]. split; [done|]. by apply (inj pretty) in E.
Qed.

Definition ack_matches (runID : string) (seq : Z) (a : ResultAck) : bool :=
  bool_decide (ack_RunID a = runID) && (ack_Seq a =? seq).

Lemma ack_map_lookup acks r s :
  ack_map acks !! ackKey r s = last (List.filter (ack_matches r s) acks).
Proof.
  induction acks as [|a acks IH] using rev_ind; [done|].
  unfold ack_map in *. rewrite fold_left_app, List.filter_app. cbn [fold_left List.filter].
  destruct (decide (ackKey (ack_RunID a) (ack_Seq a) = ackKey r s)) as [E|E].
  - rewrite E, lookup_insert_eq. apply ackKey_inj in E as [Er Es].
    assert (ack_matches r s a = true) as ->.
    { unfold ack_matches. by rewrite Er, Es, bool_decide_eq_true_2, Z.eqb_refl. }
    by rewrite last_snoc.
  - rewrite lookup_insert_ne by done. assert (ack_matches r s a = false) as ->.
    { unfold ack_matches. destruct (_ && _) eqn:Em; [|done]. apply andb_true_iff in Em as [Em1%bool_decide_eq_true Em2%Z.eqb_eq].
      by subst. }
    by rewrite app_nil_r.
Qed.

(** The server's verdict on one result: the last ack for its run and check
    number, or none. *)
Definition verdict (resp : ResultsResponse) (r : Result) : option ResultAck :=
  last (List.filter (ack_matches (RunID r) (r_Seq (res r))) (resp_Results resp)).

(** Every result of a posted batch gets exactly one outcome, under its own
    journal number and in order: the server's last ack for exactly its run
    id and check number, or acceptance when the response names it nowhere.
    No ack is ever applied to another result. *)
Theorem outcomes_match_acks batch resp :
  outcomesFor batch (Some resp) =
  (fun item => match verdict resp (pend_Result item) with
               | Some ack => mkOutcome (pend_Seq item) (Accepted ack) (Reason ack)
               | None => mkOutcome (pend_Seq item) true ""
               end) <$> batch.
Proof.
  unfold outcomesFor. apply map_ext. intros item. unfold outcome_of, verdict.
  rewrite ack_map_lookup. by destruct (last _).
Qed.

(** ** What is waiting *)

(** The undelivered results of an origin, oldest first. *)
Definition backlog (o : string) (d : database) : list PendingResult :=
  omap pending_of_row (List.filter (is_pending o) (journal d)).

Lemma backlog_seqs o d : pend_Seq <$> backlog o d = seq <$> List.filter (is_pending o) (journal d).
Proof.
  unfold backlog. destruct (omap_pending_of_row (List.filter (is_pending o) (journal d)) o) as (ps & E & Es).
  - apply Forall_forall. intros r Hr%list_elem_of_In. by apply filter_In in Hr as [_ ?].
  - by rewrite E.
Qed.

Lemma backlog_sorted o d : db_wf d -> StronglySorted Z.lt (pend_Seq <$> backlog o d).
Proof.
  intros Hwf. rewrite backlog_seqs. eapply sublist_StronglySorted; [|exact (wf_sorted _ Hwf)].
  apply sublist_fmap', sublist_filter.
Qed.

Lemma backlog_positive o d : db_wf d -> Forall (fun p => 0 < pend_Seq p) (backlog o d).
Proof.
  intros Hwf. apply (proj1 (Forall_fmap pend_Seq (fun z => 0 < z) _)). rewrite backlog_seqs.
  apply (sublist_Forall _ _ (seq <$> journal d)); [apply sublist_fmap', sublist_filter|].
  apply Forall_fmap. eapply Forall_impl; [exact (wf_bound _ Hwf)|]. intros r Hr; cbn in *; lia.
Qed.

Lemma omap_take {A B} (f : A -> option B) n l :
  Forall (fun x => is_Some (f x)) l -> omap f (take n l) = take n (omap f l).
Proof.
  intros H. revert n. induction H as [|x l [y Hy] Hl IH]; intros [|n]; try done.
  cbn [take omap list_omap]. rewrite Hy. cbn [take]. f_equal. apply IH.
Qed.

Lemma pending_page o fs d r d' fs' :
  PendingResults o 500 fs d = (r, d', fs') ->
  d' = d /\ match r with Ok ps => ps = take 500 (backlog o d) | Err _ => fs <> [] end.
Proof.
  unfold PendingResults, query, stmt. intros H.
  assert (omap pending_of_row (take 500 (List.filter (is_pending o) (journal d))) = take 500 (backlog o d)) as E.
  { apply omap_take. apply Forall_forall. intros x [_ Hx]%list_elem_of_In%filter_In.
    unfold is_pending in Hx. unfold pending_of_row. by destruct (jbody x). }
  change (Z.to_nat (pending_limit 500)) with 500%nat in H. rewrite E in H.
  destruct fs as [|[] fs]; injection H as <- <- <-; done.
Qed.

Lemma backlog_map o f d :
  (forall r, is_pending o (f r) = is_pending o r) ->
  (forall r, is_pending o r = true -> pending_of_row (f r) = pending_of_row r) ->
  backlog o (with_journal (map f) d) = backlog o d.
Proof.
  intros Hp Hr. unfold backlog. cbn [with_journal journal]. induction (journal d) as [|r j IH]; [done|].
  cbn [map List.filter]. rewrite Hp. destruct (is_pending o r) eqn:E; [|exact IH].
  cbn [omap list_omap]. rewrite Hr by done. destruct (pending_of_row r); [f_equal|]; exact IH.
Qed.

Lemma attempt_row_pending o chunk r : is_pending o (attempt_row chunk r) = is_pending o r.
Proof.
  unfold attempt_row. destruct (bool_decide _); [|done]. unfold is_pending, update_pending.
  destruct (jbody r) as [c|?|? ? ?|? ? ?] eqn:E; rewrite ?E; try done. by destruct (_ && _); rewrite ?E.
Qed.

Lemma attempt_row_result chunk r : pending_of_row (attempt_row chunk r) = pending_of_row r.
Proof.
  unfold attempt_row. destruct (bool_decide _); [|done]. unfold pending_of_row, update_pending.
  destruct (jbody r) as [c|?|? ? ?|? ? ?] eqn:E; rewrite ?E; try done. by destruct (_ && _); rewrite ?E.
Qed.

Lemma attempts_backlog o seqs fs d : backlog o (run (MarkAttempts seqs) fs d) = backlog o d.
Proof.
  assert (keeps (fun x => backlog o x = backlog o d) (MarkAttempts seqs)) as H; [|by apply H].
  unfold MarkAttempts. keeps_steps. intros d1 Hd1. rewrite <- Hd1. apply backlog_map; intros r.
  - apply attempt_row_pending.
  - intros _. apply attempt_row_result.
Qed.

Lemma first_outcome_spec s xs :
  match first_outcome s xs with
  | Some x => x ∈ xs /\ out_Seq x = s
  | None => s = 0 \/ s ∉ out_Seq <$> xs
  end.
Proof.
  induction xs as [|x xs IH]; cbn [first_outcome]; [right; apply not_elem_of_nil|].
  destruct (negb (out_Seq x =? 0) && (out_Seq x =? s)) eqn:E.
  - zify_bool. split; [left|done].
  - destruct (first_outcome s xs); [split; [right|]; apply IH|].
    destruct IH as [?|IH]; [by left|]. destruct (decide (s = 0)); [by left|]. right.
    rewrite fmap_cons, not_elem_of_cons. split; [|done]. intros ->. zify_bool; congruence.
Qed.

Lemma is_pending_result o r :
  is_pending o r = true -> exists p, pending_of_row r = Some p /\ pend_Seq p = seq r.
Proof. unfold is_pending, pending_of_row. destruct (jbody r); try done. eauto. Qed.

(** Settling removes exactly the named results from the backlog. *)
Lemma settle_backlog o now xs d :
  db_wf d ->
  backlog o (with_journal (map (settled_row now xs)) d)
  = List.filter (fun p => negb (bool_decide (pend_Seq p ∈ out_Seq <$> xs))) (backlog o d).
Proof.
  intros Hwf. unfold backlog. cbn [with_journal journal]. pose proof (wf_bound _ Hwf) as Hb.
  induction Hb as [|r j Hr Hb IH]; [done|]. cbn [map List.filter].
  pose proof (first_outcome_spec (seq r) xs) as Hf. unfold settled_row at 1 2.
  destruct (first_outcome (seq r) xs) as [x|].
  - destruct Hf as [Hx Es]. assert (seq r ∈ out_Seq <$> xs) as Hin by (rewrite <- Es; by apply list_elem_of_fmap_2).
    assert (is_pending o (update_pending (seq r) (settle_with now x) r) = false) as ->.
    { unfold is_pending, update_pending. destruct (jbody r) as [c|?|? ? ?|? ? ?] eqn:E; rewrite ?E; try done.
      rewrite Z.eqb_refl. cbn [andb]. pose proof (settle_with_state now x c) as Hs.
      destruct (delivery_state c =? 0) eqn:Ed; cbn; rewrite ?E, ?andb_false_r; [|by rewrite Ed, andb_false_r].
      by rewrite (proj2 (Z.eqb_neq _ _) Hs), andb_false_r. }
    rewrite IH. destruct (is_pending o r) eqn:Hp; [|done].
    apply is_pending_result in Hp as (p & Hp & Hs). cbn [omap list_omap]. rewrite Hp. cbn [List.filter].
    by rewrite Hs, bool_decide_eq_true_2.
  - destruct Hf as [|Hn]; [lia|]. destruct (is_pending o r) eqn:Hp; [|exact IH]. cbn [omap list_omap].
    apply is_pending_result in Hp as (p & Hp & Hs). rewrite Hp. cbn [List.filter].
    rewrite Hs, bool_decide_eq_false_2 by done. cbn [negb]. f_equal. exact IH.
Qed.

Lemma filter_not_taken (n : nat) (l : list PendingResult) :
  NoDup (pend_Seq <$> l) ->
  List.filter (fun p => negb (bool_decide (pend_Seq p ∈ pend_Seq <$> take n l))) l = drop n l.
Proof.
  intros Hn. rewrite <- (take_drop n l), fmap_app in Hn. apply NoDup_app in Hn as (_ & Hd & _).
  set (keep := fun p => _). replace (List.filter keep l) with (List.filter keep (take n l ++ drop n l))
    by (by rewrite take_drop).
  rewrite List.filter_app, (filter_none keep (take n l)), (filter_all keep (drop n l)); [done|..];
    unfold keep.
  - intros p Hp. rewrite bool_decide_eq_false_2; [done|]. intros Hin.
    apply (Hd _ Hin). by apply list_elem_of_fmap_2.
  - intros p Hp. rewrite bool_decide_eq_true_2; [done|]. by apply list_elem_of_fmap_2.
Qed.

Lemma sorted_NoDup (l : list Z) : StronglySorted Z.lt l -> NoDup l.
Proof.
  induction 1 as [|x l Hl IH Hx]; [constructor|]. constructor; [|done].
  intros Hin. rewrite Forall_forall in Hx. specialize (Hx x Hin). lia.
Qed.

Lemma outcome_seqs batch resp : out_Seq <$> outcomesFor batch resp = pend_Seq <$> batch.
Proof.
  unfold outcomesFor. destruct resp as [r|]; rewrite <- list_fmap_compose;
    apply list_fmap_ext; intros i item _; cbn; [|done]. unfold outcome_of. by destruct (_ !! _).
Qed.

(** One settled page leaves the rest of the backlog, in order. *)
Lemma settle_page o now n batch resp fs d u d' fs' :
  db_wf d -> batch = take n (backlog o d) ->
  MarkOutcomes now (outcomesFor batch resp) fs d = (Ok u, d', fs') ->
  backlog o d' = drop n (backlog o d).
Proof.
  intros Hwf -> H. apply MarkOutcomes_ok in H as ->. rewrite settle_backlog by done.
  rewrite outcome_seqs. apply filter_not_taken, sorted_NoDup, (backlog_sorted _ _ Hwf).
Qed.

(** ** The verdict in the journal *)

(** The delivery columns a verdict leaves: state 1 is delivered, 2 is
    rejected; a result the response names nowhere counts as delivered. *)
Definition verdict_columns (v : option ResultAck) : Z * option string :=
  match v with
  | Some a => if Accepted a then (1, None) else (2, Some (Reason a))
  | None => (1, None)
  end.

(** The journal holds the result's row with the verdict [v]. *)
Definition settled_as (d : database) (it : PendingResult) (v : option ResultAck) : Prop :=
  exists r c, r ∈ journal d /\ seq r = pend_Seq it /\ jbody r = BResult c
    /\ (delivery_state c, delivery_reason c) = verdict_columns v.

Lemma settled_as_map f it v d :
  (forall r, row_pending r = false -> f r = r) ->
  settled_as d it v -> settled_as (with_journal (map f) d) it v.
Proof.
  intros Hf (r & c & Hin & Hs & Hc & Hv). exists r, c. split_and!; try done. cbn [with_journal journal].
  apply list_elem_of_In, in_map_iff. exists r. split; [|by apply list_elem_of_In]. apply Hf.
  unfold row_pending. rewrite Hc. apply Z.eqb_neq. intros E. rewrite E in Hv.
  destruct v as [[? ? [] ?]|]; discriminate Hv.
Qed.

Lemma attempts_keep_settled it v seqs : keeps (fun d => settled_as d it v) (MarkAttempts seqs).
Proof. unfold MarkAttempts. keeps_steps. intros d. apply settled_as_map. by apply attempt_settled. Qed.

Lemma outcomes_keep_settled it v now xs : keeps (fun d => settled_as d it v) (MarkOutcomes now xs).
Proof.
  unfold MarkOutcomes. keeps_steps. unfold mark_outcome.
  keeps_steps; intros d; apply settled_as_map; intros r; apply update_pending_settled.
Qed.

Lemma backlog_row o d it :
  it ∈ backlog o d -> exists r c, r ∈ journal d /\ seq r = pend_Seq it /\ jbody r = BResult c /\ delivery_state c = 0.
Proof.
  unfold backlog. intros (r & [Hin Hp]%list_elem_of_In%filter_In & Hr)%list_elem_of_omap.
  unfold is_pending in Hp. unfold pending_of_row in Hr. destruct (jbody r) as [c|?|? ? ?|? ? ?] eqn:E; try done.
  injection Hr as <-. apply andb_true_iff in Hp as [_ Hp%Z.eqb_eq]. exists r, c. by rewrite list_elem_of_In.
Qed.

(** Settling a posted page writes the server's verdict on each of its results. *)
Lemma settle_page_as o now n batch resp fs d u d' fs' :
  db_wf d -> batch = take n (backlog o d) ->
  MarkOutcomes now (outcomesFor batch (Some resp)) fs d = (Ok u, d', fs') ->
  Forall (fun it => settled_as d' it (verdict resp (pend_Result it))) batch.
Proof.
  intros Hwf Hbatch H. apply MarkOutcomes_ok in H as ->. apply Forall_forall. intros it Hit.
  assert (it ∈ backlog o d) as Hib by (rewrite Hbatch in Hit; eapply elem_of_sublist; [exact Hit|apply sublist_take]).
  destruct (backlog_row _ _ _ Hib) as (r & c & Hin & Hs & Hc & H0).
  rewrite outcomes_match_acks. set (xs := _ <$> batch).
  pose proof (first_outcome_spec (seq r) xs) as Hf. destruct (first_outcome (seq r) xs) as [x|] eqn:Ef.
  2: { exfalso. pose proof (backlog_positive o _ Hwf) as Hpos. rewrite Forall_forall in Hpos. specialize (Hpos _ Hib).
       destruct Hf as [|Hn]; [lia|]. apply Hn. rewrite Hs. apply list_elem_of_fmap. eexists. split.
       2: { by apply list_elem_of_fmap_2. } by destruct (verdict _ _). }
  destruct Hf as [(it' & -> & Hit')%list_elem_of_fmap Hx].
  assert (it' = it) as ->.
  { assert (it' ∈ backlog o d) as Hib' by (rewrite Hbatch in Hit'; eapply elem_of_sublist; [exact Hit'|apply sublist_take]).
    assert (pend_Seq it' = pend_Seq it) as E by (rewrite <- Hs, <- Hx; by destruct (verdict _ _)).
    pose proof (sorted_NoDup _ (backlog_sorted o _ Hwf)) as Hnd.
    apply list_elem_of_lookup in Hib as [i Hi]. apply list_elem_of_lookup in Hib' as [j Hj].
    assert (i = j) as <- by (eapply (NoDup_lookup _ i j (pend_Seq it) Hnd); by rewrite list_lookup_fmap, ?Hi, ?Hj; cbn; rewrite ?E).
    congruence. }
  assert (settled_row now xs r ∈ journal (with_journal (map (settled_row now xs)) d)) as Hrow
    by (apply list_elem_of_In, in_map, list_elem_of_In, Hin).
  revert Hrow. unfold settled_row at 1. rewrite Ef. unfold update_pending. rewrite Hc, Z.eqb_refl, H0.
  cbn [andb Z.eqb]. intros Hrow. eexists _, _. split_and!; [exact Hrow|exact Hs|reflexivity|].
  unfold settle_with. by destruct (verdict _ _) as [[? ? [] ?]|].
Qed.

(** ** Draining the store *)

Section drain_spec.
Context (server : nat -> list Result -> option ResultsResponse)
        (clock : nat -> time) (expired : nat -> bool).

(** The pages a drain had answered: for each, the items and the answer. *)
Definition page_items (ps : list (list PendingResult * ResultsResponse)) : list PendingResult :=
  concat (map fst ps).

Definition page_totals (ps : list (list PendingResult * ResultsResponse)) (t : totals) : totals :=
  fold_left (fun t p => add_totals (length (fst p)) (snd p) t) ps t.

Definition delay_after (ps : list (list PendingResult * ResultsResponse)) (d : delivery) : delivery :=
  match ps with [] => d | _ => clearDeliveryBackoff d end.

(** From a store with backlog [l]: the pages [ps] were posted, answered and
    settled in order, then [u] was posted and not settled. *)
Definition drained (l : list PendingResult) (ps : list (list PendingResult * ResultsResponse))
    (u : list PendingResult) (page : nat) (t0 t : totals)
    (o : string) (err : option string) (w w' : store_world) : Prop :=
  (exists rest, l = page_items ps ++ u ++ rest /\ backlog o (w_db w') = u ++ rest)
  /\ db_wf (w_db w')
  /\ t = page_totals ps t0
  /\ w_sent w' = w_sent w ++ map (map pend_Result) (map fst ps)
       ++ match u with [] => [] | _ => [map pend_Result u] end
  /\ (forall i items resp, ps !! i = Some (items, resp) ->
        server (length (w_sent w) + i)%nat (map pend_Result items) = Some resp
        /\ Forall (fun it => settled_as (w_db w') it (verdict resp (pend_Result it))) items)
  /\ (err = None -> u = [])
  /\ w_delivery w' = match err with
       | None => delay_after ps (w_delivery w)
       | Some _ => backoffDelivery (clock (page + length ps)) (delay_after ps (w_delivery w))
       end.

(** The drain ended before this page was answered and settled. *)
Lemma drained_stop l u page t o err w w' :
  (exists rest, l = u ++ rest) -> backlog o (w_db w') = l -> db_wf (w_db w') ->
  w_sent w' = w_sent w ++ match u with [] => [] | _ => [map pend_Result u] end ->
  (err = None -> u = []) ->
  w_delivery w' = match err with
    | None => w_delivery w | Some _ => backoffDelivery (clock page) (w_delivery w) end ->
  drained l [] u page t t o err w w'.
Proof.
  intros [rest ->] Hb Hwf Hs He Hd. split_and!; try done.
  - by exists rest.
  - rewrite Hd, Nat.add_0_r. by destruct err.
Qed.

Lemma drained_page l k ps u page resp t0 t o err w w1 w2 :
  drained (drop k l) ps u (S page) (add_totals (length (take k l)) resp t0) t o err w1 w2 ->
  w_sent w1 = w_sent w ++ [pend_Result <$> take k l] ->
  server (length (w_sent w)) (pend_Result <$> take k l) = Some resp ->
  Forall (fun it => settled_as (w_db w2) it (verdict resp (pend_Result it))) (take k l) ->
  w_delivery w1 = clearDeliveryBackoff (w_delivery w) ->
  drained l ((take k l, resp) :: ps) u page t0 t o err w w2.
Proof.
  intros ((rest & Hl & Hb) & Hwf & Ht & Hs & Ha & He & Hd) Hs1 Hsrv Hset Hd1. split_and!; try done.
  - exists rest. split; [|done]. unfold page_items in *. cbn [map fst concat].
    by rewrite <- app_assoc, <- Hl, take_drop.
  - by rewrite Hs, Hs1, <- app_assoc.
  - intros [|i] items resp' Hi; cbn [lookup list_lookup] in Hi.
    + injection Hi as <- <-. by rewrite Nat.add_0_r.
    + specialize (Ha i items resp' Hi). rewrite Hs1, length_app in Ha. cbn [length] in Ha.
      by replace (length (w_sent w) + S i)%nat with (length (w_sent w) + 1 + i)%nat by lia.
  - rewrite Hd, Hd1. cbn [delay_after length]. rewrite Nat.add_succ_r, <- Nat.add_succ_l.
    by destruct err, ps.
Qed.

(** A page is a prefix of the backlog, empty only when nothing waits. *)
Lemma page_prefix {A} (l : list A) :
  exists k, (k <= length l)%nat /\ (l <> [] -> (0 < k)%nat) /\ take 500 l = take k l.
Proof.
  exists (Nat.min 500 (length l)). split_and!; [lia|by destruct l; simpl; try lia|].
  destruct (Nat.min_spec 500 (length l)) as [[? ->]|[? ->]]; [done|]. by rewrite !take_ge by lia.
Qed.

Lemma MarkOutcomes_err now xs fs d e d' fs' : MarkOutcomes now xs fs d = (Err e, d', fs') -> d' = d.
Proof. unfold MarkOutcomes. intros H. destruct xs; [done|]. by eapply tx_err. Qed.

Lemma drain_pages_keeps_settled it v fuel o page t w t' err w' :
  drain_pages server clock expired fuel o page t w = Some (t', err, w') ->
  settled_as (w_db w) it v -> settled_as (w_db w') it v.
Proof.
  revert page t w. induction fuel as [|fuel IH]; intros page t w; [done|]. cbn [drain_pages].
  destruct (expired page); [by intros [= <- <- <-]|].
  destruct (PendingResults o 500 (w_faults w) (w_db w)) as [[r db] fs] eqn:Ep.
  apply pending_page in Ep as [-> _]. destruct r as [[|p0 rest]|e]; [by intros [= <- <- <-]| |by intros [= <- <- <-]].
  set (batch := p0 :: rest). pose proof (attempts_keep_settled it v (pend_Seq <$> batch) fs (w_db w)) as Ha.
  unfold run in Ha. destruct (MarkAttempts _ _ _) as [[ra db] fs1]. cbn [fst snd] in Ha. unfold postResults.
  destruct (server _ _) as [resp|]; [|intros [= <- <- <-]; exact Ha].
  pose proof (outcomes_keep_settled it v (to_unix_milli (clock page)) (outcomesFor batch (Some resp)) fs1 db) as Hm.
  unfold run in Hm. destruct (MarkOutcomes _ _ _ _) as [[[u0|e] db2] fs2]; cbn [fst snd] in Hm.
  2: { intros [= <- <- <-]. auto. }
  destruct (_ <? _)%nat; [intros [= <- <- <-]; auto|]. intros E H. eapply IH; [exact E|]. cbn [w_db]. auto.
Qed.

Lemma drain_pages_spec fuel o page t w :
  db_wf (w_db w) -> (length (backlog o (w_db w)) < fuel)%nat ->
  exists t' err w' ps u,
    drain_pages server clock expired fuel o page t w = Some (t', err, w')
    /\ drained (backlog o (w_db w)) ps u page t t' o err w w'.
Proof.
  revert page t w. induction fuel as [|fuel IH]; intros page t w Hwf Hfuel; [lia|].
  cbn [drain_pages]. set (l := backlog o (w_db w)) in *.
  assert (forall db' fs' err, backlog o db' = l -> db_wf db' -> drained l [] [] page t t o err w
    (mkStoreWorld db' fs' (w_sent w) (match err with None => w_delivery w
       | Some _ => backoffDelivery (clock page) (w_delivery w) end))) as Hstop.
  { intros db' fs' err Hb' Hwf'. apply drained_stop; try done; [by exists l|by rewrite app_nil_r]. }
  destruct (expired page).
  { eexists _, None, _, [], []. split; [done|]. destruct w. by apply (Hstop _ _ None). }
  destruct (PendingResults o 500 (w_faults w) (w_db w)) as [[r db] fs] eqn:Ep.
  apply pending_page in Ep as [-> Hr].
  destruct r as [batch|e]; [|eexists _, (Some e), _, [], []; split; [done|]; by apply (Hstop _ _ (Some e))].
  fold l in Hr. destruct batch as [|p0 rest];
    [eexists _, None, _, [], []; split; [done|]; by apply (Hstop _ _ None)|].
  assert (l <> []) as Hne by (intros E0; by rewrite E0 in Hr). rewrite Hr. clear Hr p0 rest Hstop.
  destruct (page_prefix l) as (k & Hk & Hl & Htake). rewrite Htake. specialize (Hl Hne).
  assert (exists x xs, take k l = x :: xs) as (x0 & xs0 & Hx)
    by (destruct l, k; [done|done|lia|by eexists _, _]).
  pose proof (attempts_backlog o (pend_Seq <$> take k l) fs (w_db w)) as Ha. unfold run in Ha.
  pose proof (MarkAttempts_keeps (pend_Seq <$> take k l) fs (w_db w) Hwf) as Hwfa. unfold run in Hwfa.
  destruct (MarkAttempts _ _ _) as [[ra db] fs1]. cbn [fst snd] in Ha, Hwfa. fold l in Ha. unfold postResults.
  assert (forall fs' e, drained l [] (take k l) page t t o (Some e) w
    (mkStoreWorld db fs' (w_sent w ++ [pend_Result <$> take k l]) (backoffDelivery (clock page) (w_delivery w)))) as Hstop.
  { intros fs' e. apply drained_stop; try done; [exists (drop k l); by rewrite take_drop|by rewrite Hx]. }
  destruct (server _ _) as [resp|] eqn:Hsrv; [|by eexists _, (Some _), _, [], (take k l)].
  destruct (MarkOutcomes _ _ _ _) as [[[u0|e] db2] fs2] eqn:Em.
  2: { eexists _, (Some e), _, [], (take k l). split; [done|]. apply MarkOutcomes_err in Em as ->. apply Hstop. }
  assert (db_wf db2) as Hwf2 by (rewrite <- (run_ok _ _ _ _ _ _ Em); by apply MarkOutcomes_keeps).
  assert (Forall (fun it => settled_as db2 it (verdict resp (pend_Result it))) (take k l)) as Hset.
  { eapply (settle_page_as o); [exact Hwfa|by rewrite Ha|exact Em]. }
  apply (settle_page o _ k) in Em; [|done|by rewrite Ha]. rewrite Ha in Em.
  set (t1 := add_totals _ resp t). set (w1 := mkStoreWorld db2 _ _ _).
  destruct (length (take k l) <? 500)%nat.
  - eexists t1, None, w1, [(take k l, resp)], []. split; [done|].
    apply (drained_page l k [] [] page resp t t1 o None w w1 w1); try done.
    apply drained_stop; try done; [by exists (drop k l)|by rewrite app_nil_r].
  - destruct (IH (S page) t1 w1) as (t' & err & w' & ps & u & E & Hd); [done| |].
    { unfold w1. cbn [w_db]. rewrite Em, length_drop. lia. }
    exists t', err, w', ((take k l, resp) :: ps), u. split; [exact E|].
    apply (drained_page l k ps u page resp t t' o err w w1 w'); try done; [by rewrite <- Em|].
    eapply Forall_impl; [exact Hset|]. intros it. by apply (drain_pages_keeps_settled _ _ _ _ _ _ _ _ _ _ E).
Qed.
End drain_spec.

(** C2: Draining the local store never loses, reorders or invents a delivery.
    For any server behaviour, statement failures and deadline, with one unit
    of fuel per waiting result the drain returns.  Its requests are, in
    journal order, pages of waiting results; a page leaves the backlog only
    if the server answered exactly that request, every result of it then
    carries the server's verdict on it (delivered, or rejected with the
    reason), and the totals count exactly the answered pages; a page that was
    not answered, or whose verdicts could not be stored, is the last one
    sent, stays queued whole and is reported as an error.  The retry delay
    is reset by an answered page and grows on an error. *)
Theorem drain_store_in_order server clock expired fuel o now w :
  db_wf (w_db w) -> (length (backlog o (w_db w)) < fuel)%nat ->
  exists t err w' (pages : list (list PendingResult * ResultsResponse)) unsettled rest,
    drainStore server clock expired fuel o now w = Some (t, err, w')
    /\ backlog o (w_db w) = concat (map fst pages) ++ unsettled ++ rest
    /\ backlog o (w_db w') = unsettled ++ rest
    /\ w_sent w' = w_sent w ++ map (map pend_Result) (map fst pages)
         ++ match unsettled with [] => [] | _ => [map pend_Result unsettled] end
    /\ (forall i items resp, pages !! i = Some (items, resp) ->
          server (length (w_sent w) + i)%nat (map pend_Result items) = Some resp
          /\ Forall (fun it => settled_as (w_db w') it (verdict resp (pend_Result it))) items)
    /\ t = fold_left (fun t p => add_totals (length (fst p)) (snd p) t) pages no_totals
    /\ (err = None -> unsettled = [])
    /\ (if backing_off now (w_delivery w) then w' = w
        else let kept := match pages with [] => w_delivery w | _ => clearDeliveryBackoff (w_delivery w) end in
             w_delivery w' = match err with
               | None => kept | Some _ => backoffDelivery (clock (length pages)) kept end).
Proof.
  intros Hwf Hf. unfold drainStore. destruct (backing_off now (w_delivery w)).
  - exists no_totals, None, w, [], [], (backlog o (w_db w)). split_and!; try done. by rewrite app_nil_r.
  - destruct (drain_pages_spec server clock expired fuel o 0 no_totals w)
      as (t & err & w' & ps & u & E & (rest & Hl & Hb) & _ & Ht & Hs & Ha & He & Hd); [done..|].
    exists t, err, w', ps, u, rest. by split_and!.
Qed.

(** ** A healthy server and disk deliver everything *)

Lemma sql_for_outcomes_run now xs d :
  exists d', sql_for (mark_outcome now) xs [] d = (Ok tt, d', []).
Proof.
  revert d. induction xs as [|x xs IH]; intros d; [by eexists|]. cbn [sql_for].
  assert (exists d1, mark_outcome now x [] d = (Ok tt, d1, [])) as [d1 E].
  { unfold mark_outcome. destruct (out_Seq x =? 0); [|destruct (out_Accepted x)]; by eexists. }
  destruct (IH d1) as [d' E']. exists d'. erewrite bind_run by exact E. exact E'.
Qed.

Lemma MarkOutcomes_run now xs d : exists d', MarkOutcomes now xs [] d = (Ok tt, d', []).
Proof.
  unfold MarkOutcomes. destruct xs as [|x xs]; [by eexists|].
  destruct (sql_for_outcomes_run now (x :: xs) d) as [d' E]. exists d'. by apply tx_run.
Qed.

Lemma MarkAttempts_run seqs d : exists d', MarkAttempts seqs [] d = (Ok tt, d', []).
Proof.
  unfold MarkAttempts. generalize (chunks 500 seqs) as l. intros l. revert d.
  induction l as [|c l IH]; intros d; [by eexists|]. apply IH.
Qed.

Lemma chunks_aux_fuel {A} f f' n (l : list A) :
  (0 < n)%nat -> (length l <= f)%nat -> (length l <= f')%nat -> chunks_aux f n l = chunks_aux f' n l.
Proof.
  intros Hn. revert f' l. induction f as [|f IH]; intros f' [|x l] H1 H2; destruct f' as [|f'];
    cbn [length chunks_aux] in *; try done; try lia.
  f_equal. apply IH; rewrite length_drop; cbn [length]; lia.
Qed.

Lemma chunks_cons {A} n (l : list A) :
  (0 < n)%nat -> l <> [] -> chunks n l = take n l :: chunks n (drop n l).
Proof.
  intros Hn Hl. unfold chunks. destruct l as [|x l]; [done|]. cbn [length chunks_aux]. f_equal.
  apply chunks_aux_fuel; [done|..]; rewrite length_drop; cbn [length]; lia.
Qed.

Lemma drain_pages_all server clock fuel o page t w :
  (forall n rs, server n rs <> None) -> db_wf (w_db w) -> w_faults w = [] ->
  (length (backlog o (w_db w)) < fuel)%nat ->
  exists t' w', drain_pages server clock (fun _ => false) fuel o page t w = Some (t', None, w')
    /\ backlog o (w_db w') = []
    /\ w_sent w' = w_sent w ++ map (map pend_Result) (chunks 500 (backlog o (w_db w)))
    /\ w_delivery w' = if decide (backlog o (w_db w) = []) then w_delivery w else clearDeliveryBackoff (w_delivery w).
Proof.
  intros Hsrv. revert page t w. induction fuel as [|fuel IH]; intros page t w Hwf Hfs Hfuel; [lia|].
  cbn [drain_pages]. set (l := backlog o (w_db w)) in *. rewrite Hfs.
  destruct (PendingResults o 500 [] (w_db w)) as [[r db] fs] eqn:Ep.
  pose proof Ep as Ep'. apply pending_page in Ep' as [-> Hr]. fold l in Hr.
  destruct r as [batch|e]; [|done]. assert (fs = []) as -> by (by injection Ep as _ <-).
  destruct batch as [|p0 rest].
  { assert (l = []) as Hl by (by destruct l). rewrite Hl. eexists _, _. split; [done|]. cbn.
    fold l. rewrite Hl. rewrite app_nil_r. done. }
  assert (l <> []) as Hne by (intros E0; by rewrite E0 in Hr). rewrite Hr. clear Hr p0 rest Ep.
  rewrite decide_False by done. rewrite (chunks_cons 500 l) by (done || lia).
  set (batch := take 500 l).
  destruct (MarkAttempts_run (pend_Seq <$> batch) (w_db w)) as [db Ea]. rewrite Ea.
  pose proof (attempts_backlog o (pend_Seq <$> batch) [] (w_db w)) as Ha.
  pose proof (MarkAttempts_keeps (pend_Seq <$> batch) [] (w_db w) Hwf) as Hwfa.
  unfold run in Ha, Hwfa. rewrite Ea in Ha, Hwfa. cbn [fst snd] in Ha, Hwfa. fold l in Ha. unfold postResults.
  destruct (server _ _) as [resp|] eqn:Es; [|by apply Hsrv in Es].
  destruct (MarkOutcomes_run (to_unix_milli (clock page)) (outcomesFor batch (Some resp)) db) as [db2 Em].
  rewrite Em. assert (db_wf db2) as Hwf2 by (rewrite <- (run_ok _ _ _ _ _ _ Em); by apply MarkOutcomes_keeps).
  apply (settle_page o _ 500) in Em; [|done|by rewrite Ha]. rewrite Ha in Em.
  destruct (Nat.ltb_spec (length batch) 500) as [Hlt|Hge].
  - assert (drop 500 l = []) as Hd by (unfold batch in Hlt; rewrite length_take in Hlt; apply drop_ge; lia).
    eexists _, _. split; [done|]. cbn [w_db w_sent w_delivery]. rewrite Em, Hd. done.
  - destruct (IH (S page) (add_totals (length batch) resp t)
      (mkStoreWorld db2 [] (w_sent w ++ [pend_Result <$> batch]) (clearDeliveryBackoff (w_delivery w))))
      as (t' & w' & E & Hb & Hs & Hd); [done|done| |].
    { cbn [w_db]. rewrite Em, length_drop. unfold batch in Hge. rewrite length_take in Hge. lia. }
    exists t', w'. split; [exact E|]. split; [done|]. cbn [w_db w_sent w_delivery] in *. rewrite Hs, Hd, Em.
    rewrite <- app_assoc. split; [done|]. destruct (decide (drop 500 l = [])); reflexivity.
Qed.

(** C13: With a server that answers, a disk that works and time to finish, one
    drain empties the backlog: every waiting result is posted exactly once,
    in journal order, in pages of 500, and the retry delay is reset. *)
Theorem drain_store_delivers_all server clock fuel o now w :
  (forall n rs, server n rs <> None) -> db_wf (w_db w) -> w_faults w = [] ->
  backing_off now (w_delivery w) = false -> (length (backlog o (w_db w)) < fuel)%nat ->
  exists t w', drainStore server clock (fun _ => false) fuel o now w = Some (t, None, w')
    /\ backlog o (w_db w') = []
    /\ w_sent w' = w_sent w ++ map (map pend_Result) (chunks 500 (backlog o (w_db w)))
    /\ (backlog o (w_db w) <> [] -> deliveryBackoff (w_delivery w') = 0).
Proof.
  intros Hsrv Hwf Hfs Hb Hf. unfold drainStore. rewrite Hb.
  destruct (drain_pages_all server clock fuel o 0 no_totals w) as (t & w' & E & Hb' & Hs & Hd); [done..|].
  exists t, w'. split_and!; [done..|]. intros Hne. rewrite Hd. by rewrite decide_False.
Qed.

(** ** Draining the spool *)

(** The results of the readable batches among [es]. *)
Definition readable (s : resultSpool) (es : list spoolEntry) : list (list Result) :=
  omap (fun e => match read (path e) s with Ok b => Some (sb_Results b) | Err _ => None end) es.

(** The server answered each of these requests, the first being the [n]-th. *)
Definition answered_from (server : nat -> list Result -> option ResultsResponse) (n : nat)
    (posts : list (list Result)) : Prop :=
  forall k rs, posts !! k = Some rs -> server (n + k)%nat rs <> None.

Lemma answered_cons server n rs posts :
  server n rs <> None -> answered_from server (n + 1) posts -> answered_from server n (rs :: posts).
Proof.
  intros H Ha [|k] rs' Hk; [injection Hk as <-; by rewrite Nat.add_0_r|].
  replace (n + S k)%nat with (n + 1 + k)%nat by lia. by apply Ha.
Qed.

Lemma readable_after e es s :
  pending s = e :: es -> forall l, sublist l es ->
  readable (with_files (delete (path e)) s) l = readable s l.
Proof.
  intros Hp l Hl. unfold readable. apply pending_delete_head in Hp.
  assert (Forall (fun e' => path e' <> path e) l) as Hne.
  { apply Forall_forall. intros e' He' E. assert (e' ∈ es) as Hin by (by eapply elem_of_sublist). rewrite <- Hp in Hin.
    apply pending_elem in Hin as (x & Hx & _). cbn [with_files files] in Hx. rewrite E, lookup_delete_eq in Hx. done. }
  clear Hl Hp. induction Hne as [|e' l He' Hl IH]; [done|]. cbn [omap list_omap].
  assert (read (path e') (with_files (delete (path e)) s) = read (path e') s) as ->.
  { unfold read. cbn [with_files files]. by rewrite lookup_delete_ne. }
  destruct (read _ _); [f_equal|]; exact IH.
Qed.

Lemma drain_batches_spec server clock expired removable entries i t w :
  (forall p, has_suffix p ".json" = true -> removable p = true) ->
  pending (s_spool w) = entries ->
  let '(t', err, w') := drain_batches server clock expired removable entries i t w in
  exists m, (m <= length entries)%nat /\ pending (s_spool w') = drop m entries
    /\ s_sent w' = s_sent w ++ readable (s_spool w) (take m entries)
         ++ match err with None => [] | Some _ => readable (s_spool w) (take 1 (drop m entries)) end
    /\ (forall p, (forall en, en ∈ take m entries -> path en <> p) ->
          files (s_spool w') !! p = files (s_spool w) !! p)
    /\ answered_from server (length (s_sent w)) (readable (s_spool w) (take m entries)).
Proof.
  intros Hr. revert i t w. induction entries as [|e es IH]; intros i t w Hp; cbn [drain_batches].
  { exists 0%nat. cbn. rewrite app_nil_r. split_and!; done. }
  destruct (expired i).
  { exists 0%nat. cbn. rewrite app_nil_r. split_and!; try done; lia. }
  assert (removable (path e) = true) as Hre.
  { apply Hr. assert (e ∈ pending (s_spool w)) as (x & _ & Hb)%pending_elem by (rewrite Hp; left).
    unfold batch_file in Hb. cbn [fst snd] in Hb. destruct (has_suffix (path e) ".json"); [done|].
    by rewrite orb_true_r in Hb. }
  unfold remove. rewrite Hre. set (s1 := with_files (delete (path e)) (s_spool w)).
  assert (pending s1 = es) as Hp1 by (by apply pending_delete_head).
  assert (forall l, sublist l es -> readable s1 l = readable (s_spool w) l) as Hrd by (by apply readable_after).
  assert (forall b i t w1, read (path e) (s_spool w) = b -> s_spool w1 = s1 ->
    s_sent w1 = s_sent w ++ match b with Ok b => [sb_Results b] | Err _ => [] end ->
    match b with
    | Ok b => server (length (s_sent w)) (sb_Results b) <> None
    | Err _ => True
    end ->
    let '(t', err, w') := drain_batches server clock expired removable es i t w1 in
    exists m, (m <= length (e :: es))%nat /\ pending (s_spool w') = drop m (e :: es)
      /\ s_sent w' = s_sent w ++ readable (s_spool w) (take m (e :: es))
           ++ match err with None => [] | Some _ => readable (s_spool w) (take 1 (drop m (e :: es))) end
      /\ (forall p, (forall en, en ∈ take m (e :: es) -> path en <> p) ->
            files (s_spool w') !! p = files (s_spool w) !! p)
      /\ answered_from server (length (s_sent w)) (readable (s_spool w) (take m (e :: es)))) as Hstep.
  { intros b j t1 w1 Hb Hs1 Hsent Hans. specialize (IH j t1 w1). rewrite Hs1 in IH. specialize (IH Hp1).
    destruct (drain_batches _ _ _ _ _ _ _ _) as [[t' err] w'].
    destruct IH as (m & Hm & Hpd & Hs & Hfs & Ha). exists (S m). cbn [length drop take].
    rewrite !Hrd in Hs by (apply sublist_take || (etrans; [apply sublist_take|apply sublist_drop])).
    rewrite Hrd, Hsent, length_app in Ha by apply sublist_take.
    assert (readable (s_spool w) (e :: take m es)
      = match b with Ok b => [sb_Results b] | Err _ => [] end ++ readable (s_spool w) (take m es)) as ->.
    { unfold readable at 1. cbn [omap list_omap]. rewrite Hb. by destruct b. }
    split_and!; [lia|done| | |].
    - by rewrite Hs, Hsent, <- !app_assoc.
    - intros p Hpn. rewrite Hfs by (intros en Hen; apply Hpn; by right).
      unfold s1, with_files. cbn [files]. apply lookup_delete_ne. apply Hpn. left.
    - destruct b as [b|]; [|by rewrite Nat.add_0_r in Ha]. cbn [app]. by apply answered_cons. }
  destruct (read (path e) (s_spool w)) as [b|er] eqn:Hread.
  - unfold postResults. destruct (server _ _) as [resp|] eqn:Es.
    + apply (Hstep (Ok b)); [done..|]. by rewrite Es.
    + exists 0%nat. cbn [take drop]. split_and!; [lia|done| |done|done].
      cbn [s_sent app readable omap list_omap]. unfold readable. cbn [omap list_omap]. by rewrite Hread.
  - apply (Hstep (Err er)); [done..| |done]. cbn. by rewrite app_nil_r.
Qed.

Lemma drainSpool_spec server clock expired removable now w :
  (forall p, has_suffix p ".json" = true -> removable p = true) ->
  let '(t, err, w') := drainSpool server clock expired removable true now w in
  let es := pending (s_spool w) in
  exists m, (m <= length es)%nat /\ pending (s_spool w') = drop m es
    /\ s_sent w' = s_sent w ++ readable (s_spool w) (take m es)
         ++ match err with None => [] | Some _ => readable (s_spool w) (take 1 (drop m es)) end
    /\ (forall p, (forall en, en ∈ take m es -> path en <> p) ->
          files (s_spool w') !! p = files (s_spool w) !! p)
    /\ answered_from server (length (s_sent w)) (readable (s_spool w) (take m es)).
Proof.
  intros Hr. unfold drainSpool. destruct (backing_off _ _).
  - exists 0%nat. cbn. rewrite app_nil_r. split_and!; try done; lia.
  - by apply drain_batches_spec.
Qed.

(** C32: Draining the spool never loses or reorders a batch.  Batches are posted
    oldest first and leave the directory only when the server answered or
    when they cannot be read at all; at a failed request the batch in hand
    and every later one stay queued. *)
Theorem drain_spool_in_order server clock expired removable now w :
  (forall p, has_suffix p ".json" = true -> removable p = true) ->
  let '(t, err, w') := drainSpool server clock expired removable true now w in
  let es := pending (s_spool w) in
  exists m, (m <= length es)%nat /\ pending (s_spool w') = drop m es
    /\ s_sent w' = s_sent w ++ readable (s_spool w) (take m es)
         ++ match err with None => [] | Some _ => readable (s_spool w) (take 1 (drop m es)) end
    /\ answered_from server (length (s_sent w)) (readable (s_spool w) (take m es)).
Proof.
  intros Hr. pose proof (drainSpool_spec server clock expired removable now w Hr) as H.
  destruct (drainSpool _ _ _ _ _ _ _) as [[t err] w']. destruct H as (m & ? & ? & ? & _ & ?). eauto 6.
Qed.

(** ** On the small store and spool *)

Definition demo_server (n : nat) (rs : list Result) : option ResultsResponse :=
  Some (mkResponse 1 1 [mkAck "run1" 2 false "too_old"] "active").

(** A server that fails every request after the first. *)
Definition flaky_server (n : nat) (rs : list Result) : option ResultsResponse :=
  if (n =? 0)%nat then demo_server n rs else None.

Definition demo_world : store_world := mkStoreWorld demo_db [] [] (mkDelivery 0 zero_time).

Definition demo_clock (n : nat) : time := unix_milli 5000.

Lemma backoff_schedule_witness :
  let d := fold_left (fun d t => backoffDelivery t d) ([1 * second; 7 * second] ++ [20 * second])
    (clearDeliveryBackoff (mkDelivery 0 0)) in
  deliveryBackoff d = 20 * second /\ backing_off (39 * second) d = true.
Proof.
  destruct (backoff_schedule [1 * second; 7 * second] (20 * second) (mkDelivery 0 0)) as (H1 & _ & H3).
  split; [exact H1|]. rewrite H3; [rewrite H1|]; vm_compute; reflexivity.
Defined.

Lemma drain_store_in_order_witness :
  exists t err w' (pages : list (list PendingResult * ResultsResponse)) unsettled rest,
    drainStore flaky_server demo_clock (fun _ => false) 3 "node" 0 demo_world = Some (t, err, w')
    /\ backlog "node" demo_db = concat (map fst pages) ++ unsettled ++ rest
    /\ backlog "node" (w_db w') = unsettled ++ rest
    /\ delivered t = 2 /\ accepted t = 1 /\ rejected t = 1.
Proof.
  destruct (drain_store_in_order flaky_server demo_clock (fun _ => false) 3 "node" 0 demo_world
    demo_db_wf) as (t & err & w' & pages & u & rest & E & Hl & Hb & _).
  - apply Nat.ltb_lt. vm_compute. reflexivity.
  - exists t, err, w', pages, u, rest. split; [exact E|]. split; [exact Hl|]. split; [exact Hb|].
    vm_compute in E. injection E as <- _ _. vm_compute. done.
Defined.

Lemma drain_store_delivers_all_witness :
  exists t w', drainStore demo_server demo_clock (fun _ => false) 3 "node" 0 demo_world = Some (t, None, w')
    /\ backlog "node" (w_db w') = [] /\ length (w_sent w') = 1%nat.
Proof.
  destruct (drain_store_delivers_all demo_server demo_clock 3 "node" 0 demo_world) as (t & w' & E & Hb & Hs & _).
  - discriminate.
  - exact demo_db_wf.
  - reflexivity.
  - reflexivity.
  - apply Nat.ltb_lt. vm_compute. reflexivity.
  - exists t, w'. split; [exact E|]. split; [exact Hb|]. rewrite Hs. vm_compute. reflexivity.
Defined.

Definition demo_spool_world : spool_world := mkSpoolWorld demo_spool [] (mkDelivery 0 zero_time).

Lemma drain_spool_in_order_witness :
  let '(t, err, w') := drainSpool flaky_server demo_clock (fun _ => false) (fun _ => true) true 0 demo_spool_world in
  exists m, (m <= 3)%nat /\ pending (s_spool w') = drop m (pending demo_spool).
Proof.
  pose proof (drain_spool_in_order flaky_server demo_clock (fun _ => false) (fun _ => true) 0 demo_spool_world
    (fun _ _ => eq_refl)) as H.
  destruct (drainSpool _ _ _ _ _ _ _) as [[t err] w']. destruct H as (m & Hm & Hp & _).
  exists m. split; [|exact Hp]. rewrite (demo_pending : pending (s_spool demo_spool_world) = _) in Hm. exact Hm.
Defined.

Example demo_drain_fails :
  let '(_, err, w') := drainSpool flaky_server demo_clock (fun _ => false) (fun _ => true) true 0 demo_spool_world in
  err = Some "post results"%string /\ length (s_sent w') = 2%nat
  /\ path <$> pending (s_spool w') = [batch_name 2000 "bb"; batch_name 3000 "cc"]
  /\ s_delivery w' = mkDelivery (5 * second) (unix_milli 10000).
Proof. vm_compute. done. Qed.
