(* ===== verification/Netbind.v ===== *)
(** * Outbound bindings

    [internal/netbind/binding.go]: the source address and interface of a
    node's probe connections, how they are parsed, applied to a dial, and
    handed to a module's child processes.  [net/netip] and [net] are an
    interface ([NetIP]); sockets are not modelled, only what is asked of
    them. *)

From Stdlib Require Import ZArith Lia List Bool Ascii String.
From stdpp Require Import base tactics gmap strings list pretty.
From S2P Require Import Prelude GoStrings.

Open Scope string_scope.
Open Scope list_scope.
Open Scope Z_scope.

(** ** Addresses ([netip.Addr]) *)

Record Addr : Type := mkAddr { Is6 : bool; bits : Z; Zone : string }.

#[export] Instance Addr_eq_dec : EqDecision Addr.
Proof. solve_decision. Defined.

Definition addr_ok (a : Addr) : Prop :=
  0 <= bits a < (if Is6 a then 2 ^ 128 else 2 ^ 32) /\ (Is6 a = false -> Zone a = "").

Definition Is4In6 (a : Addr) : bool := Is6 a && (Z.shiftr (bits a) 32 =? 65535).
Definition Unmap (a : Addr) : Addr := if Is4In6 a then mkAddr false (Z.land (bits a) (Z.ones 32)) "" else a.
Definition IsUnspecified (a : Addr) : bool := (bits a =? 0) && bool_decide (Zone a = "").
Definition IsMulticast (a : Addr) : bool :=
  if Is6 a then Z.shiftr (bits a) 120 =? 255 else Z.shiftr (bits a) 28 =? 14.
Definition IsLinkLocalUnicast (a : Addr) : bool :=
  if Is6 a then Z.shiftr (bits a) 118 =? 1018 else Z.shiftr (bits a) 16 =? 43518.
Definition IsLoopback (a : Addr) : bool := if Is6 a then bits a =? 1 else Z.shiftr (bits a) 24 =? 127.
Definition WithZone (z : string) (a : Addr) : Addr := if Is6 a then mkAddr true (bits a) z else a.

(** [netip.ParseAddr], [Addr.String] and the host of [net.SplitHostPort]. *)
Class NetIP : Type := {
  ParseAddr : string -> option Addr;
  AddrString : Addr -> string;
  SplitHost : string -> option string
}.

(** What [net/netip] documents of them: printing and parsing are inverse, a
    parsed zone is the end of the text, and the text has no white space but
    what its zone may end with. *)
Class NetIPLaws `{NetIP} : Prop := {
  parse_print a : addr_ok a -> ParseAddr (AddrString a) = Some a;
  parse_ok s a : ParseAddr s = Some a -> addr_ok a /\ exists p, s = p +:+ Zone a;
  print_clean a : addr_ok a -> ~ ends_blank (Zone a) ->
    AddrString a <> "" /\ ~ starts_blank (AddrString a) /\ ~ ends_blank (AddrString a)
}.

(** ** Bindings *)

Definition EnvSourceIP : string := "RADAR_SOURCE_IP".
Definition EnvBindInterface : string := "RADAR_BIND_INTERFACE".
Definition maxInterfaceLen : nat := 64.

(** An invalid [SourceIP] is [None]. *)
Record Binding : Type := mkBinding { SourceIP : option Addr; Interface : string }.

#[export] Instance Binding_eq_dec : EqDecision Binding.
Proof. solve_decision. Defined.

Definition Binding_IsZero (b : Binding) : bool :=
  match SourceIP b with None => bool_decide (Interface b = "") | Some _ => false end.

Inductive bind_error : Type := InvalidSource | NotUnicast | InterfaceTooLong | InterfaceControlChar.

(** A rune below 0x20 or 0x7f is one byte of UTF-8. *)
Fixpoint has_control (s : string) : bool :=
  match s with
  | "" => false
  | String c r => (nat_of_ascii c <? 32)%nat || (nat_of_ascii c =? 127)%nat || has_control r
  end.

Section netbind.
Context `{NetIP}.

Definition parse_source (sourceIP : string) : result bind_error (option Addr) :=
  let raw := trim_space sourceIP in
  if decide (raw = "") then Ok None
  else
    match ParseAddr raw with
    | None => Err InvalidSource
    | Some a =>
        let a := Unmap a in
        if IsUnspecified a || IsMulticast a then Err NotUnicast else Ok (Some a)
    end.

Definition parse_interface (iface : string) : result bind_error string :=
  let name := trim_space iface in
  if decide (name = "") then Ok ""
  else if (maxInterfaceLen <? String.length name)%nat then Err InterfaceTooLong
  else if has_control name then Err InterfaceControlChar
  else Ok name.

(** A link-local IPv6 source takes the interface as its zone. *)
Definition add_zone (iface : string) (a : Addr) : Addr :=
  if Is6 a && IsLinkLocalUnicast a && bool_decide (Zone a = "") && negb (bool_decide (iface = ""))
  then WithZone iface a else a.

Definition Parse (sourceIP iface : string) : result bind_error Binding :=
  let* src := parse_source sourceIP in
  let* name := parse_interface iface in
  Ok (mkBinding (add_zone name <$> src) name).

Definition Binding_String (b : Binding) : string :=
  join ", "
    ((match SourceIP b with Some a => ["source " +:+ AddrString a] | None => [] end)
     ++ (if decide (Interface b = "") then [] else ["interface " +:+ Interface b])).

Definition Network (b : Binding) (base : string) : string :=
  match SourceIP b with
  | None => base
  | Some a =>
      if bool_decide (base = "tcp") || bool_decide (base = "udp") || bool_decide (base = "ip")
      then base +:+ (if Is6 a then "6" else "4") else base
  end.

(** ** Dialing

    A dialer as the code fills it in: the local address and its type, the
    interface its control hook binds to, whether its resolver is the bound
    one. *)
Record Dialer : Type := mkDialer {
  LocalAddr : option (bool * Addr);   (** UDP?, address *)
  Control : option string;
  BoundResolver : bool
}.

Definition plainDialer : Dialer := mkDialer None None false.

Definition dialer (b : Binding) (network : string) : Dialer :=
  mkDialer ((fun a => (has_prefix network "udp", a)) <$> SourceIP b)
    (if decide (Interface b = "") then None else Some (Interface b)) false.

Definition Binding_Dialer (b : Binding) (network : string) : Dialer :=
  let d := dialer b network in
  mkDialer (LocalAddr d) (Control d) (negb (Binding_IsZero b)).

(** [strings.Trim(host, "[]")] and the part before the last [%]. *)
Definition bracket (c : ascii) : bool := bool_decide (c = "["%char) || bool_decide (c = "]"%char).
Fixpoint trim_left_brackets (s : string) : string :=
  match s with String c r => if bracket c then trim_left_brackets r else s | "" => "" end.
Definition trim_brackets (s : string) : string :=
  rev_string (trim_left_brackets (rev_string (trim_left_brackets s))).
Definition before_last_percent (s : string) : string :=
  match cut "%" (rev_string s) with Some (_, b) => rev_string b | None => s end.

Definition isLoopbackAddress (address : string) : bool :=
  let host := trim_brackets (default address (SplitHost address)) in
  if decide (to_lower host = "localhost") then true
  else
    match ParseAddr (before_last_percent host) with
    | Some a => IsLoopback (Unmap a)
    | None => false
    end.

(** The dialer, network and address [DialContext] dials with. *)
Definition DialContext (b : Binding) (network address : string) : Dialer * string * string :=
  if negb (bool_decide (Interface b = "")) && isLoopbackAddress address
  then (plainDialer, network, address)
  else (Binding_Dialer b network, Network b network, address).

(** The resolver's own dial: the binding, but never the bound resolver. *)
Definition resolver_dial (b : Binding) (network address : string) : Dialer * string * string :=
  if negb (bool_decide (Interface b = "")) && isLoopbackAddress address
  then (plainDialer, network, address)
  else (dialer b network, Network b network, address).

(** [control]: the interface a socket is bound to before it connects. *)
Definition control (b : Binding) (address : string) : option string :=
  if bool_decide (Interface b = "") || isLoopbackAddress address then None else Some (Interface b).

(** [SelfTest]: the socket it opens; nothing for a zero binding. *)
Definition SelfTest (b : Binding) : option (string * string * option string) :=
  if Binding_IsZero b then None
  else
    let '(network, address) :=
      match SourceIP b with
      | Some a => (Network b "udp", if Is6 a then "[" +:+ AddrString a +:+ "]:0" else AddrString a +:+ ":0")
      | None => ("udp", ":0")
      end in
    Some (network, address, if decide (Interface b = "") then None else Some (Interface b)).

(** ** Interface indexes: a cache in front of the system *)

Definition interfaceIndex (system : string -> option Z) (name : string) (cache : gmap string Z)
    : option Z * gmap string Z :=
  match cache !! name with
  | Some i => (Some i, cache)
  | None => match system name with Some i => (Some i, <[name := i]> cache) | None => (None, cache) end
  end.

Definition refreshInterfaceIndex (system : string -> option Z) (name : string) (cache : gmap string Z)
    : option Z * gmap string Z := interfaceIndex system name (delete name cache).

(** ** Child processes *)

Definition env_entry (key value : string) : string := key +:+ "=" +:+ value.
Definition is_binding_entry (entry : string) : bool :=
  has_prefix entry (EnvSourceIP +:+ "=") || has_prefix entry (EnvBindInterface +:+ "=").

Definition Env (base : list string) (b : Binding) : list string :=
  List.filter (fun e => negb (is_binding_entry e)) base
  ++ (match SourceIP b with Some a => [env_entry EnvSourceIP (AddrString a)] | None => [] end)
  ++ (if decide (Interface b = "") then [] else [env_entry EnvBindInterface (Interface b)]).

(** [os.Getenv]: the value of the first entry for the key, or empty. *)
Definition Getenv (env : list string) (key : string) : string :=
  default "" (head (omap (cut_prefix (key +:+ "=")) env)).

Definition FromEnv (env : list string) : result bind_error Binding :=
  Parse (Getenv env EnvSourceIP) (Getenv env EnvBindInterface).
End netbind.

(** ** What [Parse] accepts *)

Definition source_ok (iface : string) (a : Addr) : Prop :=
  addr_ok a /\ Is4In6 a = false /\ IsUnspecified a = false /\ IsMulticast a = false
  /\ ~ ends_blank (Zone a)
  /\ (Is6 a = true -> IsLinkLocalUnicast a = true -> iface <> "" -> Zone a <> "").

Lemma Unmap_ok a : addr_ok a -> addr_ok (Unmap a) /\ Is4In6 (Unmap a) = false.
Proof.
  intros [Hb Hz]. unfold Unmap. destruct (Is4In6 a) eqn:E; [|done]. split; [|done]. split; [|done]. cbn.
  rewrite Z.land_ones by lia. apply Z.mod_pos_bound. lia.
Qed.

Lemma Unmap_zone a : Zone (Unmap a) = "" \/ Zone (Unmap a) = Zone a.
Proof. unfold Unmap. destruct (Is4In6 a); auto. Qed.

Lemma not_ends_blank_empty : ~ ends_blank "".
Proof.
  intros (w & r & Hw%spaces_nonempty & E). apply (f_equal String.length) in E.
  rewrite string_length_app in E. cbn in E. lia.
Qed.

Lemma parse_interface_Ok iface name :
  parse_interface iface = Ok name ->
  name = trim_space iface /\ (String.length name <= maxInterfaceLen)%nat /\ has_control name = false.
Proof.
  unfold parse_interface. destruct (decide _) as [E|]; [intros [= <-]; rewrite E; split_and!; [done|cbn; lia|done]|].
  destruct (Nat.ltb_spec maxInterfaceLen (String.length (trim_space iface))); [done|].
  destruct (has_control _) eqn:E; [done|]. intros [= <-]. auto.
Qed.

Lemma parse_interface_again name :
  name = trim_space name -> (String.length name <= maxInterfaceLen)%nat -> has_control name = false ->
  parse_interface name = Ok name.
Proof.
  intros Ht Hl Hc. unfold parse_interface. rewrite <- Ht. destruct (decide _) as [->|]; [done|].
  rewrite (proj2 (Nat.ltb_ge maxInterfaceLen (String.length name))) by done. by rewrite Hc.
Qed.

Section laws.
Context `{NetIPLaws}.

Lemma parse_source_Ok s a :
  parse_source s = Ok (Some a) ->
  addr_ok a /\ Is4In6 a = false /\ IsUnspecified a = false /\ IsMulticast a = false /\ ~ ends_blank (Zone a).
Proof.
  unfold parse_source. destruct (decide _); [done|]. destruct (ParseAddr _) as [a0|] eqn:E; [|done].
  destruct (_ || _) eqn:Eu; [done|]. intros [= <-]. apply orb_false_iff in Eu as [Hu Hm].
  apply parse_ok in E as [Hok (p & Hp)]. destruct (Unmap_ok a0 Hok) as [H1 H2]. split_and!; try done.
  destruct (Unmap_zone a0) as [->| ->]; [apply not_ends_blank_empty|].
  intros Hb. destruct (trim_space_clean s) as [_ He]. apply He. rewrite Hp. by apply ends_blank_app.
Qed.

Lemma add_zone_ok name a :
  ~ ends_blank name -> addr_ok a -> Is4In6 a = false -> IsUnspecified a = false -> IsMulticast a = false ->
  ~ ends_blank (Zone a) -> source_ok name (add_zone name a).
Proof.
  intros Hn Hok H4 Hu Hm Hz. unfold add_zone.
  destruct (Is6 a && IsLinkLocalUnicast a && _ && _) eqn:E.
  - apply andb_true_iff in E as [E En%negb_true_iff%bool_decide_eq_false]. unfold WithZone.
    destruct (Is6 a) eqn:E6; [|done]. destruct Hok as [Hb _]. rewrite E6 in Hb.
    unfold source_ok, addr_ok, Is4In6, IsUnspecified, IsMulticast in *. rewrite E6 in *. cbn.
    split_and!; try done; [lia..|]. rewrite (bool_decide_false (name = "")) by done. apply andb_false_r.
  - split_and!; try done. intros H6 Hl Hi Hze. rewrite H6, Hl, Hze in E.
    by rewrite (bool_decide_true ("" = "")), (bool_decide_false (name = "")) in E.
Qed.

(** What an accepted binding satisfies. *)
Lemma Parse_Ok s iface b :
  Parse s iface = Ok b ->
  match SourceIP b with Some a => source_ok (Interface b) a | None => True end
  /\ Interface b = trim_space iface /\ (String.length (Interface b) <= maxInterfaceLen)%nat
  /\ has_control (Interface b) = false.
Proof.
  unfold Parse. intros (src & Hs & (name & Hn & [= <-])%res_bind_Ok)%res_bind_Ok.
  apply parse_interface_Ok in Hn as (-> & Hl & Hc). cbn. split_and!; try done.
  destruct src as [a|]; [|done]. cbn. apply parse_source_Ok in Hs as (H1 & H2 & H3 & H4 & H5).
  apply add_zone_ok; try done. apply trim_space_clean.
Qed.

(** Parsing an accepted source again gives it back. *)
Lemma parse_source_again iface a : source_ok iface a -> parse_source (AddrString a) = Ok (Some a).
Proof.
  intros (Hok & H4 & Hu & Hm & Hz & _). unfold parse_source.
  destruct (print_clean a Hok Hz) as (Hne & Hs & He). rewrite trim_space_id by done. rewrite decide_False by done.
  rewrite parse_print by done. unfold Unmap. by rewrite H4, Hu, Hm.
Qed.

Lemma add_zone_again iface a : source_ok iface a -> add_zone iface a = a.
Proof.
  intros (_ & _ & _ & _ & _ & Hz). unfold add_zone. destruct (_ && _ && _ && _) eqn:E; [|done].
  apply andb_true_iff in E as [[[H6 Hl]%andb_true_iff Hze%bool_decide_eq_true]%andb_true_iff Hn%negb_true_iff%bool_decide_eq_false].
  by destruct Hz.
Qed.

(** ** The environment of a child *)

Lemma Getenv_other env key : Forall (fun e => cut_prefix (key +:+ "=") e = None) env -> Getenv env key = "".
Proof.
  intros Hf. unfold Getenv. replace (head _) with (@None string); [done|]. symmetry. apply head_omap_None.
  by apply Forall_forall.
Qed.

Lemma omap_none {A B} (f : A -> option B) l k : Forall (fun x => f x = None) l -> omap f (l ++ k) = omap f k.
Proof. induction 1 as [|x l Hx Hl IH]; cbn; [done|]. by rewrite Hx. Qed.

Lemma not_prefixed e p : has_prefix e p = false <-> cut_prefix p e = None.
Proof. unfold has_prefix. by destruct (cut_prefix p e). Qed.

Lemma filtered_entries base :
  Forall (fun e => cut_prefix (EnvSourceIP +:+ "=") e = None /\ cut_prefix (EnvBindInterface +:+ "=") e = None)
    (List.filter (fun e => negb (is_binding_entry e)) base).
Proof.
  apply Forall_forall. intros e He%list_elem_of_In%filter_In. destruct He as [_ He]. unfold is_binding_entry in He.
  apply negb_true_iff, orb_false_iff in He as [H1%not_prefixed H2%not_prefixed]. done.
Qed.

Lemma head_omap_cons {A B} (f : A -> option B) x l :
  head (omap f (x :: l)) = match f x with Some y => Some y | None => head (omap f l) end.
Proof. cbn. by destruct (f x). Qed.

Lemma env_entry_own key v : cut_prefix (key +:+ "=") (env_entry key v) = Some v.
Proof. unfold env_entry. by rewrite <- append_assoc', cut_prefix_app. Qed.

Lemma Getenv_Env base b :
  Getenv (Env base b) EnvSourceIP = match SourceIP b with Some a => AddrString a | None => "" end
  /\ Getenv (Env base b) EnvBindInterface = Interface b.
Proof.
  pose proof (filtered_entries base) as Hf. unfold Getenv, Env. split.
  - rewrite omap_none by (eapply Forall_impl; [exact Hf|]; by intros e [? _]).
    destruct (SourceIP b) as [a|]; [|by destruct (decide _)].
    cbn [app]. by rewrite head_omap_cons, env_entry_own.
  - rewrite omap_none by (eapply Forall_impl; [exact Hf|]; by intros e [_ ?]).
    destruct (SourceIP b) as [a|]; cbn [app]; rewrite ?head_omap_cons;
      [change (cut_prefix (EnvBindInterface +:+ "=") (env_entry EnvSourceIP (AddrString a))) with (@None string)|];
      (destruct (decide (Interface b = "")) as [E|E]; [by rewrite E|by rewrite head_omap_cons, env_entry_own]).
Qed.

(** A module's child process binds as the agent does.  Whatever environment
    the agent itself inherited, reading back what [Env] builds from an
    accepted binding gives that binding: stale entries never survive, and
    the source address, its zone and the interface arrive unchanged. *)
Theorem env_roundtrip s iface b base :
  Parse s iface = Ok b -> FromEnv (Env base b) = Ok b.
Proof.
  intros Hp. apply Parse_Ok in Hp as (Hs & Hi & Hl & Hc). unfold FromEnv, Parse.
  destruct (Getenv_Env base b) as [-> ->].
  assert (parse_interface (Interface b) = Ok (Interface b)) as ->
    by (apply parse_interface_again; [rewrite Hi; by rewrite trim_space_idem|done..]).
  destruct b as [[a|] name]; cbn [SourceIP Interface] in *.
  - rewrite (parse_source_again name a Hs). cbn. by rewrite add_zone_again.
  - done.
Qed.

(** An accepted binding is usable: its source is a concrete unicast address
    of one family (no mapped IPv4), a link-local IPv6 source has a zone as
    soon as an interface is given, the interface name is at most 64 bytes
    without control characters, and every dial through it uses the source's
    own family. *)
Theorem parse_accepts s iface b :
  Parse s iface = Ok b ->
  (String.length (Interface b) <= 64)%nat /\ has_control (Interface b) = false
  /\ forall a, SourceIP b = Some a ->
       Is4In6 a = false /\ IsUnspecified a = false /\ IsMulticast a = false
       /\ (Is6 a = true -> IsLinkLocalUnicast a = true -> Interface b <> "" -> Zone a <> "")
       /\ forall base address d network address',
            base ∈ ["tcp"; "udp"; "ip"] -> DialContext b base address = (d, network, address') ->
            (network = base +:+ (if Is6 a then "6" else "4") /\ LocalAddr d = Some (bool_decide (base = "udp"), a)
             /\ BoundResolver d = true)
            \/ (Interface b <> "" /\ isLoopbackAddress address = true /\ d = plainDialer /\ network = base).
Proof.
  intros Hp. apply Parse_Ok in Hp as (Hs & _ & Hl & Hc). split_and!; [done|done|]. intros a Ha. rewrite Ha in Hs.
  destruct Hs as (_ & H4 & Hu & Hm & _ & Hz). split_and!; try done.
  intros base address d network address' Hb. unfold DialContext. destruct (_ && _) eqn:E.
  - intros [= <- <- <-]. right. apply andb_true_iff in E as [E%negb_true_iff%bool_decide_eq_false ?]. done.
  - intros [= <- <- <-]. left. unfold Network, Binding_Dialer, Binding_IsZero, dialer. rewrite Ha. cbn.
    rewrite !elem_of_cons in Hb. destruct Hb as [->|[->|[->|Hb%not_elem_of_nil]]]; done.
Qed.
End laws.

(** ** A concrete address syntax

    Family digit, the bits of the address least significant first, [e], the
    zone: enough to exercise the laws. *)

Fixpoint bits_text (p : positive) : string :=
  match p with xH => "1e" | xO q => "0" +:+ bits_text q | xI q => "1" +:+ bits_text q end.

Definition Z_text (z : Z) : string := match z with Zpos p => bits_text p | _ => "e" end.

Fixpoint read_bits (s : string) : option (Z * string) :=
  match s with
  | String "0" r => match read_bits r with Some (v, z) => Some (2 * v, z) | None => None end
  | String "1" r => match read_bits r with Some (v, z) => Some (2 * v + 1, z) | None => None end
  | String "e" r => Some (0, r)
  | _ => None
  end.

Definition demo_print (a : Addr) : string := (if Is6 a then "6" else "4") +:+ Z_text (bits a) +:+ Zone a.

Definition demo_check (a : Addr) : option Addr :=
  if (bits a <? (if Is6 a then 2 ^ 128 else 2 ^ 32)) && (Is6 a || bool_decide (Zone a = "")) then Some a else None.

Definition demo_parse (s : string) : option Addr :=
  match s with
  | String "6" r => match read_bits r with Some (v, z) => demo_check (mkAddr true v z) | None => None end
  | String "4" r => match read_bits r with Some (v, z) => demo_check (mkAddr false v z) | None => None end
  | _ => None
  end.

#[export] Instance demoNetIP : NetIP := {| ParseAddr := demo_parse; AddrString := demo_print; SplitHost _ := None |}.

Lemma read_bits_text p z : read_bits (bits_text p +:+ z) = Some (Zpos p, z).
Proof.
  induction p; cbn [bits_text]; rewrite ?append_assoc', ?app_String, ?app_empty;
  cbn [read_bits]; [by rewrite IHp..|done].
Qed.

Lemma read_Z_text v z : 0 <= v -> read_bits (Z_text v +:+ z) = Some (v, z).
Proof. destruct v; [done|intros _; apply read_bits_text|lia]. Qed.

Lemma read_bits_suffix s v z : read_bits s = Some (v, z) -> 0 <= v /\ exists p, s = p +:+ z.
Proof.
  revert v. induction s as [|c s IH]; intros v E; [done|].
  destruct c as [[] [] [] [] [] [] [] []]; try done; cbn in E;
    try (destruct (read_bits s) as [[v' z']|]; [|done]; injection E as <- ->; destruct (IH v' eq_refl) as [? (p & ->)];
         split; [lia|eexists (String _ p); reflexivity]).
  injection E as <- <-. split; [done|]. by exists "e".
Qed.

Lemma Z_text_end v : exists p, Z_text v = p +:+ "e".
Proof.
  destruct v as [|p|p]; [by exists ""| |by exists ""]. cbn.
  induction p as [p [q IH]|p [q IH]|]; cbn [bits_text]; [exists ("1" +:+ q)|exists ("0" +:+ q)|by exists "1"];
    by rewrite IH, append_assoc'.
Qed.

(** White space does not straddle a character that none of it contains. *)
Definition outside (c : ascii) : bool :=
  forallb (fun w => forallb (fun d => negb (bool_decide (d = c))) (list_ascii_of_string w)) spaces.

Lemma prefix_before (w z : string) c x r :
  Forall (fun d => d <> c) (list_ascii_of_string w) -> w +:+ r = z +:+ String c x -> exists r', z = w +:+ r'.
Proof.
  revert z. induction w as [|d w IH]; intros z Hf E; [by exists z|]. inversion Hf; subst.
  destruct z as [|e z]; rewrite !app_String in E.
  - change ("" +:+ String c x) with (String c x) in E. by injection E.
  - injection E as <- E. destruct (IH z) as [r' ->]; [done..|]. exists r'. by rewrite app_String.
Qed.

Lemma outside_chars c w : outside c = true -> w ∈ spaces -> Forall (fun d => d <> c) (list_ascii_of_string w).
Proof.
  intros Ho Hw. unfold outside in Ho. rewrite forallb_forall in Ho. apply list_elem_of_In in Hw.
  specialize (Ho w Hw). rewrite forallb_forall in Ho. apply Forall_forall. intros d Hd%list_elem_of_In%Ho.
  by apply negb_true_iff, bool_decide_eq_false in Hd.
Qed.

Lemma not_starts_blank c s : outside c = true -> ~ starts_blank (String c s).
Proof.
  intros Ho (w & r & Hw & E). pose proof (spaces_nonempty w Hw).
  destruct (prefix_before w "" c s r) as [r' E']; [by apply outside_chars|by rewrite <- E|].
  apply (f_equal String.length) in E'. rewrite string_length_app in E'. cbn in E'. lia.
Qed.

Lemma rev_string_chars P s : Forall P (list_ascii_of_string s) -> Forall P (list_ascii_of_string (rev_string s)).
Proof.
  assert (forall a b, list_ascii_of_string (a +:+ b) = list_ascii_of_string a ++ list_ascii_of_string b) as Ha.
  { intros a b. induction a as [|c a IH]; [done|]. rewrite app_String. cbn. by rewrite IH. }
  induction s as [|c s IH]; intros Hf; [done|]. cbn [rev_string list_ascii_of_string] in *. inversion Hf; subst.
  rewrite Ha. apply Forall_app. split; [by apply IH|by constructor].
Qed.

Lemma not_ends_blank p c z : outside c = true -> ~ ends_blank z -> ~ ends_blank (p +:+ String c z).
Proof.
  intros Ho Hz (w & r & Hw & E). apply Hz. apply (f_equal rev_string) in E. rewrite !rev_string_app in E.
  cbn [rev_string] in E. rewrite append_assoc' in E.
  destruct (prefix_before (rev_string w) (rev_string z) c (rev_string p) (rev_string r)) as [r' E'].
  - apply rev_string_chars. by apply outside_chars.
  - by rewrite <- E.
  - exists w, (rev_string r'). split; [done|]. rewrite <- (rev_string_involutive z), E', rev_string_app.
    by rewrite rev_string_involutive.
Qed.

#[export] Instance demoNetIP_laws : NetIPLaws.
Proof.
  split; cbn [ParseAddr AddrString demoNetIP].
  - intros [six v z] [Hb Hz]. cbn in Hb, Hz. unfold demo_print. cbn [Is6 bits Zone].
    assert (demo_check (mkAddr six v z) = Some (mkAddr six v z)) as Hc.
    { unfold demo_check. cbn [Is6 bits Zone]. destruct six; cbn in *.
      - rewrite (proj2 (Z.ltb_lt v (2 ^ 128))) by lia. done.
      - rewrite (proj2 (Z.ltb_lt v (2 ^ 32))) by lia. rewrite Hz by done. done. }
    destruct six; rewrite app_String; cbn [demo_parse]; change ("" +:+ ?t) with t; by rewrite read_Z_text by lia.
  - intros s a E. assert (forall six r, match read_bits r with Some (v, z) => demo_check (mkAddr six v z) | None => None end = Some a ->
      addr_ok a /\ exists p, r = p +:+ Zone a) as Hr.
    { intros six r Hr. destruct (read_bits r) as [[v z]|] eqn:Eb; [|done].
      apply read_bits_suffix in Eb as [Hv (p & ->)]. unfold demo_check in Hr. cbn [Is6 bits Zone] in Hr.
      destruct (_ && _) eqn:Ec; [|done]. injection Hr as <-. apply andb_true_iff in Ec as [Hlt%Z.ltb_lt Hz].
      split; [|by exists p]. split; [done|]. cbn. intros ->. by apply bool_decide_eq_true in Hz. }
    destruct s as [|c r]; [done|].
    destruct c as [[] [] [] [] [] [] [] []]; try done; cbn [demo_parse] in E; apply Hr in E as [Ho (p & ->)];
      (split; [done|]); eexists (String _ p); reflexivity.
  - intros [six v z] _ Hz. unfold demo_print. cbn [Is6 bits Zone] in *. destruct (Z_text_end v) as [p ->].
    split_and!.
    + destruct six; by rewrite app_String.
    + destruct six; rewrite app_String; by apply not_starts_blank.
    + rewrite append_assoc', <- append_assoc'. by apply not_ends_blank.
Qed.

Definition demo_source : Addr := mkAddr true (Z.shiftl 65152 112 + 1) "".   (** fe80::1 *)

(** A link-local source picks up its interface as zone, and a stale entry of
    the parent does not reach the child. *)
Lemma env_roundtrip_witness :
  FromEnv (Env ["PATH=/bin"; "RADAR_SOURCE_IP=old"] (mkBinding (Some (WithZone "eth0" demo_source)) "eth0"))
  = Ok (mkBinding (Some (WithZone "eth0" demo_source)) "eth0").
Proof. apply (env_roundtrip (demo_print demo_source) " eth0 "). vm_compute. reflexivity. Defined.

Definition demo_bound : Binding := mkBinding (Some (mkAddr false 2130706434 "")) "".

Lemma parse_accepts_witness : snd (fst (DialContext demo_bound "tcp" "x")) = "tcp4".
Proof.
  assert (Parse (demo_print (mkAddr false 2130706434 "")) "" = Ok demo_bound) as Hp by (vm_compute; reflexivity).
  destruct (DialContext demo_bound "tcp" "x") as [[d network] address'] eqn:E.
  pose proof (parse_accepts _ _ _ Hp) as (_ & _ & H).
  destruct (H _ eq_refl) as (_ & _ & _ & _ & Hd).
  destruct (Hd "tcp" "x" d network address') as [(-> & _)|(Hi & _)]; [by left|exact E|reflexivity|by destruct Hi].
Defined.
