(* ===== verification/Checks.v ===== *)
(** * Running checks

    The execution half of [internal/agent/agent.go]: the options a check
    runs with, the destination key it is gated on, and the dispatch of one
    tick's jobs between per-check and batched checkers. *)

From Stdlib Require Import ZArith Lia List Bool Ascii String Permutation.
From stdpp Require Import base tactics gmap strings list.
From S2P Require Import Prelude Netbind Wire.

(** [probe.Options]. *)
Record Options : Type := mkOptions {
  o_Target : string;
  o_Timeout : duration;
  o_ProbeID : string;
  o_Destination : string;
  o_Seq : Z;
  o_Params : params;
  o_Bind : Binding
}.

(** What the agent relies on from its checkers ([probe.Checker] and
    [probe.BatchChecker], as the registry resolves them), from the gate and
    from formatting: a batch checker answers every option it is given. *)
Class Checkers : Type := {
  isBatch : string -> option bool;  (** [reg.Get]: unknown, or whether it batches *)
  CheckOne : string -> Options -> CheckResult;
  CheckBatch : string -> list Options -> list CheckResult;
  gateClears : Options -> bool;     (** [destgate.Wait] returned nil *)
  quoted : string -> string;        (** [fmt]'s %q *)
  sprint : any -> string;           (** [fmt]'s %v *)
  CheckBatch_length p opts : length (CheckBatch p opts) = length opts
}.

Section checks.
Context `{Checkers}.

(** ** Destinations *)

(** [v, _ := m[key].(T)], which yields the zero value on a mismatch. *)
Definition object_at (m : params) (key : string) : params := default [] (as_object (obj_get m key)).
Definition array_at (m : params) (key : string) : list any := default [] (as_array (obj_get m key)).
Definition first_object (l : list any) : params :=
  match l with v :: _ => default [] (as_object v) | [] => [] end.

Definition xrayDestination (ps : params) : option string :=
  let config := object_at ps "config" in
  match array_at config "outbounds" with
  | [] => None
  | outbounds =>
      let settings := object_at (first_object outbounds) "settings" in
      let endpoints :=
        match array_at settings "vnext" with [] => array_at settings "servers" | l => l end in
      match endpoints with
      | [] => None
      | _ =>
          let endpoint := first_object endpoints in
          match as_string (obj_get endpoint "address") with
          | None => None
          | Some address =>
              if bool_decide (address = ""%string) then None
              else Some (address +:+ ":" +:+ sprint (obj_get endpoint "port"))
          end
      end
  end.

Definition destinationFor (pr : ProbeSnapshot) : string :=
  if bool_decide (Prober pr = "xray"%string) then default (Target pr) (xrayDestination (Params pr))
  else Target pr.

Definition optionsFor (bind : Binding) (pr : ProbeSnapshot) (seq : Z) : Options :=
  let timeout := int_mul (TimeoutMs pr) millisecond in
  {| o_Target := Target pr;
     o_Timeout := if timeout <=? 0 then 5 * second else timeout;
     o_ProbeID := ID pr; o_Destination := destinationFor pr; o_Seq := seq;
     o_Params := Params pr; o_Bind := bind |}.

(** ** Jobs *)

Record checkJob : Type := mkJob { pr : ProbeSnapshot; runID : string; job_seq : Z }.

Definition result_of_job (now : time) (j : checkJob) (r : CheckResult) : Result :=
  mkResult (runID j) (ID (pr j)) r (Some now).

(** [runCheck]; [None] when the destination never cleared. *)
Definition runCheck (bind : Binding) (now : time) (j : checkJob) : option Result :=
  let opts := optionsFor bind (pr j) (job_seq j) in
  match isBatch (Prober (pr j)) with
  | None =>
      Some (result_of_job now j
        (Fail_ (Prober (pr j)) (Target (pr j)) (job_seq j) ("unknown prober " +:+ quoted (Prober (pr j)))))
  | Some _ =>
      if gateClears opts then Some (result_of_job now j (CheckOne (Prober (pr j)) opts)) else None
  end.

Definition runCheckBatch (bind : Binding) (now : time) (prober : string) (jobs : list checkJob) : list Result :=
  let answers := CheckBatch prober (map (fun j => optionsFor bind (pr j) (job_seq j)) jobs) in
  omap (fun jr => if Skip (snd jr) then None else Some (result_of_job now (fst jr) (snd jr)))
    (combine jobs answers).

(** [batches[prober] = append(batches[prober], j)]. *)
Fixpoint add_to_batch (prober : string) (j : checkJob) (batches : list (string * list checkJob))
    : list (string * list checkJob) :=
  match batches with
  | [] => [(prober, [j])]
  | (p, js) :: rest =>
      if bool_decide (p = prober) then (p, js ++ [j]) :: rest else (p, js) :: add_to_batch prober j rest
  end.

Definition sort_job (acc : list (string * list checkJob) * list checkJob) (j : checkJob) :=
  match isBatch (Prober (pr j)) with
  | Some true => (add_to_batch (Prober (pr j)) j (fst acc), snd acc)
  | _ => (fst acc, snd acc ++ [j])
  end.

Definition split_jobs (jobs : list checkJob) : list (string * list checkJob) * list checkJob :=
  fold_left sort_job jobs ([], []).

(** [runChecks]: one goroutine per batch and per single job, which append
    their results as they finish: [finish] is the order they do. *)
Definition runChecks (finish : list (list Result) -> list (list Result)) (bind : Binding)
    (now : time) (jobs : list checkJob) : list Result :=
  let '(batches, singles) := split_jobs jobs in
  concat (finish (map (fun b => runCheckBatch bind now (fst b) (snd b)) batches
                  ++ map (fun j => match runCheck bind now j with Some r => [r] | None => [] end) singles)).

(** ** What a run reports *)

(** The (run, probe) a result or a job is about. *)
Definition result_id (r : Result) : string * string := (RunID r, ProbeID r).
Definition job_id (j : checkJob) : string * string := (runID j, ID (pr j)).

Lemma add_to_batch_perm p j bs : concat (snd <$> add_to_batch p j bs) ≡ₚ concat (snd <$> bs) ++ [j].
Proof.
  induction bs as [|[p' js] bs IH]; [done|]. cbn [add_to_batch]. destruct (bool_decide _); cbn.
  - rewrite <- !app_assoc. apply Permutation_app_head, Permutation_app_comm.
  - rewrite <- app_assoc. by apply Permutation_app_head.
Qed.

(** No job is lost or duplicated by the grouping. *)
Lemma split_jobs_perm jobs :
  concat (snd <$> fst (split_jobs jobs)) ++ snd (split_jobs jobs) ≡ₚ jobs.
Proof.
  unfold split_jobs. induction jobs as [|j jobs IH] using rev_ind; [done|].
  rewrite fold_left_app. cbn [fold_left]. set (acc := fold_left _ jobs _) in *.
  unfold sort_job. destruct (isBatch (Prober (pr j))) as [[]|]; cbn [fst snd].
  - rewrite add_to_batch_perm, <- app_assoc, (Permutation_app_comm [j]), app_assoc.
    by apply Permutation_app_tail.
  - rewrite app_assoc. by apply Permutation_app_tail.
  - rewrite app_assoc. by apply Permutation_app_tail.
Qed.

Lemma batch_ids bind now p jobs :
  sublist (result_id <$> runCheckBatch bind now p jobs) (job_id <$> jobs).
Proof.
  unfold runCheckBatch. generalize (CheckBatch p (map (fun j => optionsFor bind (pr j) (job_seq j)) jobs)).
  intros l. revert jobs. induction l as [|a l IH]; intros [|j jobs]; cbn; try apply sublist_nil_l.
  destruct (Skip a); cbn; [by apply sublist_cons|]. by apply sublist_skip.
Qed.

Lemma batch_ids_all bind now p jobs :
  Forall (fun r => Skip r = false) (CheckBatch p (map (fun j => optionsFor bind (pr j) (job_seq j)) jobs)) ->
  result_id <$> runCheckBatch bind now p jobs = job_id <$> jobs.
Proof.
  unfold runCheckBatch. pose proof (CheckBatch_length p (map (fun j => optionsFor bind (pr j) (job_seq j)) jobs)) as Hl.
  rewrite List.length_map in Hl. revert Hl.
  generalize (CheckBatch p (map (fun j => optionsFor bind (pr j) (job_seq j)) jobs)). intros l Hl Hf.
  revert jobs Hl. induction Hf as [|a l Ha Hf IH]; intros [|j jobs] Hl; try done.
  cbn [combine omap list_omap fst snd]. rewrite Ha. cbn. f_equal. apply IH. by injection Hl.
Qed.

Lemma concat_perm {A} (l k : list (list A)) : l ≡ₚ k -> concat l ≡ₚ concat k.
Proof. intros ->. done. Qed.

Lemma batch_outputs_ids bind now (bs : list (string * list checkJob)) :
  result_id <$> concat (map (fun b => runCheckBatch bind now (fst b) (snd b)) bs) ⊆+ job_id <$> concat (snd <$> bs).
Proof.
  induction bs as [|[p js] bs IH]; [done|]. cbn [map concat fmap list_fmap snd fst]. rewrite !fmap_app.
  apply submseteq_app; [apply sublist_submseteq, batch_ids|exact IH].
Qed.

Lemma single_outputs_ids bind now js :
  result_id <$> concat (map (fun j => match runCheck bind now j with Some r => [r] | None => [] end) js)
  ⊆+ job_id <$> js.
Proof.
  induction js as [|j js IH]; [done|]. cbn [map concat fmap list_fmap].
  unfold runCheck at 1. destruct (isBatch _) as [b|]; [destruct (gateClears _)|];
    cbn [app fmap list_fmap]; try (by apply submseteq_skip). by apply submseteq_cons.
Qed.

(** Dispatch reports only what was asked and never twice.  Whatever the
    order goroutines finish in, the (run, probe) ids of the results are among
    those of the jobs, with multiplicity: no result is invented, duplicated
    by the grouping, or filed under another run or probe. *)
Theorem run_checks_sound finish bind now jobs :
  (forall l, finish l ≡ₚ l) ->
  result_id <$> runChecks finish bind now jobs ⊆+ job_id <$> jobs.
Proof.
  intros Hf. unfold runChecks. pose proof (split_jobs_perm jobs) as Hp.
  destruct (split_jobs jobs) as [bs js]. cbn [fst snd] in Hp. rewrite <- Hp.
  rewrite (concat_perm _ _ (Hf _)), concat_app, !fmap_app.
  apply submseteq_app; [apply batch_outputs_ids|apply single_outputs_ids].
Qed.

(** Nothing is skipped when every destination clears: then each job of the
    tick, batched or not, is reported exactly once. *)
Theorem run_checks_complete finish bind now jobs :
  (forall l, finish l ≡ₚ l) -> (forall opts, gateClears opts = true) ->
  (forall p opts, Forall (fun r => Skip r = false) (CheckBatch p opts)) ->
  result_id <$> runChecks finish bind now jobs ≡ₚ job_id <$> jobs.
Proof.
  intros Hf Hg Hs. unfold runChecks. pose proof (split_jobs_perm jobs) as Hp.
  destruct (split_jobs jobs) as [bs js]. cbn [fst snd] in Hp. rewrite <- Hp.
  rewrite (concat_perm _ _ (Hf _)), concat_app, !fmap_app. apply Permutation_app; apply reflexive_eq.
  - clear Hp. induction bs as [|[p l] bs IH]; [done|]. cbn [map concat fmap list_fmap fst snd].
    rewrite !fmap_app. f_equal; [by apply batch_ids_all|exact IH].
  - clear Hp. induction js as [|j js IH]; [done|]. cbn [map concat fmap list_fmap].
    unfold runCheck at 1. destruct (isBatch _); rewrite ?Hg; cbn [app fmap list_fmap]; by f_equal.
Qed.
End checks.

(** ** A concrete set of checkers *)

Definition demo_answer (p : string) (o : Options) : CheckResult :=
  mkCheckResult false true p (o_Target o) (o_Seq o) None "" "" [].

#[export] Instance demo_checkers : Checkers := {|
  isBatch p := if bool_decide (p = "xray"%string) then Some true
               else if bool_decide (p = "tcp"%string) then Some false else None;
  CheckOne := demo_answer;
  CheckBatch p opts := map (demo_answer p) opts;
  gateClears o := true;
  quoted s := s;
  sprint _ := "443"%string;
  CheckBatch_length p opts := List.length_map (demo_answer p) opts
|}.

Definition demo_job (prober id : string) (seq : Z) : checkJob :=
  mkJob (mkSnapshot id "example.org" prober 1 1000 "interval" 60 0 0 [] "active") "run1" seq.

Definition demo_jobs : list checkJob :=
  [demo_job "xray" "x1" 1; demo_job "tcp" "t" 1; demo_job "xray" "x2" 1; demo_job "nope" "n" 1].

Lemma run_checks_sound_witness :
  result_id <$> runChecks (@rev (list Result)) (mkBinding None "") 0 demo_jobs ⊆+ job_id <$> demo_jobs.
Proof.
  exact (run_checks_sound (@rev (list Result)) (mkBinding None "") 0 demo_jobs
    (fun l => Permutation_sym (Permutation_rev l))).
Defined.

Lemma run_checks_complete_witness :
  result_id <$> runChecks (@rev (list Result)) (mkBinding None "") 0 demo_jobs ≡ₚ job_id <$> demo_jobs.
Proof.
  refine (run_checks_complete (@rev (list Result)) (mkBinding None "") 0 demo_jobs
    (fun l => Permutation_sym (Permutation_rev l)) (fun _ => eq_refl) _).
  intros p opts. apply Forall_forall. intros r (o & -> & _)%list_elem_of_fmap. reflexivity.
Defined.

(** The destination of an xray probe is its proxy server, not its target. *)
Example demo_destination :
  destinationFor (mkSnapshot "x" "https://probe.example" "xray" 1 1000 "interval" 60 0 0
    [("config", VObject [("outbounds", VArray [VObject [("settings", VObject [("vnext",
        VArray [VObject [("address", VString "proxy.example"); ("port", VFloat (float_of_Z 443))]])])]])])]%string
    "active") = "proxy.example:443"%string.
Proof. vm_compute. reflexivity. Qed.
