(* ===== verification/Tick.v ===== *)
(** * One scheduler tick

    [internal/agent/agent.go] ([runDueProbes], [reportResults],
    [reportFallback]), [store_delivery.go] ([finishTriggers]) and
    [bindmonitor.go]: from due probes and queued triggers to durable
    results.  The scheduler goroutine runs ticks one at a time; a tick is
    one function of the agent's state and of what the world does meanwhile. *)

From Stdlib Require Import ZArith Lia List Bool Ascii String Permutation.
From stdpp Require Import base tactics gmap strings list fin_maps.
From S2P Require Import Prelude Wire Cache DueProbes Triggers Sql Store StoreMaint Journal StoreWf.
From S2P Require Import StoreDemo StoreResults Clock PathHealth Spool Delivery Netbind Checks.

(** ** The binding monitor ([bindmonitor.go]) *)

Definition bindCheckInterval : duration := 30 * second.
Definition maxBindErrorLength : nat := 512.

Record bindMonitor : Type := mkMonitor {
  checkedAt : time;
  initialized : bool;
  errText : string
}.

Definition newBindMonitor : bindMonitor := mkMonitor zero_time false "".

Definition trimBindError (text : string) : string :=
  if (maxBindErrorLength <? String.length text)%nat then String.substring 0 maxBindErrorLength text else text.

(** [check] on a non-zero binding: [selfTest] is what the socket self-test
    reports, if it is run. *)
Definition monitor_check (selfTest : option string) (now : time) (m : bindMonitor)
    : string * bool * bindMonitor :=
  let age := time_sub now (checkedAt m) in
  if initialized m && (0 <=? age) && (age <? bindCheckInterval) then (errText m, false, m)
  else
    let text := match selfTest with Some e => trimBindError e | None => "" end in
    (text, negb (initialized m) || negb (bool_decide (text = errText m)), mkMonitor now true text).

(** ** The agent's state *)

Record bounds : Type := mkBounds {
  maxJobsPerTick : Z;
  maxJobsPerProbe : Z;
  maxTriggersPerTick : Z
}.

Record agent : Type := mkAgent {
  nodeID : string;
  limits : bounds;
  bind : Binding;
  cache : probeCache;
  clock : clockSync;
  db : option database;           (** [store] *)
  db_faults : faults;
  spool : option resultSpool;
  sent : list (list Result);      (** every POST of results so far *)
  retry : delivery;
  path_window : pathHealth;
  deferredJobs : Z;
  monitor : bindMonitor
}.

Definition with_cache f a := mkAgent (nodeID a) (limits a) (bind a) (f (cache a)) (clock a) (db a) (db_faults a)
  (spool a) (sent a) (retry a) (path_window a) (deferredJobs a) (monitor a).
Definition with_db d fs a := mkAgent (nodeID a) (limits a) (bind a) (cache a) (clock a) d fs
  (spool a) (sent a) (retry a) (path_window a) (deferredJobs a) (monitor a).
Definition with_spool s se r a := mkAgent (nodeID a) (limits a) (bind a) (cache a) (clock a) (db a) (db_faults a)
  s se r (path_window a) (deferredJobs a) (monitor a).
Definition with_path p a := mkAgent (nodeID a) (limits a) (bind a) (cache a) (clock a) (db a) (db_faults a)
  (spool a) (sent a) (retry a) p (deferredJobs a) (monitor a).
Definition with_deferred n a := mkAgent (nodeID a) (limits a) (bind a) (cache a) (clock a) (db a) (db_faults a)
  (spool a) (sent a) (retry a) (path_window a) n (monitor a).
Definition with_monitor m a := mkAgent (nodeID a) (limits a) (bind a) (cache a) (clock a) (db a) (db_faults a)
  (spool a) (sent a) (retry a) (path_window a) (deferredJobs a) m.

(** What the world does during one tick. *)
Record world : Type := mkWorld {
  e_server : nat -> list Result -> option ResultsResponse;
  e_wall : time;                                     (** [time.Now()] *)
  e_pages : nat -> time;                             (** the clock during a drain *)
  e_expired : nat -> bool;                           (** the drain deadline *)
  e_selfTest : option string;
  e_iter : probeCache -> list (string * cachedProbe);
  e_finish : list (list Result) -> list (list Result);
  e_runID : nat -> string;                           (** [newRunID] *)
  e_burn : bool;                                     (** see [Store.v] *)
  e_removable : string -> bool;
  e_listable : bool;
  e_spoolFails : option stage;
  e_tmp : string;
  e_size : Z;
  e_nano : Z;
  e_hex : string;
  e_sentAt : string
}.

Section tick.
Context `{Checkers} (e : world).

(** ** Delivery *)

(** Enough fuel for any drain (see [drain_store_in_order]). *)
Definition drain_fuel (a : agent) (d : database) : nat := S (length (backlog (nodeID a) d)).

Definition run_drainStore (d : database) (a : agent) : totals * option string * agent :=
  match drainStore (e_server e) (e_pages e) (e_expired e) (drain_fuel a d) (nodeID a) (e_wall e)
          (mkStoreWorld d (db_faults a) (sent a) (retry a)) with
  | Some (t, err, w) =>
      (t, err, with_spool (spool a) (w_sent w) (w_delivery w) (with_db (Some (w_db w)) (w_faults w) a))
  | None => (no_totals, None, a)
  end.

Definition run_drainSpool (s : resultSpool) (a : agent) : totals * option string * agent :=
  let '(t, err, w) := drainSpool (e_server e) (e_pages e) (e_expired e) (e_removable e) (e_listable e) (e_wall e)
                        (mkSpoolWorld s (sent a) (retry a)) in
  (t, err, with_spool (Some (s_spool w)) (s_sent w) (s_delivery w) a).

Definition drainDelivery (a : agent) : totals * option string * agent :=
  match db a with
  | Some d => run_drainStore d a
  | None => match spool a with Some s => run_drainSpool s a | None => (no_totals, None, a) end
  end.

(** ** Making a tick's results durable *)

(** The direct POST; whether it was answered. *)
Definition post_directly (results : list Result) (a : agent) : bool * agent :=
  let '(resp, sent') := postResults (e_server e) results (sent a) in
  (match resp with Some _ => true | None => false end, with_spool (spool a) sent' (retry a) a).

Definition reportFallback (results : list Result) (a : agent) : bool * agent :=
  match spool a with
  | None => post_directly results a
  | Some s =>
      match enqueue (e_removable e) (e_listable e) (e_spoolFails e) (e_tmp e) (e_size e) (e_nano e) (e_hex e)
              results (e_sentAt e) s with
      | (Err _, s') => post_directly results (with_spool (Some s') (sent a) (retry a) a)
      | (Ok _, s') =>
          let '(_, _, a') := run_drainSpool s' (with_spool (Some s') (sent a) (retry a) a) in (true, a')
      end
  end.

Definition reportResults (results : list Result) (a : agent) : bool * agent :=
  match db a with
  | Some d =>
      match RecordResults (e_burn e) (nodeID a) (to_unix_milli (e_wall e)) results (db_faults a) d with
      | (Ok _, d', fs') =>
          let '(_, _, a') := run_drainStore d' (with_db (Some d') fs' a) in (true, a')
      | (Err _, d', fs') => reportFallback results (with_db (Some d') fs' a)
      end
  | None => reportFallback results a
  end.

Definition storeTriggers (ts : list pendingTrigger) : list PendingTrigger :=
  map (fun t => mkPendingTrigger (pt_ProbeID t) (pt_RunID t) 0 (pt_Probe t)) ts.

Definition finishTriggers (ts : list pendingTrigger) (durable : bool) (a : agent) : agent :=
  match ts with
  | [] => a
  | _ =>
      if negb durable then with_cache (requeueTriggers ts) a
      else
        let a :=
          match db a with
          | Some d =>
              let '(_, d', fs') := CompleteTriggers (nodeID a) (to_unix_milli (e_wall e)) (storeTriggers ts) (db_faults a) d in
              with_db (Some d') fs' a
          | None => a
          end in
        with_cache (fun c => fold_left (fun c t => markTriggerComplete (pt_ProbeID t) (pt_RunID t) c) ts c) a
  end.

(** ** Planning a tick *)

Definition probeJobCount (b : bounds) (raw : Z) : Z :=
  if raw <? 1 then 1
  else if (0 <? maxJobsPerProbe b) && (maxJobsPerProbe b <? raw) then maxJobsPerProbe b else raw.

(** [for seq := 1; seq <= count; seq++]. *)
Definition jobs_for (b : bounds) (p : ProbeSnapshot) (run : string) : list checkJob :=
  map (fun i => mkJob p run (Z.of_nat i)) (List.seq 1 (Z.to_nat (probeJobCount b (ProbeCount p)))).

Definition trigger_probe (c : probeCache) (t : pendingTrigger) : option ProbeSnapshot :=
  if bool_decide (ID (pt_Probe t) = ""%string) then snapshot <$> probes c !! pt_ProbeID t
  else Some (pt_Probe t).

Definition trigger_jobs (b : bounds) (c : probeCache) (ts : list pendingTrigger) : list checkJob :=
  concat (map (fun t => match trigger_probe c t with Some p => jobs_for b p (pt_RunID t) | None => [] end) ts).

Definition due_jobs (b : bounds) (due : list ProbeSnapshot) : list checkJob :=
  concat (imap (fun i p => jobs_for b p (e_runID e i)) due).

Record plan : Type := mkPlan {
  p_triggers : list pendingTrigger;
  p_due : list ProbeSnapshot;
  p_deferred : Z;
  p_cache : probeCache
}.

Definition trigger_slots (b : bounds) : Z :=
  let maxJobs := if maxJobsPerTick b <? 1 then Z.shiftl 1 30 else maxJobsPerTick b in
  let perProbe := if maxJobsPerProbe b <? 1 then 1 else maxJobsPerProbe b in
  let slots := if maxTriggersPerTick b <? 1 then 16 else maxTriggersPerTick b in
  if maxJobs <? int_mul slots perProbe
  then (let s := maxJobs ÷ perProbe in if s <? 1 then 1 else s)
  else slots.

Definition plan_tick (b : bounds) (now : time) (c : probeCache) : plan :=
  let maxJobs := if maxJobsPerTick b <? 1 then Z.shiftl 1 30 else maxJobsPerTick b in
  let perProbe := if maxJobsPerProbe b <? 1 then 1 else maxJobsPerProbe b in
  let '(triggers, c1) := drainPendingTriggersLimited (trigger_slots b) c in
  let budget := int_mul (Z.of_nat (length triggers)) perProbe in
  let triggerBudget := if maxJobs <? budget then maxJobs else budget in
  let '(due, deferred, c2) := takeDueProbes (e_iter e c1) now (maxJobs - triggerBudget) (maxJobsPerProbe b) c1 in
  mkPlan triggers due (int_add deferred (Z.of_nat (pendingTriggerCount c2))) c2.

(** ** The tick *)

Definition noteBindingPause (now : time) (a : agent) : agent :=
  let deferred := fold_left (fun n p => int_add n (probeJobCount (limits a) (ProbeCount p)))
                    (dueProbes (e_iter e (cache a)) now) 0 in
  with_deferred (int_add deferred (Z.of_nat (pendingTriggerCount (cache a)))) a.

Definition record_path (results : list Result) (p : pathHealth) : pathHealth :=
  fold_left (fun p r => record (r_Target (res r)) (r_Error (res r)) (ErrorCode (res r)) (e_wall e) p) results p.

Definition mark_ran (due : list ProbeSnapshot) (now : time) (a : agent) : agent :=
  match due, db a with
  | _ :: _, Some d =>
      let '(_, d', fs') := MarkProbesRun (ID <$> due) now (db_faults a) d in with_db (Some d') fs' a
  | _, _ => a
  end.

(** What follows the checks of a tick. *)
Definition settle_tick (results : list Result) (triggers : list pendingTrigger) (a : agent) : agent :=
  match results with
  | [] => finishTriggers triggers true a
  | _ => let '(durable, a) := reportResults results a in finishTriggers triggers durable a
  end.

(** The tick of a node whose binding works, as planned. *)
Definition run_plan (now : time) (p : plan) (a : agent) : agent :=
  let a := with_deferred (p_deferred p) (with_cache (fun _ => p_cache p) a) in
  if (length (p_due p) =? 0)%nat && (length (p_triggers p) =? 0)%nat
  then let '(_, _, a) := drainDelivery a in a
  else
    let results :=
      runChecks (e_finish e) (bind a) (e_wall e) (due_jobs (limits a) (p_due p))
      ++ runChecks (e_finish e) (bind a) (e_wall e) (trigger_jobs (limits a) (cache a) (p_triggers p)) in
    let a := mark_ran (p_due p) now (with_path (record_path results (path_window a)) a) in
    settle_tick results (p_triggers p) a.

Definition runDueProbes (a : agent) : agent :=
  let now := clock_now (clock a) (e_wall e) in
  let '(err, a) :=
    if Binding_IsZero (bind a) then (""%string, a)
    else let '(text, _, m) := monitor_check (e_selfTest e) now (monitor a) in (text, with_monitor m a) in
  if negb (bool_decide (err = ""%string))
  then let '(_, _, a) := drainDelivery (noteBindingPause now a) in a
  else run_plan now (plan_tick (limits a) now (cache a)) a.
End tick.

(** ** The job budget *)

Definition bounds_ok (b : bounds) : Prop :=
  1 <= maxJobsPerProbe b <= maxJobsPerTick b /\ maxJobsPerTick b < 2 ^ 31
  /\ 1 <= maxTriggersPerTick b < 2 ^ 31.

Lemma jobs_for_length b p run :
  1 <= maxJobsPerProbe b -> Z.of_nat (length (jobs_for b p run)) = probeJobCount b (ProbeCount p).
Proof.
  intros Hb. unfold jobs_for. rewrite List.length_map, List.length_seq. unfold probeJobCount.
  split_ifs; zify_bool; lia.
Qed.

Lemma probeJobCount_cap b raw : 1 <= maxJobsPerProbe b -> 1 <= probeJobCount b raw <= maxJobsPerProbe b.
Proof. intros Hb. unfold probeJobCount. split_ifs; zify_bool; lia. Qed.

Lemma trigger_jobs_length b c ts :
  1 <= maxJobsPerProbe b -> Z.of_nat (length (trigger_jobs b c ts)) <= Z.of_nat (length ts) * maxJobsPerProbe b.
Proof.
  intros Hb. unfold trigger_jobs. induction ts as [|t ts IH]; [done|]. cbn [map concat]. rewrite length_app.
  cbn [length]. destruct (trigger_probe c t) as [p|]; [|cbn [length]; lia].
  pose proof (jobs_for_length b p (pt_RunID t) Hb). pose proof (probeJobCount_cap b (ProbeCount p) Hb). lia.
Qed.

Lemma due_jobs_length e b due :
  1 <= maxJobsPerProbe b ->
  Forall (fun s => 1 <= ProbeCount s /\ ProbeCount s <= maxJobsPerProbe b) due ->
  Z.of_nat (length (due_jobs e b due)) = job_total due.
Proof.
  intros Hb Hd. unfold due_jobs. generalize (e_runID e) as f. 
  induction Hd as [|p due Hp Hd IH]; intros f; [done|]. cbn [imap concat]. rewrite length_app.
  unfold job_total in *. rewrite fmap_cons. cbn [sumZ foldr]. specialize (IH (f ∘ S)).
  rewrite Nat2Z.inj_add, jobs_for_length by done. unfold compose in *. fold (sumZ (ProbeCount <$> due)). rewrite <- IH.
  f_equal. unfold probeJobCount. split_ifs; zify_bool; lia.
Qed.

Lemma trigger_slots_bounds b :
  bounds_ok b -> 1 <= trigger_slots b
  /\ (trigger_slots b * maxJobsPerProbe b <= maxJobsPerTick b \/ trigger_slots b = 1).
Proof.
  intros (Hp & Hj & Ht). unfold trigger_slots.
  rewrite (proj2 (Z.ltb_ge (maxJobsPerTick b) 1)), (proj2 (Z.ltb_ge (maxJobsPerProbe b) 1)),
    (proj2 (Z.ltb_ge (maxTriggersPerTick b) 1)) by lia.
  rewrite int_mul_small by (unfold in_int64, min_int64, max_int64; nia).
  destruct (Z.ltb_spec (maxJobsPerTick b) (maxTriggersPerTick b * maxJobsPerProbe b)); [|lia].
  rewrite Z.quot_div_nonneg by lia.
  pose proof (Z.mul_div_le (maxJobsPerTick b) (maxJobsPerProbe b) ltac:(lia)).
  destruct (Z.ltb_spec (maxJobsPerTick b / maxJobsPerProbe b) 1); nia.
Qed.

Lemma drain_limited_length limit c :
  1 <= limit -> Z.of_nat (length (fst (drainPendingTriggersLimited limit c))) <= limit.
Proof.
  intros Hl. unfold drainPendingTriggersLimited. destruct (_ =? 0)%nat; [cbn; lia|].
  destruct ((limit <=? 0) || _) eqn:E; cbn [fst]; [zify_bool; lia|]. rewrite length_take. lia.
Qed.

(** C38: A tick never runs more checks than its bound.  With the limits [Run]
    installs, the checks of the drained triggers and of the selected due
    probes together are at most [maxJobsPerTick], whatever the assignment
    asks for and however many triggers are queued. *)
Theorem tick_budget e b now c :
  bounds_ok b ->
  let p := plan_tick e b now c in
  Z.of_nat (length (due_jobs e b (p_due p) ++ trigger_jobs b (p_cache p) (p_triggers p))) <= maxJobsPerTick b.
Proof.
  intros Hb. pose proof (trigger_slots_bounds b Hb) as [Hs1 Hs2]. destruct Hb as (Hp & Hj & Ht).
  unfold plan_tick. rewrite (proj2 (Z.ltb_ge (maxJobsPerTick b) 1)), (proj2 (Z.ltb_ge (maxJobsPerProbe b) 1)) by lia.
  pose proof (drain_limited_length (trigger_slots b) c Hs1) as Hd.
  destruct (drainPendingTriggersLimited (trigger_slots b) c) as [ts c1]. cbn [fst] in Hd.
  assert (Z.of_nat (length ts) * maxJobsPerProbe b <= maxJobsPerTick b) as Hts by nia.
  rewrite int_mul_small by (unfold in_int64, min_int64, max_int64; nia).
  rewrite (proj2 (Z.ltb_ge (maxJobsPerTick b) _)) by lia.
  set (budget := maxJobsPerTick b - _). 
  pose proof (takeDueProbes_total (e_iter e c1) now budget (maxJobsPerProbe b) c1) as Hk.
  destruct (takeDueProbes _ _ _ _ _) as [[due deferred] c2]. cbn zeta in *. cbn [p_due p_cache p_triggers fst] in *.
  destruct Hk as [Htot Hcnt]; [unfold budget; lia..|]. rewrite length_app, Nat2Z.inj_add, due_jobs_length.
  - pose proof (trigger_jobs_length b c2 ts). unfold budget in *. lia.
  - lia.
  - exact Hcnt.
Qed.

(** ** Rows the store keeps during a tick *)

Definition key_in (k : string * string * string * Z) (d : database) : Prop :=
  k ∈ omap dedup_key (journal d).

Lemma key_in_map k f d : (forall r, same_keys r (f r)) -> key_in k d -> key_in k (with_journal (map f) d).
Proof.
  intros Hf. unfold key_in. rewrite !list_elem_of_omap. cbn [with_journal journal].
  intros (r & Hr & Hk). exists (f r). split; [apply list_elem_of_In, in_map; by apply list_elem_of_In|].
  destruct (Hf r) as (_ & _ & _ & ->). exact Hk.
Qed.

Lemma MarkAttempts_key k seqs : keeps (key_in k) (MarkAttempts seqs).
Proof.
  unfold MarkAttempts. keeps_steps. intros d Hd. apply key_in_map; [|done]. intros r.
  unfold attempt_row. destruct (bool_decide _); [|done]. by apply update_pending_keys.
Qed.

Lemma MarkOutcomes_key k now xs : keeps (key_in k) (MarkOutcomes now xs).
Proof.
  unfold MarkOutcomes, mark_outcome. keeps_steps; intros d Hd; (apply key_in_map; [|done]); intros r;
    by apply update_pending_keys.
Qed.

Lemma nextOriginSeq_key k o n : keeps (key_in k) (nextOriginSeq o n).
Proof. unfold nextOriginSeq. keeps_steps; done. Qed.

Lemma CompleteTriggers_key k o now ts : keeps (key_in k) (CompleteTriggers o now ts).
Proof.
  unfold CompleteTriggers, complete_one, completeTriggerTx. keeps_steps; try (intros d Hd; exact Hd);
    try apply nextOriginSeq_key.
  apply keeps_stmt. intros d s d' Hd Hins. unfold insert_row in Hins. destruct (_ || _); [done|].
  injection Hins as <- <-. unfold key_in in *. cbn [with_autoinc with_journal journal].
  rewrite omap_app. apply elem_of_app. by left.
Qed.

Lemma drain_pages_keeps (P : database -> Prop) server clk expired fuel o page t w r :
  (forall seqs, keeps P (MarkAttempts seqs)) -> (forall now xs, keeps P (MarkOutcomes now xs)) ->
  P (w_db w) -> drain_pages server clk expired fuel o page t w = Some r -> P (w_db (snd r)).
Proof.
  intros Ha Ho. revert page t w. induction fuel as [|fuel IH]; intros page t w Hw H; [done|].
  cbn [drain_pages] in H. destruct (expired page); [by injection H as <-|].
  destruct (PendingResults o 500 (w_faults w) (w_db w)) as [[r0 d0] fs0] eqn:Ep.
  apply pending_page in Ep as [-> _].
  destruct r0 as [batch|err]; [|by injection H as <-].
  destruct batch as [|p0 rest]; [by injection H as <-|].
  pose proof (Ha (pend_Seq <$> p0 :: rest) fs0 (w_db w) Hw) as Hwa. unfold run in Hwa.
  destruct (MarkAttempts _ _ _) as [[ra d1] fs1]. cbn [fst snd] in Hwa. unfold postResults in H.
  destruct (server _ _) as [resp|]; [|by injection H as <-].
  match type of H with context [MarkOutcomes ?n ?x _ _] => pose proof (Ho n x fs1 d1 Hwa) as Hwo end.
  unfold run in Hwo. destruct (MarkOutcomes _ _ _ _) as [[[u|err] d2] fs2]; cbn [fst snd] in Hwo;
    [|by injection H as <-].
  destruct (_ <? 500)%nat; [by injection H as <-|]. by eapply IH; [|exact H].
Qed.

(** All of [rs] that carry ids are rows of the store. *)
Definition stored (o : string) (rs : list Result) (d : database) : Prop :=
  forall r, r ∈ rs -> ids_empty r = false -> key_in (result_key o r) d.

Lemma run_drainStore_stored e o rs d a t err a' :
  stored o rs d -> db a = Some d -> run_drainStore e d a = (t, err, a') ->
  exists d', db a' = Some d' /\ stored o rs d'.
Proof.
  intros Hs Hd. unfold run_drainStore, drainStore.
  destruct (backing_off _ _); [intros [= <- <- <-]; by exists d|].
  destruct (drain_pages _ _ _ _ _ _ _ _) as [[[t1 err1] w]|] eqn:E; intros [= <- <- <-]; [|by exists d].
  exists (w_db w). split; [done|]. intros r Hr Hi.
  apply (drain_pages_keeps (key_in (result_key o r)) _ _ _ _ _ _ _ _ _ (MarkAttempts_key _)
    (MarkOutcomes_key _)) in E; [done|]. by apply Hs.
Qed.

(** ** Where results are safe *)

(** The results of a tick are in the store, in a file of the spool, or were
    answered by the server. *)
Definition durable_somewhere (e : world) (o : string) (rs : list Result) (a : agent) : Prop :=
  (exists d, db a = Some d /\ stored o rs d)
  \/ (exists s p at_, spool a = Some s /\ read p s = Ok (mkBatch 1 at_ (map result_decoded rs)))
  \/ (exists k posted, sent a !! k = Some posted /\ (posted = rs \/ posted = map result_decoded rs)
        /\ e_server e k posted <> None).

(** The spool can take a new batch: see [enqueue_durable]. *)
Definition spool_ready (e : world) (s : resultSpool) : Prop :=
  (forall p, has_suffix p ".json" = true -> e_removable e p = true) /\ e_listable e = true
  /\ older_than (e_nano e) s /\ files s !! batch_name (e_nano e) (e_hex e) = None
  /\ files s !! e_tmp e = None /\ has_suffix (e_tmp e) ".json" = false
  /\ sizes_fit (pending s ++ [mkSpoolEntry (batch_name (e_nano e) (e_hex e)) (e_size e)]).

Definition ready_for (e : world) (n : nat) (a : agent) : Prop :=
  (forall d, db a = Some d -> db_wf d /\ room (nodeID a) (Z.of_nat n) d)
  /\ (forall s, spool a = Some s -> spool_ready e s).

Lemma post_directly_durable e o rs a a' :
  post_directly e rs a = (true, a') -> durable_somewhere e o rs a'.
Proof.
  unfold post_directly, postResults. destruct (e_server e (length (sent a)) rs) as [resp|] eqn:Es; [|done].
  intros [= <-]. right. right. exists (length (sent a)), rs. cbn [sent with_spool].
  rewrite lookup_app_r, Nat.sub_diag by lia. split_and!; [done|by left|by rewrite Es].
Qed.

Lemma readable_app s l k : readable s (l ++ k) = readable s l ++ readable s k.
Proof. apply omap_app. Qed.

(** A batch just spooled is posted and answered by the drain that follows,
    or is still there. *)
Lemma run_drainSpool_keeps e s l en b a t err a' :
  (forall p, has_suffix p ".json" = true -> e_removable e p = true) -> e_listable e = true ->
  pending s = l ++ [en] -> (forall en', en' ∈ l -> path en' <> path en) -> read (path en) s = Ok b ->
  run_drainSpool e s a = (t, err, a') ->
  (exists s', spool a' = Some s' /\ read (path en) s' = Ok b)
  \/ (exists k, sent a' !! k = Some (sb_Results b) /\ e_server e k (sb_Results b) <> None).
Proof.
  intros Hr Hl Hp Hne Hb. unfold run_drainSpool. rewrite Hl.
  pose proof (drainSpool_spec (e_server e) (e_pages e) (e_expired e) (e_removable e) (e_wall e)
    (mkSpoolWorld s (sent a) (retry a)) Hr) as H.
  destruct (drainSpool _ _ _ _ _ _ _) as [[t0 err0] w]. cbn [s_spool s_sent] in H. rewrite Hp in H.
  destruct H as (m & Hm & _ & Hs & Hf & Ha). intros [= <- <- <-].
  destruct (decide (m <= length l)%nat) as [Hle|Hgt].
  - left. exists (s_spool w). split; [done|]. unfold read. rewrite Hf; [exact Hb|].
    rewrite take_app_le by done. intros en' Hin. apply Hne. eapply elem_of_sublist; [exact Hin|apply sublist_take].
  - right. rewrite take_ge in Hs, Ha by (rewrite length_app in *; simpl in *; lia).
    assert (readable s (l ++ [en]) = readable s l ++ [sb_Results b]) as Erd.
    { rewrite readable_app. f_equal. unfold readable. cbn [omap list_omap]. by rewrite Hb. }
    rewrite Erd in Hs, Ha. exists (length (sent a) + length (readable s l))%nat. cbn [sent with_spool].
    split.
    + rewrite Hs, lookup_app_r by lia. replace (_ - _)%nat with (length (readable s l)) by lia.
      rewrite <- app_assoc, lookup_app_r by lia. by rewrite Nat.sub_diag.
    + apply Ha. rewrite lookup_app_r by lia. by rewrite Nat.sub_diag.
Qed.

Lemma reportFallback_durable e o rs a a' :
  rs <> [] -> (forall s, spool a = Some s -> spool_ready e s) ->
  reportFallback e rs a = (true, a') -> durable_somewhere e o rs a'.
Proof.
  intros Hne Hsp. unfold reportFallback. destruct (spool a) as [s|] eqn:Es; [|apply post_directly_durable].
  destruct (Hsp s eq_refl) as (Hr & Hl & Ho & Hf & Ht & Htj & Hsz). rewrite Hl.
  pose proof (enqueue_durable (e_removable e) (e_spoolFails e) (e_tmp e) (e_size e) (e_nano e) (e_hex e) rs
    (e_sentAt e) s Hr Ho Hf Ht Htj Hsz Hne) as He.
  destruct (enqueue _ _ _ _ _ _ _ _ _ _) as [[p|er] s']; [|apply post_directly_durable].
  destruct He as (-> & Hread & (k & Hp & _)).
  destruct (run_drainSpool e s' _) as [[t err] a1] eqn:Ed. intros [= <-].
  apply (run_drainSpool_keeps e s' (drop k (pending s)) (mkSpoolEntry (batch_name (e_nano e) (e_hex e)) (e_size e))
    (mkBatch 1 (e_sentAt e) (map result_decoded rs))) in Ed as [(s1 & Hs1 & Hb)|(i & Hi & Ha)]; try done.
  - right. left. by exists s1, (batch_name (e_nano e) (e_hex e)), (e_sentAt e).
  - right. right. exists i, (map result_decoded rs). split_and!; [done|by right|done].
  - intros en' Hin E. assert (en' ∈ pending s) as (x & Hx & _)%pending_elem
      by (eapply elem_of_sublist; [exact Hin|apply sublist_drop]).
    cbn [path] in E. rewrite E in Hx. congruence.
Qed.

Lemma RecordResults_rolls_back burn o now rs fs d er d' fs' :
  RecordResults burn o now rs fs d = (Err er, d', fs') -> d' = d.
Proof. unfold RecordResults. destruct rs; [done|]. apply tx_err. Qed.

(** [reportResults] returning true means the results are safe. *)
Lemma reportResults_durable e rs a a' :
  rs <> [] -> ready_for e (length rs) a ->
  reportResults e rs a = (true, a') -> durable_somewhere e (nodeID a) rs a'.
Proof.
  intros Hne [Hd Hsp]. unfold reportResults. destruct (db a) as [d|] eqn:Edb; [|by apply reportFallback_durable].
  destruct (RecordResults _ _ _ _ _ _) as [[[s|er] d1] fs1] eqn:E; [|by apply reportFallback_durable].
  destruct (Hd d eq_refl) as [Hwf Hroom].
  destruct (RecordResults_ok _ _ _ _ _ _ _ _ _ Hwf Hroom E) as (_ & _ & _ & _ & _ & _ & K).
  destruct (run_drainStore e d1 _) as [[t err] a1] eqn:Ed. intros [= <-].
  apply (run_drainStore_stored e (nodeID a) rs) in Ed as (d' & Hd' & Hs); [|exact K|done].
  left. by exists d'.
Qed.

(** ** Triggers are retired only when their results are safe *)

Lemma finishTriggers_durable e ts o rs a :
  durable_somewhere e o rs a -> durable_somewhere e o rs (finishTriggers e ts true a).
Proof.
  intros H. unfold finishTriggers. destruct ts as [|t0 ts]; [done|]. set (l := t0 :: ts). cbn [negb].
  destruct (db a) as [d|] eqn:Ed; [|destruct H as [(d & E & _)|H]; [congruence|right; exact H]].
  destruct (CompleteTriggers _ _ _ _ _) as [[r d'] fs'] eqn:Ec.
  destruct H as [(d0 & E & Hs)|H]; [|right; exact H].
  left. exists d'. split; [done|]. intros x Hx Hi. injection (eq_trans (eq_sym E) Ed) as ->.
  pose proof (CompleteTriggers_key (result_key o x) (nodeID a) (to_unix_milli (e_wall e)) (storeTriggers l)
    (db_faults a) d (Hs x Hx Hi)) as Hk. unfold run in Hk. by rewrite Ec in Hk.
Qed.

Definition same_but_run_times (d d' : database) : Prop :=
  sequences d' = sequences d /\ completed_triggers d' = completed_triggers d.

Lemma MarkProbesRun_frame ids at_ d0 : keeps (same_but_run_times d0) (MarkProbesRun ids at_).
Proof. unfold MarkProbesRun. keeps_steps. intros d Hd. exact Hd. Qed.

Lemma mark_ran_frame due now a :
  spool (mark_ran due now a) = spool a /\ nodeID (mark_ran due now a) = nodeID a
  /\ cache (mark_ran due now a) = cache a
  /\ match db a with
     | None => db (mark_ran due now a) = None
     | Some d => exists d', db (mark_ran due now a) = Some d' /\ same_but_run_times d d' /\ (db_wf d -> db_wf d')
     end.
Proof.
  unfold mark_ran. destruct due as [|s due]; destruct (db a) as [d|] eqn:Ed; cbn [with_db]; try done.
  - split_and!; try done. exists d. split_and!; try done.
  - pose proof (MarkProbesRun_frame (ID <$> s :: due) now d (db_faults a) d) as Hf.
    pose proof (MarkProbesRun_keeps (ID <$> s :: due) now (db_faults a) d) as Hw. unfold run in *.
    destruct (MarkProbesRun _ _ _ _) as [[r d'] fs']. cbn in *. split_and!; try done.
    exists d'. split; [done|]. split; [by apply Hf|exact Hw].
Qed.

Lemma reportFallback_refused e rs a a' :
  reportFallback e rs a = (false, a') -> db a' = db a /\ cache a' = cache a.
Proof.
  assert (forall x b x', post_directly e rs x = (b, x') -> db x' = db x /\ cache x' = cache x) as Hp.
  { intros x b x'. unfold post_directly. destruct (postResults _ _ _). by intros [= <- <-]. }
  unfold reportFallback. destruct (spool a) as [s|]; [|apply Hp].
  destruct (enqueue _ _ _ _ _ _ _ _ _ _) as [[p|er] s']; [by destruct (run_drainSpool _ _ _) as [[? ?] ?]|].
  intros H%Hp. exact H.
Qed.

Lemma reportResults_refused e rs a a' :
  reportResults e rs a = (false, a') -> db a' = db a /\ cache a' = cache a.
Proof.
  unfold reportResults. destruct (db a) as [d|] eqn:Ed; [|rewrite <- Ed; apply reportFallback_refused].
  destruct (RecordResults _ _ _ _ _ _) as [[[s|er] d1] fs1] eqn:E.
  - by destruct (run_drainStore _ _ _) as [[? ?] ?].
  - apply RecordResults_rolls_back in E as ->. intros H%reportFallback_refused. exact H.
Qed.

(** The results of a planned tick. *)
Definition plan_results `{Checkers} (e : world) (p : plan) (a : agent) : list Result :=
  runChecks (e_finish e) (bind a) (e_wall e) (due_jobs e (limits a) (p_due p))
  ++ runChecks (e_finish e) (bind a) (e_wall e) (trigger_jobs (limits a) (p_cache p) (p_triggers p)).

Lemma settle_tick_safe e rs ts a :
  rs <> [] -> ready_for e (length rs) a ->
  let a' := settle_tick e rs ts a in
  durable_somewhere e (nodeID a) rs a'
  \/ (cache a' = requeueTriggers ts (cache a) /\ db a' = db a).
Proof.
  intros Hne Hready. cbn zeta. unfold settle_tick. destruct rs as [|r0 rs]; [done|]. set (l := r0 :: rs) in *.
  destruct (reportResults e l a) as [[] a1] eqn:E.
  - left. apply finishTriggers_durable. by apply reportResults_durable.
  - right. apply reportResults_refused in E as [Ed Ec]. unfold finishTriggers. destruct ts as [|t0 ts]; [done|].
    cbn [negb with_cache cache db]. by rewrite Ed, Ec.
Qed.

(** C1: A trigger is retired only once its results are safe.  After a tick that
    produced results, either all of them (those with ids) are stored in the
    database, written to the spool, or were answered by the server, whatever
    statements, files or requests failed; or the tick's triggers are back in
    the queue and none was recorded as completed. *)
Theorem tick_durable_or_requeued `{Checkers} e now p a :
  (forall l, e_finish e l ≡ₚ l) ->
  plan_results e p a <> [] -> ready_for e (length (plan_results e p a)) a ->
  let a' := run_plan e now p a in
  durable_somewhere e (nodeID a) (plan_results e p a) a'
  \/ (cache a' = requeueTriggers (p_triggers p) (p_cache p)
      /\ completed_triggers <$> db a' = completed_triggers <$> db a).
Proof.
  intros Hfin Hne [Hdb Hspool]. cbn zeta. unfold run_plan.
  set (a1 := with_deferred _ _). change (bind a1) with (bind a). change (limits a1) with (limits a).
  change (cache a1) with (p_cache p). fold (plan_results e p a).
  destruct (_ && _) eqn:Eidle.
  { exfalso. apply Hne. unfold plan_results.
    apply andb_true_iff in Eidle as [->%Nat.eqb_eq%nil_length_inv ->%Nat.eqb_eq%nil_length_inv].
    unfold runChecks. cbn. assert (e_finish e [] = []) as -> by (apply Permutation_nil; symmetry; apply Hfin).
    done. }
  set (a2 := mark_ran _ _ _).
  destruct (mark_ran_frame (p_due p) now (with_path (record_path e (plan_results e p a) (path_window a1)) a1))
    as (Hsp & Hid & Hc & Hdb2). fold a2 in Hsp, Hid, Hc, Hdb2. cbn [with_path db] in Hdb2. change (db a1) with (db a) in Hdb2.
  assert (completed_triggers <$> db a2 = completed_triggers <$> db a) as Hcomp.
  { destruct (db a) as [d|]; [|by rewrite Hdb2]. destruct Hdb2 as (d' & -> & [_ Hct] & _). cbn. by rewrite Hct. }
  destruct (settle_tick_safe e (plan_results e p a) (p_triggers p) a2) as [Hok|[Hq Hd]].
  - done.
  - split.
    + intros d Hd. destruct (db a) as [d0|] eqn:E0; [|congruence].
      destruct Hdb2 as (d' & Hd' & [Hseq _] & Hwf). destruct (Hdb d0 eq_refl) as [Hw Hroom].
      assert (d = d') as -> by congruence. split; [by apply Hwf|]. unfold room in *. rewrite Hid.
      change (nodeID (with_path _ a1)) with (nodeID a). by rewrite Hseq.
    + intros s Hs. apply Hspool. rewrite <- Hs, Hsp. done.
  - left. rewrite Hid in Hok. exact Hok.
  - right. rewrite Hq, Hd, Hcomp, Hc. done.
Qed.

(** ** A concrete agent *)

Definition demo_env : world := {|
  e_server := flaky_server; e_wall := unix_milli 100000; e_pages _ := unix_milli 100001;
  e_expired _ := false; e_selfTest := None; e_iter c := map_to_list (probes c); e_finish l := l;
  e_runID n := String (ascii_of_nat (65 + n)) ""; e_burn := false; e_removable _ := true;
  e_listable := true; e_spoolFails := None; e_tmp := ".batch-1.tmp"; e_size := 10; e_nano := 1;
  e_hex := "00"; e_sentAt := "" |}.

Definition demo_agent : agent := {|
  nodeID := "node"; limits := mkBounds 4 3 2; bind := mkBinding None "";
  cache := snd (applyTriggeredEvent (mkEvent 9 "triggered" (demo_snapshot "b" 5 30) "run9") demo_cache);
  clock := mkClock 0; db := Some demo_db; db_faults := []; spool := None; sent := [];
  retry := mkDelivery 0 zero_time; path_window := newPathHealth; deferredJobs := 0;
  monitor := newBindMonitor |}.

Definition demo_plan : plan := plan_tick demo_env (limits demo_agent) (unix_milli 100000) (cache demo_agent).

Lemma tick_budget_witness :
  Z.of_nat (length (due_jobs demo_env (limits demo_agent) (p_due demo_plan)
    ++ trigger_jobs (limits demo_agent) (p_cache demo_plan) (p_triggers demo_plan))) <= 4.
Proof.
  refine (tick_budget demo_env (limits demo_agent) (unix_milli 100000) (cache demo_agent) _).
  split; [|split]; vm_compute; intuition discriminate.
Defined.

(** One trigger (clamped to 3 checks) leaves one check for due probes. *)
Example demo_tick :
  length (p_triggers demo_plan) = 1%nat /\ ProbeCount <$> p_due demo_plan = [1]
  /\ length (plan_results demo_env demo_plan demo_agent) = 4%nat.
Proof. vm_compute. done. Qed.

Lemma tick_durable_or_requeued_witness :
  let a' := run_plan demo_env (unix_milli 100000) demo_plan demo_agent in
  durable_somewhere demo_env "node" (plan_results demo_env demo_plan demo_agent) a'
  \/ (cache a' = requeueTriggers (p_triggers demo_plan) (p_cache demo_plan)
      /\ completed_triggers <$> db a' = completed_triggers <$> db demo_agent).
Proof.
  refine (tick_durable_or_requeued demo_env (unix_milli 100000) demo_plan demo_agent _ _ _).
  - intros l. reflexivity.
  - vm_compute. discriminate.
  - split; [|discriminate]. intros d [= <-]. split; [exact demo_db_wf|]. vm_compute. discriminate.
Defined.
