(* ===== verification/Ids.v ===== *)
(** * Run and batch ids

    [newRunID], [newBatchID] and [randomHex] of [internal/agent/agent.go]:
    random bytes in hexadecimal behind a prefix.  [crypto/rand] is the argument:
    the bytes it read. *)

From Stdlib Require Import ZArith Lia List Bool Ascii String.
From stdpp Require Import base tactics strings list.
From S2P Require Import Prelude.

Open Scope string_scope.
Open Scope Z_scope.

(** [hex.EncodeToString]: two digits a byte, the high one first. *)
Definition hex_digit (z : Z) : ascii := ascii_of_nat (Z.to_nat (if z <? 10 then 48 + z else 87 + z)).

Fixpoint randomHex (bytes : list Z) : string :=
  match bytes with
  | [] => ""
  | b :: rest => String (hex_digit (Z.shiftr b 4)) (String (hex_digit (Z.land b 15)) (randomHex rest))
  end.

Definition newBatchID (bytes : list Z) : string := "batch_" +:+ randomHex bytes.
Definition newRunID (bytes : list Z) : string := "run_" +:+ randomHex bytes.

Definition is_byte (b : Z) : Prop := 0 <= b < 256.

Lemma hex_digit_inj x y : 0 <= x < 16 -> 0 <= y < 16 -> hex_digit x = hex_digit y -> x = y.
Proof.
  intros Hx Hy E. unfold hex_digit in E. apply (f_equal nat_of_ascii) in E.
  assert (forall z, 0 <= z < 16 -> (Z.to_nat (if z <? 10 then 48 + z else 87 + z)%Z < 256)%nat) as Hlt by (intros z Hz; destruct (Z.ltb_spec z 10); lia).
  rewrite (nat_ascii_embedding _ (Hlt x Hx)), (nat_ascii_embedding _ (Hlt y Hy)) in E.
  destruct (Z.ltb_spec x 10), (Z.ltb_spec y 10); lia.
Qed.

Lemma nibbles b : is_byte b -> 0 <= Z.shiftr b 4 < 16 /\ 0 <= Z.land b 15 < 16 /\ b = 16 * Z.shiftr b 4 + Z.land b 15.
Proof.
  unfold is_byte. intros H. rewrite Z.shiftr_div_pow2 by lia. change 15 with (Z.ones 4). rewrite Z.land_ones by lia. change (2 ^ 4) with 16.
  pose proof (Z.div_mod b 16 ltac:(lia)). pose proof (Z.mod_pos_bound b 16 ltac:(lia)).
  assert (0 <= b / 16 < 16) by (split; [apply Z.div_pos|apply Z.div_lt_upper_bound]; lia). lia.
Qed.

Lemma randomHex_inj bs bs' : Forall is_byte bs -> Forall is_byte bs' -> randomHex bs = randomHex bs' -> bs = bs'.
Proof.
  intros Hb. revert bs'. induction Hb as [|b bs Hb Hbs IH]; intros bs' Hb' E; destruct Hb' as [|b' bs' Hb' Hbs']; try done.
  cbn [randomHex] in E. injection E as E1 E2 E3. destruct (nibbles b Hb) as (H1 & H2 & ->). destruct (nibbles b' Hb') as (H1' & H2' & ->).
  apply hex_digit_inj in E1 as ->; [|done|done]. apply hex_digit_inj in E2 as ->; [|done|done]. by rewrite (IH bs').
Qed.

(** Two runs share an id only when the same bytes were drawn for both, and a run
    is never taken for a batch. *)
Theorem ids_are_as_random_as_bytes bs bs' :
  Forall is_byte bs -> Forall is_byte bs' ->
  (newRunID bs = newRunID bs' -> bs = bs') /\ (newBatchID bs = newBatchID bs' -> bs = bs') /\ newRunID bs <> newBatchID bs'
  /\ String.length (newRunID bs) = (4 + 2 * length bs)%nat.
Proof.
  intros Hb Hb'. unfold newRunID, newBatchID. split_and!; [| |done|].
  - intros E. injection E as E. by apply randomHex_inj.
  - intros E. injection E as E. by apply randomHex_inj.
  - assert (String.length (randomHex bs) = 2 * length bs)%nat as <-; [|done].
    clear. induction bs as [|b bs IH]; [done|]. cbn [randomHex String.length length]. rewrite IH. lia.
Qed.

Lemma ids_are_as_random_as_bytes_witness : newRunID [255; 16] = "run_ff10" /\ newRunID [255; 16] <> newBatchID [1].
Proof.
  split; [by vm_compute|]. refine (proj1 (proj2 (proj2 (ids_are_as_random_as_bytes [255; 16] [1] _ _)))).
  - repeat constructor; unfold is_byte; lia.
  - repeat constructor; unfold is_byte; lia.
Defined.
