(* ===== verification/SelfUpdate.v ===== *)
(** * Self-update: the generated installer command

    [internal/agent/agent.go] ([moduleActionFlags], [shellQuote],
    [buildInstallCommand], [selfUpdateCommandFor], [reinstall]).  The command
    is text that [sh] parses; the theorems say what words it parses to. *)

From Stdlib Require Import ZArith Lia List Bool Ascii String.
From stdpp Require Import base tactics strings list pretty.
From S2P Require Import Prelude GoStrings.

Open Scope string_scope.
Open Scope list_scope.

(** ** The flags of a batch of module actions *)

Definition moduleActionFlag (action : string) : option string :=
  match cut_prefix "install_" action with
  | Some flag => Some ("--install-module=" +:+ flag)
  | None =>
      match cut_prefix "remove_" action with
      | Some flag => Some ("--remove-module=" +:+ flag)
      | None => None
      end
  end.

Definition moduleActionFlags (actions : list string) : list string := omap moduleActionFlag actions.

(** ** Quoting *)

Definition quote : ascii := "'".
Definition backslash : ascii := "\".
Definition newline : ascii := "010".

(** [strings.ReplaceAll(value, "'", `'\''`)]. *)
Fixpoint escape_quotes (value : string) : string :=
  match value with
  | "" => ""
  | String c rest => if decide (c = quote) then "'\''" +:+ escape_quotes rest else String c (escape_quotes rest)
  end.

Definition shellQuote (value : string) : string := "'" +:+ escape_quotes value +:+ "'".

(** ** The command *)

Definition installScriptURL : string := "https://radar.mehrnet.com/install/node.sh".
Definition installFetchMaxAttempts : Z := 5.

(** A Go raw string holds no backtick; in the pieces of the template below a
    backtick stands for the double quote of the source. *)
Fixpoint raw (s : string) : string :=
  match s with
  | "" => ""
  | String c rest => String (if decide (c = "`"%char) then "034"%char else c) (raw rest)
  end.

Definition install_args (nodeID apiKey apiURL proxyURL : string) (extraFlags : list string) : list string :=
  ["--node_id=" +:+ shellQuote nodeID; "--api_key=" +:+ shellQuote apiKey; "--api_url=" +:+ shellQuote apiURL]
  ++ (if decide (proxyURL = "") then [] else ["--proxy=" +:+ shellQuote proxyURL])
  ++ map shellQuote extraFlags.

Definition curl_proxy_flag (proxyURL : string) : string :=
  if decide (proxyURL = "") then "" else "--proxy " +:+ shellQuote proxyURL +:+ " ".

(** The [fmt.Sprintf] of [buildInstallCommand]. *)
Definition install_template (curlProxyFlag args : string) : string :=
  raw "_recover_service() {
  if command -v pidof >/dev/null 2>&1 && pidof radar-node >/dev/null 2>&1; then
    return 0
  fi
  if [ -x /etc/init.d/radar-node ]; then
    /etc/init.d/radar-node start >/dev/null 2>&1 && return 0
  fi
  if command -v systemctl >/dev/null 2>&1; then
    systemctl start radar-node >/dev/null 2>&1 && return 0
    systemctl --user start radar-node >/dev/null 2>&1 && return 0
  fi
  if command -v launchctl >/dev/null 2>&1; then
    launchctl load -w /Library/LaunchDaemons/com.mehrnet.radar-node.plist >/dev/null 2>&1 && return 0
    launchctl load -w `$HOME/Library/LaunchAgents/com.mehrnet.radar-node.plist` >/dev/null 2>&1 && return 0
  fi
  return 1
}
_script=``
trap 'status=$?; if [ `$status` -ne 0 ]; then _recover_service || true; fi; if [ -n `$_script` ]; then rm -f `$_script`; fi; exit `$status`' EXIT
set -e
_script=$(mktemp)
_attempt=1
while :; do
  if curl -fsSL --connect-timeout 10 --max-time 120 "
  +:+ curlProxyFlag +:+ installScriptURL
  +:+ raw " -o `$_script`; then
    break
  fi
  if [ `$_attempt` -ge " +:+ pretty installFetchMaxAttempts +:+ raw " ]; then
    echo `radar-node: failed to fetch install.sh after " +:+ pretty installFetchMaxAttempts +:+ raw " attempts` >&2
    exit 1
  fi
  echo `radar-node: install.sh fetch failed (attempt $_attempt/" +:+ pretty installFetchMaxAttempts
  +:+ raw ") -- retrying in $((_attempt * 2))s...` >&2
  sleep $((_attempt * 2))
  _attempt=$((_attempt + 1))
done
sh `$_script` " +:+ args +:+ raw "
_status=$?
rm -f `$_script`
_script=``
exit $_status".

Definition buildInstallCommand (nodeID apiKey apiURL proxyURL : string) (extraFlags : list string) : string :=
  install_template (curl_proxy_flag proxyURL) (join " " (install_args nodeID apiKey apiURL proxyURL extraFlags)).

(** ** Launching it *)

Definition procdRespawnWindowSeconds : Z := 6.
Definition procdSettleSeconds : Z := 1.
Definition procdUpdateWatchdogSeconds : Z := 600.
Definition procdInitScript : string := "/etc/init.d/radar-node".

(** [os.Stat] answers whether a path is a directory, and its mode: procd is
    there, and so is an init script that may be executed. *)
Definition procdManaged (stat : string -> option (bool * Z)) : bool :=
  match stat "/sbin/procd" with
  | None => false
  | Some _ => match stat procdInitScript with Some (dir, mode) => negb dir && negb (Z.land mode 73 =? 0)%Z | None => false end
  end.

Definition selfUpdateExitCode : Z := 42.

(** The argument vector of the child, program first. *)
Record selfUpdateLaunch : Type := mkLaunch { cmd : list string; detached : bool }.

Definition procd_script (installCmd : string) : string :=
  "( sleep " +:+ pretty procdUpdateWatchdogSeconds
  +:+ "; if ! command -v pidof >/dev/null 2>&1 || ! pidof radar-node >/dev/null 2>&1; then " +:+ procdInitScript
  +:+ " start >/dev/null 2>&1 || true; fi ) &
_watchdog=$!
sleep " +:+ pretty procdRespawnWindowSeconds +:+ "
" +:+ procdInitScript +:+ " stop >/dev/null 2>&1 || true
sleep " +:+ pretty procdSettleSeconds +:+ "
( " +:+ installCmd +:+ " )
_status=$?
kill $_watchdog >/dev/null 2>&1 || true
exit $_status".

Definition selfUpdateCommandFor (goos : string) (euid pid : Z) (lookPath : string -> option string) (procd : bool)
    (installCmd : string) : selfUpdateLaunch :=
  let plain := mkLaunch ["sh"; "-c"; installCmd] false in
  if decide (goos = "linux") then
    if procd then mkLaunch ["sh"; "-c"; procd_script installCmd] true
    else
      match lookPath "systemd-run" with
      | Some path =>
          mkLaunch ([path; "--unit=" +:+ "radar-node-selfupdate-" +:+ pretty pid; "--quiet"; "--collect"]
            ++ (if decide (euid = 0) then [] else ["--user"]) ++ ["sh"; "-c"; installCmd]) false
      | None => plain
      end
  else plain.

(** What [reinstall] knows of its own process. *)
Record identity : Type := mkIdentity {
  id_nodeID : string;
  id_apiKey : string;
  id_apiURL : string;
  id_proxyURL : string;
  id_goos : string;
  id_euid : Z;
  id_pid : Z;
  id_lookPath : string -> option string;
  id_procd : bool
}.

(** [reinstall]: what is launched, and the exit status when the launch
    succeeds; a failed launch is logged and the process goes on. *)
Definition reinstall (me : identity) (launched : bool) (extraFlags : list string) : selfUpdateLaunch * option Z :=
  let installCmd := buildInstallCommand (id_nodeID me) (trim_prefix (id_apiKey me) (id_nodeID me +:+ ":"))
                      (id_apiURL me) (id_proxyURL me) extraFlags in
  let launch := selfUpdateCommandFor (id_goos me) (id_euid me) (id_pid me) (id_lookPath me) (id_procd me) installCmd in
  (launch, if launched then Some selfUpdateExitCode else None).

(** ** How [sh] reads words

    The word splitting of POSIX sh (2.2, 2.3) for single quotes, backslashes
    and blanks; [None] when an unquoted character could mean anything else
    (an expansion, a redirection, a separator, a comment, a pattern) or a
    quote is not closed. *)

Definition blank (c : ascii) : bool := bool_decide (c = " "%char) || bool_decide (c = "009"%char).

Definition active (c : ascii) : bool :=
  bool_decide (c ∈ (["096"%char; newline] ++ list_ascii_of_string (raw "$`;&|<>()#~*?[]{}!"))%list).

Fixpoint sh_go (quoted : bool) (cur : option string) (s : string) : option (list string) :=
  match s with
  | "" => if quoted then None else Some (match cur with Some w => [w] | None => [] end)
  | String c rest =>
      let push d := Some (default "" cur +:+ String d "") in
      if quoted then
        if decide (c = quote) then sh_go false cur rest else sh_go true (push c) rest
      else if decide (c = quote) then sh_go true (Some (default "" cur)) rest
      else if decide (c = backslash) then
        match rest with
        | "" => None
        | String d rest' => if decide (d = newline) then sh_go false cur rest' else sh_go false (push d) rest'
        end
      else if blank c then
        match cur with Some w => cons w <$> sh_go false None rest | None => sh_go false None rest end
      else if active c then None
      else sh_go false (push c) rest
  end.

Definition sh_words (s : string) : option (list string) := sh_go false None s.

(** ** Quoting protects *)

Lemma backslash_quote : backslash <> quote.
Proof. unfold backslash, quote. discriminate. Qed.
Lemma quote_newline : quote <> newline.
Proof. unfold newline, quote. discriminate. Qed.

Lemma sh_quoted v cur rest :
  sh_go true cur (escape_quotes v +:+ "'" +:+ rest) = sh_go false (match v with "" => cur | _ => Some (default "" cur +:+ v) end) rest.
Proof.
  revert cur. induction v as [|c v IH]; intros cur; [done|].
  cbn [escape_quotes]. destruct (decide (c = quote)) as [->|Hc].
  - rewrite append_assoc'. change ("'\''" +:+ escape_quotes v +:+ "'" +:+ rest)
      with (String quote (String backslash (String quote (String quote (escape_quotes v +:+ "'" +:+ rest))))).
    cbn [sh_go]. rewrite !decide_True by done.
    rewrite (decide_False (P := backslash = quote)) by apply backslash_quote.
    rewrite (decide_False (P := quote = newline)) by apply quote_newline.
    rewrite IH.
    destruct v; cbn [default from_option id]; rewrite ?append_assoc'; done.
  - rewrite app_String. cbn [sh_go]. rewrite decide_False by done. rewrite IH.
    destruct v; cbn [default from_option id]; rewrite ?append_assoc'; done.
Qed.

Lemma sh_quote v cur rest :
  sh_go false cur (shellQuote v +:+ rest) = sh_go false (Some (default "" cur +:+ v)) rest.
Proof.
  unfold shellQuote. rewrite !append_assoc'. change ("'" +:+ ?x) with (String quote x) at 1. cbn [sh_go].
  rewrite decide_True by done. rewrite sh_quoted. destruct v; cbn [default from_option id]; [by rewrite append_nil_r|done].
Qed.

(** Text without special characters stands for itself. *)
Fixpoint inert (p : string) : bool :=
  match p with
  | "" => true
  | String c p' =>
      negb (bool_decide (c = quote)) && negb (bool_decide (c = backslash)) && negb (blank c) && negb (active c) && inert p'
  end.

Lemma sh_inert p cur rest :
  p <> "" -> inert p = true -> sh_go false cur (p +:+ rest) = sh_go false (Some (default "" cur +:+ p)) rest.
Proof.
  revert cur. induction p as [|c p IH]; intros cur Hne H; [done|]. cbn [inert] in H. zify_bool.
  rewrite app_String. cbn [sh_go]. rewrite !bool_decide_eq_false in *. rewrite !decide_False by done.
  repeat match goal with E : blank c = false |- _ => rewrite E | E : active c = false |- _ => rewrite E end.
  destruct p as [|d p]; [done|]. rewrite IH by done. cbn [default from_option id]. by rewrite append_assoc'.
Qed.

Lemma sh_nil w : sh_go false (Some w) "" = Some [w].
Proof. done. Qed.

Lemma sh_blank w rest : sh_go false (Some w) (" " +:+ rest) = cons w <$> sh_go false None rest.
Proof. done. Qed.

(** [t] is one shell word whose value is [v]. *)
Definition is_word (t v : string) : Prop := forall rest, sh_go false None (t +:+ rest) = sh_go false (Some v) rest.

Lemma quote_is_word v : is_word (shellQuote v) v.
Proof. intros rest. by rewrite sh_quote. Qed.

Lemma flag_is_word p v : p <> "" -> inert p = true -> is_word (p +:+ shellQuote v) (p +:+ v).
Proof. intros Hp Hi rest. rewrite append_assoc', sh_inert by done. by rewrite sh_quote. Qed.

Lemma join_words ts vs : Forall2 is_word ts vs -> sh_words (join " " ts) = Some vs.
Proof.
  unfold sh_words. induction 1 as [|t v ts vs Ht Hts IH]; [done|].
  destruct ts as [|t' ts]; inversion Hts; subst.
  - cbn [join]. rewrite <- (append_nil_r t), Ht. done.
  - rewrite join_cons by done. rewrite Ht, sh_blank, IH. done.
Qed.

Lemma quotes_words vs : Forall2 is_word (map shellQuote vs) vs.
Proof. induction vs; constructor; [apply quote_is_word|done]. Qed.

(** This node's own words. *)
Definition own_words (nodeID apiKey apiURL proxyURL : string) : list string :=
  ["--node_id=" +:+ nodeID; "--api_key=" +:+ apiKey; "--api_url=" +:+ apiURL]
  ++ (if decide (proxyURL = "") then [] else ["--proxy=" +:+ proxyURL]).

Lemma install_args_words nodeID apiKey apiURL proxyURL extraFlags :
  sh_words (join " " (install_args nodeID apiKey apiURL proxyURL extraFlags))
  = Some (own_words nodeID apiKey apiURL proxyURL ++ extraFlags).
Proof.
  apply join_words. unfold install_args, own_words. rewrite <- app_assoc.
  apply Forall2_app; [|apply Forall2_app; [|apply quotes_words]].
  - repeat constructor; by apply flag_is_word.
  - destruct (decide (proxyURL = "")); repeat constructor. by apply flag_is_word.
Qed.

Lemma moduleActionFlags_elem actions flag :
  flag ∈ moduleActionFlags actions <->
  exists name, (flag = "--install-module=" +:+ name /\ ("install_" +:+ name) ∈ actions)
            \/ (flag = "--remove-module=" +:+ name /\ ("remove_" +:+ name) ∈ actions).
Proof.
  unfold moduleActionFlags. rewrite list_elem_of_omap. split.
  - intros (a & Ha & Hf). unfold moduleActionFlag in Hf.
    destruct (cut_prefix "install_" a) as [n|] eqn:E1.
    + apply cut_prefix_Some in E1 as ->. injection Hf as <-. exists n. by left.
    + destruct (cut_prefix "remove_" a) as [n|] eqn:E2; [|done].
      apply cut_prefix_Some in E2 as ->. injection Hf as <-. exists n. by right.
  - intros (n & [[-> Hn]|[-> Hn]]); (eexists; split; [exact Hn|]); unfold moduleActionFlag; by rewrite cut_prefix_app.
Qed.

(** The generated command cannot be injected into.  Whatever bytes the node
    id, the key, the URLs and the extra flags hold, [sh] reads the installer's
    arguments as exactly the intended words and curl's proxy flag as exactly
    two words: no value can start another command, expand, or redirect. *)
Theorem install_command_words nodeID apiKey apiURL proxyURL extraFlags :
  exists curlFlag args,
    buildInstallCommand nodeID apiKey apiURL proxyURL extraFlags = install_template curlFlag args
    /\ sh_words args = Some (["--node_id=" +:+ nodeID; "--api_key=" +:+ apiKey; "--api_url=" +:+ apiURL]
         ++ (if decide (proxyURL = "") then [] else ["--proxy=" +:+ proxyURL]) ++ extraFlags)
    /\ sh_words curlFlag = Some (if decide (proxyURL = "") then [] else ["--proxy"; proxyURL]).
Proof.
  eexists _, _. split; [reflexivity|]. split.
  - rewrite install_args_words. unfold own_words. by rewrite <- app_assoc.
  - unfold curl_proxy_flag. destruct (decide (proxyURL = "")); [done|]. unfold sh_words.
    change ("--proxy " +:+ ?x) with ("--proxy" +:+ " " +:+ x). rewrite sh_inert by done. cbn [default from_option id].
    rewrite sh_blank. by rewrite sh_quote.
Qed.

(** Module actions become flags of the same installer, and nothing else.
    Whatever action names the server sends, the command [reinstall] launches
    passes the installer one [--install-module]/[--remove-module] word per
    recognised action, in order, after this node's own identity; the names
    themselves are data. *)
Theorem module_actions_words me launched actions :
  exists curlFlag args,
    fst (reinstall me launched (moduleActionFlags actions))
      = selfUpdateCommandFor (id_goos me) (id_euid me) (id_pid me) (id_lookPath me) (id_procd me)
          (install_template curlFlag args)
    /\ sh_words args = Some (own_words (id_nodeID me) (trim_prefix (id_apiKey me) (id_nodeID me +:+ ":"))
                                (id_apiURL me) (id_proxyURL me) ++ moduleActionFlags actions)
    /\ forall flag, flag ∈ moduleActionFlags actions <->
         exists name, (flag = "--install-module=" +:+ name /\ ("install_" +:+ name) ∈ actions)
                   \/ (flag = "--remove-module=" +:+ name /\ ("remove_" +:+ name) ∈ actions).
Proof.
  eexists _, _. split; [reflexivity|]. split; [apply install_args_words|apply moduleActionFlags_elem].
Qed.

(** An action name with shell syntax in it stays one argument. *)
Example hostile_action :
  sh_words (join " " (install_args "n" "k" "u" "" (moduleActionFlags ["install_x; rm -rf '/'"; "bogus"])))
  = Some ["--node_id=n"; "--api_key=k"; "--api_url=u"; "--install-module=x; rm -rf '/'"].
Proof. reflexivity. Qed.
