(* ===== verification/ApiClient.v ===== *)
(** * The control-plane client

    [internal/apiclient/client.go]: which answers of the server are a success,
    and what a broken proxy's empty answer does to queued results.  The
    transport and [encoding/json] are parameters: what a request is answered
    with, and how a body decodes. *)

From Stdlib Require Import ZArith Lia List Bool Ascii String.
From stdpp Require Import base tactics gmap strings list.
From S2P Require Import Prelude GoStrings Wire Cache Sql Store StoreMaint Journal StoreWf StoreDemo StoreResults Delivery.

Open Scope string_scope.
Open Scope list_scope.
Open Scope Z_scope.

(** ** Transports *)

Inductive transport : Type := Direct | HTTPProxy | SOCKS5.

Inductive client_error : Type := BadProxyURL | BadSocksDialer | UnsupportedScheme (scheme : string).

(** [BuildTransport]: [parse] is [url.Parse], giving the scheme; [dialer]
    whether [proxy.FromURL] accepts the URL. *)
Definition BuildTransport (parse : string -> option string) (dialer : string -> bool) (proxyURL : string)
    : result client_error transport :=
  if decide (proxyURL = "") then Ok Direct
  else
    match parse proxyURL with
    | None => Err BadProxyURL
    | Some scheme =>
        if bool_decide (scheme = "http") || bool_decide (scheme = "https") then Ok HTTPProxy
        else if bool_decide (scheme = "socks5") || bool_decide (scheme = "socks5h")
        then (if dialer proxyURL then Ok SOCKS5 else Err BadSocksDialer)
        else Err (UnsupportedScheme scheme)
    end.

Record Client : Type := mkClient { baseURL : string; apiKey : string; httpTransport : transport }.

(** [strings.TrimRight(baseURL, "/")]. *)
Fixpoint trim_right_slashes (s : string) : string :=
  match s with
  | "" => ""
  | String c rest =>
      let r := trim_right_slashes rest in
      if bool_decide (r = "") && bool_decide (c = "/"%char) then "" else String c r
  end.

Definition New (parse : string -> option string) (dialer : string -> bool) (base key proxyURL : string)
    : result client_error Client :=
  let* t := BuildTransport parse dialer proxyURL in Ok (mkClient (trim_right_slashes base) key t).

(** ** One exchange *)

(** What [httpClient.Do] and reading the body give: a status and a body, or
    no answer. *)
Record http_answer : Type := mkAnswer { StatusCode : Z; Body : string }.

(** [wire.HeartbeatRejection]. *)
Record HeartbeatRejection : Type := mkRejection {
  rej_Error : string;
  MissingProberIDs : list string;
  rej_NodeStatus : string;
  rej_IntervalSecs : Z
}.

Definition HeartbeatErrorModulesOutOfSync : string := "modules_out_of_sync".

Inductive api_error : Type :=
| NotEncodable
| NoAnswer
| StatusError (Code : Z) (body : string)
| EmptyBody
| NullBody
| DecodeFailed
| HeartbeatRejectedError (r : HeartbeatRejection).

(** [do]: [out] decodes the body, [None] when no body is wanted. *)
Definition do_ {A} (encodable : bool) (out : option (string -> option A)) (ans : option http_answer)
    : result api_error (option A) :=
  if negb encodable then Err NotEncodable
  else
    match ans with
    | None => Err NoAnswer
    | Some a =>
        if 400 <=? StatusCode a then Err (StatusError (StatusCode a) (Body a))
        else
          match out with
          | None => Ok None
          | Some decode =>
              let trimmed := trim_space (Body a) in
              if decide (trimmed = "") then Err EmptyBody
              else if decide (trimmed = "null") then Err NullBody
              else match decode trimmed with Some v => Ok (Some v) | None => Err DecodeFailed end
          end
    end.

(** A call that decodes its answer into [out]. *)
Definition fetch {A} (encodable : bool) (decode : string -> option A) (ans : option http_answer)
    : result api_error A :=
  match do_ encodable (Some decode) ans with
  | Ok (Some v) => Ok v
  | Ok None => Err DecodeFailed
  | Err e => Err e
  end.

Definition PostResults (decode : string -> option ResultsResponse) (results : list Result) (ans : option http_answer)
    : result api_error ResultsResponse :=
  fetch (forallb (fun r => json_encodable (VObject (Extra (res r)))
                  && match LatencyMs (res r) with Some f => finite_float f | None => true end) results) decode ans.

Definition Heartbeat (decode : string -> option HeartbeatResponse) (rejection : string -> option HeartbeatRejection)
    (encodable : bool) (ans : option http_answer) : result api_error HeartbeatResponse :=
  match fetch encodable decode ans with
  | Err (StatusError 409 body) =>
      match rejection body with
      | Some r => if decide (rej_Error r = HeartbeatErrorModulesOutOfSync) then Err (HeartbeatRejectedError r)
                  else Err (StatusError 409 body)
      | None => Err (StatusError 409 body)
      end
  | r => r
  end.

Definition UploadModules (decode : string -> option Z) (encodable : bool) (ans : option http_answer)
    : result api_error Z := fetch encodable decode ans.

Definition AckAction (ans : option http_answer) : result api_error unit :=
  match @do_ unit true None ans with Ok _ => Ok tt | Err e => Err e end.

(** ** What a success is *)

Lemma fetch_Ok {A} enc (decode : string -> option A) ans v :
  fetch enc decode ans = Ok v <->
  enc = true /\ exists a, ans = Some a /\ StatusCode a < 400 /\ trim_space (Body a) <> ""
    /\ trim_space (Body a) <> "null" /\ decode (trim_space (Body a)) = Some v.
Proof.
  unfold fetch, do_. split.
  - destruct enc; [|done]. destruct ans as [a|]; [|done]. cbn [negb].
    destruct (Z.leb_spec 400 (StatusCode a)); [done|].
    destruct (decide (trim_space (Body a) = "")); [done|]. destruct (decide (trim_space (Body a) = "null")); [done|].
    destruct (decode _) as [x|] eqn:E; [|done]. intros [= ->]. eauto 10.
  - intros (-> & a & -> & Hs & H1 & H2 & Hd). cbn [negb]. rewrite (proj2 (Z.leb_gt 400 (StatusCode a))) by lia.
    rewrite !decide_False by done. by rewrite Hd.
Qed.

(** The server as [Delivery.v] sees it: each request is answered by [net]. *)
Definition results_server (decode : string -> option ResultsResponse)
    (net : nat -> list Result -> option http_answer) (n : nat) (rs : list Result) : option ResultsResponse :=
  match PostResults decode rs (net n rs) with Ok r => Some r | Err _ => None end.

(** A heartbeat is rejected for its modules exactly on a 409 whose body says
    so; no other failure makes the node upload anything, and a response is
    accepted only from a status below 400 with a decoded, non-null body. *)
Theorem heartbeat_outcomes decode rejection ans :
  match Heartbeat decode rejection true ans with
  | Ok resp => exists a, ans = Some a /\ StatusCode a < 400 /\ decode (trim_space (Body a)) = Some resp
                 /\ trim_space (Body a) <> "" /\ trim_space (Body a) <> "null"
  | Err (HeartbeatRejectedError r) => exists a, ans = Some a /\ StatusCode a = 409
                 /\ rejection (Body a) = Some r /\ rej_Error r = HeartbeatErrorModulesOutOfSync
  | Err _ => True
  end.
Proof.
  unfold Heartbeat. destruct (fetch true decode ans) as [resp|e] eqn:E.
  - apply fetch_Ok in E as (_ & a & -> & Hs & H1 & H2 & Hd). eauto 10.
  - unfold fetch, do_ in E. cbn [negb] in E. destruct ans as [a|]; [|by injection E as <-].
    destruct (Z.leb_spec 400 (StatusCode a)).
    + injection E as <-.
      destruct (decide (StatusCode a = 409)) as [Hc|Hc].
      * rewrite Hc. destruct (rejection (Body a)) as [r|] eqn:Er; [|done].
        destruct (decide (rej_Error r = _)); [|done]. eauto 10.
      * destruct (StatusCode a) as [|p|p]; try done. 
        repeat (destruct p; try done).
    + destruct (decide _); [by injection E as <-|]. destruct (decide _); [by injection E as <-|].
      destruct (decode _); [done|]. by injection E as <-.
Qed.

(** A response that looks like a success but says nothing. *)
Definition says_nothing (decode : string -> option ResultsResponse) (ans : option http_answer) : bool :=
  match ans with
  | Some a => (400 <=? StatusCode a) || bool_decide (trim_space (Body a) = "") || bool_decide (trim_space (Body a) = "null")
              || match decode (trim_space (Body a)) with Some _ => false | None => true end
  | None => true
  end.

Lemma says_nothing_unanswered decode net n rs :
  says_nothing decode (net n rs) = true -> results_server decode net n rs = None.
Proof.
  intros H. unfold results_server. destruct (PostResults decode rs (net n rs)) as [r|] eqn:E; [|done].
  apply fetch_Ok in E as (_ & a & Ea & Hs & H1 & H2 & Hd). rewrite Ea in H. cbn in H. rewrite Hd in H.
  apply Z.leb_gt in Hs. rewrite Hs, !bool_decide_false in H by done. done.
Qed.

#[local] Ltac untouched := eexists _, _, _; split; [done|]; cbn; split_and!; [done|done|lia|by intros []].

(** An empty success settles nothing.  While every answer to a results POST
    is an error, an empty or null body, or a body that does not decode (a
    captive portal, a broken proxy), a drain of the store leaves the whole
    backlog queued, counts nothing as delivered and makes at most one
    request before it backs off. *)
Theorem empty_success_settles_nothing decode net clock expired fuel o now w :
  (forall n rs, says_nothing decode (net n rs) = true) -> db_wf (w_db w) ->
  exists t err w', drainStore (results_server decode net) clock expired (S fuel) o now w = Some (t, err, w')
    /\ backlog o (w_db w') = backlog o (w_db w) /\ delivered t = 0
    /\ (length (w_sent w') <= S (length (w_sent w)))%nat
    /\ (w_sent w' <> w_sent w -> w_delivery w' = backoffDelivery (clock 0%nat) (w_delivery w)).
Proof.
  intros Hn Hwf. unfold drainStore. destruct (backing_off now (w_delivery w)); [untouched|].
  cbn [drain_pages]. destruct (expired 0%nat); [untouched|].
  destruct (PendingResults o 500 (w_faults w) (w_db w)) as [[r db] fs] eqn:Ep.
  apply pending_page in Ep as [-> _]. destruct r as [[|p0 rest]|e]; [untouched| |untouched].
  pose proof (attempts_backlog o (pend_Seq <$> p0 :: rest) fs (w_db w)) as Ha. unfold run in Ha.
  destruct (MarkAttempts _ _ _) as [[ra db] fs1]. cbn [fst snd] in Ha. unfold postResults.
  rewrite says_nothing_unanswered by apply Hn. eexists _, _, _. split; [done|].
  cbn [w_db w_sent w_delivery delivered no_totals]. rewrite length_app. cbn [length]. split_and!; [exact Ha|done|lia|done].
Qed.

(** ** Concrete answers *)

Definition portal (n : nat) (rs : list Result) : option http_answer :=
  Some (mkAnswer 200 (if (n =? 0)%nat then bytes [32; 10]%nat else " null")).

Lemma empty_success_settles_nothing_witness :
  exists t err w', drainStore (results_server (fun _ => Some (mkResponse 0 0 [] "")) portal) demo_clock (fun _ => false) 3
      "node" 0 demo_world = Some (t, err, w')
    /\ backlog "node" (w_db w') = backlog "node" (w_db demo_world).
Proof.
  destruct (empty_success_settles_nothing (fun _ => Some (mkResponse 0 0 [] "")) portal demo_clock (fun _ => false) 2
    "node" 0 demo_world) as (t & err & w' & E & Hb & _).
  - intros [|n] rs; reflexivity.
  - exact demo_db_wf.
  - exists t, err, w'. split; [exact E|exact Hb].
Defined.

(** An acknowledgement counts as received on any status below 400, a
    redirect without a location included. *)
Example ack_redirect : AckAction (Some (mkAnswer 300 "")) = Ok tt.
Proof. reflexivity. Qed.
