(* ===== verification/Config.v ===== *)
(** * Limits and configuration

    [internal/agent/resources.go], [domain.go] and the validation half of
    [Run] in [agent.go]: what the agent derives from the machine's memory,
    and the settings an accepted configuration yields.  Files, the registry,
    the HTTP client's URL parser and opening the database are what the
    environment answers. *)

From Stdlib Require Import ZArith Lia List Bool Ascii String.
From stdpp Require Import base tactics gmap strings list.
From S2P Require Import Prelude GoStrings Sql Store StoreMaint StoreWf Clock PathHealth Cache Spool.
From S2P Require Import Delivery Netbind Checks ApiClient Tick.

Open Scope string_scope.
Open Scope list_scope.
Open Scope Z_scope.

(** ** Text of /proc and /sys *)

Definition digit (c : ascii) : option Z :=
  let n := Z.of_nat (nat_of_ascii c) in if (48 <=? n) && (n <=? 57) then Some (n - 48) else None.

Fixpoint read_digits (acc : Z) (s : string) : option Z :=
  match s with
  | "" => Some acc
  | String c r => match digit c with Some d => read_digits (10 * acc + d) r | None => None end
  end.

Definition read_nat (s : string) : option Z := if decide (s = "") then None else read_digits 0 s.

(** [strconv.ParseInt(s, 10, 64)]. *)
Definition ParseInt (s : string) : option Z :=
  let v :=
    match s with
    | String "-" r => Z.opp <$> read_nat r
    | String "+" r => read_nat r
    | _ => read_nat s
    end in
  match v with Some n => if (min_int64 <=? n) && (n <=? max_int64) then Some n else None | None => None end.

(** [strings.SplitN(s, c, n)]. *)
Fixpoint splitN (n : nat) (c : ascii) (s : string) : list string :=
  match n with
  | O | S O => [s]
  | S n' => match cut c s with Some (a, b) => a :: splitN n' c b | None => [s] end
  end.

(** [strings.Fields]. *)
Fixpoint fields_aux (fuel : nat) (cur : string) (s : string) : list string :=
  let emit rest := if decide (cur = "") then rest else cur :: rest in
  match fuel with
  | O => emit []
  | S f =>
      match strip_one s with
      | Some r => emit (fields_aux f "" r)
      | None => match s with "" => emit [] | String c r => fields_aux f (cur +:+ String c "") r end
      end
  end.

Definition fields (s : string) : list string := fields_aux (S (String.length s)) "" s.

Definition lines (s : string) : list string := split "010" s.

(** ** Memory ([resources.go]) *)

Section memory.
Context (read_file : string -> option string).

Definition readCgroupInt (path : string) : option Z :=
  match read_file path with
  | None => None
  | Some data => let value := trim_space data in if decide (value = "max") then Some 0 else ParseInt value
  end.

(** The first line of the unified hierarchy. *)
Definition cgroup_path (line : string) : option string :=
  match splitN 3 ":" line with
  | [a; b; rel] => if bool_decide (a = "0") && bool_decide (b = "") then Some (trim_space rel) else None
  | _ => None
  end.

Definition cgroupMemoryV2 : option (Z * Z) :=
  match read_file "/proc/self/cgroup" with
  | None => None
  | Some data =>
      match head (omap cgroup_path (lines data)) with
      | None => None
      | Some rel =>
          let base := "/sys/fs/cgroup" +:+ rel in
          match readCgroupInt (base +:+ "/memory.max"), readCgroupInt (base +:+ "/memory.current") with
          | Some maxBytes, Some currentBytes => if maxBytes <=? 0 then None else Some (maxBytes, currentBytes)
          | _, _ => None
          end
      end
  end.

Definition mem_available_line (line : string) : option Z :=
  match fields line with
  | k :: v :: _ =>
      if decide (k = "MemAvailable:")
      then match ParseInt v with Some kb => if 0 <? kb then Some (int_mul kb 1024) else None | None => None end
      else None
  | _ => None
  end.

Definition procMemAvailable : option Z :=
  match read_file "/proc/meminfo" with
  | None => None
  | Some data => head (omap mem_available_line (lines data))
  end.

(** [vm] is gopsutil's available memory. *)
Definition availableMemoryBytes (vm : option Z) : Z :=
  match cgroupMemoryV2 with
  | Some (limit, current) => if current <? limit then int_add limit (- current) else limit
  | None =>
      match procMemAvailable with
      | Some available => available
      | None => match vm with Some v => if 0 <? v then wrap64 v else 0 | None => 0 end
      end
  end.
End memory.

Definition autoConcurrency (available : Z) : Z :=
  if available <=? 0 then 8
  else let mb := available ÷ Z.shiftl 32 20 in if mb <? 4 then 4 else if 64 <? mb then 64 else mb.

Definition autoMemoryLimit (available : Z) : Z :=
  if available <=? 0 then 0
  else
    let limit := int_mul available 65 ÷ 100 in
    let limit := if limit <? Z.shiftl 32 20 then Z.shiftl 32 20 else limit in
    if available <? limit then available else limit.

(** ** Address-family choice ([domain.go]) *)

Definition normalizeDomainStrategy (value : string) : option string :=
  let v := GoStrings.to_lower (trim_space value) in
  if decide (v = "") then Some ""
  else if decide (v ∈ ["as_is"; "asis"]) then Some "AsIs"
  else if decide (v ∈ ["use_ipv4"; "useipv4"]) then Some "UseIPv4"
  else if decide (v ∈ ["use_ip"; "useip"]) then Some "UseIP"
  else if decide (v ∈ ["use_ipv6"; "useipv6"]) then Some "UseIPv6"
  else None.

(** ** [Run]'s configuration *)

(** [store/maintenance.go]. *)
Definition DefaultRetention : duration := 30 * 24 * hour.
Definition DefaultMaxBytes : Z := Z.shiftl 32 20.

Record Config : Type := mkConfig {
  APIURL : string; APIKey : string; ProxyURL : string; Version : string;
  SchedulerTick : duration;
  Concurrency : Z;
  MaxJobsPerTick : Z; MaxJobsPerProbe : Z; MaxTriggersPerTick : Z;
  StartupJitter : duration;
  MemoryLimitBytes : Z;
  PoolConcurrency : Z; PoolMaxJobs : Z; PoolPortBase : Z; PoolPortSpan : Z;
  DomainStrategy : string;
  cfg_SourceIP : string; BindInterface : string;
  SpoolDir : string; SpoolMaxBytes : Z;
  DBPath : string; DBMaxBytes : Z; DBRetention : duration; DBSync : string;
  DestinationInterval : duration; DestinationMaxWait : duration;
  ModulesDir : string; ToolsDir : string
}.

(** What the machine answers while [Run] starts. *)
Record machine : Type := mkMachine {
  m_read_file : string -> option string;
  m_vm : option Z;
  m_GOMEMLIMIT : string;
  m_open : string -> string -> option database;   (** [store.Open] of a path with a sync mode *)
  m_spool : option (gmap string dirEntry);         (** the spool directory, once created *)
  m_url_scheme : string -> option string;
  m_socks : string -> bool;
  m_modules : string -> string -> bool             (** [LoadModulesWithLimits] succeeds *)
}.

Record settings : Type := mkSettings {
  s_nodeID : string;
  s_version : string;
  s_concurrency : Z;
  s_limits : bounds;
  s_startupJitter : duration;
  s_memoryLimit : Z;
  s_binding : Binding;
  s_store : option database;
  s_spool : option resultSpool;
  s_domain : string;
  s_client : Client;
  s_pool : Z * Z * Z * Z;
  s_dbRetention : duration;
  s_dbMaxBytes : Z
}.

Inductive config_error : Type :=
| BadAPIKey | BadTick | BadConcurrency | BadJobLimits | BadJitter | BadMemLimit | BadBinding (e : bind_error)
| BadPoolLimits | BadPortRange | BadSpoolBytes | BadDB | SpoolUnavailable | BadDomainStrategy
| BadClient (e : client_error) | BadModules.

Definition ensure (ok : bool) (e : config_error) : result config_error unit := if ok then Ok tt else Err e.

Definition on_error {E A} (f : E -> config_error) (r : result E A) : result config_error A :=
  match r with Ok a => Ok a | Err e => Err (f e) end.

(** The scheduler bounds, zero meaning the default. *)
Definition job_limits (cfg : Config) : bounds :=
  let perTick := if MaxJobsPerTick cfg =? 0 then 512 else MaxJobsPerTick cfg in
  let perProbe := if MaxJobsPerProbe cfg =? 0 then 32 else MaxJobsPerProbe cfg in
  let perProbe := if perTick <? perProbe then perTick else perProbe in
  mkBounds perTick perProbe (if MaxTriggersPerTick cfg =? 0 then 16 else MaxTriggersPerTick cfg).

Definition check_pool (cfg : Config) : result config_error unit :=
  let* _ := ensure (0 <=? PoolConcurrency cfg) BadPoolLimits in
  let* _ := ensure (0 <=? PoolMaxJobs cfg) BadPoolLimits in
  let* _ := ensure ((0 <=? PoolPortBase cfg) && (0 <=? PoolPortSpan cfg)) BadPortRange in
  let* _ := ensure (Bool.eqb (PoolPortBase cfg =? 0) (PoolPortSpan cfg =? 0)) BadPortRange in
  ensure (negb ((0 <? PoolPortBase cfg) && (65536 <? int_add (PoolPortBase cfg) (PoolPortSpan cfg)))) BadPortRange.

(** Where results go: the store if it opens, else the spool, else nowhere. *)
Definition open_storage (m : machine) (cfg : Config) : result config_error (option database * option resultSpool) :=
  let opened := if decide (DBPath cfg = "") then None else m_open m (DBPath cfg) (DBSync cfg) in
  match opened with
  | Some d => Ok (Some d, None)
  | None =>
      if decide (SpoolDir cfg = "") then Ok (None, None)
      else
        match m_spool m with
        | Some files => Ok (None, newResultSpool (SpoolDir cfg) (SpoolMaxBytes cfg) files)
        | None => Err SpoolUnavailable
        end
  end.

Section run.
Context `{NetIP}.

Definition configure (m : machine) (cfg : Config) : result config_error settings :=
  match cut ":" (APIKey cfg) with
  | None => Err BadAPIKey
  | Some (nodeID, _) =>
      let* _ := ensure (negb (bool_decide (nodeID = ""))) BadAPIKey in
      let* _ := ensure (0 <? SchedulerTick cfg) BadTick in
      let* _ := ensure (0 <=? Concurrency cfg) BadConcurrency in
      let available := availableMemoryBytes (m_read_file m) (m_vm m) in
      let concurrency := if Concurrency cfg =? 0 then autoConcurrency available else Concurrency cfg in
      let* _ := ensure (1 <=? concurrency) BadConcurrency in
      let* _ := ensure ((0 <=? MaxJobsPerTick cfg) && (0 <=? MaxJobsPerProbe cfg) && (0 <=? MaxTriggersPerTick cfg))
                  BadJobLimits in
      let* _ := ensure (0 <=? StartupJitter cfg) BadJitter in
      let* _ := ensure (0 <=? MemoryLimitBytes cfg) BadMemLimit in
      let* binding := on_error BadBinding (Parse (cfg_SourceIP cfg) (BindInterface cfg)) in
      let memLimit := if (MemoryLimitBytes cfg =? 0) && bool_decide (m_GOMEMLIMIT m = "")
                      then autoMemoryLimit available else MemoryLimitBytes cfg in
      let* _ := check_pool cfg in
      let* _ := ensure (0 <=? SpoolMaxBytes cfg) BadSpoolBytes in
      let* _ := ensure (0 <=? DBMaxBytes cfg) BadDB in
      let* _ := ensure (0 <=? DBRetention cfg) BadDB in
      let* st := open_storage m cfg in
      match normalizeDomainStrategy (DomainStrategy cfg) with
      | None => Err BadDomainStrategy
      | Some domain =>
          let* client := on_error BadClient (New (m_url_scheme m) (m_socks m) (APIURL cfg) (APIKey cfg) (ProxyURL cfg)) in
          let* _ := ensure (m_modules m (ModulesDir cfg) (ToolsDir cfg)) BadModules in
          Ok (mkSettings nodeID (if decide (Version cfg = "") then "dev" else Version cfg) concurrency (job_limits cfg)
                (StartupJitter cfg) memLimit binding (fst st) (snd st) domain client
                (PoolConcurrency cfg, PoolMaxJobs cfg, PoolPortBase cfg, PoolPortSpan cfg)
                (if DBRetention cfg =? 0 then DefaultRetention else DBRetention cfg)
                (if DBMaxBytes cfg =? 0 then DefaultMaxBytes else DBMaxBytes cfg))
      end
  end.
End run.

(** ** What is derived from memory *)

Lemma quot_div a b : 0 <= a -> 0 < b -> a ÷ b = a / b.
Proof. intros. by apply Z.quot_div_nonneg; lia. Qed.

(** The derived limits are always usable.  Whatever available memory is
    read, zero, negative or so large that the product overflows, the
    concurrency is between 4 and 64, and a memory limit is derived exactly
    when memory is known: at most what is available, and never below 32 MiB
    unless less than that is available. *)
Theorem auto_limits available :
  in_int64 available ->
  4 <= autoConcurrency available <= 64
  /\ (available <= 0 -> autoMemoryLimit available = 0 /\ autoConcurrency available = 8)
  /\ (0 < available -> Z.min available (2 ^ 25) <= autoMemoryLimit available <= available).
Proof.
  unfold in_int64, max_int64. intros Ha. unfold autoConcurrency, autoMemoryLimit.
  change (Z.shiftl 32 20) with (2 ^ 25). destruct (Z.leb_spec available 0); [split_and!; lia|].
  split_and!; try lia; split_ifs; zify_bool; lia.
Qed.

(** A container's limit wins over the host's memory. *)
Definition demo_files (path : string) : option string :=
  if decide (path = "/proc/self/cgroup") then Some ("1:name=x:/y" +:+ String "010" "0::/svc")
  else if decide (path = "/sys/fs/cgroup/svc/memory.max") then Some ("1073741824" +:+ String "010" "")
  else if decide (path = "/sys/fs/cgroup/svc/memory.current") then Some "73741824"
  else if decide (path = "/proc/meminfo") then Some "MemAvailable:  9000 kB"
  else None.

Example container_memory : availableMemoryBytes demo_files (Some 5) = 1000000000.
Proof. reflexivity. Qed.
Example host_memory :
  availableMemoryBytes (fun p => if decide (p = "/proc/self/cgroup") then None else demo_files p) (Some 5) = 9216000.
Proof. reflexivity. Qed.
Example domain_spelling : normalizeDomainStrategy " Use_IPv4" = Some "UseIPv4".
Proof. reflexivity. Qed.

(** ** What [Run] accepts *)

Lemma ensure_Ok b e u : ensure b e = Ok u -> b = true.
Proof. destruct b; [done|discriminate]. Qed.

Lemma on_error_Ok {E A} (f : E -> config_error) (r : result E A) a : on_error f r = Ok a -> r = Ok a.
Proof. destruct r; [by intros [= ->]|discriminate]. Qed.

#[local] Ltac step H :=
  let H1 := fresh "G" in
  apply res_bind_Ok in H as (? & H1 & H); try apply ensure_Ok in H1; try apply on_error_Ok in H1.

Definition port_range_ok (base span : Z) : Prop :=
  (base = 0 /\ span = 0) \/ (0 < base /\ 0 < span /\ base + span <= 65536).

Lemma check_pool_Ok cfg u :
  in_int64 (PoolPortBase cfg + PoolPortSpan cfg) -> check_pool cfg = Ok u ->
  0 <= PoolConcurrency cfg /\ 0 <= PoolMaxJobs cfg /\ port_range_ok (PoolPortBase cfg) (PoolPortSpan cfg).
Proof.
  intros Hi H. unfold check_pool in H. step H. step H. step H. step H. apply ensure_Ok in H.
  rewrite int_add_small in H by done. apply eqb_prop in G2. unfold port_range_ok.
  destruct (Z.eqb_spec (PoolPortBase cfg) 0), (Z.eqb_spec (PoolPortSpan cfg) 0); zify_bool; try done; lia.
Qed.

Lemma job_limits_ok cfg :
  0 <= MaxJobsPerTick cfg -> 0 <= MaxJobsPerProbe cfg -> 0 <= MaxTriggersPerTick cfg ->
  1 <= maxJobsPerProbe (job_limits cfg) <= maxJobsPerTick (job_limits cfg)
  /\ 1 <= maxTriggersPerTick (job_limits cfg).
Proof. intros. unfold job_limits. cbn. split_ifs; zify_bool; lia. Qed.

Lemma availableMemory_range read vm : in_int64 (availableMemoryBytes read vm).
Proof.
  assert (forall s n, ParseInt s = Some n -> in_int64 n) as Hp.
  { intros s n. unfold ParseInt. destruct (match s with "" => _ | _ => _ end) as [v|]; [|done].
    destruct (_ && _) eqn:E; [|done]. intros [= <-]. zify_bool. split; lia. }
  assert (in_int64 0) as H0 by (vm_compute; intuition discriminate).
  unfold availableMemoryBytes. destruct (cgroupMemoryV2 read) as [[l c]|] eqn:E.
  - destruct (c <? l); [apply wrap64_range|]. unfold cgroupMemoryV2 in E.
    destruct (read _); [|done]. destruct (head _); [|done].
    destruct (readCgroupInt _ _) as [mx|] eqn:Em; [|done]. destruct (readCgroupInt _ (_ +:+ "/memory.current")); [|done].
    destruct (mx <=? 0); [done|]. injection E as <- _. unfold readCgroupInt in Em. destruct (read _); [|done].
    destruct (decide _); [by injection Em as <-|]. by eapply Hp.
  - destruct (procMemAvailable read) as [a|] eqn:Ep.
    + unfold procMemAvailable in Ep. destruct (read _); [|done]. apply head_omap_Some in Ep as (ln & _ & Hl).
      unfold mem_available_line in Hl. destruct (fields ln) as [|k [|v r]]; try done. destruct (decide _); [|done].
      destruct (ParseInt v); [|done]. destruct (0 <? _); [|done]. injection Hl as <-. apply wrap64_range.
    + destruct vm as [v|]; [|done]. destruct (0 <? v); [apply wrap64_range|done].
Qed.

Lemma open_storage_Ok m cfg d sp :
  open_storage m cfg = Ok (d, sp) ->
  d = (if decide (DBPath cfg = "") then None else m_open m (DBPath cfg) (DBSync cfg))
  /\ (d <> None -> sp = None) /\ (d = None -> (sp = None <-> SpoolDir cfg = "")).
Proof.
  unfold open_storage. destruct (if decide (DBPath cfg = "") then None else _) as [d0|].
  - intros [= <- <-]. done.
  - destruct (decide (SpoolDir cfg = "")) as [E|E]; [by intros [= <- <-]|].
    destruct (m_spool m) as [files|]; [|done]. intros [= <- <-]. split_and!; [done..|]. intros _. unfold newResultSpool.
    by rewrite ?decide_False, ?bool_decide_false.
Qed.

Lemma domain_values v dom :
  normalizeDomainStrategy v = Some dom -> dom ∈ [""; "AsIs"; "UseIPv4"; "UseIP"; "UseIPv6"].
Proof.
  unfold normalizeDomainStrategy. cbv zeta.
  repeat (destruct (decide _); [intros [= <-]; rewrite ?elem_of_cons; tauto|]). done.
Qed.

(** Every configuration the agent accepts is one it can run.  The node id is
    non-empty, at least one check runs at a time, the scheduler's bounds are
    positive and ordered as [tick_budget] needs them, the engine port range
    is empty or inside 1..65535, the binding is one [Parse] accepts, and
    results have a single destination: a database that opened, or else the
    spool when one is configured. *)
Theorem configure_sound `{NetIP} m cfg s :
  in_int64 (PoolPortBase cfg + PoolPortSpan cfg) -> configure m cfg = Ok s ->
  s_nodeID s <> "" /\ (exists secret, APIKey cfg = s_nodeID s +:+ ":" +:+ secret)
  /\ 1 <= s_concurrency s
  /\ 1 <= maxJobsPerProbe (s_limits s) <= maxJobsPerTick (s_limits s) /\ 1 <= maxTriggersPerTick (s_limits s)
  /\ (let '(_, _, base, span) := s_pool s in port_range_ok base span)
  /\ Parse (cfg_SourceIP cfg) (BindInterface cfg) = Ok (s_binding s)
  /\ (DBPath cfg <> "" -> s_store s = m_open m (DBPath cfg) (DBSync cfg))
  /\ (s_store s <> None -> s_spool s = None)
  /\ (s_store s = None -> (s_spool s = None <-> SpoolDir cfg = ""))
  /\ s_domain s ∈ [""; "AsIs"; "UseIPv4"; "UseIP"; "UseIPv6"].
Proof.
  intros Hi. unfold configure. destruct (cut ":" (APIKey cfg)) as [[node secret]|] eqn:Ecut; [|done].
  apply cut_Some in Ecut. intros H1. do 8 step H1. cbv zeta in H1. step H1. step H1. step H1. step H1. step H1.
  destruct (normalizeDomainStrategy _) as [dom|] eqn:Ed; [|done]. step H1. step H1. injection H1 as <-.
  cbn [s_nodeID s_concurrency s_limits s_pool s_binding s_store s_spool s_domain fst snd].
  apply check_pool_Ok in G7 as (_ & _ & Hport); [|done].
  apply negb_true_iff, bool_decide_eq_false in G. zify_bool.
  pose proof (job_limits_ok cfg H0 H2 H1) as (Hb1 & Hb2). destruct x11 as [d sp].
  apply open_storage_Ok in G11 as (Hd & Hs1 & Hs2). apply domain_values in Ed.
  split_and!; try done; try lia; [by exists secret|]. intros Hp. cbn [fst]. rewrite Hd. by rewrite decide_False.
Qed.

(** ** A concrete start *)

Definition demo_config : Config := {|
  APIURL := "https://api/"; APIKey := "node:secret"; ProxyURL := ""; Version := "";
  SchedulerTick := second; Concurrency := 0; MaxJobsPerTick := 8; MaxJobsPerProbe := 0; MaxTriggersPerTick := 0;
  StartupJitter := 0; MemoryLimitBytes := 0; PoolConcurrency := 0; PoolMaxJobs := 0; PoolPortBase := 20000;
  PoolPortSpan := 100; DomainStrategy := "use_ipv4"; cfg_SourceIP := ""; BindInterface := " eth0";
  SpoolDir := "/spool"; SpoolMaxBytes := 0; DBPath := "/db"; DBMaxBytes := 0; DBRetention := 0; DBSync := "";
  DestinationInterval := 0; DestinationMaxWait := 0; ModulesDir := ""; ToolsDir := "" |}.

(** The database does not open: the spool takes over. *)
Definition demo_machine : machine := {|
  m_read_file := demo_files; m_vm := None; m_GOMEMLIMIT := ""; m_open _ _ := None; m_spool := Some ∅;
  m_url_scheme _ := None; m_socks _ := false; m_modules _ _ := true |}.

Lemma configure_sound_witness : exists s,
  configure demo_machine demo_config = Ok s /\ s_concurrency s = 29 /\ s_store s = None /\ s_spool s <> None
  /\ 1 <= maxJobsPerProbe (s_limits s) <= maxJobsPerTick (s_limits s).
Proof.
  destruct (configure demo_machine demo_config) as [s|e] eqn:E; [|vm_compute in E; discriminate].
  exists s. assert (in_int64 (PoolPortBase demo_config + PoolPortSpan demo_config)) as Hi
    by (vm_compute; intuition discriminate).
  pose proof (configure_sound demo_machine demo_config s Hi E) as (_ & _ & _ & Hb & _ & _ & _ & Hst & _ & Hsp & _).
  assert (s_store s = None) as Hn by (by apply Hst).
  split_and!; [reflexivity| |exact Hn| |apply Hb|apply Hb].
  - revert E. vm_compute. intros [= <-]. reflexivity.
  - intros Hz. apply (Hsp Hn) in Hz. discriminate.
Defined.

Lemma auto_limits_witness : 4 <= autoConcurrency (- 1) <= 64.
Proof. apply (auto_limits (- 1)). vm_compute. intuition discriminate. Defined.
