(* ===== verification/AgentLoop.v ===== *)
(** * The agent's loops

    [internal/agent/agent.go] ([heartbeatLoop], [schedulerLoop], the start of
    [Run], [handlePendingAction], [uploadMissingModules]) and
    [store_delivery.go] ([restorePendingTriggers], [applyTriggeredEvents],
    [maintenanceLoop]).  A run of the agent is a sequence of loop iterations:
    heartbeats, scheduler ticks and maintenance passes, in any order, each
    one function of the node's state and of what the world does during it. *)

From Stdlib Require Import ZArith Lia List Bool Ascii String.
From stdpp Require Import base tactics gmap strings list fin_maps.
From S2P Require Import Prelude GoStrings Wire Cache DueProbes Triggers Sql Store StoreMaint.
From S2P Require Import Journal StoreWf StoreDemo StoreResults StoreTriggers StoreAssign StoreMeta.
From S2P Require Import Clock Health PathHealth Spool Delivery Netbind Checks Tick SelfUpdate.
From S2P Require Import ApiClient Config.

Open Scope string_scope.
Open Scope list_scope.
Open Scope Z_scope.

(** ** Requests the node makes *)

Record ModuleUpload : Type := mkUpload {
  up_ProberID : string;
  up_FileHash : string;
  up_YAML : string;
  up_Manifest : any
}.

(** The telemetry a heartbeat carries: the sample, and the binding's own
    fields when one is configured. *)
Record HealthReport : Type := mkReport {
  rep_health : NodeHealth;
  rep_SourceIP : string;
  rep_BindInterface : string;
  rep_BindError : string
}.

Record HeartbeatRequest : Type := mkHeartbeatRequest {
  rq_NodeID : string;
  rq_AgentVersion : string;
  rq_OS : string;
  rq_Arch : string;
  rq_Probers : list string;
  rq_ProbeHash : string;
  rq_Health : HealthReport;
  rq_SentAt : time
}.

(** What the node asked of the outside, in order. *)
Inductive call : Type :=
| CallHeartbeat (rq : HeartbeatRequest)
| CallUpload (ms : list ModuleUpload)
| CallAck (id : string) (accepted : bool)
| CallLaunch (launch : selfUpdateLaunch).

(** ** The node *)

Record node : Type := mkNode {
  ag : agent;
  status : string;
  ready : bool;
  triggersRestored : bool;
  startupJitter : duration;
  sampler : healthSampler;
  interval : duration;
  calls : list call;
  exited : option Z
}.

Definition on_ag f n := mkNode (f (ag n)) (status n) (ready n) (triggersRestored n) (startupJitter n) (sampler n)
  (interval n) (calls n) (exited n).
Definition set_status s n := mkNode (ag n) s (ready n) (triggersRestored n) (startupJitter n) (sampler n)
  (interval n) (calls n) (exited n).
Definition set_ready n := mkNode (ag n) (status n) true (triggersRestored n) (startupJitter n) (sampler n)
  (interval n) (calls n) (exited n).
Definition set_restored n := mkNode (ag n) (status n) (ready n) true (startupJitter n) (sampler n)
  (interval n) (calls n) (exited n).
Definition set_sampler s n := mkNode (ag n) (status n) (ready n) (triggersRestored n) (startupJitter n) s
  (interval n) (calls n) (exited n).
Definition set_interval i n := mkNode (ag n) (status n) (ready n) (triggersRestored n) (startupJitter n) (sampler n)
  i (calls n) (exited n).
Definition note_call c n := mkNode (ag n) (status n) (ready n) (triggersRestored n) (startupJitter n) (sampler n)
  (interval n) (calls n ++ [c]) (exited n).
Definition set_exit code n := mkNode (ag n) (status n) (ready n) (triggersRestored n) (startupJitter n) (sampler n)
  (interval n) (calls n) (Some code).

Definition on_clock (f : clockSync -> clockSync) (a : agent) : agent :=
  mkAgent (nodeID a) (limits a) (bind a) (cache a) (f (clock a)) (db a) (db_faults a) (spool a) (sent a) (retry a)
    (path_window a) (deferredJobs a) (monitor a).

(** What does not change while the process runs. *)
Record process : Type := mkProcess {
  me : identity;
  version : string;
  arch : string;
  proberHashes : list string;
  RawYAML : string -> option ModuleUpload
}.

(** What the world does during one heartbeat; [k] is 0 for the first request
    and 1 for the retry. *)
Record beat_world : Type := mkBeat {
  b_now : time;                                        (** [time.Now()] for local writes *)
  b_sentAt : nat -> time;
  b_receivedAt : nat -> time;
  b_elapsed : nat -> duration;
  b_readings : nat -> readings;
  b_seconds : duration -> float64;
  b_selfTest : nat -> option string;
  b_answer : nat -> HeartbeatRequest -> result api_error HeartbeatResponse;
  b_upload : list ModuleUpload -> bool;
  b_ack : string -> bool;
  b_launched : bool
}.

Section loops.
Context `{NetIP} (p : process).

(** ** Triggers and the store ([store_delivery.go]) *)

Definition agentTriggers (ts : list PendingTrigger) : list pendingTrigger :=
  map (fun t => mkTrigger (ptr_ProbeID t) (ptr_RunID t) (ptr_Probe t)) ts.

Definition cachedStates (states : list ProbeState) : list cachedProbeState :=
  map (fun s => mkProbeState (ps_Snapshot s) (ps_LastRunAt s) (ps_LastTriggerRunID s)) states.

Definition restorePendingTriggers (n : node) : node :=
  match db (ag n) with
  | None => n
  | Some d =>
      match PendingTriggers (db_faults (ag n)) d with
      | (Ok ts, d', fs') =>
          set_restored (on_ag (fun a => with_cache (fun c => snd (queueTriggers (agentTriggers ts) c))
                                          (with_db (Some d') fs' a)) n)
      | (Err _, d', fs') => on_ag (with_db (Some d') fs') n
      end
  end.

(** One triggered event: recorded, then queued if it is new or could not be
    recorded. *)
Definition apply_event (now : time) (ev : Event) (a : agent) : agent :=
  match db a with
  | None => with_cache (fun c => snd (applyTriggeredEvent ev c)) a
  | Some d =>
      let '(r, d', fs') := RecordTrigger (nodeID a) (to_unix_milli now) ev (db_faults a) d in
      let a := with_db (Some d') fs' a in
      match r with
      | Ok false => a
      | Ok true | Err _ => with_cache (fun c => snd (applyTriggeredEvent ev c)) a
      end
  end.

Definition applyTriggeredEvents (now : time) (evs : list Event) (a : agent) : agent :=
  match db a with
  | None => with_cache (cache_applyTriggeredEvents evs) a
  | Some _ => fold_left (fun a ev => apply_event now ev a) evs a
  end.

(** ** Sending a heartbeat *)

Definition send (e : beat_world) (k : nat) (n : node) : result api_error HeartbeatResponse * node :=
  let a := ag n in
  let sentAt := b_sentAt e k in
  let '(pathState, path') := state sentAt (path_window a) in
  let '(health, sampler') := snapshot sentAt (b_readings e k) pathState (deferredJobs a) (b_seconds e) (sampler n) in
  let '(bindErr, monitor') :=
    if Binding_IsZero (bind a) then ("", monitor a)
    else let '(text, _, m) := monitor_check (b_selfTest e k) sentAt (monitor a) in (text, m) in
  let report := mkReport health (match SourceIP (bind a) with Some x => AddrString x | None => "" end)
                  (Interface (bind a)) bindErr in
  let rq := mkHeartbeatRequest (nodeID a) (version p) (id_goos (me p)) (arch p) (proberHashes p)
              (lastKnownHash (cache a)) report sentAt in
  let r := b_answer e k rq in
  let ok := match r with Ok _ => true | Err _ => false end in
  (r, note_call (CallHeartbeat rq)
        (set_sampler (noteHeartbeat (b_elapsed e k) ok sampler')
           (on_ag (fun a => with_monitor monitor' (with_path path' a)) n))).

Definition uploadMissingModules (e : beat_world) (proberIDs : list string) (n : node) : bool * node :=
  match omap (RawYAML p) proberIDs with
  | [] => (true, n)
  | modules => (b_upload e modules, note_call (CallUpload modules) n)
  end.

(** ** Acting on a heartbeat's answer *)

Definition launch_installer (e : beat_world) (flags : list string) (n : node) : node :=
  let '(launch, code) := reinstall (me p) (b_launched e) flags in
  let n := note_call (CallLaunch launch) n in
  match code with Some c => set_exit c n | None => n end.

Definition applyModuleActions (e : beat_world) (actions : list string) (n : node) : node :=
  match moduleActionFlags actions with
  | [] => n
  | flags => launch_installer e flags n
  end.

Definition handlePendingAction (e : beat_world) (action : PendingAction) (n : node) : node :=
  let accepted := b_ack e (act_ID action) in
  let n := note_call (CallAck (act_ID action) accepted) n in
  if negb accepted then n
  else if decide (act_Kind action = "update") then launch_installer e [] n
  else if decide (act_Kind action = "module_actions") then applyModuleActions e (act_Actions action) n
  else n.

Definition handleDeleteCommand (n : node) : node := set_exit 0 n.

(** A changed assignment: saved first, then cached; the hash is adopted only
    when the save succeeded. *)
Definition sync_assignment (e : beat_world) (hash : string) (snaps : list ProbeSnapshot) (n : node) : node :=
  let a := ag n in
  let '(persisted, a) :=
    match db a with
    | None => (true, a)
    | Some d =>
        let '(r, d', fs') := SaveAssignment (nodeID a) (to_unix_milli (b_now e)) hash snaps (db_faults a) d in
        (match r with Ok _ => true | Err _ => false end, with_db (Some d') fs' a)
    end in
  let a := with_cache (if persisted : bool then replaceAssignment hash snaps else replaceAssignmentKeepingHash snaps) a in
  on_ag (fun _ => with_cache (staggerUnstarted (clock_now (clock a) (b_now e)) (startupJitter n)) a) n.

(** [beat] once a response was accepted. *)
Definition apply_response (e : beat_world) (resp : HeartbeatResponse) (sentAt receivedAt : time) (n : node) : node :=
  let confirmed := negb (bool_decide (hb_NodeStatus resp = "")) in
  let n := if confirmed then set_status (hb_NodeStatus resp) n else n in
  let n := if 0 <? hb_IntervalSecs resp then set_interval (int_mul (hb_IntervalSecs resp) second) n else n in
  let n := match hb_ServerTime resp with
           | Some t => on_ag (on_clock (update t sentAt receivedAt)) n
           | None => n
           end in
  let n := if decide (hb_ProbeHash resp = "") then n else sync_assignment e (hb_ProbeHash resp) (hb_Probes resp) n in
  let n := match hb_Events resp with [] => n | evs => on_ag (applyTriggeredEvents (b_now e) evs) n end in
  let n := if confirmed then set_ready n else n in
  if decide (hb_Command resp = "delete") then handleDeleteCommand n
  else match hb_PendingAction resp with Some action => handlePendingAction e action n | None => n end.

(** The exchange with the server: at most two requests, the second after
    uploading the modules the first was rejected for. *)
Definition exchange (e : beat_world) (n : node) : option (HeartbeatResponse * nat) * node :=
  let n := match db (ag n) with
           | Some _ => if triggersRestored n then n else restorePendingTriggers n
           | None => n
           end in
  let '(r, n) := send e 0 n in
  match r with
  | Ok resp => (Some (resp, 0%nat), n)
  | Err (HeartbeatRejectedError rejection) =>
      let '(uploaded, n) := uploadMissingModules e (MissingProberIDs rejection) n in
      if negb uploaded then (None, n)
      else let '(r, n) := send e 1 n in
           (match r with Ok resp => Some (resp, 1%nat) | Err _ => None end, n)
  | Err _ => (None, n)
  end.

Definition beat (e : beat_world) (n : node) : node :=
  match exchange e n with
  | (Some (resp, k), n) => apply_response e resp (b_sentAt e k) (b_receivedAt e k) n
  | (None, n) => n
  end.

(** ** The scheduler's gate *)

Definition gate_open (n : node) : bool := ready n && bool_decide (status n = NodeStatusActive).

Definition scheduler_tick `{Checkers} (w : world) (n : node) : node :=
  if gate_open n then on_ag (runDueProbes w) n else n.

(** ** Maintenance *)

Definition dbMaintenanceInterval : duration := hour.
Definition dbMaintenanceRetry : duration := 5 * minute.
Definition dbMaintenanceBudgetRetry : duration := 15 * minute.

(** The delay before the next pass; [deadline] is [errors.Is(err,
    context.DeadlineExceeded)]. *)
Definition next_maintenance (r : result string MaintainStats) (deadline : bool) : duration :=
  match r with
  | Err _ => if deadline then dbMaintenanceBudgetRetry else dbMaintenanceRetry
  | Ok stats => if OverBudget stats then dbMaintenanceBudgetRetry else dbMaintenanceInterval
  end.

Definition maintenance_pass (m : sql MaintainStats) (deadline : bool) (n : node) : duration * node :=
  match db (ag n) with
  | None => (dbMaintenanceInterval, n)
  | Some d =>
      let '(r, d', fs') := m (db_faults (ag n)) d in
      (next_maintenance r deadline, on_ag (with_db (Some d') fs') n)
  end.

(** ** Starting *)

(** [Run] after the configuration is accepted and before the loops. *)
Definition start (now : time) (s : settings) (fs : faults) : node :=
  let a := mkAgent (s_nodeID s) (s_limits s) (s_binding s) newProbeCache (mkClock 0) (s_store s) fs (s_spool s) []
             (mkDelivery 0 zero_time) newPathHealth 0 newBindMonitor in
  let n := mkNode a NodeStatusActive false false (s_startupJitter s) (newHealthSampler now) (30 * second) [] None in
  let n :=
    match db a with
    | None => n
    | Some d =>
        let '(r, d', fs') := LoadProbeStates fs d in
        let n := on_ag (with_db (Some d') fs') n in
        let n := match r with
                 | Ok (hash, states) =>
                     if decide (hash = "") then n
                     else on_ag (with_cache (restore hash (cachedStates states))) n
                 | Err _ => n
                 end in
        restorePendingTriggers n
    end in
  on_ag (fun a => with_cache (staggerUnstarted (clock_now (clock a) now) (s_startupJitter s)) a) n.
End loops.

(** ** Runs of the agent *)

Section runs.
Context `{NetIP} `{Checkers} (p : process).

(** What the world does during one maintenance pass: see [StoreMaint.v]. *)
Record maint_world : Type := mkMaint {
  mw_iterate : gmap rollupKey rollupRow_ -> list (rollupKey * rollupRow_);
  mw_others : database -> database;
  mw_live : nat -> database -> Z;
  mw_fuel : nat;
  mw_opts : MaintainOptions;
  mw_deadline : bool
}.

(** One iteration of one of the three loops. *)
Inductive event : Type :=
| Beat (e : beat_world)
| Tick (w : world)
| Maintenance (w : maint_world).

(** Nothing runs once the process has exited. *)
Definition iterate (ev : event) (n : node) : node :=
  match exited n with
  | Some _ => n
  | None =>
      match ev with
      | Beat e => beat p e n
      | Tick w => scheduler_tick w n
      | Maintenance w =>
          snd (maintenance_pass (Maintain (mw_iterate w) (mw_others w) (mw_live w) (mw_fuel w) (mw_opts w))
                 (mw_deadline w) n)
      end
  end.

Fixpoint run_events (evs : list event) (n : node) : node :=
  match evs with [] => n | ev :: rest => run_events rest (iterate ev n) end.

Lemma run_events_app evs evs' n : run_events (evs ++ evs') n = run_events evs' (run_events evs n).
Proof. revert n. induction evs as [|ev evs IH]; intros n; [done|]. apply IH. Qed.

(** The status a heartbeat confirms, if it confirms one. *)
Definition confirms (ev : event) (n : node) : option string :=
  match exited n, ev with
  | None, Beat e =>
      match fst (exchange p e n) with
      | Some (resp, _) => if decide (hb_NodeStatus resp = "") then None else Some (hb_NodeStatus resp)
      | None => None
      end
  | _, _ => None
  end.

(** The last status the server confirmed during a run. *)
Fixpoint last_confirmed (last : option string) (evs : list event) (n : node) : option string :=
  match evs with
  | [] => last
  | ev :: rest =>
      last_confirmed (match confirms ev n with Some s => Some s | None => last end) rest (iterate ev n)
  end.

(** *** Frames: what each part of an iteration leaves alone *)

Definition same_gate (n n' : node) : Prop := status n' = status n /\ ready n' = ready n.

#[local] Instance same_gate_pre : PreOrder same_gate.
Proof. split; [done|]. intros x y z [? ?] [? ?]. split; congruence. Qed.

Lemma restore_gate n : same_gate n (restorePendingTriggers n).
Proof.
  unfold restorePendingTriggers. destruct (db (ag n)); [|done]. by destruct (PendingTriggers _ _) as [[[ts|er] d'] fs'].
Qed.

Lemma send_gate e k n : same_gate n (snd (send p e k n)).
Proof.
  unfold send. destruct (state _ _). destruct (snapshot _ _ _ _ _ _). cbv zeta.
  by destruct (if Binding_IsZero _ then _ else _).
Qed.

Lemma upload_gate e ids n : same_gate n (snd (uploadMissingModules p e ids n)).
Proof. unfold uploadMissingModules. by destruct (omap _ _). Qed.

Lemma exchange_gate e n : same_gate n (snd (exchange p e n)).
Proof.
  unfold exchange. set (n0 := match db (ag n) with Some _ => _ | None => n end).
  assert (same_gate n n0) as G0.
  { subst n0. destruct (db (ag n)); [|done]. destruct (triggersRestored n); [done|apply restore_gate]. }
  pose proof (send_gate e 0 n0) as G1. destruct (send p e 0 n0) as [r n1]. cbn [snd] in G1.
  assert (same_gate n n1) as G2 by (etransitivity; eassumption).
  destruct r as [resp|[]]; try exact G2.
  pose proof (upload_gate e (MissingProberIDs r) n1) as G3. destruct (uploadMissingModules _ _ _ _) as [b n2].
  cbn [snd] in G3. assert (same_gate n n2) as G4 by (etransitivity; eassumption). destruct b; [|exact G4]. cbn [negb].
  pose proof (send_gate e 1 n2) as G5. destruct (send p e 1 n2) as [r2 n3]. cbn [snd] in *. etransitivity; eassumption.
Qed.

Lemma launch_gate e flags n : same_gate n (launch_installer p e flags n).
Proof. unfold launch_installer. destruct (reinstall _ _ _) as [l [c|]]; done. Qed.

Lemma action_gate e a n : same_gate n (handlePendingAction p e a n).
Proof.
  unfold handlePendingAction. destruct (negb _); [done|]. destruct (decide _); [apply (launch_gate e [] (note_call _ n))|].
  destruct (decide _); [|done]. unfold applyModuleActions. destruct (moduleActionFlags _); [done|].
  apply (launch_gate e _ (note_call _ n)).
Qed.

Lemma sync_gate e h snaps n : same_gate n (sync_assignment e h snaps n).
Proof. unfold sync_assignment. destruct (db (ag n)); [|done]. by destruct (SaveAssignment _ _ _ _ _ _) as [[[u|er] d'] fs']. Qed.

Lemma apply_response_gate e resp s r n :
  let n' := apply_response p e resp s r n in
  if decide (hb_NodeStatus resp = "") then same_gate n n' else status n' = hb_NodeStatus resp /\ ready n' = true.
Proof.
  cbn zeta. unfold apply_response. set (conf := negb (bool_decide (hb_NodeStatus resp = ""))).
  set (n1 := if conf then set_status _ n else n).
  set (n2 := if 0 <? _ then set_interval _ n1 else n1).
  set (n3 := match hb_ServerTime resp with Some t => _ | None => n2 end).
  set (n4 := if decide (hb_ProbeHash resp = "") then n3 else _).
  set (n5 := match hb_Events resp with [] => n4 | _ => _ end).
  set (n6 := if conf then set_ready n5 else n5).
  assert (same_gate n1 n5) as Hk.
  { assert (same_gate n1 n3) as Ha by (subst n3 n2; destruct (0 <? _), (hb_ServerTime resp); done).
    assert (same_gate n3 n4) as Hb by (subst n4; destruct (decide (hb_ProbeHash resp = "")); [done|apply sync_gate]).
    assert (same_gate n4 n5) as Hc by (subst n5; destruct (hb_Events resp); done).
    do 2 (etransitivity; [eassumption|]). exact Hc. }
  assert (same_gate n6 (if decide (hb_Command resp = "delete") then handleDeleteCommand n6
    else match hb_PendingAction resp with Some a => handlePendingAction p e a n6 | None => n6 end)) as Hf.
  { destruct (decide (hb_Command resp = "delete")); [split; reflexivity|].
    destruct (hb_PendingAction resp); [apply action_gate|split; reflexivity]. }
  revert Hf. generalize (if decide (hb_Command resp = "delete") then handleDeleteCommand n6
    else match hb_PendingAction resp with Some a => handlePendingAction p e a n6 | None => n6 end) as n7.
  intros n7 [Hs Hr]. subst n6 n1 conf. destruct (decide (hb_NodeStatus resp = "")) as [E|E].
  - rewrite bool_decide_true in * by done. cbn [negb] in *. destruct Hk. split; congruence.
  - rewrite bool_decide_false in * by done. cbn [negb] in *. destruct Hk as [Hks _].
    rewrite Hs, Hr. cbn [status ready set_ready set_status] in *. done.
Qed.

(** What the gate knows after a run. *)
Definition gate_is (last : option string) (n : node) : Prop :=
  match last with
  | None => ready n = false
  | Some s => ready n = true /\ status n = s
  end.

Lemma iterate_gate ev n last :
  gate_is last n -> gate_is (match confirms ev n with Some s => Some s | None => last end) (iterate ev n).
Proof.
  intros Hg. unfold confirms, iterate. destruct (exited n); [exact Hg|]. destruct ev as [e|w|w].
  - unfold beat. pose proof (exchange_gate e n) as Hx. destruct (exchange p e n) as [[[resp k]|] n1]; cbn [fst snd] in *.
    + pose proof (apply_response_gate e resp (b_sentAt e k) (b_receivedAt e k) n1) as Ha. cbn zeta in Ha.
      destruct (decide (hb_NodeStatus resp = "")).
      * destruct Hx, Ha. unfold gate_is in *. destruct last; [destruct Hg; split; congruence|congruence].
      * destruct Ha. done.
    + destruct Hx. unfold gate_is in *. destruct last; [destruct Hg; split; congruence|congruence].
  - unfold scheduler_tick. destruct (gate_open n); exact Hg.
  - unfold maintenance_pass. destruct (db (ag n)); [|exact Hg]. destruct (Maintain _ _ _ _ _ _ _) as [[r d'] fs']. exact Hg.
Qed.

Lemma run_gate evs n last : gate_is last n -> gate_is (last_confirmed last evs n) (run_events evs n).
Proof.
  revert n last. induction evs as [|ev evs IH]; intros n last Hg; [exact Hg|]. cbn. apply IH. by apply iterate_gate.
Qed.

Lemma start_not_ready now s fs : ready (start now s fs) = false.
Proof.
  unfold start. cbv zeta. cbn [db]. destruct (s_store s) as [d|]; [|done].
  destruct (LoadProbeStates fs d) as [[r d'] fs'].
  set (n1 := match r with Ok _ => _ | Err _ => _ end).
  assert (ready n1 = false) as G1 by (subst n1; destruct r as [[h st]|]; [destruct (decide (h = ""))|]; done).
  cbn [on_ag ready]. destruct (restore_gate n1) as [_ ->]. exact G1.
Qed.

End runs.

(** ** The assignment hash the node reports *)

Definition same_sync (a a' : agent) : Prop :=
  contentHash (cache a') = contentHash (cache a) /\ meta <$> db a' = meta <$> db a.

#[local] Instance same_sync_pre : PreOrder same_sync.
Proof. split; [done|]. intros x y z [? ?] [? ?]. split; congruence. Qed.

Lemma with_db_sync {A} (m : sql A) a d r d' fs' :
  db a = Some d -> (forall M, keeps (meta_is M) m) -> m (db_faults a) d = (r, d', fs') ->
  same_sync a (with_db (Some d') fs' a).
Proof.
  intros Hd Hk E. split; [done|]. cbn. rewrite Hd. cbn. f_equal.
  specialize (Hk (meta d) (db_faults a) d eq_refl). unfold run in Hk. by rewrite E in Hk.
Qed.

Section tick.
Context `{Checkers} (e : world).

Lemma run_drainStore_sync d a t err a' :
  db a = Some d -> run_drainStore e d a = (t, err, a') -> same_sync a a'.
Proof.
  intros Hd. unfold run_drainStore, drainStore.
  destruct (backing_off _ _); [intros [= <- <- <-]; split; [done|]; cbn; by rewrite Hd|].
  destruct (drain_pages _ _ _ _ _ _ _ _) as [[[t1 err1] w]|] eqn:E; intros [= <- <- <-]; [|done].
  split; [done|]. cbn. rewrite Hd. cbn. f_equal.
  apply (drain_pages_keeps (meta_is (meta d)) _ _ _ _ _ _ _ _ _ (MarkAttempts_meta _) (MarkOutcomes_meta _)) in E; done.
Qed.

Lemma run_drainSpool_sync s a t err a' : run_drainSpool e s a = (t, err, a') -> same_sync a a'.
Proof. unfold run_drainSpool. destruct (drainSpool _ _ _ _ _ _ _) as [[t0 err0] w]. by intros [= <- <- <-]. Qed.

Lemma drainDelivery_sync a t err a' : drainDelivery e a = (t, err, a') -> same_sync a a'.
Proof.
  unfold drainDelivery. destruct (db a) as [d|] eqn:Ed; [by apply run_drainStore_sync|].
  destruct (spool a); [apply run_drainSpool_sync|]. by intros [= <- <- <-].
Qed.

Lemma post_directly_sync rs a b a' : post_directly e rs a = (b, a') -> same_sync a a'.
Proof. unfold post_directly. destruct (postResults _ _ _). by intros [= <- <-]. Qed.

Lemma reportFallback_sync rs a b a' : reportFallback e rs a = (b, a') -> same_sync a a'.
Proof.
  unfold reportFallback. destruct (spool a) as [s|]; [|apply post_directly_sync].
  destruct (enqueue _ _ _ _ _ _ _ _ _ _) as [[q|er] s'].
  - destruct (run_drainSpool _ _ _) as [[t err] a1] eqn:E. intros [= <- <-]. apply run_drainSpool_sync in E. exact E.
  - intros E%post_directly_sync. exact E.
Qed.

Lemma reportResults_sync rs a b a' : reportResults e rs a = (b, a') -> same_sync a a'.
Proof.
  unfold reportResults. destruct (db a) as [d|] eqn:Ed; [|apply reportFallback_sync].
  destruct (RecordResults _ _ _ _ _ _) as [[r d1] fs1] eqn:E.
  pose proof (with_db_sync _ a d r d1 fs1 Ed (fun M => RecordResults_meta M _ _ _ _) E) as Hs. destruct r.
  - destruct (run_drainStore _ _ _) as [[t err] a1] eqn:E1. intros [= <- <-].
    apply run_drainStore_sync in E1; [|done]. by etransitivity.
  - intros E1%reportFallback_sync. by etransitivity.
Qed.

Lemma requeue_hash ts c : contentHash (requeueTriggers ts c) = contentHash c.
Proof.
  revert c. induction ts as [|t ts IH]; intros c; [done|]. cbn [requeueTriggers]. split_ifs; rewrite ?IH; done.
Qed.

Lemma complete_fold_hash ts c :
  contentHash (fold_left (fun c t => markTriggerComplete (pt_ProbeID t) (pt_RunID t) c) ts c) = contentHash c.
Proof. revert c. induction ts as [|t ts IH]; intros c; [done|]. cbn. by rewrite IH. Qed.

Lemma finishTriggers_sync ts durable a : same_sync a (finishTriggers e ts durable a).
Proof.
  unfold finishTriggers. destruct ts as [|t0 ts]; [done|]. set (l := t0 :: ts). destruct (negb durable).
  - split; [apply requeue_hash|done].
  - destruct (db a) as [d|] eqn:Ed.
    + destruct (CompleteTriggers _ _ _ _ _) as [[r d'] fs'] eqn:E.
      pose proof (with_db_sync _ a d r d' fs' Ed (fun M => CompleteTriggers_meta M _ _ _) E) as [_ Hm].
      split; [apply complete_fold_hash|exact Hm].
    + split; [apply complete_fold_hash|]. cbn [with_cache db]. by rewrite Ed.
Qed.

Lemma mark_ran_sync due now a : same_sync a (mark_ran due now a).
Proof.
  unfold mark_ran. destruct due as [|s due]; [done|]. destruct (db a) as [d|] eqn:Ed; [|done].
  destruct (MarkProbesRun _ _ _ _) as [[r d'] fs'] eqn:E.
  exact (with_db_sync _ a d r d' fs' Ed (fun M => MarkProbesRun_meta M _ _) E).
Qed.

Lemma settle_tick_sync rs ts a : same_sync a (settle_tick e rs ts a).
Proof.
  unfold settle_tick. destruct rs as [|r rs]; [apply finishTriggers_sync|].
  destruct (reportResults _ _ _) as [b a1] eqn:E. apply reportResults_sync in E.
  etransitivity; [exact E|apply finishTriggers_sync].
Qed.

Lemma plan_hash b now c : contentHash (p_cache (plan_tick e b now c)) = contentHash c.
Proof.
  unfold plan_tick, drainPendingTriggersLimited. destruct (_ =? 0)%nat; [|destruct (_ || _)];
    match goal with |- context [takeDueProbes ?i ?n ?m ?p ?c] => destruct (takeDueProbes i n m p c) as [[d k] c2] eqn:E end;
    unfold takeDueProbes in E; (destruct (_ <=? 0); [by injection E as _ _ <-|]);
    destruct (select_due _ _ _ _ _ _) as [[sel dd] ps]; by injection E as _ _ <-.
Qed.

Lemma runDueProbes_sync a : same_sync a (runDueProbes e a).
Proof.
  unfold runDueProbes. set (now := clock_now _ _).
  destruct (if Binding_IsZero (bind a) then ("", a) else _) as [err a1] eqn:E1.
  assert (same_sync a a1) as H1.
  { destruct (Binding_IsZero (bind a)); [by injection E1 as _ <-|].
    destruct (monitor_check _ _ _) as [[text b] m]. by injection E1 as _ <-. }
  etransitivity; [exact H1|]. clear E1 H1. destruct (negb _).
  - destruct (drainDelivery _ _) as [[t er] a2] eqn:E. apply drainDelivery_sync in E. exact E.
  - unfold run_plan. set (p := plan_tick _ _ _ _). set (a2 := with_deferred _ _).
    assert (same_sync a1 a2) as H2 by (split; [apply plan_hash|done]). etransitivity; [exact H2|]. destruct (_ && _).
    + destruct (drainDelivery _ _) as [[t er] a3] eqn:E. by apply drainDelivery_sync in E.
    + etransitivity; [|apply settle_tick_sync]. set (a3 := with_path _ a2).
      assert (same_sync a2 a3) as H3 by done. etransitivity; [exact H3|]. apply mark_ran_sync.
Qed.
End tick.

(** The reported hash is empty or the one on disk. *)
Definition durable_hash (a : agent) : Prop :=
  match db a with
  | Some d => contentHash (cache a) = "" \/ meta d !! "probe_hash" = Some (contentHash (cache a))
  | None => True
  end.

Lemma durable_sync a a' : same_sync a a' -> durable_hash a -> durable_hash a'.
Proof.
  intros [Hc Hm]. unfold durable_hash. destruct (db a) as [d|], (db a') as [d'|]; try done.
  cbn in Hm. injection Hm as Hm. by rewrite Hc, Hm.
Qed.

Lemma apply_hash ev c : contentHash (snd (applyTriggeredEvent ev c)) = contentHash c.
Proof.
  unfold applyTriggeredEvent, applyTriggeredEventLocked. destruct (_ || _ || _); [done|].
  destruct (hasPendingTriggerLocked _ _ _); [done|]. unfold noteTrigger.
  destruct (probes c !! _); [destruct (bool_decide _)|]; try done; destruct (queueFull _); done.
Qed.

Lemma apply_fold_hash evs c : contentHash (cache_applyTriggeredEvents evs c) = contentHash c.
Proof.
  unfold cache_applyTriggeredEvents. revert c. induction evs as [|ev evs IH]; intros c; [done|]. cbn [fold_left].
  rewrite IH. apply apply_hash.
Qed.

Lemma queue_hash ts c : contentHash (snd (queueTriggers ts c)) = contentHash c.
Proof.
  revert c. induction ts as [|t ts IH]; intros c; [done|]. cbn [queueTriggers].
  destruct (trigger_ids_empty t); [apply IH|]. destruct (hasPendingTriggerLocked _ _ _); [apply IH|].
  destruct (noteTrigger _ _ c) as [c1|] eqn:E; [|apply IH].
  assert (contentHash c1 = contentHash c) as H1.
  { unfold noteTrigger in E. destruct (probes c !! _); [destruct (bool_decide _)|]; try done; by injection E as <-. }
  destruct (queueFull c1); [exact H1|]. specialize (IH (push_trigger (fill_snapshot t c) c1)).
  destruct (queueTriggers ts _) as [k c2]. cbn [snd] in *. rewrite IH. exact H1.
Qed.

Lemma stagger_hash now j c : contentHash (staggerUnstarted now j c) = contentHash c.
Proof. unfold staggerUnstarted. by destruct (j <=? 0). Qed.

Section hash.
Context `{NetIP} `{Checkers} (p : process).

Lemma restore_sync n : same_sync (ag n) (ag (restorePendingTriggers n)).
Proof.
  unfold restorePendingTriggers. destruct (db (ag n)) as [d|] eqn:Ed; [|done].
  destruct (PendingTriggers _ _) as [[r d'] fs'] eqn:E.
  pose proof (with_db_sync _ (ag n) d r d' fs' Ed PendingTriggers_meta E) as [Hc Hm]. destruct r; [|done].
  split; [apply queue_hash|exact Hm].
Qed.

Lemma send_sync e k n : same_sync (ag n) (ag (snd (send p e k n))).
Proof.
  unfold send. destruct (state _ _). destruct (snapshot _ _ _ _ _ _). cbv zeta.
  by destruct (if Binding_IsZero _ then _ else _).
Qed.

Lemma exchange_sync e n : same_sync (ag n) (ag (snd (exchange p e n))).
Proof.
  unfold exchange. set (n0 := match db (ag n) with Some _ => _ | None => n end).
  assert (same_sync (ag n) (ag n0)) as G0.
  { subst n0. destruct (db (ag n)) eqn:Ed; [|done]. destruct (triggersRestored n); [done|apply restore_sync]. }
  pose proof (send_sync e 0 n0) as G1. destruct (send p e 0 n0) as [r n1]. cbn [snd] in G1.
  assert (same_sync (ag n) (ag n1)) as G2 by (etransitivity; eassumption).
  destruct r as [resp|[]]; try exact G2.
  destruct (uploadMissingModules _ _ _ _) as [b n2] eqn:Eu.
  assert (ag n2 = ag n1) as G3.
  { unfold uploadMissingModules in Eu. destruct (omap _ _); by injection Eu as _ <-. }
  destruct b; cbn [negb]; [|cbn; by rewrite G3].
  pose proof (send_sync e 1 n2) as G5. destruct (send p e 1 n2) as [r2 n3]. cbn [snd] in *. rewrite G3 in G5.
  etransitivity; eassumption.
Qed.

Lemma apply_events_sync now evs a : same_sync a (applyTriggeredEvents now evs a).
Proof.
  unfold applyTriggeredEvents. destruct (db a) eqn:Ed0; [|split; [apply apply_fold_hash|cbn [with_cache db]; by rewrite Ed0]].
  clear. revert a. induction evs as [|ev evs IH]; intros a; [done|]. cbn [fold_left]. etransitivity; [|apply IH].
  unfold apply_event. destruct (db a) as [d|] eqn:Ed; [|split; [apply apply_hash|cbn [with_cache db]; by rewrite Ed]].
  destruct (RecordTrigger _ _ _ _ _) as [[r d'] fs'] eqn:E.
  pose proof (with_db_sync _ a d r d' fs' Ed (fun M => RecordTrigger_meta M _ _ _) E) as [Hc Hm].
  destruct r as [[]|]; split; try exact Hm; try done; apply apply_hash.
Qed.

Lemma sync_assignment_durable e hash snaps n :
  hash <> "" -> durable_hash (ag n) -> durable_hash (ag (sync_assignment e hash snaps n)).
Proof.
  intros Hh Hd. unfold sync_assignment. destruct (db (ag n)) as [d|] eqn:Ed.
  - destruct (SaveAssignment _ _ _ _ _ _) as [[r d'] fs'] eqn:E. apply SaveAssignment_meta in E; [|done].
    unfold durable_hash in *. rewrite Ed in Hd. destruct r; cbn; rewrite stagger_hash; cbn.
    + right. rewrite E. apply lookup_insert_eq.
    + by rewrite E.
  - unfold durable_hash. cbn. by rewrite Ed.
Qed.

Lemma act_ag e resp n :
  ag (if decide (hb_Command resp = "delete") then handleDeleteCommand n
      else match hb_PendingAction resp with Some action => handlePendingAction p e action n | None => n end) = ag n.
Proof.
  assert (forall flags x, ag (launch_installer p e flags x) = ag x) as Hl.
  { intros flags x. unfold launch_installer. by destruct (reinstall _ _ _) as [l [c|]]. }
  destruct (decide _); [done|]. destruct (hb_PendingAction resp) as [a|]; [|done]. unfold handlePendingAction.
  destruct (negb _); [done|]. destruct (decide _); [by rewrite Hl|]. destruct (decide _); [|done].
  unfold applyModuleActions. destruct (moduleActionFlags _); [done|]. by rewrite Hl.
Qed.

Lemma apply_response_durable e resp s r n :
  durable_hash (ag n) -> durable_hash (ag (apply_response p e resp s r n)).
Proof.
  intros Hd. unfold apply_response. rewrite act_ag.
  set (n1 := if negb _ then set_status _ n else n). set (n2 := if 0 <? _ then set_interval _ n1 else n1).
  set (n3 := match hb_ServerTime resp with Some t => _ | None => n2 end).
  set (n4 := if decide (hb_ProbeHash resp = "") then n3 else _).
  set (n5 := match hb_Events resp with [] => n4 | _ => _ end).
  assert (durable_hash (ag n3)) as H3.
  { assert (ag n2 = ag n) as E2 by (subst n2 n1; destruct (0 <? _), (negb _); done).
    subst n3. destruct (hb_ServerTime resp); [|by rewrite E2]. eapply durable_sync; [|exact Hd]. rewrite <- E2. done. }
  assert (durable_hash (ag n4)) as H4.
  { subst n4. destruct (decide _); [done|]. by apply sync_assignment_durable. }
  assert (durable_hash (ag n5)) as H5.
  { subst n5. destruct (hb_Events resp); [done|]. eapply durable_sync; [|exact H4]. apply apply_events_sync. }
  by destruct (negb _).
Qed.

(** Other processes leave the assignment alone. *)
Definition keeps_meta (ev : event) : Prop :=
  match ev with Maintenance w => forall d, meta (mw_others w d) = meta d | _ => True end.

Lemma iterate_durable ev n : keeps_meta ev -> durable_hash (ag n) -> durable_hash (ag (iterate p ev n)).
Proof.
  intros Hk Hd. unfold iterate. destruct (exited n); [done|]. destruct ev as [e|w|w].
  - unfold beat. pose proof (exchange_sync e n) as Hx. destruct (exchange p e n) as [[[resp k]|] n1]; cbn [snd] in Hx;
      apply (durable_sync _ _ Hx) in Hd; [by apply apply_response_durable|done].
  - unfold scheduler_tick. destruct (gate_open n); [|done]. eapply durable_sync; [|exact Hd]. apply runDueProbes_sync.
  - unfold maintenance_pass. destruct (db (ag n)) as [d|] eqn:Ed; [|done].
    destruct (Maintain _ _ _ _ _ _ _) as [[r d'] fs'] eqn:E. eapply durable_sync; [|exact Hd].
    apply (with_db_sync _ (ag n) d r d' fs' Ed (fun M => Maintain_meta _ _ _ M Hk _ _) E).
Qed.

Lemma start_durable now s fs : durable_hash (ag (start now s fs)).
Proof.
  unfold start. cbv zeta. cbn [db].
  assert (forall x, durable_hash (ag x) ->
    durable_hash (ag (on_ag (fun a => with_cache (staggerUnstarted (clock_now (clock a) now) (s_startupJitter s)) a) x))) as Hst.
  { intros x Hx. eapply durable_sync; [|exact Hx]. split; [apply stagger_hash|done]. }
  destruct (s_store s) as [d|] eqn:Es; apply Hst; [|unfold durable_hash; by rewrite ?Es].
  destruct (LoadProbeStates fs d) as [[r d'] fs'] eqn:E.
  match goal with |- context [restorePendingTriggers ?x] => assert (durable_hash (ag x)) as H1 end.
  { destruct r as [[h states]|er]; [|unfold durable_hash; cbn; by left].
    apply LoadProbeStates_same in E as Ed. apply LoadProbeStates_hash in E. subst d'.
    destruct (decide (h = "")) as [->|Hne]; unfold durable_hash; cbn; [by left|]. right.
    destruct (meta d !! "probe_hash") as [x|]; cbn in E; [by subst|]. by subst. }
  eapply durable_sync; [|exact H1]. apply restore_sync.
Qed.

(** C9: The node never claims an assignment it could lose.  In every run of an
    agent with a database, whatever fails, the hash the next heartbeat
    reports is empty or belongs to the saved assignment: a restart that
    reads the database restores exactly that hash. *)
Theorem reported_hash_durable now s fs evs d lfs h states d' lfs' :
  Forall keeps_meta evs ->
  let n := run_events p evs (start now s fs) in
  db (ag n) = Some d -> lastKnownHash (cache (ag n)) <> "" ->
  LoadProbeStates lfs d = (Ok (h, states), d', lfs') -> h = lastKnownHash (cache (ag n)).
Proof.
  intros Hk. cbn zeta.
  assert (durable_hash (ag (run_events p evs (start now s fs)))) as Hd.
  { generalize (start_durable now s fs). generalize (start now s fs) as n. induction Hk as [|ev evs Hev Hevs IH]; intros n Hn; [done|].
    apply IH. by apply iterate_durable. }
  intros Edb Hne E. unfold durable_hash in Hd. rewrite Edb in Hd. apply LoadProbeStates_hash in E. unfold lastKnownHash in *.
  destruct Hd as [Hd|Hd]; [done|]. by rewrite E, Hd.
Qed.
End hash.

(** ** Actions follow acknowledgements *)

Section actions.
Context `{NetIP} `{Checkers} (p : process).

Definition is_launch (c : call) : bool := match c with CallLaunch _ => true | _ => false end.

(** Every launch follows an accepted acknowledgement and is this node's own
    installer command. *)
Inductive acked_calls : list call -> Prop :=
| acked_nil : acked_calls []
| acked_other cs c : is_launch c = false -> acked_calls cs -> acked_calls (cs ++ [c])
| acked_launch cs id ok flags :
    acked_calls cs ->
    acked_calls (cs ++ [CallAck id true; CallLaunch (fst (reinstall (me p) ok flags))]).

Lemma acked_app a b : acked_calls a -> acked_calls b -> acked_calls (a ++ b).
Proof. intros Ha. induction 1; rewrite ?app_nil_r, ?app_assoc; [done|by constructor|by constructor]. Qed.

Lemma acked_split cs : acked_calls cs -> forall pre l post,
  cs = pre ++ CallLaunch l :: post ->
  exists pre' id ok flags, pre = pre' ++ [CallAck id true] /\ l = fst (reinstall (me p) ok flags).
Proof.
  induction 1 as [|cs c Hc Ha IH|cs id ok flags Ha IH]; intros pre l post E.
  - by destruct pre.
  - destruct post as [|x post _] using rev_ind.
    + apply app_inj_tail in E as [_ ->]. done.
    + rewrite app_comm_cons, app_assoc in E. apply app_inj_tail in E as [E _]. by eapply IH.
  - change [CallAck id true; CallLaunch (fst (reinstall (me p) ok flags))]
      with ([CallAck id true] ++ [CallLaunch (fst (reinstall (me p) ok flags))]) in E. rewrite app_assoc in E.
    destruct post as [|x post _] using rev_ind.
    + apply app_inj_tail in E as [<- [= <-]]. by exists cs, id, ok, flags.
    + rewrite app_comm_cons, app_assoc in E. apply app_inj_tail in E as [E _].
      destruct post as [|y post _] using rev_ind.
      * by apply app_inj_tail in E as [_ E].
      * rewrite app_comm_cons, app_assoc in E. apply app_inj_tail in E as [E _]. by eapply IH.
Qed.

(** What one part of an iteration adds to the calls, and that the process
    exits with status 42 exactly on a launch. *)
Definition acts (n n' : node) : Prop :=
  exists cs, calls n' = calls n ++ cs /\ acked_calls cs
    /\ (exited n' = exited n \/ exited n' = Some 0
        \/ (exited n' = Some selfUpdateExitCode /\ exists cs' l, cs = cs' ++ [CallLaunch l])).

Definition quiet (n n' : node) : Prop :=
  exists cs, calls n' = calls n ++ cs /\ acked_calls cs /\ exited n' = exited n.

Lemma quiet_same n n' : calls n' = calls n -> exited n' = exited n -> quiet n n'.
Proof. intros E X. exists []. rewrite app_nil_r. split_and!; [done|constructor|done]. Qed.

Lemma quiet_trans n n1 n2 : quiet n n1 -> quiet n1 n2 -> quiet n n2.
Proof.
  intros (a & Ea & Ha & Xa) (b & Eb & Hb & Xb). exists (a ++ b). rewrite Eb, Ea, app_assoc.
  split_and!; [done|by apply acked_app|congruence].
Qed.

Lemma quiet_acts n n1 n2 : quiet n n1 -> acts n1 n2 -> acts n n2.
Proof.
  intros (a & Ea & Ha & Xa) (b & Eb & Hb & Xb). exists (a ++ b). rewrite Eb, Ea, app_assoc.
  split_and!; [done|by apply acked_app|].
  destruct Xb as [Xb|[Xb|[Xb (cs' & l & ->)]]]; [left; congruence|right; by left|].
  right. right. split; [done|]. exists (a ++ cs'), l. by rewrite app_assoc.
Qed.

Lemma send_quiet e k n : quiet n (snd (send p e k n)).
Proof.
  unfold send. destruct (state _ _). destruct (snapshot _ _ _ _ _ _). cbv zeta.
  destruct (if Binding_IsZero _ then _ else _). cbn. eexists. split_and!; [done| |done].
  apply (acked_other []); [done|constructor].
Qed.

Lemma restore_quiet n : quiet n (restorePendingTriggers n).
Proof.
  unfold restorePendingTriggers. destruct (db (ag n)); [|by apply quiet_same].
  destruct (PendingTriggers _ _) as [[[ts|er] d'] fs']; by apply quiet_same.
Qed.

Lemma upload_quiet e ids n : quiet n (snd (uploadMissingModules p e ids n)).
Proof.
  unfold uploadMissingModules. destruct (omap _ _) as [|m ms]; [by apply quiet_same|]. cbn. eexists.
  split_and!; [done| |done]. apply (acked_other []); [done|constructor].
Qed.

Lemma exchange_quiet e n : quiet n (snd (exchange p e n)).
Proof.
  unfold exchange. set (n0 := match db (ag n) with Some _ => _ | None => n end).
  assert (quiet n n0) as G0.
  { subst n0. destruct (db (ag n)); [|by apply quiet_same]. destruct (triggersRestored n); [by apply quiet_same|apply restore_quiet]. }
  pose proof (send_quiet e 0 n0) as G1. destruct (send p e 0 n0) as [r n1]. cbn [snd] in G1.
  pose proof (quiet_trans _ _ _ G0 G1) as G2. destruct r as [resp|[]]; try exact G2.
  pose proof (upload_quiet e (MissingProberIDs r) n1) as G3. destruct (uploadMissingModules _ _ _ _) as [b n2].
  cbn [snd] in G3. pose proof (quiet_trans _ _ _ G2 G3) as G4. destruct b; [|exact G4]. cbn [negb].
  pose proof (send_quiet e 1 n2) as G5. destruct (send p e 1 n2) as [r2 n3]. cbn [snd] in *. by eapply quiet_trans.
Qed.

Lemma sync_quiet e h snaps n : quiet n (sync_assignment e h snaps n).
Proof.
  unfold sync_assignment. destruct (db (ag n)); [|by apply quiet_same].
  destruct (SaveAssignment _ _ _ _ _ _) as [[[u|er] d'] fs']; by apply quiet_same.
Qed.

Lemma launch_acts e id flags n :
  acts n (launch_installer p e flags (note_call (CallAck id true) n)).
Proof.
  unfold launch_installer. destruct (reinstall (me p) (b_launched e) flags) as [l c] eqn:E.
  assert (l = fst (reinstall (me p) (b_launched e) flags) /\ c = snd (reinstall (me p) (b_launched e) flags)) as [-> ->]
    by (by rewrite E). clear E.
  exists [CallAck id true; CallLaunch (fst (reinstall (me p) (b_launched e) flags))].
  assert (acked_calls [CallAck id true; CallLaunch (fst (reinstall (me p) (b_launched e) flags))]) as Ha
    by apply (acked_launch []), acked_nil.
  destruct (b_launched e); cbn; rewrite <- app_assoc.
  - split_and!; [done|exact Ha|]. right. right. split; [done|]. by exists [CallAck id true], (fst (reinstall (me p) true flags)).
  - split_and!; [done|exact Ha|by left].
Qed.

Lemma action_acts e a n : acts n (handlePendingAction p e a n).
Proof.
  unfold handlePendingAction. destruct (b_ack e (act_ID a)); cbn [negb].
  - assert (acts n (note_call (CallAck (act_ID a) true) n)) as Hn.
    { exists [CallAck (act_ID a) true]. split_and!; [done| |by left]. apply (acked_other []); [done|constructor]. }
    destruct (decide _); [apply launch_acts|]. destruct (decide _); [|exact Hn].
    unfold applyModuleActions. destruct (moduleActionFlags _); [exact Hn|apply launch_acts].
  - exists [CallAck (act_ID a) false]. split_and!; [done| |by left]. apply (acked_other []); [done|constructor].
Qed.

Lemma apply_response_acts e resp s r n : acts n (apply_response p e resp s r n).
Proof.
  unfold apply_response. set (conf := negb _). set (n1 := if conf then set_status _ n else n).
  set (n2 := if 0 <? _ then set_interval _ n1 else n1).
  set (n3 := match hb_ServerTime resp with Some t => _ | None => n2 end).
  set (n4 := if decide (hb_ProbeHash resp = "") then n3 else _).
  set (n5 := match hb_Events resp with [] => n4 | _ => _ end).
  set (n6 := if conf then set_ready n5 else n5).
  assert (quiet n n3) as G3 by (subst n3 n2 n1; destruct (0 <? _), (hb_ServerTime resp), conf; by apply quiet_same).
  assert (quiet n3 n4) as G4 by (subst n4; destruct (decide _); [by apply quiet_same|apply sync_quiet]).
  assert (quiet n4 n6) as G6 by (subst n6 n5; destruct (hb_Events resp), conf; by apply quiet_same).
  eapply quiet_acts; [eapply quiet_trans; [exact G3|eapply quiet_trans; [exact G4|exact G6]]|].
  destruct (decide (hb_Command resp = "delete")).
  - exists []. split_and!; [by rewrite app_nil_r|constructor|right; by left].
  - destruct (hb_PendingAction resp); [apply action_acts|].
    exists []. split_and!; [by rewrite app_nil_r|constructor|by left].
Qed.

Lemma iterate_acts ev n : exited n = None -> acts n (iterate p ev n).
Proof.
  intros Hx. unfold iterate. rewrite Hx. destruct ev as [e|w|w].
  - unfold beat. pose proof (exchange_quiet e n) as Hq. destruct (exchange p e n) as [[[resp k]|] n1]; cbn [snd] in Hq.
    + eapply quiet_acts; [exact Hq|apply apply_response_acts].
    + eapply quiet_acts; [exact Hq|]. exists []. split_and!; [by rewrite app_nil_r|constructor|by left].
  - unfold scheduler_tick. exists []. destruct (gate_open n); (split_and!; [by rewrite app_nil_r|constructor|by left]).
  - unfold maintenance_pass. exists []. destruct (db (ag n)).
    + destruct (Maintain _ _ _ _ _ _ _) as [[r d'] fs']. split_and!; [by rewrite app_nil_r|constructor|by left].
    + split_and!; [by rewrite app_nil_r|constructor|by left].
Qed.

Lemma start_calls now s fs : calls (start now s fs) = [] /\ exited (start now s fs) = None.
Proof.
  unfold start. cbv zeta. cbn [db]. destruct (s_store s) as [d|]; [|done].
  destruct (LoadProbeStates fs d) as [[r d'] fs'].
  set (n1 := match r with Ok _ => _ | Err _ => _ end).
  assert (calls n1 = [] /\ exited n1 = None) as [G1 G2] by (subst n1; destruct r as [[h st]|]; [destruct (decide (h = ""))|]; done).
  cbn [on_ag calls exited]. destruct (restore_quiet n1) as (cs & Ec & _ & Ex). rewrite Ex. split; [|done].
  unfold restorePendingTriggers. destruct (db (ag n1)); [|done]. by destruct (PendingTriggers _ _) as [[[ts|er] d''] fs''].
Qed.

(** The installer is only ever launched for an action the server has just
    accepted the acknowledgement of.  In every run, each launch is this
    node's own reinstall command and directly follows a successful
    acknowledgement; and the process exits with the hand-off status exactly
    after a launch, which is then the last thing it did. *)
Theorem launches_acked now s fs evs :
  let n := run_events p evs (start now s fs) in
  (forall pre l post, calls n = pre ++ CallLaunch l :: post ->
     exists pre' id ok flags, pre = pre' ++ [CallAck id true] /\ l = fst (reinstall (me p) ok flags))
  /\ (exited n = None \/ exited n = Some 0
      \/ (exited n = Some selfUpdateExitCode /\ exists pre l, calls n = pre ++ [CallLaunch l])).
Proof.
  cbn zeta. set (P := fun n => acked_calls (calls n) /\ (exited n = None \/ exited n = Some 0
      \/ (exited n = Some selfUpdateExitCode /\ exists pre l, calls n = pre ++ [CallLaunch l]))).
  assert (P (run_events p evs (start now s fs))) as [Ha Hx]; [|split; [by apply acked_split|exact Hx]].
  assert (P (start now s fs)) as Hs.
  { destruct (start_calls now s fs) as [E1 E2]. split; [rewrite E1; constructor|by left]. }
  revert Hs. generalize (start now s fs) as n. induction evs as [|ev evs IH]; intros n Hn; [exact Hn|]. apply IH.
  destruct Hn as [Ha Hx]. unfold P. destruct (exited n) as [c|] eqn:Ex.
  - unfold iterate. rewrite Ex. split; [exact Ha|]. rewrite Ex. exact Hx.
  - destruct (iterate_acts ev n Ex) as (cs & Ec & Hc & Hexit). rewrite Ec. split; [by apply acked_app|].
    destruct Hexit as [E|[E|[E (cs' & l & ->)]]]; [left; congruence|right; by left|].
    right. right. split; [exact E|]. exists (calls n ++ cs'), l. by rewrite app_assoc.
Qed.
End actions.
