(* ===== verification/AgentTriggers.v ===== *)
(** * Triggers across the agent and its store

    How a heartbeat's triggers reach the queue ([applyTriggeredEvents]) and
    how the store's trigger queue comes back after a restart
    ([restorePendingTriggers]); with the concrete agent on which the
    theorems of [AgentLoop.v] are instantiated. *)

From Stdlib Require Import ZArith Lia List Bool Ascii String Permutation.
From stdpp Require Import base tactics gmap strings list fin_maps sorting.
From S2P Require Import Prelude GoStrings Wire Cache DueProbes Triggers Sql Store StoreMaint.
From S2P Require Import Journal StoreWf StoreDemo StoreResults StoreTriggers StoreAssign StoreMeta.
From S2P Require Import Clock Health PathHealth Spool Delivery Netbind Checks Tick SelfUpdate.
From S2P Require Import ApiClient Config AgentLoop.

Open Scope string_scope.
Open Scope list_scope.
Open Scope Z_scope.

(** ** Persisted before queued *)

(** The events whose recording fails. *)
Fixpoint unrecorded (now : time) (evs : list Event) (a : agent) : list Event :=
  match evs with
  | [] => []
  | ev :: rest =>
      (match db a with
       | Some d => match RecordTrigger (nodeID a) (to_unix_milli now) ev (db_faults a) d with
                   | (Err _, _, _) => [ev]
                   | _ => []
                   end
       | None => [ev]
       end) ++ unrecorded now rest (apply_event now ev a)
  end.

Lemma applied_elem ev c t :
  t ∈ pendingTriggers (snd (applyTriggeredEvent ev c)) ->
  t ∈ pendingTriggers c \/ trigger_key t = trigger_key_of ev.
Proof.
  unfold applyTriggeredEvent, applyTriggeredEventLocked. destruct (_ || _ || _); [by left|].
  destruct (hasPendingTriggerLocked _ _ c); [by left|].
  destruct (noteTrigger _ _ c) as [c1|] eqn:E; [|by left].
  apply noteTrigger_Some in E as (Eq & _ & _). destruct (queueFull c1); cbn; rewrite Eq; [by left|].
  intros [Ht|Ht%list_elem_of_singleton]%elem_of_app; [by left|right]. by subst.
Qed.

Definition on_disk (k : pair_key) (a : agent) : Prop :=
  exists d, db a = Some d /\ is_Some (pending_triggers d !! k).

Lemma RecordTrigger_keeps_pending k o now ev : keeps (fun d => is_Some (pending_triggers d !! k)) (RecordTrigger o now ev).
Proof.
  intros fs d Hd. unfold run. destruct (RecordTrigger o now ev fs d) as [[[b|er] d'] fs'] eqn:E; cbn.
  - apply RecordTrigger_ok in E. destruct b; [|by subst]. destruct E as (_ & _ & _ & -> & _).
    apply insert_pending_some. by right.
  - unfold RecordTrigger in E. destruct (negb _); [done|]. destruct (negb _); [by injection E as _ <- _|].
    by apply tx_err in E as ->.
Qed.

Lemma apply_event_on_disk now ev a k : on_disk k a -> on_disk k (apply_event now ev a).
Proof.
  intros (d & Ed & Hk). unfold apply_event. rewrite Ed.
  pose proof (RecordTrigger_keeps_pending k (nodeID a) (to_unix_milli now) ev (db_faults a) d Hk) as Hp. unfold run in Hp.
  destruct (RecordTrigger _ _ _ _ _) as [[r d'] fs']. cbn in Hp. exists d'. by destruct r as [[]|].
Qed.

Lemma apply_event_queue now ev a t :
  t ∈ pendingTriggers (cache (apply_event now ev a)) ->
  t ∈ pendingTriggers (cache a) \/ on_disk (trigger_key t) (apply_event now ev a)
  \/ exists ev', ev' ∈ unrecorded now [ev] a /\ trigger_key t = trigger_key_of ev'.
Proof.
  unfold apply_event, unrecorded, on_disk. destruct (db a) as [d|] eqn:Ed.
  - destruct (RecordTrigger _ _ _ _ _) as [[r d'] fs'] eqn:E. destruct r as [[]|er]; cbn.
    + intros [Ht|Ht]%applied_elem; [by left|]. right. left. exists d'. split; [done|].
      apply RecordTrigger_ok in E as (_ & _ & _ & -> & _). rewrite Ht. apply insert_pending_some. by left.
    + by left.
    + intros [Ht|Ht]%applied_elem; [by left|]. right. right. exists ev. split; [by left|done].
  - cbn. intros [Ht|Ht]%applied_elem; [by left|]. right. right. exists ev. split; [by left|done].
Qed.

(** A trigger is on disk before it is in the queue.  With a database, after
    a heartbeat's events are applied, every queued trigger was queued before,
    or is a row of the store's trigger queue, or is one whose recording
    failed: a crash can only lose a trigger that was already known not to be
    durable. *)
Theorem queued_on_disk now evs a t :
  db a <> None ->
  t ∈ pendingTriggers (cache (applyTriggeredEvents now evs a)) ->
  t ∈ pendingTriggers (cache a) \/ on_disk (trigger_key t) (applyTriggeredEvents now evs a)
  \/ exists ev, ev ∈ unrecorded now evs a /\ trigger_key t = trigger_key_of ev.
Proof.
  unfold applyTriggeredEvents. destruct (db a) eqn:Ed; [intros _|done]. clear Ed.
  assert (forall evs a k, on_disk k a -> on_disk k (fold_left (fun a ev => apply_event now ev a) evs a)) as Hm.
  { clear. induction evs as [|ev evs IH]; intros a k Hk; [done|]. apply IH. by apply apply_event_on_disk. }
  revert a. induction evs as [|ev evs IH]; intros a; [by left|]. cbn [fold_left].
  intros [Ht|[Ht|(ev' & Hev & Ek)]]%IH.
  - apply apply_event_queue in Ht as [Ht|[Ht|(ev' & Hev & Ek)]]; [by left|right; left; by apply Hm|].
    right. right. exists ev'. split; [|done]. cbn [unrecorded app] in *. rewrite app_nil_r in Hev.
    apply elem_of_app. by left.
  - right. by left.
  - right. right. exists ev'. split; [|done]. cbn [unrecorded]. apply elem_of_app. by right.
Qed.

(** A full queue strands a persisted trigger.  A fresh trigger of a cached
    probe that arrives while the in-memory queue is full is recorded in the
    store but not queued; from then on every redelivery is refused, because
    the store has seen it and the cache has marked it: only a restart, which
    reads the store's queue again, can run it. *)
Theorem full_queue_strands_trigger now now' ev a d d' fs' p :
  db a = Some d -> probes (cache a) !! ID (ev_Probe ev) = Some p -> queueFull (cache a) = true ->
  hasPendingTriggerLocked (ID (ev_Probe ev)) (ev_RunID ev) (cache a) = false ->
  RecordTrigger (nodeID a) (to_unix_milli now) ev (db_faults a) d = (Ok true, d', fs') ->
  let a1 := apply_event now ev a in
  on_disk (trigger_key_of ev) a1
  /\ ~ (trigger_key_of ev ∈ trigger_key <$> pendingTriggers (cache a1))
  /\ forall b d2 fs2, RecordTrigger (nodeID a1) now' ev (db_faults a1) d' = (Ok b, d2, fs2) -> b = false.
Proof.
  intros Ed Hp Hf Hpend E. cbn zeta. unfold apply_event. rewrite Ed, E. cbn [with_cache with_db db cache nodeID db_faults].
  apply RecordTrigger_ok in E as (Hok & Hr & _ & Hpt & Hct & _).
  assert (is_Some (pending_triggers d' !! trigger_key_of ev)) as Hd' by (rewrite Hpt; apply insert_pending_some; by left).
  split_and!.
  - by exists d'.
  - intros (t & Ek & Ht)%list_elem_of_fmap. 
    assert (pendingTriggers (snd (applyTriggeredEvent ev (cache a))) = pendingTriggers (cache a)) as Eq.
    { unfold applyTriggeredEvent, applyTriggeredEventLocked. destruct (_ || _ || _); [done|]. rewrite Hpend.
      destruct (noteTrigger _ _ _) as [c1|] eqn:En; [|done]. apply noteTrigger_Some in En as (Eq & _ & _).
      assert (queueFull c1 = true) as -> by (unfold queueFull in *; by rewrite Eq). exact Eq. }
    rewrite Eq in Ht. assert (hasPendingTriggerLocked (ID (ev_Probe ev)) (ev_RunID ev) (cache a) = true) as Hq; [|congruence].
    apply hasPending_spec. change (ID (ev_Probe ev), ev_RunID ev) with (trigger_key_of ev). rewrite Ek.
    by apply list_elem_of_fmap_2.
  - intros b d2 fs2 E2. destruct b; [|done]. apply RecordTrigger_ok in E2 as (_ & Hn & _). destruct Hn. by left.
Qed.

(** ** Restoring the queue *)

(** No cached probe has already run one of the triggers. *)
Definition fresh_for (c : probeCache) (t : pendingTrigger) : Prop :=
  trigger_ids_empty t = false
  /\ forall p, probes c !! pt_ProbeID t = Some p -> lastTriggerRunID p <> pt_RunID t.

Lemma fresh_after_note t0 t c c1 :
  noteTrigger (pt_ProbeID t0) (pt_RunID t0) c = Some c1 -> trigger_key t <> trigger_key t0 ->
  fresh_for c t -> fresh_for c1 t.
Proof.
  intros En Hk [Hi Hf]. split; [done|]. intros p Hp. unfold noteTrigger in En.
  destruct (probes c !! pt_ProbeID t0) as [p0|] eqn:E0.
  - destruct (bool_decide _); [done|]. injection En as <-. cbn in Hp.
    destruct (decide (pt_ProbeID t = pt_ProbeID t0)) as [Ei|Hne].
    + rewrite Ei, lookup_insert_eq in Hp. injection Hp as <-. cbn. intros Er. apply Hk. unfold trigger_key. congruence.
    + rewrite lookup_insert_ne in Hp by done. by apply Hf.
  - injection En as <-. by apply Hf.
Qed.

(** Fresh triggers with distinct keys are all queued, in order. *)
Lemma queueTriggers_all ts c :
  Forall (fresh_for c) ts -> NoDup (trigger_key <$> pendingTriggers c ++ ts) ->
  (length (pendingTriggers c) + length ts <= maxPendingTriggers)%nat ->
  fst (queueTriggers ts c) = length ts
  /\ trigger_key <$> pendingTriggers (snd (queueTriggers ts c)) = trigger_key <$> pendingTriggers c ++ ts.
Proof.
  revert c. induction ts as [|t ts IH]; intros c Hf Hn Hl; [by rewrite app_nil_r|].
  inversion Hf as [|? ? [Hi Hfr] Hrest]; subst. cbn [queueTriggers]. rewrite Hi.
  rewrite fmap_app, fmap_cons in Hn. pose proof Hn as Hn'. apply NoDup_app in Hn' as (_ & Hdis & Hn2).
  apply NoDup_cons in Hn2 as [Hnot _].
  assert (hasPendingTriggerLocked (pt_ProbeID t) (pt_RunID t) c = false) as ->.
  { apply not_true_iff_false. rewrite hasPending_spec. intros Hin. apply (Hdis _ Hin). by left. }
  destruct (noteTrigger (pt_ProbeID t) (pt_RunID t) c) as [c1|] eqn:En.
  2: { unfold noteTrigger in En. destruct (probes c !! pt_ProbeID t) as [q|] eqn:Eq; [|done].
       case_bool_decide as Hb; [|done]. by destruct (Hfr q eq_refl). }
  pose proof (noteTrigger_Some _ _ _ _ En) as (Eq & _ & _).
  assert (queueFull c1 = false) as ->.
  { unfold queueFull. rewrite Eq. apply Nat.leb_gt. cbn in Hl. lia. }
  set (c2 := push_trigger (fill_snapshot t c) c1).
  assert (trigger_key <$> pendingTriggers c2 = trigger_key <$> pendingTriggers c ++ [t]) as Ec2.
  { subst c2. cbn. rewrite Eq, !fmap_app. f_equal. cbn. unfold fill_snapshot, trigger_key.
    destruct (bool_decide _); [|done]. by destruct (probes c !! _). }
  destruct (IH c2) as [H1 H2].
  - rewrite Forall_forall in *. intros x Hx. assert (fresh_for c x) as Hxf by (by apply Hrest).
    assert (fresh_for c1 x) as [? ?]; [|by split]. eapply fresh_after_note; [exact En| |exact Hxf].
    intros Ex. apply Hnot. rewrite <- Ex. by apply list_elem_of_fmap_2.
  - rewrite fmap_app, Ec2, fmap_app. rewrite <- app_assoc. exact Hn.
  - apply (f_equal length) in Ec2. rewrite !length_fmap, length_app in Ec2. cbn [length] in *. lia.
  - destruct (queueTriggers ts c2) as [k c3]. cbn [fst snd] in *. split; [by rewrite H1|].
    rewrite H2, !fmap_app, Ec2, fmap_app, fmap_cons. by rewrite <- app_assoc.
Qed.

(** ** The store's trigger queue across a restart *)

(** What every call of the agent on its store preserves: a waiting trigger
    has ids and a readable snapshot and is not the one its probe last ran,
    and probe rows are keyed by their snapshot's id. *)
Record triggers_wf (d : database) : Prop := {
  tw_ids : map_Forall (fun k _ => fst k <> "" /\ snd k <> "") (pending_triggers d);
  tw_readable : StoreTriggers.readable d;
  tw_fresh : forall p r, is_Some (pending_triggers d !! (p, r)) ->
               probes_t d !! p ≫= last_trigger_run_id <> Some r;
  tw_rows : map_Forall (fun k r => ID (pr_snapshot r) = k) (probes_t d)
}.

Lemma triggers_wf_frame d d' :
  pending_triggers d' = pending_triggers d -> probes_t d' = probes_t d -> triggers_wf d -> triggers_wf d'.
Proof. intros E1 E2 []. split; unfold StoreTriggers.readable in *; by rewrite ?E1, ?E2. Qed.

Lemma empty_triggers_wf : triggers_wf empty_db.
Proof. split; try apply map_Forall_empty. intros p r [x Hx]. done. Qed.

Definition tables_as (P : gmap pair_key ptrow) (R : gmap string prow) (d : database) : Prop :=
  pending_triggers d = P /\ probes_t d = R.

#[local] Ltac same_tables := let d := fresh in let E := fresh in intros d E; exact E.

Lemma keeps_triggers_wf {A} (m : sql A) fs d :
  (forall P R, keeps (tables_as P R) m) -> triggers_wf d -> triggers_wf (run m fs d).
Proof.
  intros Hk. destruct (Hk (pending_triggers d) (probes_t d) fs d (conj eq_refl eq_refl)). by apply triggers_wf_frame.
Qed.

Lemma nextOriginSeq_tables P R o n : keeps (tables_as P R) (nextOriginSeq o n).
Proof. unfold nextOriginSeq. keeps_steps; same_tables. Qed.

Lemma record_loop_tables P R burn o start now rs s : keeps (tables_as P R) (record_loop burn o start now rs s).
Proof.
  revert start s. induction rs as [|x rs IH]; intros start s; cbn [record_loop]; [apply keeps_ret|].
  destruct (ids_empty x); [apply IH|]. apply keeps_bind; [|intros ?; apply IH].
  apply keeps_stmt. intros d k d' Hd. unfold insert_result.
  destruct (_ <=? _); [done|]. destruct (_ || _); intros [= <- <-]; [|exact Hd]. by destruct burn.
Qed.

Lemma RecordResults_tables P R burn o now rs : keeps (tables_as P R) (RecordResults burn o now rs).
Proof.
  unfold RecordResults. destruct rs; [apply keeps_ret|].
  keeps_steps; [apply nextOriginSeq_tables|apply record_loop_tables].
Qed.

Lemma MarkOutcomes_tables P R now xs : keeps (tables_as P R) (MarkOutcomes now xs).
Proof. unfold MarkOutcomes, mark_outcome. keeps_steps; same_tables. Qed.

Lemma MarkAttempts_tables P R seqs : keeps (tables_as P R) (MarkAttempts seqs).
Proof. unfold MarkAttempts. keeps_steps; same_tables. Qed.

Lemma MarkProbesRun_triggers_wf ids t : keeps triggers_wf (MarkProbesRun ids t).
Proof.
  unfold MarkProbesRun. apply keeps_for. intros chunk _. apply keeps_exec. intros d [H1 H2 H3 H4].
  assert (forall k, mark_run_rows chunk (to_unix_milli t) (probes_t d) !! k
    = (fun r => if bool_decide (k ∈ chunk) then mkProw (pr_snapshot r) (pr_params r) (Some (to_unix_milli t)) (last_trigger_run_id r) else r)
        <$> probes_t d !! k) as Hl.
  { intros k. unfold mark_run_rows. rewrite map_lookup_imap. by destruct (probes_t d !! k). }
  split; [done|done| |].
  - intros p r Hp. cbn. rewrite Hl. specialize (H3 p r Hp). destruct (probes_t d !! p) as [x|]; [|done]. cbn in *.
    by destruct (bool_decide _).
  - intros k r Hk. cbn in Hk. rewrite Hl in Hk. destruct (probes_t d !! k) as [x|] eqn:Ex; [|done].
    injection Hk as <-. specialize (H4 k x Ex). by destruct (bool_decide _).
Qed.

Lemma saved_rows_lookup old snaps k r : saved_rows old snaps !! k = Some r -> exists s, r = saved_row old s /\ ID s = k.
Proof.
  intros Hk%elem_of_list_to_map_2%list_elem_of_fmap. destruct Hk as (s & [= -> ->] & _). by exists s.
Qed.

Lemma SaveAssignment_triggers_wf o now hash snaps fs d :
  triggers_wf d -> triggers_wf (run (SaveAssignment o now hash snaps) fs d).
Proof.
  intros Hw. unfold run. destruct (SaveAssignment o now hash snaps fs d) as [[[u|er] d'] fs'] eqn:E; cbn.
  - destruct (decide (hash = "")) as [->|Hh]; [unfold SaveAssignment in E; rewrite decide_True in E by done; by injection E as _ <- _|].
    apply SaveAssignment_ok in E as (_ & HP & _ & Hpt & _); [|done]. destruct Hw as [H1 H2 H3 H4].
    split; unfold StoreTriggers.readable in *; rewrite ?Hpt, ?HP; try done.
    + intros p r Hp. specialize (H3 p r Hp). destruct (saved_rows _ _ !! p) as [x|] eqn:Ex; [|done].
      apply saved_rows_lookup in Ex as (s & -> & Es). cbn. by rewrite Es.
    + intros k r Hk. by apply saved_rows_lookup in Hk as (s & -> & Es).
  - destruct (decide (hash = "")) as [->|Hh]; [unfold SaveAssignment in E; rewrite decide_True in E by done; by injection E as _ <- _|].
    by apply SaveAssignment_meta in E as ->.
Qed.

Lemma RecordTrigger_fresh o now ev fs d d' fs' :
  RecordTrigger o now ev fs d = (Ok true, d', fs') ->
  probes_t d !! ID (ev_Probe ev) ≫= last_trigger_run_id <> Some (ev_RunID ev).
Proof.
  unfold RecordTrigger. intros H. destruct (negb _); [done|]. destruct (negb _); [done|].
  apply tx_ok in H as (fs1 & fs2 & H). sql_step H. apply seen_ok in E as [-> Hseen].
  destruct a; [by sql_prim H|]. intros Hr. discriminate (proj2 Hseen (or_intror Hr)).
Qed.

Lemma RecordTrigger_triggers_wf o now ev fs d :
  triggers_wf d -> triggers_wf (run (RecordTrigger o now ev) fs d).
Proof.
  intros Hw. unfold run. destruct (RecordTrigger o now ev fs d) as [[[b|er] d'] fs'] eqn:E; cbn.
  - destruct b; [|by apply RecordTrigger_ok in E as ->]. pose proof (RecordTrigger_fresh _ _ _ _ _ _ _ E) as Hf.
    apply RecordTrigger_ok in E as (Hok & Hr & _ & Hpt & _ & HP & _). destruct Hw as [H1 H2 H3 H4].
    assert (forall k x, pending_triggers d' !! k = Some x ->
      pending_triggers d !! k = Some x \/ (k = trigger_key_of ev /\ snapshot_json x = Json (ev_Probe ev))) as Hk.
    { intros k x. rewrite Hpt. unfold insert_pending. destruct (pending_triggers d !! _); [by left|].
      intros [[<- <-]|[_ Hx]]%lookup_insert_Some; [by right|by left]. }
    unfold trigger_event_ok in Hok. zify_bool. repeat match goal with X : bool_decide _ = _ |- _ => first [apply bool_decide_eq_true in X|apply bool_decide_eq_false in X] end.
    split; unfold StoreTriggers.readable in *; rewrite ?HP; try done.
    + intros k x [Hx|[-> _]]%Hk; [by eapply H1|]. done.
    + intros k x [Hx|[-> Hj]]%Hk; [by eapply H2|]. by eexists.
    + intros p r [x [Hx|[[= -> ->] _]]%Hk]; [by apply H3; eexists|done].
  - unfold RecordTrigger in E. destruct (negb _); [done|]. destruct (negb _); [by injection E as _ <- _|].
    by apply tx_err in E as ->.
Qed.

Lemma complete_one_triggers_wf o now t fs d u d' fs' :
  complete_one o now t fs d = (Ok u, d', fs') -> triggers_wf d -> triggers_wf d'.
Proof.
  unfold complete_one. intros H [H1 H2 H3 H4]. sql_step H. sql_step H. sql_step H.
  apply nextOriginSeq_proj in E as [m ->]. apply insert_row_proj in E0 as (P & _ & R & _).
  unfold completeTriggerTx in H. repeat sql_step H. cbn in P, R.
  split; unfold StoreTriggers.readable in *; cbn; rewrite ?P, ?R; cbn.
  - by do 2 apply map_Forall_delete.
  - by do 2 apply map_Forall_delete.
  - intros p r [x Hx]. apply lookup_delete_Some in Hx as [Hne [_ Hx]%lookup_delete_Some].
    specialize (H3 p r (ex_intro _ x Hx)). rewrite lookup_alter. case_decide as Hp; [|exact H3]. subst p.
    destruct (probes_t d !! ptr_ProbeID t); [|done]. cbn. intros [= <-]. by apply Hne.
  - intros k x. rewrite lookup_alter. case_decide as Hk; [|apply H4]. subst k.
    destruct (probes_t d !! ptr_ProbeID t) as [y|] eqn:Ey; [|done]. cbn. intros [= <-]. cbn. by apply H4.
Qed.

Lemma CompleteTriggers_triggers_wf o now ts fs d :
  triggers_wf d -> triggers_wf (run (CompleteTriggers o now ts) fs d).
Proof.
  intros Hw. unfold CompleteTriggers. destruct ts as [|t0 ts]; [done|].
  destruct (tx_run_cases "store: begin trigger completion" "store: commit trigger completion"
    (sql_for (complete_one o now) (t0 :: ts)) fs d) as [->|(u & fs1 & fs2 & d' & E & ->)]; [done|].
  revert Hw E. generalize (t0 :: ts) as l. clear. intros l. revert d fs1. induction l as [|t l IH]; intros d fs1 Hw E; cbn [sql_for] in E.
  - by sql_prim E.
  - sql_step E. eapply IH; [|exact E]. by eapply complete_one_triggers_wf.
Qed.

Lemma agent_step_triggers_wf burn o d d' : agent_step burn o d d' -> triggers_wf d -> triggers_wf d'.
Proof.
  destruct 1; intros Hw.
  - apply keeps_triggers_wf; [|done]. intros. apply RecordResults_tables.
  - by apply RecordTrigger_triggers_wf.
  - by apply CompleteTriggers_triggers_wf.
  - by apply SaveAssignment_triggers_wf.
  - apply keeps_triggers_wf; [|done]. intros. apply MarkOutcomes_tables.
  - apply keeps_triggers_wf; [|done]. intros. apply MarkAttempts_tables.
  - by apply MarkProbesRun_triggers_wf.
Qed.

Lemma running_step_triggers_wf burn o d d' : running_step burn o d d' -> triggers_wf d -> triggers_wf d'.
Proof.
  destruct 1 as [d d' Hs|fs d|iterate others live fuel opts fs d Ho]; intros Hw.
  - by eapply agent_step_triggers_wf.
  - rewrite PendingTriggers_same; [done|by apply tw_readable].
  - apply Maintain_frame; [| | | | |exact Hw]; try (intros; by (eapply triggers_wf_frame; [| |eassumption])).
    intros x Hx. by apply (agent_steps_keep burn o triggers_wf x); [apply agent_step_triggers_wf|apply Ho|].
Qed.

Lemma running_triggers_wf burn o d : rtc (running_step burn o) empty_db d -> triggers_wf d.
Proof.
  intros Hr. generalize empty_triggers_wf. revert Hr. generalize empty_db as d0.
  induction 1; eauto using running_step_triggers_wf.
Qed.

(** The store's trigger queue in arrival order. *)
Definition waiting (d : database) : list (pair_key * ptrow) := merge_sort ptrow_le (map_to_list (pending_triggers d)).

Lemma waiting_elem d kr : kr ∈ waiting d <-> pending_triggers d !! fst kr = Some (snd kr).
Proof.
  unfold waiting. rewrite merge_sort_Permutation. destruct kr as [k r]. apply elem_of_map_to_list.
Qed.

Lemma read_triggers l :
  (forall kr, kr ∈ l -> exists s, snapshot_json (snd kr) = Json s) ->
  exists ts, map read_trigger l = inl <$> ts /\ (trigger_key <$> agentTriggers ts) = fst <$> l.
Proof.
  induction l as [|[[k1 k2] r] l IH]; intros Hl; [by exists []|]. destruct (Hl (k1, k2, r)) as [s Es]; [by left|].
  destruct IH as (ts & E & Ek); [intros x Hx; apply Hl; by right|]. cbn [snd] in Es.
  exists (mkPendingTrigger k1 k2 (event_seq r) (snapshot_decoded s) :: ts). split.
  - cbn. unfold read_trigger at 1. cbn. rewrite Es. by rewrite E.
  - cbn. by rewrite <- Ek.
Qed.

Lemma omap_inr {A B} (l : list A) :
  omap (fun x : A + B => match x with inr k => Some k | inl _ => None end) (inl <$> l) = [].
Proof. by induction l. Qed.
Lemma omap_inl {A B} (l : list A) :
  omap (fun x : A + B => match x with inl t => Some t | inr _ => None end) (inl <$> l) = l.
Proof. induction l as [|x l IH]; [done|]. cbn. f_equal. exact IH. Qed.

Lemma PendingTriggers_waiting d :
  StoreTriggers.readable d ->
  exists ts, PendingTriggers [] d = (Ok ts, d, []) /\ (trigger_key <$> agentTriggers ts) = fst <$> waiting d.
Proof.
  intros Hr. unfold PendingTriggers. erewrite bind_run by apply query_run. cbv beta. fold (waiting d).
  destruct (read_triggers (waiting d)) as (ts & E & Ek).
  { intros kr Hkr%waiting_elem. by apply (Hr _ _ Hkr). }
  rewrite E, omap_inr, omap_inl. cbn [sql_for]. erewrite bind_run; [|reflexivity]. by exists ts.
Qed.

Lemma waiting_nodup d : NoDup (fst <$> waiting d).
Proof.
  unfold waiting. apply (NoDup_fmap_fst _); [|rewrite merge_sort_Permutation; apply NoDup_map_to_list].
  intros x y1 y2 H1%waiting_elem H2%waiting_elem. cbn in *. congruence.
Qed.

(** What [Run] restores of the probes carries the run id of each row. *)
Lemma restored_probe d h states h0 c pid cp :
  triggers_wf d -> LoadProbeStates [] d = (Ok (h, states), d, []) ->
  probes (restore h0 (cachedStates states) c) !! pid = Some cp ->
  exists r, probes_t d !! pid = Some r /\ lastTriggerRunID cp = default "" (last_trigger_run_id r).
Proof.
  intros Hw E Hp. unfold LoadProbeStates in E. erewrite bind_run in E by apply query_run. cbv beta in E.
  unfold mbind, sql_bind, stmt in E. destruct (mapM state_of_row _) as [ss|] eqn:Em; [|done]. cbn in E.
  injection E as <- <-.
  assert (forall l (m : gmap string cachedProbe), fold_left (fun next st =>
      <[ID (st_Snapshot st) := mkCached (st_Snapshot st) (st_LastRunAt st) (st_LastTriggerRunID st)]> next) l m !! pid = Some cp ->
      m !! pid = Some cp \/ exists st, st ∈ l /\ ID (st_Snapshot st) = pid /\ lastTriggerRunID cp = st_LastTriggerRunID st) as Hf.
  { clear. induction l as [|st l IH]; intros m Hm; [by left|]. cbn in Hm. apply IH in Hm as [Hm|(st' & Hst & Hr)].
    - apply lookup_insert_Some in Hm as [[Ei <-]|[_ Hm]]; [|by left]. right. exists st. split; [by left|done].
    - right. exists st'. split; [by right|done]. }
  apply Hf in Hp as [Hp|(st & Hst & Hid & Hl)]; [done|]. clear Hf.
  unfold cachedStates in Hst. apply list_elem_of_In, in_map_iff in Hst as (ps & <- & Hps). apply list_elem_of_In in Hps.
  cbn in Hid, Hl. apply mapM_Some_1 in Em.
  apply list_elem_of_lookup in Hps as [i Hi]. eapply Forall2_lookup_r in Em as (r & Hr & Es); [|exact Hi].
  apply list_elem_of_lookup_2, list_elem_of_fmap in Hr as ([k r'] & -> & Hkr). rewrite merge_sort_Permutation in Hkr.
  apply elem_of_map_to_list in Hkr. cbn [snd] in Es. exists r'. unfold state_of_row in Es.
  assert (ID (ps_Snapshot ps) = ID (pr_snapshot r') /\ ps_LastTriggerRunID ps = default "" (last_trigger_run_id r')) as [Hi' Hl'].
  { destruct (pr_params r') as [[q|]|]; by simplify_eq/=. }
  rewrite <- Hid, Hi', (tw_rows d Hw k r' Hkr). split; [exact Hkr|]. by rewrite Hl, Hl'.
Qed.

(** A start on a store whose triggers are well formed queues them all. *)
Lemma start_requeues d now s :
  triggers_wf d -> s_store s = Some d -> (size (pending_triggers d) <= maxPendingTriggers)%nat ->
  (trigger_key <$> pendingTriggers (cache (ag (start now s [])))) = fst <$> waiting d
  /\ triggersRestored (start now s []) = true.
Proof.
  intros Hw Es Hsize.
  unfold start. cbv zeta. cbn [db]. rewrite Es.
  destruct (LoadProbeStates [] d) as [[r d'] fs'] eqn:E. pose proof (LoadProbeStates_same _ _ _ _ _ E) as ->.
  assert (fs' = []) as ->.
  { unfold LoadProbeStates, mbind, sql_bind, query, stmt in E. cbn in E.
    destruct (mapM state_of_row _) as [ss|]; cbn in E; by injection E as _ <-. }
  match goal with |- context [restorePendingTriggers ?x] => set (n1 := x) end.
  assert (db (ag n1) = Some d /\ db_faults (ag n1) = [] /\ pendingTriggers (cache (ag n1)) = []
    /\ forall pid cp, probes (cache (ag n1)) !! pid = Some cp ->
         exists row, probes_t d !! pid = Some row /\ lastTriggerRunID cp = default "" (last_trigger_run_id row))
    as (G1 & G2 & G3 & G4).
  { subst n1. destruct r as [[h states]|er]; [destruct (decide (h = ""))|]; split_and!; try done.
    intros pid cp Hp. by eapply restored_probe in Hp. }
  destruct (PendingTriggers_waiting d (tw_readable d Hw)) as (ts & Ep & Ek).
  assert (Forall (fresh_for (cache (ag n1))) (agentTriggers ts)) as Hfresh.
  { apply Forall_forall. intros t Ht. assert (trigger_key t ∈ fst <$> waiting d) as Hk
      by (rewrite <- Ek; by apply list_elem_of_fmap_2).
    apply list_elem_of_fmap in Hk as ([[pid rid] row] & Et & Hkr%waiting_elem). cbn [fst snd] in *.
    destruct (tw_ids d Hw _ _ Hkr) as [Hp Hr]. cbn in Hp, Hr. unfold trigger_key in Et. injection Et as Etp Etr.
    split.
    - unfold trigger_ids_empty. rewrite Etp, Etr, !bool_decide_false by done. done.
    - rewrite Etp, Etr. intros cp (row' & Hrow & ->)%G4 Hl. apply (tw_fresh d Hw pid rid); [by eexists|].
      rewrite Hrow. cbn. by destruct (last_trigger_run_id row') as [x|]; cbn in Hl; subst. }
  destruct (queueTriggers_all (agentTriggers ts) (cache (ag n1)) Hfresh) as [_ Hq].
  { rewrite G3. cbn [app]. rewrite Ek. apply waiting_nodup. }
  { rewrite G3. cbn [length]. rewrite <- (length_fmap trigger_key), Ek, length_fmap. unfold waiting.
    rewrite (Permutation_length (merge_sort_Permutation ptrow_le (map_to_list (pending_triggers d)))), length_map_to_list. lia. }
  rewrite G3 in Hq. cbn [app] in Hq. unfold restorePendingTriggers. rewrite G1, G2, Ep. cbn [on_ag ag triggersRestored set_restored].
  split; [|done]. unfold with_cache at 1. cbn [cache with_cache with_db].
  rewrite <- Ek, <- Hq. f_equal. unfold staggerUnstarted. by destruct (_ <=? 0).
Qed.

(** C5: A restart queues every trigger that was still waiting.  Whatever database
    the agent left behind (its calls, startups and maintenance passes, with
    any statements failing; no rebuild from the command line), with up to 256
    triggers in its queue, a start that can read it queues exactly those
    triggers, in arrival order, and does not ask for them again. *)
Theorem restart_requeues burn o d now s :
  rtc (running_step burn o) empty_db d -> s_store s = Some d ->
  (size (pending_triggers d) <= maxPendingTriggers)%nat ->
  (trigger_key <$> pendingTriggers (cache (ag (start now s [])))) = fst <$> waiting d
  /\ triggersRestored (start now s []) = true.
Proof. intros Hr%running_triggers_wf. by apply start_requeues. Qed.

(** ** A concrete node *)

Definition demo_identity : identity := {|
  id_nodeID := "node"; id_apiKey := "node:secret"; id_apiURL := "https://api"; id_proxyURL := ""; id_goos := "linux";
  id_euid := 0; id_pid := 7; id_lookPath _ := Some "/usr/bin/systemd-run"; id_procd := false |}.

Definition demo_process : process := {|
  me := demo_identity; version := "dev"; arch := "amd64"; proberHashes := ["tcp:aa"];
  RawYAML id := if decide (id = "tcp") then Some (mkUpload "tcp" "aa" "name: tcp" VNil) else None |}.

(** The first heartbeat is rejected for a module; after the upload the
    server confirms the node, sends a new assignment, a trigger and an
    update. *)
Definition demo_response : HeartbeatResponse :=
  mkHeartbeat "active" 15 (Some (unix_milli 100)) "h7" [demo_probe "a"; demo_probe "c"]
    [mkEvent 2 "triggered" (demo_probe "c") "run5"] "" (Some (mkAction "act1" "update" [])).

Definition demo_beat : beat_world := {|
  b_now := unix_milli 9000; b_sentAt k := unix_milli 9000; b_receivedAt k := unix_milli 9100; b_elapsed _ := 100;
  b_readings _ := mkReadings 1 1 None None None None; b_seconds _ := f0; b_selfTest _ := None;
  b_answer k _ := if (k =? 0)%nat
    then Err (HeartbeatRejectedError (mkRejection HeartbeatErrorModulesOutOfSync ["tcp"; "gone"] "" 0))
    else Ok demo_response;
  b_upload _ := true; b_ack _ := true; b_launched := true |}.

Definition demo_settings : settings := {|
  s_nodeID := "node"; s_version := "dev"; s_concurrency := 4; s_limits := mkBounds 4 3 2; s_startupJitter := 0;
  s_memoryLimit := 0; s_binding := mkBinding None ""; s_store := Some demo_triggered; s_spool := None; s_domain := "";
  s_client := mkClient "https://api" "node:secret" Direct; s_pool := (0, 0, 0, 0); s_dbRetention := hour; s_dbMaxBytes := 0 |}.

Definition demo_node : node := start (unix_milli 8000) demo_settings [].
Definition demo_run : node := run_events demo_process [Beat demo_beat] demo_node.

(** Two heartbeats, one upload, the acknowledgement, the installer. *)
Example demo_run_calls :
  map (fun c => match c with CallHeartbeat rq => rq_ProbeHash rq | CallUpload ms => "upload" | CallAck id _ => id
                | CallLaunch _ => "launch" end) (calls demo_run) = ["h1"; "upload"; "h1"; "act1"; "launch"]
  /\ exited demo_run = Some 42 /\ gate_open demo_run = true /\ interval demo_run = 15 * second.
Proof. vm_compute. done. Qed.

Lemma launches_acked_witness :
  exists pre id, take 4 (calls demo_run) = pre ++ [CallAck id true].
Proof.
  assert (calls demo_run = take 4 (calls demo_run) ++ [CallLaunch (fst (reinstall demo_identity true []))]) as E
    by (vm_compute; reflexivity).
  unfold demo_run, demo_node in *.
  pose proof (launches_acked demo_process (unix_milli 8000) demo_settings [] [Beat demo_beat]) as [H _].
  destruct (H _ _ [] E) as (pre & id & ok & flags & Hp & _). exists pre, id. exact Hp.
Defined.

Definition reloads (n : node) (hash : string) : Prop :=
  match db (ag n) with
  | Some d => match LoadProbeStates [] d with (Ok (h, _), _, _) => h = hash | _ => False end
  | None => False
  end.

Lemma reported_hash_durable_witness : reloads demo_run "h7".
Proof.
  assert (lastKnownHash (cache (ag demo_run)) = "h7") as Eh by (vm_compute; reflexivity).
  assert (match db (ag demo_run) with
    | Some d => match LoadProbeStates [] d with (Ok _, _, _) => true | _ => false end
    | None => false end = true) as Hok by (vm_compute; reflexivity).
  unfold reloads. destruct (db (ag demo_run)) as [d|] eqn:Ed; [|discriminate].
  destruct (LoadProbeStates [] d) as [[[[h states]|er] d'] fs'] eqn:E; [|discriminate].
  rewrite <- Eh. unfold demo_run, demo_node in *.
  refine (reported_hash_durable demo_process (unix_milli 8000) demo_settings [] [Beat demo_beat] d [] h states d' fs' _ Ed _ E).
  - repeat constructor.
  - rewrite Eh. discriminate.
Defined.

Definition demo_applied : agent := applyTriggeredEvents (unix_milli 9000) [mkEvent 2 "triggered" (demo_probe "c") "run5"] (ag demo_node).

Lemma queued_on_disk_witness :
  on_disk ("c", "run5") demo_applied.
Proof.
  set (ev := mkEvent 2 "triggered" (demo_probe "c") "run5").
  destruct (queued_on_disk (unix_milli 9000) [ev] (ag demo_node) (mkTrigger "c" "run5" (demo_probe "c"))) as [H|[H|(x & H & _)]].
  - vm_compute. discriminate.
  - apply list_elem_of_In. vm_compute. auto.
  - apply list_elem_of_In in H. vm_compute in H. intuition discriminate.
  - exact H.
  - apply list_elem_of_In in H. vm_compute in H. contradiction.
Defined.

(** The same node with its in-memory queue full. *)
Definition crowded : agent :=
  with_cache (fun c => mkCache (<["c" := mkCached (demo_probe "c") zero_time ""]> (probes c)) (contentHash c)
    (repeat (mkTrigger "z" "r" (demo_probe "z")) maxPendingTriggers)) (ag demo_node).

Lemma full_queue_strands_trigger_witness :
  let a1 := apply_event (unix_milli 9000) (mkEvent 2 "triggered" (demo_probe "c") "run5") crowded in
  on_disk ("c", "run5") a1 /\ ~ (("c", "run5") ∈ trigger_key <$> pendingTriggers (cache a1)).
Proof.
  set (ev := mkEvent 2 "triggered" (demo_probe "c") "run5").
  destruct (RecordTrigger "node" 9000 ev [] demo_triggered) as [[r d'] fs'] eqn:E.
  assert (r = Ok true) as -> by (revert E; vm_compute; by intros [= <- _ _]).
  pose proof (full_queue_strands_trigger (unix_milli 9000) 9000 ev crowded demo_triggered d' fs'
    (mkCached (demo_probe "c") zero_time "")) as H. cbn zeta in H.
  destruct H as (H1 & H2 & _); [vm_compute; reflexivity|vm_compute; reflexivity|vm_compute; reflexivity|vm_compute; reflexivity|exact E|].
  split; [exact H1|exact H2].
Defined.

(** The store after a maintenance pass that keeps nothing it may drop. *)
Definition demo_maintained : database := run demo_maintain [] demo_triggered.

Lemma demo_agent_reachable : rtc (running_step false "node") empty_db demo_maintained.
Proof.
  unfold demo_maintained, demo_triggered, demo_assigned.
  eapply rtc_r; [eapply rtc_r; [apply rtc_once|]|].
  - apply rn_agent, ag_assign.
  - apply rn_agent, ag_trigger.
  - apply rn_maintain. intros x. apply rtc_refl.
Qed.

Definition demo_restart : settings := {|
  s_nodeID := "node"; s_version := "dev"; s_concurrency := 4; s_limits := mkBounds 4 3 2; s_startupJitter := 0;
  s_memoryLimit := 0; s_binding := mkBinding None ""; s_store := Some demo_maintained; s_spool := None; s_domain := "";
  s_client := mkClient "https://api" "node:secret" Direct; s_pool := (0, 0, 0, 0); s_dbRetention := hour; s_dbMaxBytes := 0 |}.

Lemma restart_requeues_witness :
  (trigger_key <$> pendingTriggers (cache (ag (start (unix_milli 8000) demo_restart [])))) = [("a", "run1")].
Proof.
  destruct (restart_requeues false "node" demo_maintained (unix_milli 8000) demo_restart demo_agent_reachable eq_refl) as [H _].
  - vm_compute. lia.
  - etransitivity; [exact H|]. vm_compute. reflexivity.
Defined.

(** A heartbeat that only confirms the node. *)
Definition demo_confirm (st : string) : beat_world := {|
  b_now := unix_milli 9000; b_sentAt k := unix_milli 9000; b_receivedAt k := unix_milli 9100; b_elapsed _ := 100;
  b_readings _ := mkReadings 1 1 None None None None; b_seconds _ := f0; b_selfTest _ := None;
  b_answer k _ := Ok (mkHeartbeat st 0 None "" [] [] "" None);
  b_upload _ := true; b_ack _ := true; b_launched := true |}.

