(* ===== verification/TriggerFlow.v ===== *)
(** * Where a trigger is

    The heartbeat and scheduler loops of [internal/agent/agent.go] touch the
    cache and the store at the same time: a tick's checks run for seconds
    between draining the queue and retiring what was drained, and an event is
    recorded before it is queued.  Here the two loops interleave at every such
    point, with syncs, deliveries, maintenance and restarts in between, and the
    theorems say where each accepted trigger is.

    A node with a store whose recordings of triggers succeed and whose reads
    at a start succeed ([AgentTriggers] has what happens when a recording
    fails, the end of this file what a late restore does); every other
    statement may fail.  A maintenance pass is one step, so no trigger is
    recorded or completed during one. *)

From Stdlib Require Import ZArith Lia List Bool Ascii String.
From stdpp Require Import base tactics gmap strings list fin_maps sorting.
From S2P Require Import Prelude Wire Cache DueProbes Triggers Sql Store StoreMaint StoreWf StoreDemo StoreTriggers StoreMeta Netbind Checks Tick ApiClient Config AgentLoop AgentTriggers.

Open Scope string_scope.
Open Scope list_scope.
Open Scope Z_scope.

(** ** The two loops *)

(** The heartbeat loop between [RecordTrigger] and [applyTriggeredEvent]. *)
Inductive heart : Type := Resting | Recorded (ev : Event).

(** The scheduler loop: between ticks, with a tick's triggers out, and between
    [CompleteTriggers] and [markTriggerComplete]. *)
Inductive scheduler : Type := Idle | Running (ts : list pendingTrigger) | Retiring (ts : list pendingTrigger).

(** The history: what was handed to a tick, and why it could be. *)
Record history : Type := mkHistory {
  drained : list pair_key; accepted : list pair_key; requeued : list pair_key; restored : list pair_key
}.

Record flow : Type := mkFlow {
  fl_cache : probeCache; fl_db : database; fl_heart : heart; fl_sched : scheduler; fl_past : history
}.

Definition keys (ts : list pendingTrigger) : list pair_key := trigger_key <$> ts.
Definition queue (c : probeCache) : list pair_key := keys (pendingTriggers c).
Definition in_flight (s : scheduler) : list pair_key := match s with Running ts => keys ts | _ => [] end.
Definition on_its_way (h : heart) : list pair_key := match h with Recorded ev => [trigger_key_of ev] | Resting => [] end.

Definition note_drained ks h := mkHistory (ks ++ drained h) (accepted h) (requeued h) (restored h).
Definition note_accepted k h := mkHistory (drained h) (k :: accepted h) (requeued h) (restored h).
Definition note_requeued ks h := mkHistory (drained h) (accepted h) (ks ++ requeued h) (restored h).
Definition note_restored ks h := mkHistory (drained h) (accepted h) (requeued h) (ks ++ restored h).

(** What the loops do to the cache besides. *)
Inductive cache_aside : probeCache -> probeCache -> Prop :=
| ca_replace hash snaps c : cache_aside c (replaceAssignment hash snaps c)
| ca_keep snaps c : cache_aside c (replaceAssignmentKeepingHash snaps c)
| ca_stagger now jitter c : cache_aside c (staggerUnstarted now jitter c)
| ca_take iter now maxJobs maxPerProbe c :
    iter ≡ₚ map_to_list (probes c) -> cache_aside c (snd (takeDueProbes iter now maxJobs maxPerProbe c))
| ca_mark pid rid c : cache_aside c (markTriggerComplete pid rid c).

(** ... and to the store. *)
Inductive db_aside (burn : bool) (o : string) : database -> database -> Prop :=
| da_results now rs fs d : db_aside burn o d (run (RecordResults burn o now rs) fs d)
| da_assign now hash snaps fs d : db_aside burn o d (run (SaveAssignment o now hash snaps) fs d)
| da_outcomes now xs fs d : db_aside burn o d (run (MarkOutcomes now xs) fs d)
| da_attempts seqs fs d : db_aside burn o d (run (MarkAttempts seqs) fs d)
| da_ran ids t fs d : db_aside burn o d (run (MarkProbesRun ids t) fs d)
| da_maintain iterate others live_bytes fuel opts fs d :
    (forall x, trigger_tables (others x) = trigger_tables x) ->
    db_aside burn o d (run (Maintain iterate others live_bytes fuel opts) fs d).

(** What a step does to the queue: takes from its front, makes it anew, or at
    most adds at its back. *)
Inductive label : Type := Draining | Restarting | Other.

Inductive flow_step (burn : bool) (o : string) : label -> flow -> flow -> Prop :=
| fs_record now ev fs fs' c d d' sc h :
    RecordTrigger o now ev fs d = (Ok true, d', fs') ->
    flow_step burn o Other (mkFlow c d Resting sc h) (mkFlow c d' (Recorded ev) sc (note_accepted (trigger_key_of ev) h))
| fs_known now ev fs fs' c d d' sc h :
    RecordTrigger o now ev fs d = (Ok false, d', fs') ->
    flow_step burn o Other (mkFlow c d Resting sc h) (mkFlow c d' Resting sc h)
| fs_queue ev c d sc h :
    flow_step burn o Other (mkFlow c d (Recorded ev) sc h) (mkFlow (snd (applyTriggeredEvent ev c)) d Resting sc h)
| fs_cache c c' d he sc h : cache_aside c c' -> flow_step burn o Other (mkFlow c d he sc h) (mkFlow c' d he sc h)
| fs_db c d d' he sc h : db_aside burn o d d' -> flow_step burn o Other (mkFlow c d he sc h) (mkFlow c d' he sc h)
| fs_drain limit c d he h :
    flow_step burn o Draining (mkFlow c d he Idle h)
      (mkFlow (snd (drainPendingTriggersLimited limit c)) d he (Running (fst (drainPendingTriggersLimited limit c)))
         (note_drained (keys (fst (drainPendingTriggersLimited limit c))) h))
| fs_retire now fs fs' r c d d' he ts h :
    CompleteTriggers o now (storeTriggers ts) fs d = (r, d', fs') ->
    flow_step burn o Other (mkFlow c d he (Running ts) h) (mkFlow c d' he (Retiring ts) h)
| fs_mark c d he ts h :
    flow_step burn o Other (mkFlow c d he (Retiring ts) h)
      (mkFlow (fold_left (fun c t => markTriggerComplete (pt_ProbeID t) (pt_RunID t) c) ts c) d he Idle h)
| fs_requeue c d he ts h :
    flow_step burn o Other (mkFlow c d he (Running ts) h) (mkFlow (requeueTriggers ts c) d he Idle (note_requeued (keys ts) h))
| fs_restart s now c d d' he sc h :
    s_store s = Some d -> db (ag (start now s [])) = Some d' ->
    flow_step burn o Restarting (mkFlow c d he sc h)
      (let c' := cache (ag (start now s [])) in mkFlow c' d' Resting Idle (note_restored (queue c') h)).

Definition flow_moves (burn : bool) (o : string) (f f' : flow) : Prop := exists l, flow_step burn o l f f'.

Definition stored (k : pair_key) (f : flow) : Prop := is_Some (pending_triggers (fl_db f) !! k).

(** The triggers the process holds: queued, in a tick that runs, recorded and
    about to be queued. *)
Definition live (f : flow) : list pair_key := queue (fl_cache f) ++ in_flight (fl_sched f) ++ on_its_way (fl_heart f).

(** Why a step lets go of a trigger that stays on disk: the queue was full when
    it was queued or put back, the cached probe had it as its last run, its
    completion could not be stored, or the process restarted with more
    triggers than the queue takes. *)
Inductive left_behind (k : pair_key) (f f' : flow) : Prop :=
| lb_full : on_its_way (fl_heart f) = [k] -> queueFull (fl_cache f) = true -> left_behind k f f'
| lb_marked p :
    on_its_way (fl_heart f) = [k] -> probes (fl_cache f) !! fst k = Some p -> lastTriggerRunID p = snd k ->
    left_behind k f f'
| lb_back : k ∈ in_flight (fl_sched f) -> fl_sched f' = Idle -> queueFull (fl_cache f') = true -> left_behind k f f'
| lb_incomplete ts :
    fl_sched f = Running ts -> fl_sched f' = Retiring ts -> k ∈ keys ts -> fl_db f' = fl_db f -> left_behind k f f'
| lb_restart :
    (maxPendingTriggers < size (pending_triggers (fl_db f')))%nat -> fl_heart f' = Resting -> fl_sched f' = Idle ->
    left_behind k f f'.

Definition first_flow : flow := mkFlow newProbeCache empty_db Resting Idle (mkHistory [] [] [] []).

(** ** The cache's part *)

Lemma apply_queue ev c :
  queue (snd (applyTriggeredEvent ev c))
  = queue c ++ (if fst (applyTriggeredEvent ev c) then [trigger_key_of ev] else []).
Proof.
  unfold queue, keys, applyTriggeredEvent, applyTriggeredEventLocked. destruct (_ || _ || _); [by rewrite app_nil_r|].
  destruct (hasPendingTriggerLocked _ _ c); [by rewrite app_nil_r|].
  destruct (noteTrigger _ _ c) as [c1|] eqn:E; [|by rewrite app_nil_r].
  apply noteTrigger_Some in E as (E & _). destruct (queueFull c1); cbn; rewrite E; [by rewrite app_nil_r|]. by rewrite fmap_app.
Qed.

Lemma aside_queue c c' : cache_aside c c' -> queue c' = queue c.
Proof.
  destruct 1; try done.
  - unfold staggerUnstarted. by destruct (_ <=? 0).
  - unfold takeDueProbes. destruct (_ <=? 0); [done|]. by destruct (select_due _ _ _ _ _ _) as [[? ?] ?].
Qed.

Lemma aside_wf c c' : cache_aside c c' -> cache_wf c -> cache_wf c'.
Proof. intros []; apply cache_step_wf; by constructor. Qed.

Lemma complete_all_queue ts c :
  queue (fold_left (fun c t => markTriggerComplete (pt_ProbeID t) (pt_RunID t) c) ts c) = queue c.
Proof. revert c. induction ts as [|t ts IH]; intros c; [done|]. cbn [fold_left]. by rewrite IH. Qed.

Lemma complete_all_wf ts c :
  cache_wf c -> cache_wf (fold_left (fun c t => markTriggerComplete (pt_ProbeID t) (pt_RunID t) c) ts c).
Proof.
  revert c. induction ts as [|t ts IH]; intros c Hc; [done|]. cbn [fold_left]. apply IH.
  eapply cache_step_wf; [|exact Hc]. constructor.
Qed.

Lemma drain_queue limit c :
  keys (fst (drainPendingTriggersLimited limit c)) ++ queue (snd (drainPendingTriggersLimited limit c)) = queue c.
Proof.
  pose proof (drain_spec limit c) as H. destruct (drainPendingTriggersLimited limit c) as [out c']. destruct H as [H _].
  unfold queue, keys. cbn [fst snd]. by rewrite <- fmap_app, H.
Qed.

(** What is put back. *)
Lemma requeue_queue ts c : exists back, back `sublist_of` keys ts /\ queue (requeueTriggers ts c) = queue c ++ back.
Proof.
  revert c. induction ts as [|t ts IH]; intros c; [exists []; by rewrite app_nil_r|]. cbn [requeueTriggers].
  assert (exists back, back `sublist_of` keys (t :: ts) /\ queue (requeueTriggers ts c) = queue c ++ back) as Hskip.
  { destruct (IH c) as (back & Hb & E). exists back. split; [|exact E]. by apply sublist_cons. }
  destruct (trigger_ids_empty t); [exact Hskip|]. destruct (hasPendingTriggerLocked _ _ c); [exact Hskip|].
  destruct (queueFull c); [exact Hskip|]. destruct (IH (push_trigger t c)) as (back & Hb & E).
  exists (trigger_key t :: back). split; [by apply sublist_skip|]. rewrite E. unfold queue, keys. cbn [push_trigger set_pending pendingTriggers].
  rewrite fmap_app, <- app_assoc. done.
Qed.

(** What is not put back found the queue full. *)
Lemma requeue_full ts c k :
  Forall (fun t => trigger_ids_empty t = false) ts -> k ∈ keys ts -> k ∉ queue (requeueTriggers ts c) ->
  queueFull (requeueTriggers ts c) = true.
Proof.
  intros Hids. revert c. induction Hids as [|t ts Ht Hts IH]; intros c Hk Hn; [by apply elem_of_nil in Hk|].
  cbn [requeueTriggers] in *. rewrite Ht in *.
  assert (forall c', k ∈ queue c' -> k ∈ queue (requeueTriggers ts c')) as Hstay.
  { intros c' H. destruct (requeue_queue ts c') as (back & _ & ->). apply elem_of_app. by left. }
  unfold keys in Hk. rewrite fmap_cons, elem_of_cons in Hk.
  destruct (hasPendingTriggerLocked _ _ c) eqn:Ep.
  - destruct Hk as [->|Hk]; [|by apply IH]. apply hasPending_spec in Ep. by destruct Hn; apply Hstay.
  - destruct (queueFull c) eqn:Ef.
    + destruct (requeue_queue ts c) as (back & _ & E). unfold queueFull in *. apply Nat.leb_le. apply Nat.leb_le in Ef.
      apply (f_equal length) in E. unfold queue, keys in E. rewrite length_app, !length_fmap in E. lia.
    + destruct Hk as [->|Hk]; [|by apply IH]. destruct Hn. apply Hstay. unfold queue, keys. cbn [push_trigger set_pending pendingTriggers].
      rewrite fmap_app. apply elem_of_app. right. by left.
Qed.

(** Why a recorded trigger is not queued. *)
Lemma apply_refused ev c :
  trigger_event_ok ev = true -> fst (applyTriggeredEvent ev c) = false -> trigger_key_of ev ∉ queue c ->
  queueFull c = true \/ exists p, probes c !! ID (ev_Probe ev) = Some p /\ lastTriggerRunID p = ev_RunID ev.
Proof.
  unfold trigger_event_ok. intros Hok. zify_bool. unfold applyTriggeredEvent, applyTriggeredEventLocked.
  repeat match goal with H : bool_decide _ = _ |- _ => rewrite H; clear H end. cbn [negb orb]. intros Hf Hq.
  destruct (hasPendingTriggerLocked _ _ c) eqn:Ep; [by apply hasPending_spec in Ep|].
  destruct (noteTrigger _ _ c) as [c1|] eqn:En.
  - apply noteTrigger_Some in En as (E & _). left. unfold queueFull in *. destruct (maxPendingTriggers <=? _)%nat eqn:El in Hf; [|done].
    by rewrite E in El.
  - right. unfold noteTrigger in En. destruct (probes c !! _) as [p|]; [|done]. exists p. split; [done|].
    by destruct (bool_decide_reflect (lastTriggerRunID p = ev_RunID ev)).
Qed.

(** What a restart can queue. *)
Lemma restored_queue ts c : exists back, back `sublist_of` keys ts /\ queue (snd (queueTriggers ts c)) = queue c ++ back.
Proof.
  revert c. induction ts as [|t ts IH]; intros c; [exists []; by rewrite app_nil_r|]. cbn [queueTriggers].
  assert (exists back, back `sublist_of` keys (t :: ts) /\ queue (snd (queueTriggers ts c)) = queue c ++ back) as Hskip.
  { destruct (IH c) as (back & Hb & E). exists back. split; [|exact E]. by apply sublist_cons. }
  destruct (trigger_ids_empty t); [exact Hskip|]. destruct (hasPendingTriggerLocked _ _ c); [exact Hskip|].
  destruct (noteTrigger _ _ c) as [c1|] eqn:En; [|exact Hskip].
  assert (queue c1 = queue c) as Eq by (unfold queue; apply noteTrigger_Some in En as (E & _); by rewrite E).
  destruct (queueFull c1); [exists []; split; [apply sublist_nil_l|cbn [snd]; by rewrite Eq, app_nil_r]|].
  destruct (IH (push_trigger (fill_snapshot t c) c1)) as (back & Hb & E).
  destruct (queueTriggers ts (push_trigger _ _)) as [n c2] in E |- *. cbn [snd] in *. exists (trigger_key t :: back). split; [by apply sublist_skip|].
  rewrite E, <- Eq. unfold queue, keys. cbn [push_trigger set_pending pendingTriggers]. rewrite fmap_app, <- app_assoc. cbn.
  destruct (fill_snapshot_key t c) as [E1 E2]. unfold trigger_key. by rewrite E1, E2.
Qed.

(** ** The store's part *)

Lemma aside_tables burn o d d' :
  db_aside burn o d d' -> triggers_wf d -> triggers_wf d' /\ pending_triggers d' = pending_triggers d.
Proof.
  intros Hs Hw. destruct Hs as [now rs fs d|now hash snaps fs d|now xs fs d|seqs fs d|ids t fs d|iterate others live fuel opts fs d Ho].
  - split; [eapply agent_step_triggers_wf; [constructor|done]|]. by apply (RecordResults_triggers burn o now rs _ _ fs d (conj eq_refl eq_refl)).
  - split; [eapply (agent_step_triggers_wf burn); [constructor|done]|]. by apply (SaveAssignment_triggers o now hash snaps _ _ fs d (conj eq_refl eq_refl)).
  - split; [eapply (agent_step_triggers_wf burn o); [constructor|done]|]. by apply (MarkOutcomes_triggers now xs _ _ fs d (conj eq_refl eq_refl)).
  - split; [eapply (agent_step_triggers_wf burn o); [constructor|done]|]. by apply (MarkAttempts_triggers seqs _ _ fs d (conj eq_refl eq_refl)).
  - split; [eapply (agent_step_triggers_wf burn o); [constructor|done]|]. by apply (MarkProbesRun_triggers ids t _ _ fs d (conj eq_refl eq_refl)).
  - pose proof (Maintain_view iterate others live trigger_tables (trigger_tables d) Ho fuel opts fs d eq_refl) as H.
    unfold view_is, trigger_tables in H. injection H as HP HR. split; [|exact HP]. by apply (triggers_wf_frame d).
Qed.

Lemma storeTriggers_keys ts : done_key <$> storeTriggers ts = keys ts.
Proof. unfold storeTriggers, keys. induction ts as [|t ts IH]; [done|]. cbn. by rewrite <- IH. Qed.

(** Retiring takes exactly the tick's triggers off the disk, or nothing. *)
Lemma CompleteTriggers_pending o now ts fs d r d' fs' k :
  CompleteTriggers o now (storeTriggers ts) fs d = (r, d', fs') ->
  is_Some (pending_triggers d' !! k) <->
  is_Some (pending_triggers d !! k) /\ (if r then k ∉ keys ts else True).
Proof.
  rewrite <- storeTriggers_keys. unfold CompleteTriggers. destruct (storeTriggers ts) as [|t l] eqn:Es; intros H.
  - injection H as <- <- <-. split; [|by intros []]. intros Hk. split; [done|]. apply not_elem_of_nil.
  - destruct r as [u|e].
    + apply tx_ok in H as (fs1 & fs2 & H). apply (complete_loop_spec k) in H as [HP _]. rewrite HP. case_decide as Hk.
      * split; [by intros [? ?]|by intros [_ ?]].
      * tauto.
    + apply tx_err in H as ->. tauto.
Qed.

(** A start that can read the store finds it as it was, and queues none but the
    waiting triggers. *)
Lemma start_flow s now d :
  s_store s = Some d -> triggers_wf d ->
  db (ag (start now s [])) = Some d /\ cache_wf (cache (ag (start now s [])))
  /\ queue (cache (ag (start now s []))) ⊆ fst <$> waiting d.
Proof.
  intros Es Hw. unfold start. cbv zeta. cbn [db]. rewrite Es.
  destruct (LoadProbeStates [] d) as [[r d'] fs'] eqn:E. pose proof (LoadProbeStates_same _ _ _ _ _ E) as ->.
  assert (fs' = []) as ->.
  { unfold LoadProbeStates, mbind, sql_bind, query, stmt in E. cbn in E.
    destruct (mapM state_of_row _) as [ss|]; cbn in E; by injection E as _ <-. }
  match goal with |- context [restorePendingTriggers ?x] => set (n1 := x) end.
  assert (db (ag n1) = Some d /\ db_faults (ag n1) = [] /\ pendingTriggers (cache (ag n1)) = [] /\ cache_wf (cache (ag n1)))
    as (G1 & G2 & G3 & G4).
  { subst n1. destruct r as [[h states]|er]; [destruct (decide (h = ""))|]; split_and!; try done; try apply newProbeCache_wf.
    eapply cache_step_wf; [apply step_restore|apply newProbeCache_wf]. }
  destruct (PendingTriggers_waiting d (tw_readable d Hw)) as (ts & Ep & Ek).
  unfold restorePendingTriggers. rewrite G1, G2, Ep. cbn [on_ag ag set_restored]. split; [done|].
  match goal with |- context [with_cache (staggerUnstarted ?a ?b) _] => set (now' := a); set (j := b) end.
  cbn [cache with_cache with_db]. split.
  - eapply cache_step_wf; [apply step_stagger|]. by apply queueTriggers_wf.
  - assert (queue (staggerUnstarted now' j (snd (queueTriggers (agentTriggers ts) (cache (ag n1)))))
            = queue (snd (queueTriggers (agentTriggers ts) (cache (ag n1))))) as -> by (apply aside_queue; constructor).
    destruct (restored_queue (agentTriggers ts) (cache (ag n1))) as (back & Hb & ->). unfold queue at 1. rewrite G3. cbn [keys fmap app].
    rewrite <- Ek. intros k Hk. by eapply elem_of_sublist.
Qed.

(** ** The invariant *)

(** The triggers of [ks] wait on disk, each once. *)
Definition held (d : database) (ks : list pair_key) : Prop :=
  NoDup ks /\ forall k, k ∈ ks -> is_Some (pending_triggers d !! k).

Lemma held_sub d d' ks ks' :
  held d ks -> ks' ⊆+ ks -> (forall k, k ∈ ks' -> is_Some (pending_triggers d !! k) -> is_Some (pending_triggers d' !! k)) ->
  held d' ks'.
Proof.
  intros [Hn H] Hs Hd. split.
  - apply submseteq_Permutation in Hs as [rest Hs]. rewrite Hs in Hn. by apply NoDup_app in Hn as (? & _ & _).
  - intros k Hk. apply Hd; [done|]. apply H. by eapply elem_of_submseteq.
Qed.

Record flow_ok (f : flow) : Prop := {
  fo_cache : cache_wf (fl_cache f);
  fo_db : triggers_wf (fl_db f);
  fo_event : match fl_heart f with Recorded ev => trigger_event_ok ev = true | Resting => True end;
  fo_held : held (fl_db f) (live f)
}.

Lemma first_flow_ok : flow_ok first_flow.
Proof.
  split; [apply newProbeCache_wf|apply empty_triggers_wf|done|]. split; [apply NoDup_nil_2|].
  intros k Hk. by apply elem_of_nil in Hk.
Qed.

Ltac flow_cases Hs :=
  destruct Hs as [now ev fs fs' c d d' sc h E|now ev fs fs' c d d' sc h E|ev c d sc h|c c' d he sc h E|c d d' he sc h E
    |limit c d he h|now fs fs' r c d d' he ts h E|c d he ts h|c d he ts h|s now c d d' he sc h Es Ed];
  unfold live, stored in *; cbn [fl_cache fl_db fl_heart fl_sched in_flight on_its_way app] in *.

Lemma flow_step_ok burn o l f f' : flow_step burn o l f f' -> flow_ok f -> flow_ok f'.
Proof.
  intros Hs [Hc Hd He Hh]. flow_cases Hs.
  - pose proof (RecordTrigger_triggers_wf o now ev fs d Hd) as Hd'. unfold run in Hd'. rewrite E in Hd'.
    apply RecordTrigger_ok in E as (Hok & Hr & _ & HP & _). destruct Hh as [Hn Hh]. split; [done..|]. unfold live. cbn [fl_cache fl_db fl_heart fl_sched on_its_way].
    rewrite app_nil_r in *. split.
    + rewrite app_assoc. apply NoDup_app. split; [done|]. split; [|apply NoDup_singleton].
      intros k Hk%Hh ->%list_elem_of_singleton. apply Hr. by left.
    + intros k. rewrite HP, insert_pending_some, app_assoc, elem_of_app, list_elem_of_singleton.
      intros [Hk%Hh| ->]; [by right|by left].
  - apply RecordTrigger_ok in E as ->. by split.
  - split; [eapply cache_step_wf; [apply step_event|done]|done|done|]. unfold live. cbn [fl_cache fl_db fl_heart fl_sched on_its_way].
    eapply held_sub; [exact Hh| |done]. rewrite apply_queue, app_nil_r, <- app_assoc. apply submseteq_app; [done|].
    rewrite Permutation_app_comm. apply submseteq_app; [done|]. destruct (fst _); [done|apply submseteq_nil_l].
  - split; [by eapply aside_wf|done|done|]. unfold live. cbn [fl_cache fl_db fl_heart fl_sched]. by rewrite (aside_queue c).
  - apply aside_tables in E as [Hd' HP]; [|done]. split; [done..|]. eapply held_sub; [exact Hh|done|]. cbn. by rewrite HP.
  - split; [eapply cache_step_wf; [apply step_drain|done]|done|done|]. unfold live. cbn [fl_cache fl_db fl_heart fl_sched in_flight].
    rewrite <- (drain_queue limit c) in Hh. eapply held_sub; [exact Hh| |done].
    rewrite !app_assoc. by rewrite (Permutation_app_comm (queue _)).
  - pose proof (CompleteTriggers_triggers_wf o now (storeTriggers ts) fs d Hd) as Hd'. unfold run in Hd'. rewrite E in Hd'.
    split; [done..|]. unfold live. cbn [fl_cache fl_db fl_heart fl_sched in_flight app]. eapply held_sub; [exact Hh| |].
    + apply submseteq_app; [done|]. by apply submseteq_inserts_l.
    + intros k Hk Hs. rewrite (CompleteTriggers_pending o now ts fs d r d' fs' k E). split; [done|]. destruct r; [|done].
      destruct Hh as [Hn _]. rewrite (Permutation_app_swap_app (queue c)) in Hn. apply NoDup_app in Hn as (_ & Hdis & _).
      intros Hin. by apply (Hdis k).
  - split; [by apply complete_all_wf|done|done|]. unfold live. cbn [fl_cache fl_db fl_heart fl_sched]. by rewrite complete_all_queue.
  - split; [eapply cache_step_wf; [apply step_requeue|done]|done|done|]. unfold live. cbn [fl_cache fl_db fl_heart fl_sched in_flight app].
    destruct (requeue_queue ts c) as (back & Hb & ->). eapply held_sub; [exact Hh| |done].
    rewrite <- app_assoc. apply submseteq_app; [done|]. apply submseteq_app; [by apply sublist_submseteq|done].
  - destruct (start_flow s now d Es Hd) as (Ed' & Hc' & Hq). rewrite Ed' in Ed. injection Ed as <-.
    split; [done..|]. unfold live. cbn [fl_cache fl_db fl_heart fl_sched in_flight on_its_way app]. rewrite !app_nil_r.
    split; [by apply wf_nodup|]. intros k Hk%Hq. apply list_elem_of_fmap in Hk as (kr & -> & Hkr%waiting_elem). by eexists.
Qed.

Lemma flow_reachable_ok burn o f : rtc (flow_moves burn o) first_flow f -> flow_ok f.
Proof. intros Hr. generalize first_flow_ok. induction Hr as [f|f f' f'' [l Hs] _ IH]; [done|]. intros Hok. by eapply IH, flow_step_ok. Qed.

Lemma waiting_queued d now s k :
  triggers_wf d -> s_store s = Some d -> (size (pending_triggers d) <= maxPendingTriggers)%nat ->
  is_Some (pending_triggers d !! k) -> k ∈ queue (cache (ag (start now s []))).
Proof.
  intros Hw Es Hsize [r Hr]. destruct (start_requeues d now s Hw Es Hsize) as [Hq _]. unfold queue, keys. rewrite Hq.
  apply list_elem_of_fmap. exists (k, r). split; [done|]. by apply waiting_elem.
Qed.

(** A trigger the process holds and the disk keeps is held on, or left behind
    for one of the reasons above. *)
Lemma flow_step_keeps burn o l f f' k :
  flow_step burn o l f f' -> flow_ok f -> k ∈ live f -> stored k f' -> k ∈ live f' \/ left_behind k f f'.
Proof.
  intros Hs [Hc Hd He Hh] Hk Hon. flow_cases Hs.
  - left. rewrite app_nil_r in Hk. rewrite app_assoc. apply elem_of_app. by left.
  - by left.
  - rewrite apply_queue, !elem_of_app in *. destruct Hk as [Hk|[Hk|Hk%list_elem_of_singleton]]; [by left; left; left|by left; right; left|].
    subst k. destruct (fst (applyTriggeredEvent ev c)) eqn:Ef; [left; left; right; by left|].
    assert (trigger_key_of ev ∉ queue c) as Hnq.
    { destruct Hh as [Hn _]. apply NoDup_app in Hn as (_ & Hdis & _). intros Hq. apply (Hdis _ Hq), elem_of_app. right. by left. }
    right. destruct (apply_refused ev c He Ef Hnq) as [Hf|(p & Hp & Hl)]; [by apply lb_full|by eapply lb_marked].
  - left. by rewrite (aside_queue c).
  - by left.
  - left. rewrite <- (drain_queue limit c) in Hk. rewrite !elem_of_app in *. tauto.
  - rewrite !elem_of_app in *. destruct Hk as [Hk|[Hk|Hk]]; [by left; left| |by left; right].
    rewrite (CompleteTriggers_pending o now ts fs d r d' fs' k E) in Hon. destruct r as [u|e]; [by destruct Hon|].
    right. eapply lb_incomplete; [done..|]. cbn. unfold CompleteTriggers in E. destruct (storeTriggers ts); [done|]. by eapply tx_err.
  - left. by rewrite complete_all_queue.
  - destruct (decide (k ∈ queue (requeueTriggers ts c))) as [Hq|Hq]; [left; apply elem_of_app; by left|].
    destruct (requeue_queue ts c) as (back & _ & Eq). rewrite !elem_of_app in *.
    destruct Hk as [Hk|[Hk|Hk]]; [|  |by left; right].
    + destruct Hq. rewrite Eq. apply elem_of_app. by left.
    + right. apply lb_back; [done..|]. cbn. eapply requeue_full; [|exact Hk|exact Hq].
      apply Forall_forall. intros t Ht. destruct Hh as [_ Hh]. destruct (Hh (trigger_key t)) as [r Hr].
      { rewrite !elem_of_app. right. left. by apply list_elem_of_fmap_2. }
      destruct (tw_ids d Hd _ _ Hr) as [H1 H2]. unfold trigger_ids_empty. cbn in H1, H2. by rewrite !bool_decide_false.
  - destruct (start_flow s now d Es Hd) as (Ed' & _ & _). rewrite Ed' in Ed. injection Ed as <-.
    destruct (decide (size (pending_triggers d) <= maxPendingTriggers)%nat) as [Hsz|Hsz].
    + left. apply elem_of_app. left. by apply (waiting_queued d).
    + right. apply lb_restart; [cbn; lia|done..].
Qed.

(** C7: No trigger is lost or held twice between the loops, while recordings of
    triggers and the reads at a start succeed.  However the heartbeat and the
    scheduler interleave with each other, with syncs, deliveries, maintenance
    and restarts, and whatever other statements fail: the triggers the process
    holds (queued, in the tick that runs, recorded and about to be queued) are
    all different and all on disk; a step drops one that stays on disk only
    for a named reason (queue full, the cached probe's last run, a completion
    that failed, a restart with more than 256 waiting); and a restart that
    finds at most 256 on disk queues every one of them. *)
Theorem triggers_in_one_place burn o f :
  rtc (flow_moves burn o) first_flow f ->
  NoDup (live f)
  /\ (forall k, k ∈ live f -> stored k f)
  /\ (forall f' k, flow_moves burn o f f' -> k ∈ live f -> stored k f' -> k ∈ live f' \/ left_behind k f f')
  /\ (forall s now k, s_store s = Some (fl_db f) -> (size (pending_triggers (fl_db f)) <= maxPendingTriggers)%nat ->
        stored k f -> k ∈ queue (cache (ag (start now s [])))).
Proof.
  intros Hok%flow_reachable_ok. pose proof Hok as [_ Hw _ [Hn H]]. split_and!; [done|done| |].
  - intros f' k [l Hs] Hk Hd. by eapply flow_step_keeps.
  - intros s now k Es Hsize Hk. by apply (waiting_queued (fl_db f)).
Qed.

(** ** What was handed out *)

Definition handed (f : flow) : list pair_key := drained (fl_past f) ++ queue (fl_cache f) ++ on_its_way (fl_heart f).
Definition grounds (h : history) : list pair_key := accepted h ++ requeued h ++ restored h.

Lemma flow_step_handed burn o l f f' :
  flow_step burn o l f f' -> handed f ⊆+ grounds (fl_past f) -> handed f' ⊆+ grounds (fl_past f').
Proof.
  intros Hs H.
  destruct Hs as [now ev fs fs' c d d' sc h E|now ev fs fs' c d d' sc h E|ev c d sc h|c c' d he sc h E|c d d' he sc h E
    |limit c d he h|now fs fs' r c d d' he ts h E|c d he ts h|c d he ts h|s now c d d' he sc h Es Ed];
    unfold handed, grounds in *; cbn [fl_cache fl_heart fl_past drained accepted requeued restored note_accepted note_drained note_requeued note_restored on_its_way] in *.
  - rewrite app_assoc, <- Permutation_cons_append. cbn [app]. rewrite app_nil_r in H. by apply submseteq_skip.
  - done.
  - rewrite apply_queue. etrans; [|exact H]. apply submseteq_app; [done|]. rewrite app_nil_r. apply submseteq_app; [done|].
    destruct (fst _); [done|apply submseteq_nil_l].
  - by rewrite (aside_queue c).
  - done.
  - rewrite <- (drain_queue limit c) in H. etrans; [|exact H]. rewrite <- !app_assoc. by rewrite (Permutation_app_swap_app (keys _)).
  - done.
  - by rewrite complete_all_queue.
  - destruct (requeue_queue ts c) as (back & Hb & Eq). rewrite Eq. rewrite <- !app_assoc. rewrite (Permutation_app_swap_app (accepted h)).
    rewrite (Permutation_app_comm back), !app_assoc. rewrite Permutation_app_comm, <- !app_assoc. apply submseteq_app; [by apply sublist_submseteq|]. done.
  - rewrite app_nil_r. rewrite (Permutation_app_swap_app (requeued h)), (Permutation_app_swap_app (accepted h)), Permutation_app_comm.
    apply submseteq_app; [done|]. etrans; [|exact H]. by apply submseteq_inserts_r.
Qed.

(** A tick is handed a trigger no more often than there were grounds for it: its
    acceptance from a heartbeat, a tick that put it back because its results
    were not durable, and a restart that found it on disk. *)
Theorem handed_out_once burn o f :
  rtc (flow_moves burn o) first_flow f ->
  drained (fl_past f) ⊆+ accepted (fl_past f) ++ requeued (fl_past f) ++ restored (fl_past f).
Proof.
  intros Hr. assert (handed f ⊆+ grounds (fl_past f)) as H.
  { assert (handed first_flow ⊆+ grounds (fl_past first_flow)) as H0 by done. revert H0.
    induction Hr as [f|f f' f'' [l Hs] _ IH]; [done|]. intros H0. by eapply IH, flow_step_handed. }
  etrans; [|exact H]. apply submseteq_inserts_r, reflexivity.
Qed.


(** ** When a queued trigger is handed out *)

(** Runs without a restart in which [n] ticks drain the queue. *)
Inductive ticks (burn : bool) (o : string) : nat -> flow -> flow -> Prop :=
| tk_none f : ticks burn o 0 f f
| tk_drain n f f' f'' : flow_step burn o Draining f f' -> ticks burn o n f' f'' -> ticks burn o (S n) f f''
| tk_other n f f' f'' : flow_step burn o Other f f' -> ticks burn o n f' f'' -> ticks burn o n f f''.

Lemma other_appends burn o f f' :
  flow_step burn o Other f f' ->
  drained (fl_past f') = drained (fl_past f) /\ exists more, queue (fl_cache f') = queue (fl_cache f) ++ more.
Proof.
  intros H. inversion H; subst; clear H; cbn [fl_cache fl_past drained note_accepted note_requeued];
    try (split; [done|]; exists []; by rewrite app_nil_r).
  - split; [done|]. rewrite apply_queue. by eexists.
  - split; [done|]. exists []. rewrite app_nil_r. by apply aside_queue.
  - split; [done|]. exists []. by rewrite app_nil_r, complete_all_queue.
  - split; [done|]. destruct (requeue_queue ts c) as (back & _ & E). by exists back.
Qed.

Lemma draining_takes burn o f f' :
  flow_step burn o Draining f f' ->
  exists out, drained (fl_past f') = out ++ drained (fl_past f) /\ queue (fl_cache f) = out ++ queue (fl_cache f')
              /\ (queue (fl_cache f) = [] \/ out <> []).
Proof.
  intros H. inversion H; subst; clear H. cbn [fl_cache fl_past drained note_drained].
  exists (keys (fst (drainPendingTriggersLimited limit c))). split; [done|]. split; [by rewrite drain_queue|].
  unfold queue, keys, drainPendingTriggersLimited. destruct (pendingTriggers c) as [|t ts]; [by left|right].
  cbn [length Nat.eqb]. destruct (_ || _) eqn:E; [done|]. apply orb_false_iff in E as [E%Z.leb_gt _].
  cbn [fst]. destruct (Z.to_nat limit) eqn:En; [lia|done].
Qed.

(** C40: Triggers are served in order: whatever arrives or is put back meanwhile, the
    trigger at position [i] of the queue is handed to one of the next [i + 1]
    ticks that drain it, unless the process restarts first. *)
Theorem queued_is_handed_out burn o n f f' i k :
  ticks burn o n f f' -> queue (fl_cache f) !! i = Some k -> (i < n)%nat ->
  exists new, drained (fl_past f') = new ++ drained (fl_past f) /\ k ∈ new.
Proof.
  assert (forall n f f', ticks burn o n f f' -> exists new, drained (fl_past f') = new ++ drained (fl_past f)) as Hmono.
  { induction 1 as [f0|m f0 f1 f2 Hs _ (new & IH)|m f0 f1 f2 Hs _ (new & IH)]; [by exists []| |].
    - apply draining_takes in Hs as (out & E & _). exists (new ++ out). by rewrite IH, E, app_assoc.
    - apply other_appends in Hs as [E _]. exists new. by rewrite IH, E. }
  intros H. revert i. induction H as [f|n f f' f'' Hs Ht IH|n f f' f'' Hs Ht IH]; intros i Hi Hlt; [lia| |].
  - apply draining_takes in Hs as (out & Ed & Eq & Hout). rewrite Eq in Hi. destruct (Hmono _ _ _ Ht) as (new & En).
    destruct (decide (i < length out)%nat) as [Hl|Hl].
    + rewrite lookup_app_l in Hi by done. exists (new ++ out). split; [by rewrite En, Ed, app_assoc|].
      apply elem_of_app. right. by eapply list_elem_of_lookup_2.
    + rewrite lookup_app_r in Hi by lia. assert (length out <> 0)%nat as Hne.
      { destruct Hout as [Hnil|Hne]; [|by destruct out]. rewrite Hnil in Eq. symmetry in Eq. apply app_eq_nil in Eq as [-> Eq]. rewrite Eq in Hi. done. }
      destruct (IH _ Hi) as (new' & En' & Hk); [lia|]. exists (new' ++ out). split; [by rewrite En', Ed, app_assoc|]. apply elem_of_app. by left.
  - apply other_appends in Hs as (Ed & more & Eq). destruct (IH i) as (new & En & Hk); [|done|].
    + rewrite Eq. by apply lookup_app_l_Some.
    + exists new. by rewrite En, Ed.
Qed.

(** ** A concrete run *)

Definition recorded_db (ev : Event) (d : database) : database := run (RecordTrigger "node" 1500 ev) [] d.

(** Two triggers arrive; the first is drained while the second is between the
    store and the queue. *)
Definition demo_second : Event := mkEvent 2 "triggered" (demo_probe "c") "run5".
Definition demo_cache1 : probeCache := snd (applyTriggeredEvent demo_event newProbeCache).
Definition demo_flow : flow :=
  mkFlow (snd (drainPendingTriggersLimited 1 demo_cache1)) (recorded_db demo_second (recorded_db demo_event empty_db)) (Recorded demo_second)
    (Running (fst (drainPendingTriggersLimited 1 demo_cache1)))
    (mkHistory [("a", "run1")] [("c", "run5"); ("a", "run1")] [] []).

Lemma demo_flow_reachable : rtc (flow_moves false "node") first_flow demo_flow.
Proof.
  eapply rtc_l; [eexists; eapply (fs_record _ _ 1500 demo_event []); vm_compute; reflexivity|].
  eapply rtc_l; [eexists; apply fs_queue|]. eapply rtc_l; [eexists; apply (fs_drain _ _ 1)|].
  eapply rtc_l; [eexists; eapply (fs_record _ _ 1500 demo_second []); vm_compute; reflexivity|].
  unfold demo_flow. vm_compute. apply rtc_refl.
Qed.

Lemma triggers_in_one_place_witness :
  live demo_flow = [("a", "run1"); ("c", "run5")]
  /\ NoDup (live demo_flow) /\ stored ("c", "run5") demo_flow.
Proof.
  assert (live demo_flow = [("a", "run1"); ("c", "run5")]) as E by (vm_compute; reflexivity).
  destruct (triggers_in_one_place false "node" demo_flow demo_flow_reachable) as (Hn & H & _).
  split_and!; [exact E|exact Hn|]. apply H. rewrite E. right. left.
Defined.

(** A completion that fails leaves its trigger on disk and in no queue. *)
Example demo_incomplete :
  let f' := mkFlow (fl_cache demo_flow) (fl_db demo_flow) (fl_heart demo_flow)
              (Retiring (fst (drainPendingTriggersLimited 1 demo_cache1))) (fl_past demo_flow) in
  flow_moves false "node" demo_flow f' /\ live f' = [("c", "run5")] /\ left_behind ("a", "run1") demo_flow f'.
Proof.
  cbv zeta. split; [|split; [vm_compute; reflexivity|]].
  - eexists. eapply (fs_retire _ _ 2000 [true]). vm_compute. reflexivity.
  - eapply lb_incomplete; [reflexivity..| |reflexivity]. vm_compute. left.
Qed.

Lemma handed_out_once_witness : [("a", "run1")] ⊆+ [("c", "run5"); ("a", "run1")].
Proof. exact (handed_out_once false "node" demo_flow demo_flow_reachable). Defined.

Lemma queued_is_handed_out_witness :
  exists new, drained (fl_past demo_flow) = new ++ [] /\ ("a", "run1") ∈ new.
Proof.
  set (f1 := mkFlow demo_cache1 (recorded_db demo_event empty_db) Resting Idle (mkHistory [] [("a", "run1")] [] [])).
  refine (queued_is_handed_out false "node" 1 f1 demo_flow 0 ("a", "run1") _ _ _).
  - eapply tk_drain; [apply (fs_drain _ _ 1)|].
    eapply tk_other; [eapply (fs_record _ _ 1500 demo_second []); vm_compute; reflexivity|]. unfold demo_flow. vm_compute. apply tk_none.
  - vm_compute. reflexivity.
  - lia.
Defined.

(** ** A late restore *)

(** A start whose read of the waiting triggers fails: the heartbeat takes a
    trigger of a probe that is not assigned, a tick takes it, and the restore
    that is tried again queues it while that tick runs. *)
Definition unread : node := start (unix_milli 8000) {|
  s_nodeID := "node"; s_version := "dev"; s_concurrency := 4; s_limits := mkBounds 4 3 2; s_startupJitter := 0;
  s_memoryLimit := 0; s_binding := mkBinding None ""; s_store := Some empty_db; s_spool := None; s_domain := "";
  s_client := mkClient "https://api" "node:secret" Direct; s_pool := (0, 0, 0, 0); s_dbRetention := hour; s_dbMaxBytes := 0 |} [false; false; true].
Definition arrived : agent := applyTriggeredEvents (unix_milli 9000) [demo_second] (ag unread).
Definition taken : list pendingTrigger := fst (drainPendingTriggersLimited 1 (cache arrived)).
Definition restored_late : node := restorePendingTriggers (on_ag (fun _ => with_cache (fun c => snd (drainPendingTriggersLimited 1 c)) arrived) unread).

Example late_restore_queues_in_flight :
  triggersRestored unread = false /\ keys taken = [("c", "run5")] /\ queue (cache (ag restored_late)) = [("c", "run5")].
Proof. vm_compute. done. Qed.
