(* ===== verification/Placeholder.v ===== *)
(** * Placeholders in module commands

    [internal/module/placeholder.go]: the tokens [{{name}}] of a module's
    command line, their validation when the module is loaded, and their
    substitution when a step runs.  The regular expression is a scanner: its
    three classes are disjoint, so a match at a position is unique.  The
    grammar it decides ([is_token], [reads]) is written with alphabets of its
    own; a name with a dash is not in it. *)

From Stdlib Require Import ZArith Lia List Bool Ascii String.
From stdpp Require Import base tactics strings list pretty.
From S2P Require Import Prelude GoStrings Wire Netbind.

Open Scope string_scope.
Open Scope list_scope.
Open Scope Z_scope.

(** ** [placeholderRe]: [\{\{\s*([a-zA-Z0-9_.]+)\s*\}\}] *)

Definition is_word (c : ascii) : bool :=
  let n := nat_of_ascii c in
  ((48 <=? n) && (n <=? 57) || (65 <=? n) && (n <=? 90) || (97 <=? n) && (n <=? 122) || (n =? 95))%nat.

(** [[a-zA-Z0-9_.]], [[a-zA-Z0-9_-]] and [\s]. *)
Definition is_name_char (c : ascii) : bool := is_word c || bool_decide (c = "."%char).
Definition is_param_char (c : ascii) : bool := is_word c || bool_decide (c = "-"%char).
Definition is_blank (c : ascii) : bool := bool_decide (nat_of_ascii c ∈ [9; 10; 12; 13; 32]%nat).

Fixpoint span (p : ascii -> bool) (s : string) : string * string :=
  match s with
  | "" => ("", "")
  | String c r => if p c then let '(a, b) := span p r in (String c a, b) else ("", s)
  end.

(** A match at the front: the token, its name and what follows. *)
Definition placeholder_at (s : string) : option (string * string * string) :=
  match cut_prefix "{{" s with
  | None => None
  | Some s1 =>
      let '(w1, s2) := span is_blank s1 in
      let '(name, s3) := span is_name_char s2 in
      let '(w2, s4) := span is_blank s3 in
      match name, cut_prefix "}}" s4 with
      | String _ _, Some rest => Some ("{{" +:+ w1 +:+ name +:+ w2 +:+ "}}", name, rest)
      | _, _ => None
      end
  end.

Inductive segment : Type :=
| Lit (c : ascii)
| Tok (token name : string).

(** The leftmost matches, and the bytes between them. *)
Fixpoint segments (fuel : nat) (s : string) : list segment :=
  match fuel, s with
  | S f, String c r =>
      match placeholder_at s with
      | Some (token, name, rest) => Tok token name :: segments f rest
      | None => Lit c :: segments f r
      end
  | _, _ => []
  end.

Definition scan (s : string) : list segment := segments (String.length s) s.

(** [FindAllStringSubmatch(arg, -1)], the first group. *)
Definition placeholder_names (arg : string) : list string :=
  omap (fun g => match g with Tok _ name => Some name | Lit _ => None end) (scan arg).

Definition concat_strings (l : list string) : string := foldr (fun a b => a +:+ b) "" l.

(** [ReplaceAllStringFunc]. *)
Definition replace_placeholders (f : string -> string -> string) (arg : string) : string :=
  concat_strings (map (fun g => match g with Lit c => String c "" | Tok token name => f token name end) (scan arg)).

(** ** Validation *)

Definition fixedPlaceholders : list string :=
  ["target"; "timeout_ms"; "params_json"; "alloc_port"; "source_ip"; "bind_interface"; "jobs_json"; "config_path"].

(** [paramPlaceholderRe]: the parameter's name. *)
Definition param_name (name : string) : option string :=
  match cut_prefix "param." name with
  | Some (String c r) => if forallb is_param_char (list_ascii_of_string (String c r)) then Some (String c r) else None
  | _ => None
  end.

Definition recognised (name : string) : bool :=
  bool_decide (name ∈ fixedPlaceholders) || match param_name name with Some _ => true | None => false end.

(** The first unrecognised name, [None] when the argument is accepted. *)
Definition validatePlaceholders (arg : string) : option string :=
  head (List.filter (fun name => negb (recognised name)) (placeholder_names arg)).

(** ** Resolution *)

Record execContext : Type := mkExec {
  ec_Target : string;
  ec_TimeoutMs : Z;
  ec_Params : params;
  ParamsJSONPath : string;
  AllocPort : Z;
  JobsJSONPath : string;
  ConfigPath : string;
  ec_Bind : Binding
}.

Section resolve.
Context `{NetIP} (sprint : any -> string).  (* fmt.Sprint of a value that is not a string *)

Definition stringifyParam (v : any) : string :=
  match v with VNil => "" | VString s => s | _ => sprint v end.

Definition placeholder_value (ec : execContext) (token name : string) : string :=
  if decide (name = "target") then ec_Target ec
  else if decide (name = "timeout_ms") then pretty (ec_TimeoutMs ec)
  else if decide (name = "params_json") then ParamsJSONPath ec
  else if decide (name = "alloc_port") then pretty (AllocPort ec)
  else if decide (name = "source_ip") then match SourceIP (ec_Bind ec) with Some a => AddrString a | None => "" end
  else if decide (name = "bind_interface") then Interface (ec_Bind ec)
  else if decide (name = "jobs_json") then JobsJSONPath ec
  else if decide (name = "config_path") then ConfigPath ec
  else match param_name name with
       | Some p => stringifyParam (obj_get (ec_Params ec) p)
       | None => token
       end.

Definition resolve (ec : execContext) (argv : list string) : list string :=
  map (replace_placeholders (placeholder_value ec)) argv.
End resolve.

(** ** The grammar *)

(** A name's characters (no dash among them), and the blanks around it. *)
Definition name_alphabet : list ascii :=
  list_ascii_of_string "abcdefghijklmnopqrstuvwxyzABCDEFGHIJKLMNOPQRSTUVWXYZ0123456789_.".
Definition blanks : list ascii := [" "; "009"; "010"; "012"; "013"]%char.

Definition all_chars (p : ascii -> bool) (s : string) : Prop := Forall (fun c => p c = true) (list_ascii_of_string s).
Definition starts_with (p : ascii -> bool) (s : string) : bool := match s with String c _ => p c | "" => false end.

Definition drawn_from (l : list ascii) (s : string) : Prop := Forall (fun c => c ∈ l) (list_ascii_of_string s).

(** [token] is a placeholder for [name]. *)
Definition is_token (token name : string) : Prop :=
  name <> "" /\ drawn_from name_alphabet name
  /\ exists w1 w2, drawn_from blanks w1 /\ drawn_from blanks w2 /\ token = "{{" +:+ w1 +:+ name +:+ w2 +:+ "}}".

(** The leftmost, longest reading of an argument. *)
Inductive reads : string -> list segment -> Prop :=
| reads_nil : reads "" []
| reads_lit c r g :
    (forall token name rest, is_token token name -> String c r <> token +:+ rest) -> reads r g ->
    reads (String c r) (Lit c :: g)
| reads_tok token name rest g : is_token token name -> reads rest g -> reads (token +:+ rest) (Tok token name :: g).

Lemma name_alphabet_spec c : c ∈ name_alphabet <-> is_name_char c = true.
Proof.
  assert (bool_decide (c ∈ name_alphabet) = is_name_char c) as <-; [|by rewrite bool_decide_eq_true].
  destruct c as [[] [] [] [] [] [] [] []]; vm_compute; reflexivity.
Qed.

Lemma blanks_spec c : c ∈ blanks <-> is_blank c = true.
Proof.
  assert (bool_decide (c ∈ blanks) = is_blank c) as <-; [|by rewrite bool_decide_eq_true].
  destruct c as [[] [] [] [] [] [] [] []]; vm_compute; reflexivity.
Qed.

Lemma drawn_names s : drawn_from name_alphabet s <-> all_chars is_name_char s.
Proof. apply Forall_iff, name_alphabet_spec. Qed.
Lemma drawn_blanks s : drawn_from blanks s <-> all_chars is_blank s.
Proof. apply Forall_iff, blanks_spec. Qed.

Lemma all_chars_cons p c s : all_chars p (String c s) <-> p c = true /\ all_chars p s.
Proof. unfold all_chars. cbn [list_ascii_of_string]. by rewrite Forall_cons. Qed.

Lemma span_spec p s a b :
  span p s = (a, b) <-> s = a +:+ b /\ all_chars p a /\ starts_with p b = false.
Proof.
  revert a b. induction s as [|c s IH]; intros a b; cbn [span].
  - split; [intros [= <- <-]; split_and!; [done|constructor|done]|].
    intros (E & _ & _). destruct a; [|done]. rewrite app_empty in E. by rewrite <- E.
  - destruct (p c) eqn:Ec.
    + destruct (span p s) as [a' b'] eqn:E. split.
      * intros [= <- <-]. destruct (proj1 (IH a' b') eq_refl) as (-> & ? & ?).
        split_and!; [done|by apply all_chars_cons|done].
      * intros (E' & Ha & Hb). destruct a as [|d a]; [rewrite app_empty in E'; subst b; cbn in Hb; congruence|].
        rewrite app_String in E'. injection E' as <- E'. apply all_chars_cons in Ha as [_ Ha].
        assert ((a', b') = (a, b)) as [= -> ->]; [|done]. by apply IH.
    + split; [intros [= <- <-]; split_and!; [done|constructor|done]|].
      intros (E' & Ha & Hb). destruct a as [|d a]; [rewrite app_empty in E'; by subst b|].
      rewrite app_String in E'. injection E' as <- E'. apply all_chars_cons in Ha as [Ha _]. congruence.
Qed.

Lemma span_app p a b : all_chars p a -> starts_with p b = false -> span p (a +:+ b) = (a, b).
Proof. intros. by apply span_spec. Qed.

Lemma starts_app p q a b :
  (forall c, q c = true -> p c = false) -> all_chars q a -> starts_with p b = false -> starts_with p (a +:+ b) = false.
Proof. intros Hpq Ha Hb. destruct a as [|c a]; [done|]. apply all_chars_cons in Ha as [Ha _]. rewrite app_String. by apply Hpq. Qed.

Lemma blank_not_name c : is_blank c = true -> is_name_char c = false.
Proof. destruct c as [[] [] [] [] [] [] [] []]; by vm_compute. Qed.
Lemma name_not_blank c : is_name_char c = true -> is_blank c = false.
Proof. destruct c as [[] [] [] [] [] [] [] []]; by vm_compute. Qed.

(** The scanner decides the grammar. *)
Lemma placeholder_at_spec s token name rest :
  placeholder_at s = Some (token, name, rest) <-> s = token +:+ rest /\ is_token token name.
Proof.
  unfold placeholder_at. split.
  - destruct (cut_prefix "{{" s) as [s1|] eqn:E0; [|done]. apply cut_prefix_Some in E0.
    destruct (span is_blank s1) as [w1 s2] eqn:E1. destruct (span is_name_char s2) as [n s3] eqn:E2.
    destruct (span is_blank s3) as [w2 s4] eqn:E3. destruct n as [|c n]; [done|].
    destruct (cut_prefix "}}" s4) as [r|] eqn:E4; [|done]. apply cut_prefix_Some in E4.
    intros [= <- <- <-]. apply span_spec in E1 as (E1 & ? & _), E2 as (E2 & ? & _), E3 as (E3 & ? & _). split.
    + rewrite E0, E1, E2, E3, E4. by rewrite !append_assoc'.
    + split_and!; [done|by apply drawn_names|]. exists w1, w2. by rewrite !drawn_blanks.
  - intros [-> (Hn & Hc%drawn_names & w1 & w2 & H1%drawn_blanks & H2%drawn_blanks & ->)]. rewrite !append_assoc', cut_prefix_app.
    assert (starts_with is_blank (name +:+ w2 +:+ "}}" +:+ rest) = false) as S1.
    { destruct name as [|c n]; [done|]. apply all_chars_cons in Hc as [Hc _]. by apply name_not_blank. }
    rewrite span_app by done.
    rewrite span_app; [|done|by apply (starts_app _ is_blank); [apply blank_not_name|..]].
    rewrite span_app by done. destruct name as [|c n]; [done|]. by rewrite cut_prefix_app.
Qed.

Lemma placeholder_at_length s token name rest :
  placeholder_at s = Some (token, name, rest) -> (String.length rest < String.length s)%nat.
Proof.
  intros [-> (_ & _ & w1 & w2 & _ & _ & ->)]%placeholder_at_spec. rewrite !string_length_app. cbn. lia.
Qed.

Lemma segments_reads fuel s : (String.length s <= fuel)%nat -> reads s (segments fuel s).
Proof.
  revert s. induction fuel as [|f IH]; intros [|c r] Hl; cbn [segments]; [constructor|cbn in Hl; lia|constructor|].
  destruct (placeholder_at (String c r)) as [[[token name] rest]|] eqn:E.
  - pose proof (placeholder_at_length _ _ _ _ E). apply placeholder_at_spec in E as [-> Ht].
    constructor; [done|]. apply IH. lia.
  - constructor; [|apply IH; cbn in Hl; lia]. intros token name rest Ht Es.
    assert (placeholder_at (String c r) = Some (token, name, rest)) as E'; [|congruence].
    by apply placeholder_at_spec.
Qed.

Lemma reads_unique s g1 g2 : reads s g1 -> reads s g2 -> g1 = g2.
Proof.
  intros H. revert g2. induction H as [|c r g Hn H IH|token name rest g Ht H IH]; intros g2 H2.
  - inversion H2 as [| |token name rest g' Ht Hr E]; [done|].
    destruct Ht as (_ & _ & w1 & w2 & _ & _ & ->). by rewrite !append_assoc' in E.
  - inversion H2 as [|c' r' g' Hn' Hr|token name rest g' Ht Hr E]; subst; [f_equal; auto|].
    exfalso. by eapply (Hn token name rest).
  - assert (placeholder_at (token +:+ rest) = Some (token, name, rest)) as E1 by by apply placeholder_at_spec.
    inversion H2 as [E|c' r' g' Hn' Hr E|token' name' rest' g' Ht' Hr E]; subst.
    + rewrite <- E in E1. done.
    + exfalso. by apply (Hn' token name rest).
    + assert (placeholder_at (token +:+ rest) = Some (token', name', rest')) as E2
        by (apply placeholder_at_spec; by rewrite E).
      rewrite E1 in E2. injection E2 as <- <- <-. f_equal; auto.
Qed.

(** ** Substitution *)

Section substitution.
Context `{NetIP} (sprint : any -> string).

(** What each recognised name stands for. *)
Definition placeholder_env (ec : execContext) (name : string) : option string :=
  match param_name name with
  | Some p => Some (stringifyParam sprint (obj_get (ec_Params ec) p))
  | None =>
      snd <$> List.find (fun kv => bool_decide (fst kv = name))
        [("target", ec_Target ec); ("timeout_ms", pretty (ec_TimeoutMs ec)); ("params_json", ParamsJSONPath ec);
         ("alloc_port", pretty (AllocPort ec));
         ("source_ip", default "" (AddrString <$> SourceIP (ec_Bind ec))); ("bind_interface", Interface (ec_Bind ec));
         ("jobs_json", JobsJSONPath ec); ("config_path", ConfigPath ec)]
  end.

Definition fill (ec : execContext) (g : segment) : string :=
  match g with Lit c => String c "" | Tok _ name => default "" (placeholder_env ec name) end.

Lemma recognised_value ec token name :
  recognised name = true -> placeholder_env ec name = Some (placeholder_value sprint ec token name).
Proof.
  unfold recognised, placeholder_env, placeholder_value. intros Hr.
  destruct (param_name name) as [p|] eqn:Ep.
  - repeat (destruct (decide (name = _)) as [->|]; [done|]). done.
  - rewrite orb_false_r in Hr. apply bool_decide_eq_true in Hr. unfold fixedPlaceholders in Hr.
    rewrite !elem_of_cons, elem_of_nil in Hr. destruct_or! Hr; subst; try done. cbn.
    by destruct (SourceIP (ec_Bind ec)).
Qed.

Lemma head_None {A} (l : list A) : head l = None -> l = [].
Proof. by destruct l. Qed.

Lemma validate_recognised arg :
  validatePlaceholders arg = None <-> forall token name, Tok token name ∈ scan arg -> recognised name = true.
Proof.
  unfold validatePlaceholders, placeholder_names. split.
  - intros Hv%head_None token name Hin. destruct (recognised name) eqn:E; [done|].
    assert (name ∈ (nil : list string)) as Hn; [|by apply elem_of_nil in Hn].
    rewrite <- Hv. apply list_elem_of_In, filter_In. rewrite E. split; [|done].
    apply list_elem_of_In, list_elem_of_omap. by exists (Tok token name).
  - intros Hr. rewrite filter_none; [done|]. intros name Hin.
    apply list_elem_of_omap in Hin as ([|token n] & Hin & [= ->]). by rewrite (Hr token).
Qed.

Lemma replace_fill ec arg :
  validatePlaceholders arg = None ->
  replace_placeholders (placeholder_value sprint ec) arg = concat_strings (map (fill ec) (scan arg)).
Proof.
  intros Hv. unfold replace_placeholders. f_equal. apply map_ext_in. intros [c|token name] Hin; [done|]. cbn.
  rewrite (recognised_value ec token); [done|].
  apply (proj1 (validate_recognised arg) Hv token). by apply list_elem_of_In.
Qed.

End substitution.

(** ** Names with a dash

    A parameter's name may contain a dash once a token is recognised, but the
    scanner's own class has none, so such a token is not found at all. *)

Definition no_open (s : string) : Prop := forall a b, s <> a +:+ "{{" +:+ b.

Lemma no_open_tail c s : no_open (String c s) -> no_open s.
Proof. intros H a b E. apply (H (String c a) b). by rewrite app_String, <- E. Qed.

Lemma no_open_scan f fuel s :
  (String.length s <= fuel)%nat -> no_open s ->
  concat_strings (map (fun g => match g with Lit c => String c "" | Tok t n => f t n end) (segments fuel s)) = s
  /\ omap (fun g => match g with Tok _ name => Some name | Lit _ => None end) (segments fuel s) = ([] : list string).
Proof.
  revert s. induction fuel as [|n IH]; intros [|c r] Hl Ho; cbn [segments]; try done; [cbn in Hl; lia|].
  destruct (placeholder_at (String c r)) as [[[token name] rest]|] eqn:E.
  - apply placeholder_at_spec in E as [E (_ & _ & w1 & w2 & _ & _ & ->)]. exfalso.
    rewrite !append_assoc' in E. by apply (Ho "" _ E).
  - destruct (IH r) as [H1 H2]; [cbn in Hl; lia|by eapply no_open_tail|]. split; [|done].
    cbn [map concat_strings foldr]. fold (concat_strings (map (fun g => match g with Lit c => String c "" | Tok t n => f t n end) (segments n r))).
    by rewrite H1.
Qed.

Definition not_brace (c : ascii) : bool := negb (bool_decide (c = "{"%char)).

Lemma all_chars_app p a b : all_chars p (a +:+ b) <-> all_chars p a /\ all_chars p b.
Proof.
  induction a as [|c a IH]; [rewrite app_empty; split; [split; [constructor|done]|by intros [_ ?]]|].
  rewrite app_String, !all_chars_cons, IH. tauto.
Qed.

Lemma all_chars_impl (p q : ascii -> bool) a : (forall c, p c = true -> q c = true) -> all_chars p a -> all_chars q a.
Proof. intros Hpq Ha. eapply Forall_impl; [done|auto]. Qed.

Lemma no_brace_no_open s : all_chars not_brace s -> no_open (String "{" s).
Proof.
  intros Hs [|c a] b E.
  - rewrite app_empty, app_String in E. injection E as ->. by apply all_chars_cons in Hs as [? _].
  - rewrite app_String in E. injection E as _ ->. apply all_chars_app in Hs as [_ Hs].
    rewrite app_String in Hs. by apply all_chars_cons in Hs as [? _].
Qed.

Lemma name_not_brace c : is_name_char c = true -> not_brace c = true.
Proof. destruct c as [[] [] [] [] [] [] [] []]; by vm_compute. Qed.

(** An argument with one token whose name has a dash. *)
Definition dashed (arg : string) : Prop :=
  exists pre a b post, drawn_from name_alphabet a /\ all_chars not_brace pre /\ all_chars not_brace b /\ all_chars not_brace post
    /\ arg = pre +:+ "{{" +:+ a +:+ "-" +:+ b +:+ "}}" +:+ post.

Definition written (f : string -> string -> string) (l : list segment) : string :=
  concat_strings (map (fun g => match g with Lit c => String c "" | Tok t n => f t n end) l).
Definition named (l : list segment) : list string := omap (fun g => match g with Tok _ name => Some name | Lit _ => None end) l.

Lemma no_token_at c r : c <> "{"%char -> placeholder_at (String c r) = None.
Proof.
  intros Hc. destruct (placeholder_at _) as [[[token name] rest]|] eqn:E; [|done].
  apply placeholder_at_spec in E as [E (_ & _ & w1 & w2 & _ & _ & ->)]. rewrite !append_assoc' in E. by injection E.
Qed.

Lemma prefix_scan f fuel pre s :
  all_chars not_brace pre ->
  written f (segments (String.length pre + fuel) (pre +:+ s)) = pre +:+ written f (segments fuel s)
  /\ named (segments (String.length pre + fuel) (pre +:+ s)) = named (segments fuel s).
Proof.
  induction pre as [|c pre IH]; intros Hp; [done|]. apply all_chars_cons in Hp as [Hc Hp]. destruct (IH Hp) as [H1 H2].
  rewrite !app_String. cbn [String.length Nat.add segments]. rewrite no_token_at by by intros ->. split; [|done].
  cbn. f_equal. exact H1.
Qed.

(** The dashed token itself: nothing is found in it, nor after it. *)
Lemma dashed_scan f a b post :
  drawn_from name_alphabet a -> all_chars not_brace b -> all_chars not_brace post ->
  let s := "{{" +:+ a +:+ "-" +:+ b +:+ "}}" +:+ post in
  written f (segments (String.length s) s) = s /\ named (segments (String.length s) s) = [].
Proof.
  intros Ha%drawn_names Hb Hq s. set (tail := a +:+ "-" +:+ b +:+ "}}" +:+ post).
  assert (all_chars not_brace tail) as Ht.
  { apply all_chars_app. split; [by eapply all_chars_impl; [apply name_not_brace|]|].
    rewrite app_String, app_empty. apply all_chars_cons. split; [done|]. apply all_chars_app. split; [done|].
    by repeat (apply all_chars_cons; split; [done|]). }
  assert (placeholder_at s = None) as Hn.
  { unfold placeholder_at, s. fold tail. rewrite cut_prefix_app. change tail with ("" +:+ tail).
    rewrite span_app; [|constructor|].
    - unfold tail. rewrite span_app by done. by destruct a.
    - unfold tail. destruct a as [|c a]; [done|]. apply all_chars_cons in Ha as [Ha _].
      rewrite app_String. by apply name_not_blank. }
  assert (segments (String.length s) s = Lit "{" :: segments (S (String.length tail)) (String "{" tail)) as Hscan.
  { change s with (String "{" (String "{" tail)). cbn [String.length segments].
    change (String "{" (String "{" tail)) with s. by rewrite Hn. }
  rewrite Hscan. destruct (no_open_scan f (S (String.length tail)) (String "{" tail)) as [H1 H2]; [done|by apply no_brace_no_open|].
  split; [|done]. unfold written. cbn [map concat_strings foldr]. unfold concat_strings in H1. by rewrite H1.
Qed.

Lemma dashed_verbatim f arg : dashed arg -> replace_placeholders f arg = arg /\ validatePlaceholders arg = None.
Proof.
  intros (pre & a & b & post & Ha & Hp & Hb & Hq & ->).
  destruct (dashed_scan f a b post Ha Hb Hq) as [H1 H2].
  destruct (prefix_scan f (String.length ("{{" +:+ a +:+ "-" +:+ b +:+ "}}" +:+ post)) pre ("{{" +:+ a +:+ "-" +:+ b +:+ "}}" +:+ post) Hp) as [P1 P2].
  unfold replace_placeholders, validatePlaceholders, placeholder_names, scan. rewrite string_length_app. split.
  - etransitivity; [exact P1|]. by rewrite H1.
  - assert (named _ = []) as E by (etransitivity; [exact P2|exact H2]). unfold named in E. by rewrite E.
Qed.

(** A token whose name has a dash is accepted when the module is loaded, and
    reaches the command as it is written: it is neither substituted nor
    rejected, whatever is before and after the dash. *)
Theorem dashed_placeholder_inert `{NetIP} sprint arg :
  dashed arg -> validatePlaceholders arg = None /\ forall ec, resolve sprint ec [arg] = [arg].
Proof.
  intros Hd. split; [by apply (dashed_verbatim (fun t _ => t))|]. intros ec. unfold resolve. cbn [map].
  by rewrite (proj1 (dashed_verbatim (placeholder_value sprint ec) arg Hd)).
Qed.

(** C34: A command line that passed validation is a template fixed when the
    module is loaded, of plain bytes and of tokens (letters, digits, underscores
    and dots between double braces), whatever the check.  Each argument has
    exactly one such reading; running a step writes each token's value into its
    place and every other byte as it is, so a value, whatever it contains, never
    adds or splits an argument and is never scanned for tokens itself.  A token
    whose name has a dash is not such a token although validation accepts it:
    its argument reaches the command verbatim. *)
Theorem resolve_template `{NetIP} sprint argv :
  Forall (fun arg => validatePlaceholders arg = None) argv ->
  (exists templates,
    Forall2 (fun arg tpl => reads arg tpl /\ forall other, reads arg other -> other = tpl) argv templates
    /\ Forall (Forall (fun g => match g with Tok _ name => recognised name = true | Lit _ => True end)) templates
    /\ forall ec, resolve sprint ec argv = map (fun tpl => concat_strings (map (fill sprint ec) tpl)) templates)
  /\ forall ec i arg, argv !! i = Some arg -> dashed arg -> resolve sprint ec argv !! i = Some arg.
Proof.
  intros Hv. split.
  - exists (map scan argv). split_and!.
    + clear Hv. induction argv as [|a argv IH]; constructor; [|done].
      assert (reads a (scan a)) as Ha by by apply segments_reads. split; [done|]. intros. by eapply reads_unique.
    + apply Forall_fmap. eapply Forall_impl; [done|]. intros a Ha. cbn. apply Forall_forall. intros [c|token name] Hin; [done|].
      by apply (proj1 (validate_recognised a) Ha token).
    + intros ec. unfold resolve. rewrite map_map. apply map_ext_in. intros a Ha. apply replace_fill.
      rewrite Forall_forall in Hv. apply Hv. by apply list_elem_of_In.
  - intros ec i arg Hi Hd. unfold resolve. rewrite <- (proj1 (dashed_verbatim (placeholder_value sprint ec) arg Hd)) at 1.
    rewrite list_lookup_fmap, Hi. done.
Qed.

(** ** Witnesses *)

Definition demo_exec : execContext :=
  mkExec "example.org" 5000 [("sni", VString "{{target}} x"); ("n", VFloat (float_of_Z 3))] "/tmp/p.json" 40000 "" ""
    (mkBinding None "eth0").

Definition demo_argv : list string :=
  ["--sni={{ param.sni }}"; "{{{target}}:{{alloc_port}}"; "{{param.none}}"; "--name={{param.server-name}}"].

Definition demo_sprint (v : any) : string := "?".

Example demo_resolved `{NetIP} :
  resolve demo_sprint demo_exec demo_argv = ["--sni={{target}} x"; "{example.org:40000"; ""; "--name={{param.server-name}}"].
Proof. reflexivity. Qed.

Lemma demo_dashed : dashed "--name={{param.server-name}}".
Proof.
  exists "--name=", "param.server", "name", "". split_and!; [|by repeat constructor..|reflexivity].
  apply drawn_names. by repeat constructor.
Qed.

Lemma resolve_template_witness :
  Forall (fun arg => validatePlaceholders arg = None) demo_argv
  /\ (exists templates, forall ec,
       @resolve demoNetIP demo_sprint ec demo_argv = map (fun tpl => concat_strings (map (@fill demoNetIP demo_sprint ec) tpl)) templates)
  /\ forall ec, @resolve demoNetIP demo_sprint ec demo_argv !! 3%nat = Some "--name={{param.server-name}}".
Proof.
  assert (Forall (fun arg => validatePlaceholders arg = None) demo_argv) as Hv by (repeat constructor).
  split; [exact Hv|]. destruct (@resolve_template demoNetIP demo_sprint demo_argv Hv) as [(tpls & _ & _ & Hr) Hd].
  split; [exists tpls; exact Hr|]. intros ec. exact (Hd ec 3%nat _ eq_refl demo_dashed).
Defined.

Lemma dashed_placeholder_inert_witness :
  dashed "--name={{param.server-name}}"
  /\ forall ec, @resolve demoNetIP demo_sprint ec ["--name={{param.server-name}}"] = ["--name={{param.server-name}}"].
Proof. split; [exact demo_dashed|]. exact (proj2 (@dashed_placeholder_inert demoNetIP demo_sprint _ demo_dashed)). Defined.

Example unknown_placeholder_refused : validatePlaceholders "x {{ shell }} {{target}}" = Some "shell".
Proof. reflexivity. Qed.
