(* ===== verification/Schema.v ===== *)
(** * Data forms of a module

    [internal/module/schema.go]: the fields a module declares for its
    parameters and results, the validation of a declaration, and the check of
    a probe's parameters against it. *)

From Stdlib Require Import ZArith Lia List Bool Ascii String.
From stdpp Require Import base tactics gmap strings list.
From S2P Require Import Prelude Wire.

Open Scope string_scope.
Open Scope list_scope.
Open Scope Z_scope.

Record FieldSchema : Type := mkField {
  f_Name : string;
  f_Type : string;
  f_Required : bool;
  f_Unit : string;
  f_Primary : bool;
  f_Summary : bool;
  f_Group : string;
  f_Display : string
}.

Definition validFieldTypes : list string := ["string"; "number"; "bool"; "object"; "array"].

(** ** Declarations *)

Inductive field_error : Type :=
| NoFieldName
| DuplicateField (name : string)
| BadFieldType (name : string)
| PrimaryOnRequest (name : string) | PrimaryNotNumber (name : string)
| SummaryOnRequest (name : string) | SummaryNotNumber (name : string)
| ManyPrimary (n : Z).

Definition refuse {E} (bad : bool) (e : E) : result E unit := if bad then Err e else Ok tt.

(** One field, given the names seen before it. *)
Definition validate_field (which : string) (seen : gset string) (f : FieldSchema) : result field_error unit :=
  let is_request := bool_decide (which = "request") in
  let not_number := negb (bool_decide (f_Type f = "number")) in
  let* _ := refuse (bool_decide (f_Name f = "")) NoFieldName in
  let* _ := refuse (bool_decide (f_Name f ∈ seen)) (DuplicateField (f_Name f)) in
  let* _ := refuse (negb (bool_decide (f_Type f ∈ validFieldTypes))) (BadFieldType (f_Name f)) in
  let* _ := refuse (f_Primary f && is_request) (PrimaryOnRequest (f_Name f)) in
  let* _ := refuse (f_Primary f && not_number) (PrimaryNotNumber (f_Name f)) in
  let* _ := refuse (f_Summary f && is_request) (SummaryOnRequest (f_Name f)) in
  refuse (f_Summary f && not_number) (SummaryNotNumber (f_Name f)).

Fixpoint validate_fields (which : string) (seen : gset string) (primaryCount : Z) (fields : list FieldSchema)
    : result field_error unit :=
  match fields with
  | [] => refuse (1 <? primaryCount) (ManyPrimary primaryCount)
  | f :: rest =>
      let* _ := validate_field which seen f in
      validate_fields which ({[f_Name f]} ∪ seen) (if f_Primary f then primaryCount + 1 else primaryCount) rest
  end.

Definition validateFieldSchema (fields : list FieldSchema) (which : string) : result field_error unit :=
  validate_fields which ∅ 0 fields.

(** ** Requests *)

Section request.
Context (ParseFloat : string -> option float64).  (* strconv.ParseFloat(s, 64) *)

Definition matchesType (v : any) (wantType : string) : bool :=
  if decide (wantType = "string") then match v with VString _ => true | _ => false end
  else if decide (wantType = "bool") then
    match v with VBool _ => true | VString s => bool_decide (s = "true") || bool_decide (s = "false") | _ => false end
  else if decide (wantType = "number") then
    match v with
    | VInt _ | VInt64 _ | VFloat _ => true
    | VString s => match ParseFloat s with Some _ => true | None => false end
    | _ => false
    end
  else if decide (wantType = "object") then match v with VObject _ => true | _ => false end
  else if decide (wantType = "array") then match v with VArray _ => true | _ => false end
  else false.

Inductive request_error : Type :=
| MissingParam (name : string)
| WrongType (name type : string).

Fixpoint validateRequest (fields : list FieldSchema) (ps : params) : result request_error unit :=
  match fields with
  | [] => Ok tt
  | f :: rest =>
      match obj_get ps (f_Name f) with
      | VNil => if f_Required f then Err (MissingParam (f_Name f)) else validateRequest rest ps
      | v => if matchesType v (f_Type f) then validateRequest rest ps else Err (WrongType (f_Name f) (f_Type f))
      end
  end.
End request.

(** ** What a declaration and a request must be *)

(** A field of a form on its own. *)
Definition field_ok (which : string) (f : FieldSchema) : Prop :=
  f_Name f <> "" /\ f_Type f ∈ validFieldTypes
  /\ (f_Primary f = true \/ f_Summary f = true -> which <> "request" /\ f_Type f = "number").

Definition primaries (fields : list FieldSchema) : list FieldSchema := List.filter f_Primary fields.

(** A well-formed form: named, typed fields with distinct names, at most one
    of them primary. *)
Definition form_ok (which : string) (fields : list FieldSchema) : Prop :=
  Forall (field_ok which) fields /\ NoDup (f_Name <$> fields) /\ (length (primaries fields) <= 1)%nat.

Lemma refuse_Ok {E} b (e : E) u : refuse b e = Ok u <-> b = false.
Proof. destruct b, u; cbn; split; congruence. Qed.

Lemma res_bind_unit {E B} (m : result E unit) (k : unit -> result E B) b :
  res_bind m k = Ok b <-> m = Ok tt /\ k tt = Ok b.
Proof. destruct m as [[]|]; cbn; split; [auto|by intros [_ ?]|done|by intros [? _]]. Qed.

Lemma validate_field_Ok which seen f :
  validate_field which seen f = Ok tt <-> field_ok which f /\ f_Name f ∉ seen.
Proof.
  unfold validate_field, field_ok. cbv zeta. rewrite !res_bind_unit, !refuse_Ok.
  rewrite !bool_decide_eq_false, negb_false_iff, bool_decide_eq_true, !andb_false_iff, negb_false_iff, bool_decide_eq_false.
  rewrite bool_decide_eq_true. destruct (f_Primary f), (f_Summary f); intuition (done || congruence).
Qed.

Lemma validate_fields_Ok which seen n fields :
  validate_fields which seen n fields = Ok tt
  <-> Forall (field_ok which) fields /\ NoDup (f_Name <$> fields) /\ (forall f, f ∈ fields -> f_Name f ∉ seen)
      /\ n + Z.of_nat (length (primaries fields)) <= 1.
Proof.
  revert seen n. induction fields as [|f fields IH]; intros seen n; cbn [validate_fields].
  - rewrite refuse_Ok. cbn. split.
    + intros H%Z.ltb_ge. split_and!; [constructor|constructor| |lia]. by intros f Hf%elem_of_nil.
    + intros (_ & _ & _ & H). apply Z.ltb_ge. lia.
  - rewrite res_bind_unit, validate_field_Ok, IH, Forall_cons, fmap_cons, NoDup_cons. unfold primaries. cbn [List.filter].
    assert (forall P : Prop, P -> (if f_Primary f then n + 1 else n) + Z.of_nat (length (List.filter f_Primary fields)) =
      n + Z.of_nat (length (if f_Primary f then f :: List.filter f_Primary fields else List.filter f_Primary fields))) as E.
    { intros _ _. destruct (f_Primary f); cbn; lia. }
    rewrite (E True I). split.
    + intros ((Hf & Hs) & Hfs & Hnd & Hseen & Hn). split_and!; try done.
      * intros (g & Hg & Hin)%list_elem_of_fmap. apply (Hseen g Hin). apply elem_of_union. left. by apply elem_of_singleton.
      * intros g [->|Hin]%elem_of_cons; [done|]. intros Hs'. apply (Hseen g Hin), elem_of_union. by right.
    + intros ((Hf & Hfs) & (Hnin & Hnd) & Hseen & Hn). split_and!; try done; [apply Hseen; by left|].
      intros g Hin [E'%elem_of_singleton|Hs]%elem_of_union; [|by apply (Hseen g); [right|]].
      apply Hnin. rewrite <- E'. by apply list_elem_of_fmap_2.
Qed.

(** A data form is accepted exactly when it is well formed. *)
Lemma validateFieldSchema_iff which fields : validateFieldSchema fields which = Ok tt <-> form_ok which fields.
Proof.
  unfold validateFieldSchema, form_ok. rewrite validate_fields_Ok.
  split; [intros (? & ? & _ & ?)|intros (? & ? & ?)]; split_and!; try done; lia.
Qed.

Section request_spec.
Context (ParseFloat : string -> option float64).

(** The types of values a field accepts. *)
Definition has_type (v : any) (t : string) : Prop :=
  match v with
  | VString s => t = "string" \/ (t = "bool" /\ s ∈ ["true"; "false"]) \/ (t = "number" /\ ParseFloat s <> None)
  | VBool _ => t = "bool"
  | VInt _ | VInt64 _ | VFloat _ => t = "number"
  | VObject _ => t = "object"
  | VArray _ => t = "array"
  | VNil => False
  end.

Lemma matchesType_spec v t : matchesType ParseFloat v t = true <-> has_type v t.
Proof.
  assert (forall s, s ∈ ["true"; "false"] <-> s = "true" \/ s = "false") as Hb
    by (intros s; rewrite !elem_of_cons, elem_of_nil; tauto).
  unfold matchesType, has_type.
  destruct (decide (t = "string")) as [->|]; [destruct v; intuition congruence|].
  destruct (decide (t = "bool")) as [->|].
  { destruct v as [| |s| | | | |]; try intuition congruence.
    rewrite orb_true_iff, !bool_decide_eq_true, Hb. intuition congruence. }
  destruct (decide (t = "number")) as [->|].
  { destruct v as [| |s| | | | |]; try intuition congruence. destruct (ParseFloat s); intuition congruence. }
  repeat (destruct (decide _) as [->|]; [destruct v; intuition congruence|]). destruct v; intuition congruence.
Qed.

(** What a request must be: every required parameter is there, and every
    declared parameter that is there has the declared type. *)
Definition request_ok (fields : list FieldSchema) (ps : params) : Prop :=
  Forall (fun f => match obj_get ps (f_Name f) with
                   | VNil => f_Required f = false
                   | v => has_type v (f_Type f)
                   end) fields.

Lemma validateRequest_Ok fields ps : validateRequest ParseFloat fields ps = Ok tt <-> request_ok fields ps.
Proof.
  unfold request_ok. induction fields as [|f fields IH]; cbn [validateRequest]; [split; [constructor|done]|].
  rewrite Forall_cons, <- IH.
  destruct (obj_get ps (f_Name f)) as [|b|s|x|z|z|l|m] eqn:E;
    [destruct (f_Required f); intuition congruence|..];
    match goal with |- context [matchesType ParseFloat ?v ?t] =>
      pose proof (matchesType_spec v t) as Hm; destruct (matchesType ParseFloat v t) end; intuition congruence.
Qed.

(** A refused request names the first field that does not fit. *)
Lemma validateRequest_Err fields ps e :
  validateRequest ParseFloat fields ps = Err e ->
  exists before f after, fields = before ++ f :: after /\ request_ok before ps /\ ~ request_ok [f] ps
    /\ (e = MissingParam (f_Name f) \/ e = WrongType (f_Name f) (f_Type f)).
Proof.
  induction fields as [|f fields IH]; cbn [validateRequest]; [done|]. intros H.
  assert (validateRequest ParseFloat [f] ps = Ok tt \/ validateRequest ParseFloat [f] ps <> Ok tt) as [Hok|Hbad]
    by (destruct (validateRequest ParseFloat [f] ps) as [[]|]; [by left|by right]).
  - assert (validateRequest ParseFloat fields ps = Err e) as He.
    { cbn [validateRequest] in Hok. destruct (obj_get ps (f_Name f)); [by destruct (f_Required f)|..];
        by destruct (matchesType _ _ _). }
    destruct (IH He) as (b & g & a & -> & Hb & Hg & Hc). exists (f :: b), g, a. split_and!; try done.
    apply Forall_cons. split; [|done]. apply validateRequest_Ok in Hok. by apply Forall_cons in Hok as [? _].
  - exists [], f, fields. split_and!; [done|constructor| |].
    + by rewrite <- validateRequest_Ok.
    + cbn [validateRequest] in Hbad. destruct (obj_get ps (f_Name f));
        [destruct (f_Required f); [injection H as <-; by left|done]|..];
        destruct (matchesType _ _ _); try done; injection H as <-; by right.
Qed.
End request_spec.
