(* ===== verification/Module.v ===== *)
(** * Modules

    [internal/module/module.go]: the prober definitions an operator writes,
    their validation, and loading a directory of them.  The YAML decoder, the
    regular-expression compiler and SHA-256 are arguments; the table of
    built-in actions is the keys of [internal/action/action.go]. *)

From Stdlib Require Import ZArith Lia List Bool Ascii String Permutation Sorted.
From stdpp Require Import base tactics gmap strings list sorting pretty.
From S2P Require Import Prelude GoStrings Wire Netbind Placeholder Schema.

Open Scope string_scope.
Open Scope list_scope.
Open Scope Z_scope.

(** ** Data *)

Record Step : Type := mkStep { Command : list string; Step_Timeout : duration }.

Record PoolLimits : Type := mkPoolLimits {
  lim_TestConcurrency : Z; lim_MaxJobsPerInstance : Z; PortBase : Z; PortSpan : Z
}.

(** A positive limit only lowers the module's own value. *)
Definition lower_to (limit moduleValue : Z) : Z :=
  if (0 <? limit) && (limit <? moduleValue) then limit else moduleValue.

Definition testConcurrency (l : PoolLimits) : Z -> Z := lower_to (lim_TestConcurrency l).
Definition maxJobsPerInstance (l : PoolLimits) : Z -> Z := lower_to (lim_MaxJobsPerInstance l).

Record PoolSpec : Type := mkPool {
  MaxJobsPerInstance : Z;
  TestConcurrency : Z;
  BuildConfig : option Step;
  Start : option Step;
  Stop : option Step
}.

Record Collect : Type := mkCollect { Format : string; Pattern : string }.

Record InstallDependency : Type := mkDependency {
  dep_Name : string; dep_Version : string; Kind : string; dep_URL : string; Path : string
}.

Definition IsFile (d : InstallDependency) : bool := bool_decide (Kind d = "file").

(** [strings.Replacer] for old strings none of which is empty or a prefix of
    another: the replacements are not scanned again. *)
Fixpoint replacer (fuel : nat) (pairs : list (string * string)) (s : string) : string :=
  match fuel, s with
  | S f, String c r =>
      match head (omap (fun on => (fun rest => (snd on, rest)) <$> cut_prefix (fst on) s) pairs) with
      | Some (new, rest) => new +:+ replacer f pairs rest
      | None => String c (replacer f pairs r)
      end
  | _, _ => ""
  end.

Definition Replace (pairs : list (string * string)) (s : string) : string := replacer (String.length s) pairs s.

(** [strings.ReplaceAll] of a non-empty string. *)
Definition ReplaceAll (s old new : string) : string := Replace [(old, new)] s.

Definition ResolveURL (d : InstallDependency) (goos arch : string) : string :=
  let ext := if decide (goos = "windows") then "zip" else "tar.gz" in
  Replace [("{os}", goos); ("{arch}", arch); ("{ext}", ext); ("{version}", dep_Version d)] (dep_URL d).

(** [regexp.Regexp]: the names of its groups, and its leftmost match. *)
Record regex : Type := mkRegex { SubexpNames : list string; FindSubmatch : string -> option (list string) }.

Record Module : Type := mkModule {
  Name : string; Engine : string; EngineVersion : string;
  mod_Version : string; URL : string;
  OS : list string; Arch : list string;
  Install : list InstallDependency;
  Action : string;
  Prepare : option Step; Run : option Step; mod_Collect : Collect; Teardown : option Step;
  Pool : option PoolSpec;
  MinTimeoutMs : Z;
  Request : list FieldSchema; Response : list FieldSchema;
  RawYAML : string; FileHash : string;
  compiledPattern : option regex
}.

Definition with_pattern (re : regex) (m : Module) : Module :=
  {| Name := Name m; Engine := Engine m; EngineVersion := EngineVersion m; mod_Version := mod_Version m; URL := URL m;
     OS := OS m; Arch := Arch m; Install := Install m; Action := Action m; Prepare := Prepare m; Run := Run m;
     mod_Collect := mod_Collect m; Teardown := Teardown m; Pool := Pool m; MinTimeoutMs := MinTimeoutMs m;
     Request := Request m; Response := Response m; RawYAML := RawYAML m; FileHash := FileHash m;
     compiledPattern := Some re |}.

Definition with_source (raw hash : string) (m : Module) : Module :=
  {| Name := Name m; Engine := Engine m; EngineVersion := EngineVersion m; mod_Version := mod_Version m; URL := URL m;
     OS := OS m; Arch := Arch m; Install := Install m; Action := Action m; Prepare := Prepare m; Run := Run m;
     mod_Collect := mod_Collect m; Teardown := Teardown m; Pool := Pool m; MinTimeoutMs := MinTimeoutMs m;
     Request := Request m; Response := Response m; RawYAML := raw; FileHash := hash;
     compiledPattern := compiledPattern m |}.

Definition with_steps (prepare run teardown : option Step) (pool : option PoolSpec) (m : Module) : Module :=
  {| Name := Name m; Engine := Engine m; EngineVersion := EngineVersion m; mod_Version := mod_Version m; URL := URL m;
     OS := OS m; Arch := Arch m; Install := Install m; Action := Action m; Prepare := prepare; Run := run;
     mod_Collect := mod_Collect m; Teardown := teardown; Pool := pool; MinTimeoutMs := MinTimeoutMs m;
     Request := Request m; Response := Response m; RawYAML := RawYAML m; FileHash := FileHash m;
     compiledPattern := compiledPattern m |}.

Definition withMinTimeout (m : Module) (timeout : duration) : duration :=
  let minimum := int_mul (MinTimeoutMs m) millisecond in if timeout <? minimum then minimum else timeout.

(** [nameRe]: [^[a-z][a-z0-9-]*$]. *)
Definition is_lower (c : ascii) : bool := let n := nat_of_ascii c in ((97 <=? n) && (n <=? 122))%nat.
Definition is_digit (c : ascii) : bool := let n := nat_of_ascii c in ((48 <=? n) && (n <=? 57))%nat.

Definition name_ok (s : string) : bool :=
  match s with
  | "" => false
  | String c r => is_lower c && forallb (fun c => is_lower c || is_digit c || bool_decide (c = "-"%char)) (list_ascii_of_string r)
  end.

(** The keys of [action.Registry]. *)
Definition actions : list string :=
  ["tcp_connect"; "udp_probe"; "dns_query"; "icmp_ping"; "http_request"; "system_stats"; "http_fetch"; "proxy_connect"].

Record Manifest : Type := mkManifest {
  mf_Name : string; mf_Engine : string; mf_EngineVersion : string; mf_Action : string;
  mf_Request : list FieldSchema; mf_Response : list FieldSchema
}.

Definition ToManifest (m : Module) : Manifest :=
  mkManifest (Name m) (Engine m) (EngineVersion m) (Action m) (Request m) (Response m).

(** ** Validation *)

Inductive module_error : Type :=
| BadYAML | Unreadable (file : string) | DuplicateModule (name : string)
| BadName | NegativeMinTimeout
| BadForm (which : string) (e : field_error)
| InstallNoName (i : nat) | InstallNoURL (i : nat) | InstallBadKind (i : nat) | InstallNoPath (i : nat)
| ActionAndRun | NeitherActionNorRun | UnknownAction | ActionWithSteps | ActionWithPool
| PoolWithSteps | PoolNoRun | PoolMaxJobs | PoolConcurrency | PoolNoBuildConfig | PoolNoStart
| BadPlaceholder (step name : string)
| PatternUnused | BadPattern | NoLatencyGroup | BadFormat.

Definition form_error {A} (which : string) (r : result field_error A) : result module_error A :=
  match r with Ok a => Ok a | Err e => Err (BadForm which e) end.

Definition validate_dependency (i : nat) (d : InstallDependency) : result module_error unit :=
  let* _ := refuse (bool_decide (dep_Name d = "")) (InstallNoName i) in
  let* _ := refuse (bool_decide (dep_URL d = "")) (InstallNoURL i) in
  let* _ := refuse (negb (bool_decide (Kind d ∈ [""; "binary"; "file"]))) (InstallBadKind i) in
  refuse (bool_decide (Path d = "")) (InstallNoPath i).

Fixpoint validate_install (i : nat) (ds : list InstallDependency) : result module_error unit :=
  match ds with
  | [] => Ok tt
  | d :: rest => let* _ := validate_dependency i d in validate_install (S i) rest
  end.

(** A step that is there and has a command. *)
Definition has_command (s : option Step) : bool :=
  match s with Some st => negb (bool_decide (Command st = [])) | None => false end.

Definition is_set {A} (o : option A) : bool := match o with Some _ => true | None => false end.

Definition validatePool (m : Module) : result module_error unit :=
  match Pool m with
  | None => Ok tt
  | Some p =>
      let* _ := refuse (is_set (Prepare m) || is_set (Teardown m)) PoolWithSteps in
      let* _ := refuse (negb (has_command (Run m))) PoolNoRun in
      let* _ := refuse (MaxJobsPerInstance p <=? 0) PoolMaxJobs in
      let* _ := refuse (TestConcurrency p <=? 0) PoolConcurrency in
      let* _ := refuse (negb (has_command (BuildConfig p))) PoolNoBuildConfig in
      refuse (negb (has_command (Start p))) PoolNoStart
  end.

(** The map of steps the placeholder check iterates over. *)
Definition steps (m : Module) : list (string * option Step) :=
  [("prepare", Prepare m); ("run", Run m); ("teardown", Teardown m)]
  ++ match Pool m with
     | Some p => [("pool.build_config", BuildConfig p); ("pool.start", Start p); ("pool.stop", Stop p)]
     | None => []
     end.

Fixpoint validate_args (step : string) (args : list string) : result module_error unit :=
  match args with
  | [] => Ok tt
  | a :: rest =>
      match validatePlaceholders a with
      | Some name => Err (BadPlaceholder step name)
      | None => validate_args step rest
      end
  end.

Fixpoint validate_steps (ss : list (string * option Step)) : result module_error unit :=
  match ss with
  | [] => Ok tt
  | (_, None) :: rest => validate_steps rest
  | (name, Some st) :: rest => let* _ := validate_args name (Command st) in validate_steps rest
  end.

Definition hasGroup (re : regex) (name : string) : bool := bool_decide (name ∈ SubexpNames re).

Section loading.
Context (compile : string -> option regex)          (* regexp.Compile *)
        (order : list (string * option Step) -> list (string * option Step)) (* map iteration *)
        (unmarshal : string -> option Module)       (* yaml.Unmarshal *)
        (sha256_hex : string -> string).

Definition validate_collect (m : Module) : result module_error Module :=
  let c := mod_Collect m in
  if decide (Format c = "writeout_json") then
    let* _ := refuse (negb (bool_decide (Pattern c = ""))) PatternUnused in Ok m
  else if decide (Format c = "regex") then
    match compile (Pattern c) with
    | None => Err BadPattern
    | Some re => if hasGroup re "latency_ms" then Ok (with_pattern re m) else Err NoLatencyGroup
    end
  else Err BadFormat.

Definition validate (m : Module) : result module_error Module :=
  let* _ := refuse (negb (name_ok (Name m))) BadName in
  let* _ := refuse (MinTimeoutMs m <? 0) NegativeMinTimeout in
  let* _ := form_error "request" (validateFieldSchema (Request m) "request") in
  let* _ := form_error "response" (validateFieldSchema (Response m) "response") in
  let* _ := validate_install 0 (Install m) in
  let hasAction := negb (bool_decide (Action m = "")) in
  let hasRun := has_command (Run m) in
  if hasAction && hasRun then Err ActionAndRun
  else if negb hasAction && negb hasRun then Err NeitherActionNorRun
  else if hasAction then
    let* _ := refuse (negb (bool_decide (Action m ∈ actions))) UnknownAction in
    let* _ := refuse (is_set (Prepare m) || is_set (Teardown m)) ActionWithSteps in
    let* _ := refuse (is_set (Pool m)) ActionWithPool in
    Ok m
  else
    let* _ := validatePool m in
    let* _ := validate_steps (order (steps m)) in
    validate_collect m.

(** ** Loading *)

Definition ParseBytes (data : string) : result module_error Module :=
  match unmarshal data with
  | None => Err BadYAML
  | Some m => let* m := validate m in Ok (with_source data (sha256_hex data) m)
  end.

(** A directory as [fs.ReadDir] and [fs.ReadFile] see it. *)
Record dir_entry : Type := mkEntry { e_name : string; e_is_dir : bool; e_content : option string }.

(** [filepath.Ext] of a name without a separator. *)
Fixpoint file_ext (s : string) : string :=
  match s with
  | "" => ""
  | String c r => if decide (file_ext r <> "") then file_ext r else if decide (c = "."%char) then s else ""
  end.

Definition is_module_file (e : dir_entry) : bool :=
  negb (e_is_dir e) && bool_decide (file_ext (e_name e) ∈ [".yaml"; ".yml"]).

Definition loadFile (e : dir_entry) : result module_error Module :=
  match e_content e with None => Err (Unreadable (e_name e)) | Some data => ParseBytes data end.

Definition entry_le (a b : dir_entry) : Prop := String.le (e_name a) (e_name b).
#[export] Instance entry_le_dec : RelDecision entry_le.
Proof. intros a b. unfold entry_le. apply _. Defined.

Fixpoint load_files (seen : gset string) (files : list dir_entry) : result module_error (list Module) :=
  match files with
  | [] => Ok []
  | e :: rest =>
      let* m := loadFile e in
      if decide (Name m ∈ seen) then Err (DuplicateModule (Name m))
      else let* ms := load_files ({[Name m]} ∪ seen) rest in Ok (m :: ms)
  end.

Definition module_files (entries : list dir_entry) : list dir_entry :=
  merge_sort entry_le (List.filter is_module_file entries).

Definition LoadFS (entries : option (list dir_entry)) : result module_error (list Module) :=
  match entries with
  | None => Err (Unreadable ".")
  | Some es => load_files ∅ (module_files es)
  end.

(** [os.Stat] of the directory: missing, failing, or its entries. *)
Inductive dir_state : Type := Missing | StatFails | Present (entries : option (list dir_entry)).

Definition LoadDir (d : dir_state) : result module_error (list Module) :=
  match d with
  | Missing => Ok []
  | StatFails => Err (Unreadable ".")
  | Present es => LoadFS es
  end.
End loading.

(** ** Directories in commands *)

Definition replace_dirs (modulesDir toolsDir s : string) : string :=
  ReplaceAll (ReplaceAll s "__MODULES_DIR__" modulesDir) "__TOOLS_DIR__" toolsDir.

Definition resolveStep (modulesDir toolsDir : string) (s : option Step) : option Step :=
  (fun st => mkStep (map (replace_dirs modulesDir toolsDir) (Command st)) (Step_Timeout st)) <$> s.

Definition ResolveDirPlaceholders (modulesDir toolsDir : string) (m : Module) : Module :=
  let r := resolveStep modulesDir toolsDir in
  with_steps (r (Prepare m)) (r (Run m)) (r (Teardown m))
    ((fun p => mkPool (MaxJobsPerInstance p) (TestConcurrency p) (r (BuildConfig p)) (r (Start p)) (r (Stop p)))
       <$> Pool m) m.

(** ** What a module must be *)

Section well_formed.
Context (compile : string -> option regex) (order : list (string * option Step) -> list (string * option Step)).

Definition dependency_ok (d : InstallDependency) : Prop :=
  dep_Name d <> "" /\ dep_URL d <> "" /\ Kind d ∈ [""; "binary"; "file"] /\ Path d <> "".

(** Every placeholder of a step's command is one [resolve] substitutes. *)
Definition step_ok (s : option Step) : Prop :=
  match s with Some st => Forall (fun a => validatePlaceholders a = None) (Command st) | None => True end.

Definition collect_ok (c : Collect) : Prop :=
  (Format c = "writeout_json" /\ Pattern c = "")
  \/ (Format c = "regex" /\ exists re, compile (Pattern c) = Some re /\ "latency_ms" ∈ SubexpNames re).

Definition pool_ok (m : Module) (p : PoolSpec) : Prop :=
  Prepare m = None /\ Teardown m = None /\ 0 < MaxJobsPerInstance p /\ 0 < TestConcurrency p
  /\ has_command (BuildConfig p) = true /\ has_command (Start p) = true
  /\ step_ok (BuildConfig p) /\ step_ok (Start p) /\ step_ok (Stop p).

Definition action_module (m : Module) : Prop :=
  Action m ∈ actions /\ has_command (Run m) = false /\ Prepare m = None /\ Teardown m = None /\ Pool m = None.

Definition run_module (m : Module) : Prop :=
  Action m = "" /\ has_command (Run m) = true
  /\ step_ok (Prepare m) /\ step_ok (Run m) /\ step_ok (Teardown m)
  /\ (forall p, Pool m = Some p -> pool_ok m p) /\ collect_ok (mod_Collect m).

Definition well_formed (m : Module) : Prop :=
  name_ok (Name m) = true /\ 0 <= MinTimeoutMs m
  /\ form_ok "request" (Request m) /\ form_ok "response" (Response m) /\ Forall dependency_ok (Install m)
  /\ (action_module m \/ run_module m).

Lemma form_error_Ok which fields u :
  form_error which (validateFieldSchema fields which) = Ok u <-> form_ok which fields.
Proof.
  rewrite <- validateFieldSchema_iff. unfold form_error. destruct u.
  destruct (validateFieldSchema fields which) as [[]|]; split; congruence.
Qed.

Lemma refuse_not {E} b (e : E) u : refuse (negb b) e = Ok u <-> b = true.
Proof. rewrite refuse_Ok. apply negb_false_iff. Qed.

Lemma refuse_decide {E} (P : Prop) `{Decision P} (e : E) u : refuse (bool_decide P) e = Ok u <-> ~ P.
Proof. rewrite refuse_Ok. apply bool_decide_eq_false. Qed.

Lemma validate_install_Ok i ds : validate_install i ds = Ok tt <-> Forall dependency_ok ds.
Proof.
  revert i. induction ds as [|d ds IH]; intros i; cbn; [split; [constructor|done]|].
  unfold validate_dependency, dependency_ok.
  rewrite Forall_cons, !res_bind_unit, !refuse_decide, refuse_not, bool_decide_eq_true, IH. tauto.
Qed.

Lemma validate_args_Ok n args : validate_args n args = Ok tt <-> Forall (fun a => validatePlaceholders a = None) args.
Proof.
  induction args as [|a args IH]; cbn; [split; [constructor|done]|].
  rewrite Forall_cons, <- IH. destruct (validatePlaceholders a); intuition congruence.
Qed.

Lemma validate_steps_Ok ss : validate_steps ss = Ok tt <-> Forall (fun ns => step_ok (snd ns)) ss.
Proof.
  induction ss as [|[n [st|]] ss IH]; cbn; [split; [constructor|done]|..]; rewrite Forall_cons, <- IH; cbn; [|tauto].
  by rewrite res_bind_unit, validate_args_Ok.
Qed.

Lemma is_set_None {A} (o : option A) : is_set o = false <-> o = None.
Proof. destruct o; cbn; split; congruence. Qed.

Lemma validate_collect_Ok m :
  (exists m', validate_collect compile m = Ok m') <-> collect_ok (mod_Collect m).
Proof.
  unfold validate_collect, collect_ok. cbv zeta. destruct (mod_Collect m) as [fmt pat]; cbn.
  destruct (decide (fmt = "writeout_json")) as [->|Hw].
  - split; [|intros [[_ ->]|[? _]]; [by exists m|done]]. destruct (decide (pat = "")) as [->|Hp]; [by left; auto|].
    rewrite bool_decide_false by done. by intros [? ?].
  - destruct (decide (fmt = "regex")) as [->|Hr]; [|split; [by intros [? ?]|naive_solver]].
    destruct (compile pat) as [re|]; [|split; [by intros [? ?]|naive_solver]].
    unfold hasGroup. destruct (decide ("latency_ms" ∈ SubexpNames re)) as [Hin|Hin].
    + rewrite bool_decide_true by done. split; [right; eauto|eauto].
    + rewrite bool_decide_false by done. split; [by intros [? ?]|naive_solver].
Qed.

Lemma run_steps_ok m :
  validatePool m = Ok tt /\ Forall (fun ns => step_ok (snd ns)) (steps m) /\ has_command (Run m) = true
  <-> has_command (Run m) = true /\ step_ok (Prepare m) /\ step_ok (Run m) /\ step_ok (Teardown m)
      /\ forall p, Pool m = Some p -> pool_ok m p.
Proof.
  unfold validatePool, steps, pool_ok. rewrite Forall_app, !Forall_cons, Forall_nil. cbn [snd].
  destruct (Pool m) as [p|]; cbn [snd]; [|rewrite Forall_nil; naive_solver].
  rewrite !Forall_cons, Forall_nil, !res_bind_unit, !refuse_not, !refuse_Ok, orb_false_iff, !is_set_None, !Z.leb_gt.
  cbn [snd]. naive_solver.
Qed.

Lemma validate_well_formed m :
  (forall l, order l ≡ₚ l) ->
  ((exists m', validate compile order m = Ok m') <-> well_formed m).
Proof.
  intros Hord. unfold validate, well_formed.
  assert (action_module m -> Action m <> "") as Hact by (intros [Ha _] E; rewrite E in Ha; by apply (bool_decide_eq_true_2 _) in Ha).
  split.
  - intros [m' H]. apply res_bind_unit in H as [H1%refuse_not H]. apply res_bind_unit in H as [H2%refuse_Ok H].
    apply res_bind_unit in H as [H3%form_error_Ok H]. apply res_bind_unit in H as [H4%form_error_Ok H].
    apply res_bind_unit in H as [H5%validate_install_Ok H]. cbv zeta in H. split_and!; try done; [lia|].
    destruct (decide (Action m = "")) as [Ea|Ea], (has_command (Run m)) eqn:Er;
      rewrite ?bool_decide_true, ?bool_decide_false in H by done; try done; cbn [negb andb] in H.
    + right. apply res_bind_unit in H as [Hp H]. apply res_bind_unit in H as [Hs%validate_steps_Ok H].
      rewrite Hord in Hs. destruct (proj1 (run_steps_ok m)) as (? & ? & ? & ? & ?); [done|].
      unfold run_module. split_and!; try done. apply validate_collect_Ok. eauto.
    + left. apply res_bind_unit in H as [Hk%refuse_not H]. apply res_bind_unit in H as [Hs%refuse_Ok H].
      apply res_bind_unit in H as [Hq%refuse_Ok H]. apply orb_false_iff in Hs as [? ?].
      apply bool_decide_eq_true in Hk. unfold action_module. rewrite <- !is_set_None. done.
  - intros (H1 & H2 & H3 & H4 & H5 & H).
    rewrite (proj2 (refuse_not (name_ok (Name m)) BadName tt) H1).
    rewrite (proj2 (refuse_Ok (MinTimeoutMs m <? 0) NegativeMinTimeout tt)) by lia.
    rewrite (proj2 (form_error_Ok "request" (Request m) tt) H3), (proj2 (form_error_Ok "response" (Response m) tt) H4).
    rewrite (proj2 (validate_install_Ok 0 (Install m)) H5). cbn [res_bind]. cbv zeta.
    destruct H as [Ha|(Ea & Er & Hsteps)].
    + pose proof (Hact Ha). destruct Ha as (Hk & Er & Hp & Ht & Hq). rewrite Er, Hp, Ht, Hq.
      rewrite bool_decide_false by done. cbn. rewrite bool_decide_true by done. cbn. eauto.
    + rewrite Er, bool_decide_true by done. cbn [negb andb].
      destruct (proj2 (run_steps_ok m)) as (Hp & Hs & _); [tauto|]. rewrite Hp. cbn [res_bind].
      rewrite (proj2 (validate_steps_Ok (order (steps m)))) by by rewrite Hord. cbn [res_bind].
      apply validate_collect_Ok. tauto.
Qed.

(** The pattern a module is loaded with: a subprocess module that collects by
    regular expression gets its own expression, compiled. *)
Definition loaded_pattern (m : Module) : option regex :=
  if decide (Action m = "" /\ Format (mod_Collect m) = "regex") then compile (Pattern (mod_Collect m)) else compiledPattern m.

(** [m], field by field, with the pattern [re]. *)
Definition same_but_pattern (m : Module) (re : option regex) : Module :=
  mkModule (Name m) (Engine m) (EngineVersion m) (mod_Version m) (URL m) (OS m) (Arch m) (Install m) (Action m)
    (Prepare m) (Run m) (mod_Collect m) (Teardown m) (Pool m) (MinTimeoutMs m) (Request m) (Response m) (RawYAML m) (FileHash m) re.

Lemma same_pattern m : same_but_pattern m (compiledPattern m) = m.
Proof. by destruct m. Qed.

Lemma validate_result m m' : validate compile order m = Ok m' -> m' = same_but_pattern m (loaded_pattern m).
Proof.
  unfold validate, loaded_pattern. intros H. do 5 (apply res_bind_Ok in H as (? & _ & H)). cbv zeta in H.
  destruct (_ && has_command (Run m)); [done|]. destruct (_ && _); [done|]. destruct (decide (Action m = "")) as [Ea|Ea].
  - rewrite bool_decide_true in H by done. cbn [negb] in H. do 2 (apply res_bind_Ok in H as (? & _ & H)).
    unfold validate_collect in H. cbv zeta in H. destruct (decide (Format (mod_Collect m) = "writeout_json")) as [Ef|].
    + apply res_bind_Ok in H as (? & _ & H). injection H as <-. rewrite decide_False by (rewrite Ef; by intros []). by rewrite same_pattern.
    + destruct (decide (Format (mod_Collect m) = "regex")); [|done]. rewrite decide_True by done.
      destruct (compile _) as [re|]; [|done]. destruct (hasGroup _ _); [|done]. by injection H as <-.
  - rewrite bool_decide_false in H by done. cbn [negb] in H. do 3 (apply res_bind_Ok in H as (? & _ & H)). injection H as <-.
    rewrite decide_False by tauto. by rewrite same_pattern.
Qed.

(** C35: Loading accepts exactly the well-formed modules, whatever the order in
    which the steps are visited, and an accepted module keeps every field as it
    was parsed: only the pattern of a subprocess module that collects by regular
    expression is set, to that expression compiled. *)
Theorem validate_iff m :
  (forall l, order l ≡ₚ l) ->
  ((exists m', validate compile order m = Ok m') <-> well_formed m)
  /\ forall m', validate compile order m = Ok m' -> m' = same_but_pattern m (loaded_pattern m).
Proof. intros Hord. split; [by apply validate_well_formed|apply validate_result]. Qed.
End well_formed.

(** ** Loading a directory *)

#[export] Instance entry_le_trans : Transitive entry_le.
Proof. intros a b c. unfold entry_le. apply (transitivity (R := String.le)). Qed.
#[export] Instance entry_le_total : Total entry_le.
Proof. intros a b. unfold entry_le. apply (total String.le). Qed.

Lemma module_files_perm es : module_files es ≡ₚ List.filter is_module_file es.
Proof. apply merge_sort_Permutation. Qed.

Section load.
Context (compile : string -> option regex) (order : list (string * option Step) -> list (string * option Step))
        (unmarshal : string -> option Module) (sha256_hex : string -> string).

Notation loadFile' := (loadFile compile order unmarshal sha256_hex).

Lemma load_files_Ok seen files ms :
  load_files compile order unmarshal sha256_hex seen files = Ok ms
  <-> Forall2 (fun e m => loadFile' e = Ok m) files ms /\ NoDup (Name <$> ms) /\ forall m, m ∈ ms -> Name m ∉ seen.
Proof.
  revert seen ms. induction files as [|e files IH]; intros seen ms; cbn [load_files].
  - split.
    + intros [= <-]. split_and!; [constructor|constructor|]. by intros m Hm%elem_of_nil.
    + intros (H & _). by inversion H.
  - split.
    + intros (m & Hm & H)%res_bind_Ok. destruct (decide (Name m ∈ seen)) as [|Hs]; [done|].
      apply res_bind_Ok in H as (ms' & Hr & H). injection H as <-. apply IH in Hr as (H1 & H2 & H3).
      rewrite fmap_cons, NoDup_cons. split_and!; [by constructor| |done|].
      * intros (m' & E & Hin)%list_elem_of_fmap. apply (H3 m' Hin), elem_of_union. left. by apply elem_of_singleton.
      * intros m' [->|Hin]%elem_of_cons; [done|]. intros Hs'. apply (H3 m' Hin), elem_of_union. by right.
    + intros (H1 & H2 & H3). apply Forall2_cons_inv_l in H1 as (m & ms' & Hm & H1 & ->).
      rewrite fmap_cons, NoDup_cons in H2. destruct H2 as [Hn H2]. rewrite Hm. cbn [res_bind].
      rewrite decide_False by (apply H3; by left).
      rewrite (proj2 (IH _ ms')); [done|]. split_and!; [done..|]. intros m' Hin [E%elem_of_singleton|Hs]%elem_of_union.
      * apply Hn. rewrite <- E. by apply list_elem_of_fmap_2.
      * apply (H3 m'); [by right|done].
Qed.

Lemma validate_same m m' :
  validate compile order m = Ok m' -> exists re, m' = same_but_pattern m re.
Proof. intros H. eexists. by eapply validate_result. Qed.

(** A loaded module is well formed, keeps the bytes it was parsed from, and
    carries their hash. *)
Lemma loadFile_Ok e m :
  (forall l, order l ≡ₚ l) -> loadFile' e = Ok m ->
  well_formed compile m /\ e_content e = Some (RawYAML m) /\ FileHash m = sha256_hex (RawYAML m)
  /\ exists m0, unmarshal (RawYAML m) = Some m0 /\ Name m = Name m0 /\ ToManifest m = ToManifest m0.
Proof.
  intros Hord. unfold loadFile, ParseBytes. destruct (e_content e) as [data|]; [|done].
  destruct (unmarshal data) as [m0|] eqn:Eu; [|done]. intros (m1 & Hv & H)%res_bind_Ok. injection H as <-.
  assert (well_formed compile m0) as Hw by (eapply validate_well_formed; eauto).
  destruct (validate_same _ _ Hv) as [re ->]. split_and!; try done. by exists m0.
Qed.

(** Loading a directory is all or nothing.  It succeeds exactly when every
    YAML file in it is readable, parses and is well formed, and no two of them
    define the same name; the modules are then those files' modules, one each,
    in the order of the file names.  Each is reported under the hash of the
    exact bytes it was read from, which are kept to be uploaded. *)
Theorem LoadFS_spec es ms :
  (forall l, order l ≡ₚ l) ->
  (module_files es ≡ₚ List.filter is_module_file es /\ StronglySorted entry_le (module_files es))
  /\ (LoadFS compile order unmarshal sha256_hex (Some es) = Ok ms
      <-> NoDup (Name <$> ms) /\ Forall2 (fun e m => loadFile' e = Ok m) (module_files es) ms)
  /\ (LoadFS compile order unmarshal sha256_hex (Some es) = Ok ms ->
      Forall (fun m => well_formed compile m /\ FileHash m = sha256_hex (RawYAML m)
                       /\ exists e, e ∈ es /\ e_content e = Some (RawYAML m)) ms).
Proof.
  intros Hord. cbn [LoadFS]. rewrite load_files_Ok. split_and!.
  - apply module_files_perm.
  - apply (StronglySorted_merge_sort _).
  - split; [by intros (H1 & H2 & _)|]. intros (H2 & H1). split_and!; [done..|]. intros. apply not_elem_of_empty.
  - intros (H & _). apply Forall_forall. intros m Hm. apply list_elem_of_lookup in Hm as [i Hi].
    eapply Forall2_lookup_r in H as (e & He & Hl); [|done]. apply loadFile_Ok in Hl as (H1 & H2 & H3 & _); [|done].
    split_and!; [done..|]. exists e. split; [|done]. apply list_elem_of_lookup_2 in He.
    rewrite module_files_perm in He. apply list_elem_of_In, filter_In in He as [He _]. by apply list_elem_of_In.
Qed.
End load.

(** ** Witnesses *)

Definition demo_step (args : list string) : option Step := Some (mkStep args 0).

Definition demo_module (name : string) : Module :=
  mkModule name "xray" "26.3.27" "26.3.27-1" "" [] [] [] "" None (demo_step ["jobprobe"; "--port={{alloc_port}}"; "{{target}}"])
    (mkCollect "writeout_json" "") None
    (Some (mkPool 64 16 (demo_step ["poolconfig"; "{{jobs_json}}"; "{{config_path}}"])
             (demo_step ["__TOOLS_DIR__/xray"; "{{config_path}}"]) None))
    10000 [mkField "config" "object" true "" false false "" ""] [mkField "latency_ms" "number" false "ms" true false "" ""]
    "" "" None.

Definition demo_tcp : Module :=
  mkModule "tcp" "" "" "" "" [] [] [] "tcp_connect" None None (mkCollect "" "") None None 0 [] [] "" "" None.

Definition demo_compile (p : string) : option regex := Some (mkRegex [""; "latency_ms"] (fun _ => None)).
Definition demo_order (l : list (string * option Step)) : list (string * option Step) := l.
Definition demo_unmarshal (data : string) : option Module :=
  if decide (data = "name: tcp") then Some demo_tcp
  else if has_prefix data "name: " then Some (demo_module (trim_prefix data "name: ")) else None.
Definition demo_sha (s : string) : string := pretty.pretty (fnv64a s).

Definition demo_dir : list dir_entry :=
  [mkEntry "xray.yaml" false (Some "name: xray"); mkEntry "notes.txt" false None; mkEntry "old.yaml" true None;
   mkEntry "a.yml" false (Some "name: tcp")].

Definition demo_loaded : list Module :=
  match LoadFS demo_compile demo_order demo_unmarshal demo_sha (Some demo_dir) with Ok ms => ms | Err _ => [] end.

Example demo_loads : Name <$> demo_loaded = ["tcp"; "xray"].
Proof. vm_compute. reflexivity. Qed.

Lemma demo_order_perm l : demo_order l ≡ₚ l.
Proof. done. Qed.

Lemma LoadFS_spec_witness :
  LoadFS demo_compile demo_order demo_unmarshal demo_sha (Some demo_dir) = Ok demo_loaded
  /\ NoDup (Name <$> demo_loaded) /\ Forall (well_formed demo_compile) demo_loaded.
Proof.
  assert (LoadFS demo_compile demo_order demo_unmarshal demo_sha (Some demo_dir) = Ok demo_loaded) as Hl
    by (vm_compute; reflexivity).
  destruct (LoadFS_spec demo_compile demo_order demo_unmarshal demo_sha demo_dir demo_loaded demo_order_perm) as (_ & Hiff & Hall).
  split; [exact Hl|]. split; [exact (proj1 (proj1 Hiff Hl))|].
  eapply Forall_impl; [exact (Hall Hl)|]. intros m Hm. exact (proj1 Hm).
Defined.

Definition demo_regex : Module :=
  mkModule "ping" "" "" "" "" [] [] [] "" None (demo_step ["ping"; "{{target}}"]) (mkCollect "regex" "(?P<latency_ms>.*)") None None 0 [] []
    "" "" None.

Lemma validate_iff_witness :
  (well_formed demo_compile (demo_module "xray") /\ well_formed demo_compile demo_regex)
  /\ validate demo_compile demo_order demo_regex = Ok (same_but_pattern demo_regex (demo_compile "")).
Proof.
  split; [split|].
  - apply (proj1 (validate_iff demo_compile demo_order (demo_module "xray") demo_order_perm)).
    eexists. vm_compute. reflexivity.
  - apply (proj1 (validate_iff demo_compile demo_order demo_regex demo_order_perm)).
    eexists. vm_compute. reflexivity.
  - vm_compute. reflexivity.
Defined.

(** The error paths: the first bad file fails the load. *)
Example duplicate_refused :
  LoadFS demo_compile demo_order demo_unmarshal demo_sha
    (Some (mkEntry "b.yaml" false (Some "name: xray") :: demo_dir)) = Err (DuplicateModule "xray").
Proof. vm_compute. reflexivity. Qed.
Example unreadable_refused :
  LoadFS demo_compile demo_order demo_unmarshal demo_sha (Some (mkEntry "b.yml" false None :: demo_dir)) = Err (Unreadable "b.yml").
Proof. vm_compute. reflexivity. Qed.
Example missing_dir_is_empty : LoadDir demo_compile demo_order demo_unmarshal demo_sha Missing = Ok [].
Proof. reflexivity. Qed.
Example bad_name_refused : LoadFS demo_compile demo_order demo_unmarshal demo_sha
    (Some [mkEntry "b.yml" false (Some "name: X")]) = Err BadName.
Proof. vm_compute. reflexivity. Qed.
Example resolved_url :
  ResolveURL (mkDependency "xray" "1.2" "" "https://x/{os}_{arch}_{version}.{ext}" "p") "linux" "arm64"
  = "https://x/linux_arm64_1.2.tar.gz".
Proof. reflexivity. Qed.
