(* ===== verification/Checker.v ===== *)
(** * Running one check of a module

    [internal/module/checker.go] and [collect.go]: the lifecycle of a check
    (request validation, prepare, run, collect, teardown), the bounded buffers
    a step's output goes to, and the parsing of that output.  What the
    processes do is an argument; what is run, with which arguments and
    environment, is recorded in order.  [None] is a panic of the calling
    goroutine, which ends the process. *)

From Stdlib Require Import ZArith Lia List Bool Ascii String SpecFloat.
From stdpp Require Import base tactics gmap strings list pretty.
From S2P Require Import Prelude GoStrings Wire Netbind Checks Placeholder Schema Module.

Open Scope string_scope.
Open Scope list_scope.
Open Scope Z_scope.

(** ** Bounded output *)

Definition maxStepStdoutBytes : Z := Z.shiftl 1 20.
Definition maxStepStderrBytes : Z := Z.shiftl 64 10.

Record limitedBuffer : Type := mkBuffer { buf : list ascii; limit : Z; exceeded : bool }.

(** [Write]: the new buffer and whether it reported an error; on an error the
    command is cancelled. *)
Definition Write (p : list ascii) (b : limitedBuffer) : limitedBuffer * bool :=
  let remaining := limit b - Z.of_nat (length (buf b)) in
  if remaining <=? 0 then (mkBuffer (buf b) (limit b) true, true)
  else if remaining <? Z.of_nat (length p) then (mkBuffer (buf b ++ take (Z.to_nat remaining) p) (limit b) true, true)
  else (mkBuffer (buf b ++ p) (limit b) (exceeded b), false).

(** What [os/exec] copies into a buffer: until a write fails. *)
Fixpoint copy_output (writes : list (list ascii)) (b : limitedBuffer) : limitedBuffer :=
  match writes with
  | [] => b
  | p :: rest => let '(b', failed) := Write p b in if failed : bool then b' else copy_output rest b'
  end.

(** ** Steps *)

(** A finished process: what it wrote, and the error [cmd.Run] reports. *)
Record process_run : Type := mkRun {
  out_writes : list (list ascii);
  err_writes : list (list ascii);
  run_error : option string
}.

Definition text (l : list ascii) : string := string_of_list_ascii l.

Definition run_result (pr : process_run) : result string string :=
  let stdout := copy_output (out_writes pr) (mkBuffer [] maxStepStdoutBytes false) in
  let stderr := copy_output (err_writes pr) (mkBuffer [] maxStepStderrBytes false) in
  if exceeded stdout then Err ("stdout exceeded " +:+ pretty maxStepStdoutBytes +:+ " bytes; subprocess killed")
  else if exceeded stderr then Err ("stderr exceeded " +:+ pretty maxStepStderrBytes +:+ " bytes; subprocess killed")
  else match run_error pr with
       | Some e => Err (match buf stderr with [] => e | l => e +:+ ": " +:+ trim_space (text l) end)
       | None => Ok (text (buf stdout))
       end.

(** A started command: its arguments, and its environment when a binding
    replaces the inherited one. *)
Record command : Type := mkCommand { argv : list string; cmd_env : option (list string) }.

(** ** Collecting a result *)

Record collectResult : Type := mkCollected { col_LatencyMs : float64; col_Extra : params }.

(** [m[k] = v]. *)
Fixpoint obj_set (m : params) (k : string) (v : any) : params :=
  match m with
  | [] => [(k, v)]
  | (k', v') :: rest => if decide (k' = k) then (k, v) :: rest else (k', v') :: obj_set rest k v
  end.

Section check.
Context `{NetIP} (sprint : any -> string)
        (ParseFloat : string -> option float64)
        (decode_object : string -> option params)  (* json.Unmarshal into a map *)
        (overflowed : float64 -> Z)                (* the conversion to int64 of a float out of its range *)
        (environ : list string).

(** The command a step runs under [ec]; [argv[0]] of an empty one panics. *)
Definition step_command (s : Step) (ec : execContext) : option command :=
  match resolve sprint ec (Command s) with
  | [] => None
  | args => Some (mkCommand args (if Binding_IsZero (ec_Bind ec) then None else Some (Env environ (ec_Bind ec))))
  end.

Definition collectWriteoutJSON (stdout : string) : result string collectResult :=
  match decode_object stdout with
  | None => Err "parse writeout_json stdout"
  | Some extra =>
      match obj_get extra "latency_ms" with
      | VFloat f => Ok (mkCollected f extra)
      | _ => Err "writeout_json stdout missing numeric latency_ms key"
      end
  end.

(** The groups of a match, the whole match left out. *)
Fixpoint collect_groups (groups : list (string * string)) (acc : option float64) (extra : params)
    : result string (option float64 * params) :=
  match groups with
  | [] => Ok (acc, extra)
  | (name, value) :: rest =>
      if decide (name = "") then collect_groups rest acc extra
      else if decide (name = "latency_ms") then
        match ParseFloat value with
        | None => Err ("latency_ms group is not a number: " +:+ value)
        | Some v => collect_groups rest (Some v) extra
        end
      else collect_groups rest acc (obj_set extra name (VString value))
  end.

Definition collectRegex (re : regex) (stdout : string) : result string collectResult :=
  match FindSubmatch re stdout with
  | None => Err "collect.pattern did not match run output"
  | Some groups =>
      let* r := collect_groups (tail (combine (SubexpNames re) groups)) None [] in
      match fst r with
      | None => Err "collect.pattern matched but produced no latency_ms"
      | Some v => Ok (mkCollected v (snd r))
      end
  end.

Definition collect (m : Module) (stdout : string) : option (result string collectResult) :=
  if decide (Format (mod_Collect m) = "writeout_json") then Some (collectWriteoutJSON stdout)
  else if decide (Format (mod_Collect m) = "regex") then (fun re => collectRegex re stdout) <$> compiledPattern m
  else Some (Err "unknown collect format").

(** ** Latency *)

Definition float_quot (a b : float64) : float64 := SFdiv 53 1024 a b.

(** [time.Duration(f)]: truncation toward zero. *)
Definition int64_of_float (f : float64) : Z :=
  match f with
  | S754_zero _ => 0
  | S754_finite s man e =>
      let z := (if s then -1 else 1) * (if 0 <=? e then Z.pos man * 2 ^ e else Z.pos man / 2 ^ (- e)) in
      if (min_int64 <=? z) && (z <=? max_int64) then z else overflowed f
  | _ => overflowed f
  end.

(** [probe.Ok]. *)
Definition Ok_ (checkType target : string) (seq : Z) (elapsed : duration) (extra : params) : CheckResult :=
  mkCheckResult false true checkType target seq
    (Some (float_quot (float_of_Z elapsed) (float_of_Z millisecond))) "" "" extra.

Definition latency_of (reported : float64) (elapsed : duration) : duration :=
  let latencyMs := if SFeqb reported (S754_zero false) then float_quot (float_of_Z elapsed) (float_of_Z millisecond)
                   else reported in
  int64_of_float (SFmul 53 1024 latencyMs (float_of_Z millisecond)).

Definition runAndCollect (m : Module) (run : process_run) (elapsed : duration) (o : Options) : option CheckResult :=
  match run_result run with
  | Err e => Some (Fail_ (Name m) (o_Target o) (o_Seq o) ("run: " +:+ e))
  | Ok stdout =>
      c ← collect m stdout;
      Some match c with
           | Err e => Fail_ (Name m) (o_Target o) (o_Seq o) ("collect: " +:+ e)
           | Ok r => Ok_ (Name m) (o_Target o) (o_Seq o) (latency_of (col_LatencyMs r) elapsed) (col_Extra r)
           end
  end.

(** ** A check *)

(** How a long-lived process starts: it does not, it opens its port, it exits
    first, or the wait ends with an error. *)
Inductive engine_start : Type :=
| StartFails (e : string) | BecomesReady | ExitsFirst | WaitFails (e : string).

Definition startEngine (s : engine_start) : result string unit :=
  match s with
  | StartFails e => Err e
  | BecomesReady => Ok tt
  | ExitsFirst => Err "engine exited before becoming ready"
  | WaitFails e => Err e
  end.

Record check_world : Type := mkCheckWorld {
  c_port : result string Z;                (** [portalloc.Alloc] *)
  c_params_file : result string string;    (** [writeParamsJSON] *)
  c_prepare : command -> engine_start;
  c_run : command -> process_run;
  c_teardown : command -> process_run;
  c_elapsed : duration;
  c_action : string -> Options -> CheckResult
}.

Definition set_timeout (t : duration) (o : Options) : Options :=
  mkOptions (o_Target o) t (o_ProbeID o) (o_Destination o) (o_Seq o) (o_Params o) (o_Bind o).

Definition set_type (t : string) (r : CheckResult) : CheckResult :=
  mkCheckResult (Skip r) (r_Ok r) t (r_Target r) (r_Seq r) (LatencyMs r) (r_Error r) (ErrorCode r) (Extra r).

Definition set_extra (x : params) (r : CheckResult) : CheckResult :=
  mkCheckResult (Skip r) (r_Ok r) (r_Type r) (r_Target r) (r_Seq r) (LatencyMs r) (r_Error r) (ErrorCode r) x.

Definition request_text (e : request_error) : string :=
  match e with
  | MissingParam n => "missing required param " +:+ n
  | WrongType n t => "param " +:+ n +:+ " must be a " +:+ t
  end.

(** [Duration.Milliseconds]. *)
Definition milliseconds (d : duration) : Z := d ÷ millisecond.

Definition job_context (o : Options) (paramsPath : string) (port : Z) : execContext :=
  mkExec (o_Target o) (milliseconds (o_Timeout o)) (o_Params o) paramsPath port "" "" (o_Bind o).

(** [prepare] of a check: the process is started and waited for. *)
Definition prepare (w : check_world) (m : Module) (ec : execContext) : option (result string unit * list command) :=
  match Prepare m with
  | None => Some (Ok tt, [])
  | Some s => c ← step_command s ec; Some (startEngine (c_prepare w c), [c])
  end.

Definition teardown (w : check_world) (m : Module) (ec : execContext) (r : CheckResult)
    : option (CheckResult * list command) :=
  match Teardown m with
  | None => Some (r, [])
  | Some s =>
      c ← step_command s ec;
      Some (match run_result (c_teardown w c) with
            | Err e => set_extra (obj_set (Extra r) "teardown_error" (VString e)) r
            | Ok _ => r
            end, [c])
  end.

(** Run, collect and teardown, after [log]. *)
Definition run_and_teardown (w : check_world) (m : Module) (ec : execContext) (o : Options) (log : list command)
    : option (CheckResult * list command) :=
  run ← Run m;
  c ← step_command run ec;
  r ← runAndCollect m (c_run w c) (c_elapsed w) o;
  if r_Ok r then t ← teardown w m ec r; Some (fst t, log ++ [c] ++ snd t)
  else Some (r, log ++ [c]).

(** [Checker.Check] of a [run:] module, past validation. *)
Definition check_subprocess (w : check_world) (m : Module) (o : Options) : option (CheckResult * list command) :=
  let o := set_timeout (withMinTimeout m (o_Timeout o)) o in
  let fail e := Fail_ (Name m) (o_Target o) (o_Seq o) e in
  match c_port w with
  | Err e => Some (fail ("allocate port: " +:+ e), [])
  | Ok port =>
      match c_params_file w with
      | Err e => Some (fail ("write params_json: " +:+ e), [])
      | Ok path =>
          let ec := job_context o path port in
          prepared ← prepare w m ec;
          match fst prepared with
          | Err e => Some (fail ("prepare: " +:+ e), snd prepared)
          | Ok _ => run_and_teardown w m ec o (snd prepared)
          end
      end
  end.

Definition Check_ (w : check_world) (m : Module) (o : Options) : option (CheckResult * list command) :=
  match validateRequest ParseFloat (Request m) (o_Params o) with
  | Err e => Some (Invalid (Name m) (o_Target o) (o_Seq o) (request_text e), [])
  | Ok _ =>
      if decide (Action m = "") then check_subprocess w m o
      else if decide (Action m ∈ actions) then Some (set_type (Name m) (c_action w (Action m) o), [])
      else Some (Fail_ (Name m) (o_Target o) (o_Seq o) ("unknown action " +:+ Action m), [])
  end.
End check.

(** ** Output *)

Definition size (l : list ascii) : Z := Z.of_nat (length l).

Lemma Write_spec p b :
  p <> [] -> size (buf b) <= limit b -> exceeded b = false ->
  let '(b', failed) := Write p b in
  buf b' = take (Z.to_nat (limit b)) (buf b ++ p) /\ limit b' = limit b /\ exceeded b' = failed
  /\ failed = (limit b <? size (buf b ++ p)).
Proof.
  unfold size. intros Hp Hl He. unfold Write. rewrite length_app. assert (0 < length p)%nat by (destruct p; [done|cbn; lia]).
  destruct (Z.leb_spec (limit b - Z.of_nat (length (buf b))) 0).
  - cbn. split_and!; try done; [|symmetry; apply Z.ltb_lt; lia].
    replace (Z.to_nat (limit b)) with (length (buf b)) by lia. by rewrite take_app_length.
  - destruct (Z.ltb_spec (limit b - Z.of_nat (length (buf b))) (Z.of_nat (length p))); cbn; split_and!; try done.
    + rewrite take_app. rewrite (take_ge (buf b)) by lia. f_equal. f_equal. lia.
    + symmetry. apply Z.ltb_lt. lia.
    + rewrite take_ge; [done|]. rewrite length_app. lia.
    + symmetry. apply Z.ltb_ge. lia.
Qed.

(** A buffer keeps the first [limit] bytes, and knows when there were more. *)
Lemma copy_output_spec writes b :
  Forall (fun p => p <> []) writes -> size (buf b) <= limit b -> exceeded b = false ->
  buf (copy_output writes b) = take (Z.to_nat (limit b)) (buf b ++ concat writes)
  /\ exceeded (copy_output writes b) = (limit b <? size (buf b ++ concat writes)).
Proof.
  intros Hw. revert b. induction Hw as [|p writes Hp Hw IH]; intros b Hl He; cbn [copy_output concat].
  - rewrite app_nil_r, take_ge by (unfold size in Hl; lia). split; [done|]. rewrite He. symmetry. apply Z.ltb_ge. lia.
  - pose proof (Write_spec p b Hp Hl He) as Hs. destruct (Write p b) as [b' failed].
    destruct Hs as (Hb & Hlim & Hex & Hf). destruct failed; symmetry in Hf.
    + apply Z.ltb_lt in Hf. rewrite Hb, Hex, app_assoc. unfold size in *. split.
      * by rewrite (take_app_le (buf b ++ p)) by lia.
      * symmetry. apply Z.ltb_lt. rewrite length_app. lia.
    + apply Z.ltb_ge in Hf. rewrite take_ge in Hb by (unfold size in Hf; lia). rewrite <- Hlim.
      destruct (IH b') as [H1 H2]; [rewrite Hb, Hlim; lia|done|]. by rewrite H1, H2, Hb, app_assoc.
Qed.

Definition run_writes (pr : process_run) : Prop :=
  Forall (fun p => p <> []) (out_writes pr) /\ Forall (fun p => p <> []) (err_writes pr).

(** A step's output is used whole or not at all: the step succeeds exactly
    when the process did and neither stream passed its bound, and what is
    parsed is then everything the process wrote. *)
Theorem step_output_exact pr out :
  run_writes pr ->
  (run_result pr = Ok out
   <-> run_error pr = None /\ out = text (concat (out_writes pr))
       /\ size (concat (out_writes pr)) <= maxStepStdoutBytes
       /\ size (concat (err_writes pr)) <= maxStepStderrBytes).
Proof.
  intros [Ho He]. unfold run_result. cbv zeta.
  destruct (copy_output_spec (out_writes pr) (mkBuffer [] maxStepStdoutBytes false) Ho) as [B1 E1]; [done..|].
  destruct (copy_output_spec (err_writes pr) (mkBuffer [] maxStepStderrBytes false) He) as [B2 E2]; [done..|].
  cbn [buf limit app] in B1, E1, B2, E2. rewrite E1, E2, B1.
  destruct (Z.ltb_spec maxStepStdoutBytes (size (concat (out_writes pr)))); [split; [done|lia]|].
  destruct (Z.ltb_spec maxStepStderrBytes (size (concat (err_writes pr)))); [split; [done|lia]|].
  destruct (run_error pr); [split; [done|by intros (? & _)]|]. rewrite take_ge by (unfold size in *; lia).
  split; [intros [= <-]; done|]. by intros (_ & -> & _).
Qed.

(** ** What a check runs and reports *)

Section check_spec.
Context `{NetIP} (sprint : any -> string) (ParseFloat : string -> option float64)
        (decode_object : string -> option params) (overflowed : float64 -> Z) (environ : list string).

Notation Check' := (Check_ sprint ParseFloat decode_object overflowed environ).

(** The command of one of the module's own steps, for these options. *)
Definition command_of (m : Module) (o : Options) (s : option Step) (c : command) : Prop :=
  exists st path port, s = Some st
    /\ argv c = resolve sprint (job_context (set_timeout (withMinTimeout m (o_Timeout o)) o) path port) (Command st)
    /\ cmd_env c = if Binding_IsZero (o_Bind o) then None else Some (Env environ (o_Bind o)).

(** The steps a check goes through. *)
Inductive lifecycle (m : Module) (o : Options) : list command -> Prop :=
| life_none : lifecycle m o []
| life_prepare p : command_of m o (Prepare m) p -> lifecycle m o [p]
| life_run ps c ts :
    (ps = [] /\ Prepare m = None \/ exists p, ps = [p] /\ command_of m o (Prepare m) p) ->
    command_of m o (Run m) c ->
    (ts = [] \/ exists t, ts = [t] /\ command_of m o (Teardown m) t) ->
    lifecycle m o (ps ++ [c] ++ ts).

Lemma step_command_Some m o path port s c :
  step_command sprint environ s (job_context (set_timeout (withMinTimeout m (o_Timeout o)) o) path port) = Some c ->
  command_of m o (Some s) c.
Proof.
  unfold step_command. intros Hc. exists s, path, port. split; [done|].
  destruct (resolve _ _ _) as [|a l] eqn:E; [done|]. injection Hc as <-. done.
Qed.

Definition reports (m : Module) (o : Options) (r : CheckResult) : Prop :=
  r_Type r = Name m /\ r_Target r = o_Target o /\ r_Seq r = o_Seq o.

(** Reported as the outcome of an attempt, not as an invalid request. *)
Definition attempted (m : Module) (o : Options) (r : CheckResult) : Prop := reports m o r /\ ErrorCode r = "".

Lemma runAndCollect_reports m pr el o r :
  runAndCollect ParseFloat decode_object overflowed m pr el o = Some r -> attempted m o r.
Proof.
  unfold runAndCollect. destruct (run_result pr) as [out|e]; [|by intros [= <-]].
  destruct (collect _ _ m out) as [[x|e]|]; [intros [= <-]; done|intros [= <-]; done|done].
Qed.

Definition job_ec (m : Module) (o : Options) (path : string) (port : Z) : execContext :=
  job_context (set_timeout (withMinTimeout m (o_Timeout o)) o) path port.

Lemma run_and_teardown_spec w m o path port ps r log :
  (ps = [] /\ Prepare m = None \/ exists p, ps = [p] /\ command_of m o (Prepare m) p) ->
  run_and_teardown sprint ParseFloat decode_object overflowed environ w m (job_ec m o path port)
    (set_timeout (withMinTimeout m (o_Timeout o)) o) ps = Some (r, log) ->
  attempted m o r /\ lifecycle m o log.
Proof.
  intros Hps. unfold run_and_teardown. destruct (Run m) as [st|] eqn:Er; [|done]. cbn [mbind option_bind].
  destruct (step_command _ _ st _) as [c|] eqn:Ec; [|done]. cbn [mbind option_bind].
  apply step_command_Some in Ec. rewrite <- Er in Ec.
  destruct (runAndCollect _ _ _ m _ _ _) as [r0|] eqn:Er0; [|done]. cbn [mbind option_bind].
  apply runAndCollect_reports in Er0. destruct (r_Ok r0);
    [|intros [= <- <-]; split; [done|]; apply (life_run m o ps c []); auto].
  unfold teardown. destruct (Teardown m) as [ts|] eqn:Et; cbn [mbind option_bind fst snd];
    [|intros [= <- <-]; split; [done|]; apply (life_run m o ps c []); auto].
  destruct (step_command _ _ ts _) as [tc|] eqn:Etc; [|done]. cbn [mbind option_bind fst snd].
  apply step_command_Some in Etc. rewrite <- Et in Etc. intros [= <- <-].
  split; [by destruct (run_result _)|]. apply (life_run m o ps c [tc]); eauto.
Qed.

Lemma check_subprocess_spec w m o r log :
  check_subprocess sprint ParseFloat decode_object overflowed environ w m o = Some (r, log) ->
  attempted m o r /\ lifecycle m o log.
Proof.
  unfold check_subprocess. cbv zeta.
  destruct (c_port w) as [port|e]; [|by intros [= <- <-]; split; [done|constructor]].
  destruct (c_params_file w) as [path|e]; [|by intros [= <- <-]; split; [done|constructor]].
  unfold prepare. destruct (Prepare m) as [ps|] eqn:Ep; cbn [mbind option_bind].
  - destruct (step_command _ _ ps _) as [pc|] eqn:Epc; [|done]. cbn [mbind option_bind fst snd].
    apply step_command_Some in Epc. rewrite <- Ep in Epc.
    destruct (startEngine _) as [[]|e]; [|intros [= <- <-]; split; [done|by constructor]].
    apply run_and_teardown_spec. right. eauto.
  - apply run_and_teardown_spec. by left.
Qed.

Lemma command_of_step m o s c :
  command_of m o s c -> exists st, Some st = s /\ length (argv c) = length (Command st).
Proof. intros (st & path & port & -> & E & _). exists st. split; [done|]. rewrite E. apply length_map. Qed.

Lemma lifecycle_steps m o log :
  lifecycle m o log ->
  Forall (fun c => exists st, Some st ∈ [Prepare m; Run m; Teardown m] /\ length (argv c) = length (Command st)) log.
Proof.
  assert (forall s c, s ∈ [Prepare m; Run m; Teardown m] -> command_of m o s c ->
    exists st, Some st ∈ [Prepare m; Run m; Teardown m] /\ length (argv c) = length (Command st)) as Hs.
  { intros s c Hin Hc. destruct (command_of_step _ _ _ _ Hc) as (st & <- & E). eauto. }
  assert (Prepare m ∈ [Prepare m; Run m; Teardown m] /\ Run m ∈ [Prepare m; Run m; Teardown m]
    /\ Teardown m ∈ [Prepare m; Run m; Teardown m]) as (H1 & H2 & H3) by (rewrite !elem_of_cons; tauto).
  intros [|p Hp|ps c ts Hps Hc Hts]; [constructor|repeat constructor; eauto|].
  destruct Hps as [[-> _]|(p & -> & Hp)], Hts as [->|(t & -> & Ht)]; repeat constructor; eauto.
Qed.

(** C33: A check only ever runs the commands of its own module.  Whatever the
    probe's parameters are, what is run is a prefix of the module's prepare,
    run and teardown steps, each with as many arguments as the operator wrote,
    each under the node's binding; nothing runs when the parameters do not fit
    the module's form, which is reported as invalid rather than down; and the
    answer is filed under the module's name and the check's own target and
    number. *)
Theorem check_runs_own_steps w m o r log :
  Action m = "" -> Check' w m o = Some (r, log) ->
  lifecycle m o log /\ reports m o r
  /\ Forall (fun c => exists st, Some st ∈ [Prepare m; Run m; Teardown m] /\ length (argv c) = length (Command st)) log
  /\ (~ request_ok ParseFloat (Request m) (o_Params o) <->
      r_Ok r = false /\ ErrorCode r = ErrorCodeInvalidParams)
  /\ (~ request_ok ParseFloat (Request m) (o_Params o) -> log = []).
Proof.
  intros Ha. unfold Check_. pose proof (validateRequest_Ok ParseFloat (Request m) (o_Params o)) as Hreq.
  destruct (validateRequest _ _ _) as [[]|e] eqn:Ev; cycle 1.
  { assert (~ request_ok ParseFloat (Request m) (o_Params o)) by (rewrite <- Hreq; done).
    intros [= <- <-]. split_and!; [constructor|done|constructor|done|done]. }
  rewrite decide_True by done. intros Hc. apply check_subprocess_spec in Hc as [[Hr He] Hl].
  assert (request_ok ParseFloat (Request m) (o_Params o)) as Hok by by apply Hreq.
  split_and!; [done|done|by eapply lifecycle_steps| |tauto].
  split; [done|]. intros [_ Hi]. by rewrite He in Hi.
Qed.
(** ** Panics *)

Definition runnable (s : option Step) : Prop := s = None \/ has_command s = true.

Lemma step_command_total s ec : has_command (Some s) = true -> is_Some (step_command sprint environ s ec).
Proof.
  unfold step_command, has_command, resolve. rewrite negb_true_iff, bool_decide_eq_false. intros Hc.
  destruct (Command s); [done|]. by eexists.
Qed.

Lemma collect_total compile order m0 m out :
  validate compile order m0 = Ok m -> Action m = "" -> is_Some (collect ParseFloat decode_object m out).
Proof.
  unfold validate. intros H1 Ha. do 5 (apply res_bind_Ok in H1 as (? & _ & H1)). cbv zeta in H1.
  destruct (_ && has_command (Run m0)); [done|]. destruct (_ && _); [done|].
  destruct (negb (bool_decide (Action m0 = ""))) eqn:Ea.
  - do 3 (apply res_bind_Ok in H1 as (? & _ & H1)). injection H1 as <-. rewrite Ha in Ea. done.
  - do 2 (apply res_bind_Ok in H1 as (? & _ & H1)). unfold validate_collect in H1. cbv zeta in H1.
    unfold collect. destruct (decide (Format (mod_Collect m0) = "writeout_json")) as [E|E].
    + apply res_bind_Ok in H1 as (? & _ & H1). injection H1 as <-. rewrite decide_True by done. by eexists.
    + destruct (decide (Format (mod_Collect m0) = "regex")) as [E'|]; [|done].
      destruct (compile _) as [re|]; [|done]. destruct (hasGroup _ _); [|done]. injection H1 as <-.
      cbn [mod_Collect with_pattern compiledPattern]. rewrite decide_False, decide_True by done. by eexists.
Qed.

(** A check of a loaded module always returns, provided its prepare and
    teardown steps, which loading does not look at, have a command. *)
Theorem check_never_panics compile order w m0 m o :
  (forall l, order l ≡ₚ l) -> validate compile order m0 = Ok m ->
  runnable (Prepare m) -> runnable (Teardown m) -> is_Some (Check' w m o).
Proof.
  intros Hord Hv Hp Ht. unfold Check_. destruct (validateRequest _ _ _); [|by eexists].
  destruct (decide (Action m = "")) as [Ha|]; [|destruct (decide _); by eexists].
  assert (has_command (Run m) = true) as Hr.
  { assert (well_formed compile m0) as Hw by (eapply validate_well_formed; eauto).
    destruct Hw as (_ & _ & _ & _ & _ & Hk).
    assert (Action m0 = "" /\ Run m0 = Run m) as [Ha0 <-] by (by destruct (validate_same _ _ _ _ Hv) as [re ->]).
    destruct Hk as [[Hk _]|(_ & ? & _)]; [|done]. rewrite Ha0 in Hk. by apply (bool_decide_eq_true_2 _) in Hk. }
  unfold check_subprocess. cbv zeta. destruct (c_port w) as [port|]; [|by eexists].
  destruct (c_params_file w) as [path|]; [|by eexists].
  assert (forall log, is_Some (run_and_teardown sprint ParseFloat decode_object overflowed environ w m
    (job_ec m o path port) (set_timeout (withMinTimeout m (o_Timeout o)) o) log)) as Hrun.
  { intros log. unfold run_and_teardown. destruct (Run m) as [st|]; [|done]. cbn [mbind option_bind].
    destruct (step_command_total st (job_ec m o path port) Hr) as [c ->]. cbn [mbind option_bind].
    unfold runAndCollect. destruct (run_result (c_run w c)) as [out|]; cbn [mbind option_bind Fail_ r_Ok]; [|by eexists].
    destruct (collect_total _ _ _ _ out Hv Ha) as [[x|e] ->]; cbn [mbind option_bind Fail_ Ok_ r_Ok]; [|by eexists].
    unfold teardown. destruct (Teardown m) as [ts|]; cbn [mbind option_bind]; [|by eexists].
    destruct Ht as [?|Ht]; [done|]. destruct (step_command_total ts (job_ec m o path port) Ht) as [tc ->]. by eexists. }
  unfold prepare. destruct (Prepare m) as [ps|]; cbn [mbind option_bind fst snd]; [|by apply Hrun].
  destruct Hp as [?|Hp]; [done|]. fold (job_ec m o path port). destruct (step_command_total ps (job_ec m o path port) Hp) as [pc ->].
  cbn [mbind option_bind fst snd]. destruct (startEngine _); [|by eexists]. by apply Hrun.
Qed.
End check_spec.

(** ** Witnesses *)

Definition demo_float (s : string) : option float64 := if decide (s = "3.5") then Some (SFdiv 53 1024 (float_of_Z 7) (float_of_Z 2)) else None.
Definition demo_object (s : string) : option params :=
  if decide (s = "{latency_ms: 12.5}") then Some [("latency_ms", VFloat (SFdiv 53 1024 (float_of_Z 25) (float_of_Z 2)))] else None.
Definition demo_run (out : string) : process_run := mkRun [list_ascii_of_string out] [] None.

Definition demo_checked (prepare teardown : option Step) : Module :=
  mkModule "curl" "" "" "" "" [] [] [] "" prepare (demo_step ["curl"; "--{{param.method}}"; "{{target}}"])
    (mkCollect "writeout_json" "") teardown None 0 [mkField "method" "string" true "" false false "" ""] [] "" "" None.

Definition demo_world : check_world :=
  mkCheckWorld (Ok 40000) (Ok "/tmp/p.json") (fun _ => BecomesReady) (fun _ => demo_run "{latency_ms: 12.5}")
    (fun _ => demo_run "") (3 * millisecond) (fun _ o => Fail_ "" (o_Target o) (o_Seq o) "").

Definition demo_options (ps : params) : Options := mkOptions "example.org" (5 * second) "" "" 2 ps (mkBinding None "wan").

Definition demo_teardown : option Step := demo_step ["rm"; "{{params_json}}"].

Notation demo_check :=
  (@Check_ demoNetIP demo_sprint demo_float demo_object (fun _ => 0) ["PATH=/bin"; "RADAR_SOURCE_IP=9.9.9.9"]).

Definition demo_answer : CheckResult * list command :=
  default (Fail_ "" "" 0 "", []) (demo_check demo_world (demo_checked None demo_teardown) (demo_options [("method", VString "{{target}} get")])).

(** The value of a parameter stays one argument, unscanned; half milliseconds
    survive the conversion. *)
Example demo_check_runs :
  demo_answer =
    (mkCheckResult false true "curl" "example.org" 2 (Some (SFdiv 53 1024 (float_of_Z 25) (float_of_Z 2))) "" ""
       [("latency_ms", VFloat (SFdiv 53 1024 (float_of_Z 25) (float_of_Z 2)))],
     [mkCommand ["curl"; "--{{target}} get"; "example.org"] (Some ["PATH=/bin"; "RADAR_BIND_INTERFACE=wan"]);
      mkCommand ["rm"; "/tmp/p.json"] (Some ["PATH=/bin"; "RADAR_BIND_INTERFACE=wan"])]).
Proof. vm_compute. reflexivity. Qed.

Lemma check_runs_own_steps_witness :
  demo_check demo_world (demo_checked None demo_teardown) (demo_options [("method", VString "{{target}} get")]) = Some demo_answer
  /\ reports (demo_checked None demo_teardown) (demo_options [("method", VString "{{target}} get")]) (fst demo_answer).
Proof.
  assert (demo_check demo_world (demo_checked None demo_teardown) (demo_options [("method", VString "{{target}} get")])
    = Some (fst demo_answer, snd demo_answer)) as Hc by (vm_compute; reflexivity).
  split; [exact Hc|].
  exact (proj1 (proj2 (@check_runs_own_steps demoNetIP demo_sprint demo_float demo_object (fun _ => 0)
    ["PATH=/bin"; "RADAR_SOURCE_IP=9.9.9.9"] demo_world (demo_checked None demo_teardown)
    (demo_options [("method", VString "{{target}} get")]) (fst demo_answer) (snd demo_answer) eq_refl Hc))).
Defined.

Lemma check_never_panics_witness :
  is_Some (demo_check demo_world (demo_checked None demo_teardown) (demo_options [])).
Proof.
  apply (@check_never_panics demoNetIP demo_sprint demo_float demo_object (fun _ => 0)
    ["PATH=/bin"; "RADAR_SOURCE_IP=9.9.9.9"] demo_compile demo_order demo_world (demo_checked None demo_teardown)
    (demo_checked None demo_teardown) (demo_options []) demo_order_perm).
  - vm_compute. reflexivity.
  - left. reflexivity.
  - right. reflexivity.
Defined.

Lemma step_output_exact_witness :
  run_writes (demo_run "{latency_ms: 12.5}") /\ run_result (demo_run "{latency_ms: 12.5}") = Ok "{latency_ms: 12.5}".
Proof.
  assert (run_writes (demo_run "{latency_ms: 12.5}")) as Hw by (split; repeat constructor; discriminate).
  split; [exact Hw|]. apply (step_output_exact _ _ Hw). split_and!; [reflexivity|reflexivity|vm_compute; discriminate|vm_compute; discriminate].
Defined.

(** A module whose prepare step has no command loads, and every check of it
    with valid parameters ends the process. *)
Theorem empty_prepare_panics :
  let m := demo_checked (demo_step []) None in
  validate demo_compile demo_order m = Ok m
  /\ forall w port path, c_port w = Ok port -> c_params_file w = Ok path ->
     demo_check w m (demo_options [("method", VString "GET")]) = None.
Proof.
  cbv zeta. split; [vm_compute; reflexivity|]. intros w port path Hp Hf. unfold Check_, check_subprocess.
  change (validateRequest _ _ _) with (Ok (E := request_error) tt). cbv iota zeta. rewrite Hp, Hf. reflexivity.
Qed.
