(* ===== verification/Registry.v ===== *)
(** * The registry of probers

    [internal/registry/registry.go] and [NewChecker] of
    [internal/module/checker.go]: the probers a process knows, loaded from
    the embedded modules and then from the modules directory, and what a
    heartbeat reports of them.  The last section puts a registry under the
    agent's loop: what is uploaded is what was reported. *)

From Stdlib Require Import ZArith Lia List Bool Ascii String Permutation.
From stdpp Require Import base tactics gmap strings list fin_maps.
From S2P Require Import Prelude GoStrings Sql Store StoreMaint Clock Health ApiClient SelfUpdate Checks Tick AgentLoop AgentTriggers.
From S2P Require Import Wire Netbind Placeholder Schema Module.

Open Scope string_scope.
Open Scope list_scope.
Open Scope Z_scope.

(** ** Checkers *)

Inductive checker : Type :=
| Single (m : Module)
| Pooled (m : Module) (limits : PoolLimits).

Definition no_limits : PoolLimits := mkPoolLimits 0 0 0 0.

Definition NewCheckerWithLimits (m : Module) (limits : PoolLimits) : checker :=
  match Pool m with Some _ => Pooled m limits | None => Single m end.

Definition NewChecker (m : Module) : checker := NewCheckerWithLimits m no_limits.

Definition checker_Type (c : checker) : string := match c with Single m | Pooled m _ => Name m end.

(** ** The registry *)

Record entry : Type := mkRegEntry {
  en_checker : checker;
  en_rawYAML : string;
  en_fileHash : string;
  en_manifest : Manifest;
  en_version : string;
  en_url : string
}.

Abbreviation Registry := (gmap string entry).

Definition addWithLimits (m : Module) (limits : PoolLimits) (r : Registry) : Registry :=
  <[Name m := mkRegEntry (NewCheckerWithLimits m limits) (RawYAML m) (FileHash m) (ToManifest m) (mod_Version m) (URL m)]> r.

Section loading.
Context (compile : string -> option regex) (order : list (string * option Step) -> list (string * option Step))
        (unmarshal : string -> option Module) (sha256_hex : string -> string).

Definition loadFSWithLimits (fsys : option (list dir_entry)) (limits : PoolLimits) (r : Registry)
    : result module_error Registry :=
  let* ms := LoadFS compile order unmarshal sha256_hex fsys in
  Ok (fold_left (fun r m => addWithLimits m limits r) ms r).

(** [defaults] is the embedded file system. *)
Definition DefaultWithLimits (defaults : option (list dir_entry)) (limits : PoolLimits) : result module_error Registry :=
  loadFSWithLimits defaults limits ∅.

Definition LoadModulesWithLimits (dir toolsDir : string) (d : dir_state) (limits : PoolLimits) (r : Registry)
    : result module_error Registry :=
  if decide (dir = "") then Ok r
  else
    let* ms := LoadDir compile order unmarshal sha256_hex d in
    Ok (fold_left (fun r m => addWithLimits (ResolveDirPlaceholders dir toolsDir m) limits r) ms r).

(** What [Run] does with them. *)
Definition build_registry (defaults : option (list dir_entry)) (dir toolsDir : string) (d : dir_state) (limits : PoolLimits)
    : result module_error Registry :=
  let* r := DefaultWithLimits defaults limits in
  LoadModulesWithLimits dir toolsDir d limits r.
End loading.

Definition Get (name : string) (r : Registry) : option checker := en_checker <$> r !! name.

(** The entries in the order a loop over the map meets them. *)
Definition ProberHashes (iter : list (string * entry)) : list string :=
  map (fun ne => fst ne +:+ ":" +:+ en_fileHash (snd ne)) iter.

Definition reg_RawYAML (proberID : string) (r : Registry) : option (string * string * Manifest) :=
  (fun e => (en_rawYAML e, en_fileHash e, en_manifest e)) <$> r !! proberID.

Record ModuleVersion : Type := mkModuleVersion { mv_Version : option string; mv_URL : option string }.

Definition non_empty (s : string) : option string := if decide (s = "") then None else Some s.

Definition ModuleVersions (r : Registry) : gmap string ModuleVersion :=
  omap (fun e => if bool_decide (en_version e = "") && bool_decide (en_url e = "") then None
                 else Some (mkModuleVersion (non_empty (en_version e)) (non_empty (en_url e)))) r.

(** [Shutdown] closes every pooled checker. *)
Definition Shutdown (r : Registry) : list string :=
  omap (fun ne => match en_checker (snd ne) with Pooled _ _ => Some (fst ne) | Single _ => None end) (map_to_list r).

(** ** What a registry holds *)

Definition entry_of (m : Module) (limits : PoolLimits) : entry :=
  mkRegEntry (NewCheckerWithLimits m limits) (RawYAML m) (FileHash m) (ToManifest m) (mod_Version m) (URL m).

Definition named (name : string) (ms : list Module) : option Module :=
  List.find (fun m => bool_decide (Name m = name)) ms.

Lemma named_cons name m ms : named name (m :: ms) = if decide (Name m = name) then Some m else named name ms.
Proof. unfold named. cbn. by case_bool_decide; case_decide. Qed.

Lemma named_Some name ms m : named name ms = Some m -> m ∈ ms /\ Name m = name.
Proof.
  intros H. apply List.find_some in H as [Hin E]. apply bool_decide_eq_true in E. split; [by apply list_elem_of_In|done].
Qed.

Lemma named_None name ms : name ∉ Name <$> ms -> named name ms = None.
Proof.
  intros Hn. destruct (named name ms) as [m|] eqn:E; [|done]. apply named_Some in E as [Hin <-].
  destruct Hn. by apply list_elem_of_fmap_2.
Qed.

(** Adding modules with distinct names, each renamed to itself by [f]. *)
Lemma fold_add (f : Module -> Module) limits ms r name :
  (forall m, Name (f m) = Name m) -> NoDup (Name <$> ms) ->
  fold_left (fun r m => addWithLimits (f m) limits r) ms r !! name
  = match named name ms with Some m => Some (entry_of (f m) limits) | None => r !! name end.
Proof.
  intros Hf. revert r. induction ms as [|m ms IH]; intros r Hnd; [done|].
  rewrite fmap_cons, NoDup_cons in Hnd. destruct Hnd as [Hn Hnd]. cbn [fold_left]. rewrite IH by done. rewrite named_cons.
  destruct (decide (Name m = name)) as [<-|Hne].
  - rewrite named_None by done. unfold addWithLimits. by rewrite Hf, lookup_insert_eq.
  - destruct (named name ms); [done|]. unfold addWithLimits. rewrite Hf. by rewrite lookup_insert_ne.
Qed.

Section registry.
Context (compile : string -> option regex) (order : list (string * option Step) -> list (string * option Step))
        (unmarshal : string -> option Module) (sha256_hex : string -> string).
Context (order_perm : forall l, order l ≡ₚ l).

Notation build := (build_registry compile order unmarshal sha256_hex).

(** The modules a directory defines: none without a directory. *)
Definition dir_modules (dir : string) (d : dir_state) (ms : list Module) : Prop :=
  (dir = "" /\ ms = []) \/ (dir <> "" /\ LoadDir compile order unmarshal sha256_hex d = Ok ms).

Lemma loaded_distinct d ms : LoadDir compile order unmarshal sha256_hex d = Ok ms -> NoDup (Name <$> ms).
Proof.
  destruct d as [| |[es|]]; cbn [LoadDir LoadFS]; [intros [= <-]; constructor|done| |done].
  by intros (_ & Hnd & _)%load_files_Ok.
Qed.

Lemma build_registry_Ok defaults dir toolsDir d limits r :
  build defaults dir toolsDir d limits = Ok r ->
  exists defs mods, LoadFS compile order unmarshal sha256_hex defaults = Ok defs /\ dir_modules dir d mods
    /\ forall name, r !! name =
       match named name mods with
       | Some m => Some (entry_of (ResolveDirPlaceholders dir toolsDir m) limits)
       | None => (fun m => entry_of m limits) <$> named name defs
       end.
Proof.
  unfold build_registry, DefaultWithLimits, loadFSWithLimits, LoadModulesWithLimits. intros (r0 & H0 & H1)%res_bind_Ok.
  apply res_bind_Ok in H0 as (defs & Hd & [= <-]).
  assert (NoDup (Name <$> defs)) as Hnd by (by apply (loaded_distinct (Present defaults))).
  exists defs. destruct (decide (dir = "")) as [E|E].
  - injection H1 as <-. exists []. split_and!; [done|by left|]. intros name. cbn [named List.find].
    rewrite (fold_add id) by done. rewrite lookup_empty. by destruct (named name defs).
  - apply res_bind_Ok in H1 as (mods & Hm & [= <-]). exists mods. split_and!; [done|by right|].
    intros name. rewrite (fold_add (ResolveDirPlaceholders dir toolsDir)) by (done || by eapply loaded_distinct).
    destruct (named name mods); [done|]. rewrite (fold_add id) by done. rewrite lookup_empty. by destruct (named name defs).
Qed.

Lemma loaded_source d ms m :
  LoadDir compile order unmarshal sha256_hex d = Ok ms -> m ∈ ms ->
  well_formed compile m /\ FileHash m = sha256_hex (RawYAML m)
  /\ exists m0, unmarshal (RawYAML m) = Some m0 /\ Name m = Name m0 /\ ToManifest m = ToManifest m0.
Proof.
  destruct d as [| |[es|]]; cbn [LoadDir LoadFS]; [|done| |done].
  - intros [= <-] Hin. by apply not_elem_of_nil in Hin.
  - intros (Hf & _)%load_files_Ok Hin. apply list_elem_of_lookup in Hin as [i Hi].
    eapply Forall2_lookup_r in Hf as (e & _ & Hl); [|done]. apply loadFile_Ok in Hl as (? & _ & ? & ?); done.
Qed.

(** The registry is the embedded modules overridden by the directory's.  It
    is built only when both load in full; a name belongs to the directory's
    module when it defines one, resolved for this node's directories, and to
    the embedded one otherwise.  Whatever its commands were resolved to, an
    entry keeps the bytes its file had, is reported under their hash, and
    carries the manifest of the module those bytes parse to. *)
Theorem registry_overrides defaults dir toolsDir d limits r :
  build defaults dir toolsDir d limits = Ok r ->
  (exists defs mods, LoadFS compile order unmarshal sha256_hex defaults = Ok defs /\ dir_modules dir d mods
    /\ forall name, Get name r =
       match named name mods with
       | Some m => Some (NewCheckerWithLimits (ResolveDirPlaceholders dir toolsDir m) limits)
       | None => (fun m => NewCheckerWithLimits m limits) <$> named name defs
       end)
  /\ (forall name raw hash manifest, reg_RawYAML name r = Some (raw, hash, manifest) ->
      hash = sha256_hex raw /\ name_ok name = true
      /\ exists m0, unmarshal raw = Some m0 /\ Name m0 = name /\ manifest = ToManifest m0).
Proof.
  intros H. apply build_registry_Ok in H as (defs & mods & Hd & Hm & Hr). split.
  - exists defs, mods. split_and!; [done..|]. intros name. unfold Get. rewrite Hr. destruct (named name mods); [done|].
    by destruct (named name defs).
  - intros name raw hash manifest. unfold reg_RawYAML. rewrite Hr.
    assert (forall m, named name mods = Some m \/ named name defs = Some m ->
      well_formed compile m /\ FileHash m = sha256_hex (RawYAML m) /\ Name m = name
      /\ exists m0, unmarshal (RawYAML m) = Some m0 /\ Name m = Name m0 /\ ToManifest m = ToManifest m0) as Hsrc.
    { intros m [[Hin E]%named_Some|[Hin E]%named_Some].
      - destruct Hm as [[_ ->]|[_ Hl]]; [by apply not_elem_of_nil in Hin|].
        destruct (loaded_source _ _ _ Hl Hin) as (? & ? & ?). done.
      - destruct (loaded_source (Present defaults) _ _ Hd Hin) as (? & ? & ?). done. }
    destruct (named name mods) as [m|] eqn:E; [|destruct (named name defs) as [m|] eqn:E2; [|done]]; cbn; intros [= <- <- <-].
    + destruct (Hsrc m) as (Hw & Hh & Hn & m0 & Hu & Hn0 & Ht); [by left|]. split_and!; [done|rewrite <- Hn; apply Hw|].
      exists m0. split_and!; [done|congruence|]. by rewrite <- Ht.
    + destruct (Hsrc m) as (Hw & Hh & Hn & m0 & Hu & Hn0 & Ht); [by right|]. split_and!; [done|rewrite <- Hn; apply Hw|].
      exists m0. split_and!; [done|congruence|done].
Qed.
End registry.

(** ** The registry under the agent's loop *)

Definition field_json (f : FieldSchema) : any :=
  let opt (k v : string) := if decide (v = "") then [] else [(k, VString v)] in
  let flag (k : string) (b : bool) := if b then [(k, VBool true)] else [] in
  VObject ([("name", VString (f_Name f)); ("type", VString (f_Type f))] ++ flag "required" (f_Required f)
           ++ opt "unit" (f_Unit f) ++ flag "primary" (f_Primary f) ++ flag "summary" (f_Summary f)
           ++ opt "group" (f_Group f) ++ opt "display" (f_Display f)).

(** The manifest as [encoding/json] writes it. *)
Definition manifest_json (m : Manifest) : any :=
  let opt (k v : string) := if decide (v = "") then [] else [(k, VString v)] in
  let fields (k : string) (l : list FieldSchema) := match l with [] => [] | _ => [(k, VArray (map field_json l))] end in
  VObject ([("name", VString (mf_Name m))] ++ opt "engine" (mf_Engine m) ++ opt "engine_version" (mf_EngineVersion m)
           ++ opt "action" (mf_Action m) ++ fields "request" (mf_Request m) ++ fields "response" (mf_Response m)).

(** The process a registry gives the loops; [iter] is the order the hashes
    were listed in. *)
Definition registry_process (who : identity) (version arch : string) (iter : list (string * entry)) (r : Registry) : process :=
  {| me := who; AgentLoop.version := version; arch := arch; proberHashes := ProberHashes iter;
     AgentLoop.RawYAML id :=
       (fun x => mkUpload id (snd (fst x)) (fst (fst x)) (manifest_json (snd x))) <$> reg_RawYAML id r |}.

Section uploads.
Context `{NetIP} `{Checkers} (p : process).

(** Heartbeats report the process's hashes; uploads carry its own modules. *)
Definition honest (c : call) : Prop :=
  match c with
  | CallHeartbeat rq => rq_Probers rq = proberHashes p
  | CallUpload ms => Forall (fun up => exists id, AgentLoop.RawYAML p id = Some up) ms
  | CallAck _ _ | CallLaunch _ => True
  end.

Definition adds (n n' : node) : Prop := exists cs, calls n' = calls n ++ cs /\ Forall honest cs.

Lemma adds_same n n' : calls n' = calls n -> adds n n'.
Proof. intros E. exists []. by rewrite app_nil_r. Qed.

Lemma adds_one n n' c : calls n' = calls n ++ [c] -> honest c -> adds n n'.
Proof. intros E Hc. exists [c]. split; [done|by repeat constructor]. Qed.

Lemma adds_trans n n1 n2 : adds n n1 -> adds n1 n2 -> adds n n2.
Proof.
  intros (a & Ea & Ha) (b & Eb & Hb). exists (a ++ b). rewrite Eb, Ea, app_assoc. split; [done|by apply Forall_app].
Qed.

Lemma send_adds e k n : adds n (snd (send p e k n)).
Proof.
  unfold send. destruct (PathHealth.state _ _). destruct (snapshot _ _ _ _ _ _). cbv zeta.
  destruct (if Netbind.Binding_IsZero _ then _ else _). by eapply adds_one.
Qed.

Lemma upload_adds e ids n : adds n (snd (uploadMissingModules p e ids n)).
Proof.
  unfold uploadMissingModules. destruct (omap _ ids) as [|m ms] eqn:E; [by apply adds_same|].
  eapply adds_one; [done|]. cbn. rewrite <- E. apply Forall_forall. intros up (id & _ & Hup)%list_elem_of_omap. by exists id.
Qed.

Lemma restore_adds n : adds n (restorePendingTriggers n).
Proof.
  unfold restorePendingTriggers. destruct (Tick.db (ag n)); [|by apply adds_same].
  destruct (PendingTriggers _ _) as [[[ts|er] d'] fs']; by apply adds_same.
Qed.

Lemma exchange_adds e n : adds n (snd (exchange p e n)).
Proof.
  unfold exchange. set (n0 := match Tick.db (ag n) with Some _ => _ | None => n end).
  assert (adds n n0) as G0.
  { subst n0. destruct (Tick.db (ag n)); [|by apply adds_same]. destruct (triggersRestored n); [by apply adds_same|apply restore_adds]. }
  pose proof (send_adds e 0 n0) as G1. destruct (send p e 0 n0) as [r n1]. cbn [snd] in G1.
  pose proof (adds_trans _ _ _ G0 G1) as G2. destruct r as [resp|[]]; try exact G2.
  pose proof (upload_adds e (MissingProberIDs r) n1) as G3. destruct (uploadMissingModules _ _ _ _) as [b n2].
  cbn [snd] in G3. pose proof (adds_trans _ _ _ G2 G3) as G4. destruct b; [|exact G4]. cbn [negb].
  pose proof (send_adds e 1 n2) as G5. destruct (send p e 1 n2) as [r2 n3]. cbn [snd] in *. by eapply adds_trans.
Qed.

Lemma sync_adds e h snaps n : adds n (sync_assignment e h snaps n).
Proof.
  unfold sync_assignment. destruct (Tick.db (ag n)); [|by apply adds_same].
  destruct (SaveAssignment _ _ _ _ _ _) as [[[u|er] d'] fs']; by apply adds_same.
Qed.

Lemma launch_adds e flags n : adds n (launch_installer p e flags n).
Proof.
  unfold launch_installer. destruct (reinstall (me p) (b_launched e) flags) as [l [c|]]; by eapply (adds_one _ _ (CallLaunch l)).
Qed.

Lemma action_adds e a n : adds n (handlePendingAction p e a n).
Proof.
  unfold handlePendingAction. set (n1 := note_call _ n). assert (adds n n1) as G1 by by eapply adds_one.
  destruct (negb _); [exact G1|]. destruct (decide _); [eapply adds_trans; [exact G1|apply launch_adds]|].
  destruct (decide _); [|exact G1]. unfold applyModuleActions.
  destruct (moduleActionFlags _); [exact G1|]. eapply adds_trans; [exact G1|apply launch_adds].
Qed.

Lemma apply_response_adds e resp s r n : adds n (apply_response p e resp s r n).
Proof.
  unfold apply_response. set (conf := negb _). set (n1 := if conf then set_status _ n else n).
  set (n2 := if 0 <? _ then set_interval _ n1 else n1).
  set (n3 := match hb_ServerTime resp with Some t => _ | None => n2 end).
  set (n4 := if decide (hb_ProbeHash resp = "") then n3 else _).
  set (n5 := match hb_Events resp with [] => n4 | _ => _ end).
  set (n6 := if conf then set_ready n5 else n5).
  assert (adds n n3) as G3 by (subst n3 n2 n1; destruct (0 <? _), (hb_ServerTime resp), conf; by apply adds_same).
  assert (adds n3 n4) as G4 by (subst n4; destruct (decide _); [by apply adds_same|apply sync_adds]).
  assert (adds n4 n6) as G6 by (subst n6 n5; destruct (hb_Events resp), conf; by apply adds_same).
  pose proof (adds_trans _ _ _ (adds_trans _ _ _ G3 G4) G6) as G.
  destruct (decide (hb_Command resp = "delete")); [exact G|].
  destruct (hb_PendingAction resp); [|exact G]. eapply adds_trans; [exact G|apply action_adds].
Qed.

Lemma iterate_adds ev n : adds n (iterate p ev n).
Proof.
  unfold iterate. destruct (exited n); [by apply adds_same|]. destruct ev as [e|w|w].
  - unfold beat. pose proof (exchange_adds e n) as Hq. destruct (exchange p e n) as [[[resp k]|] n1]; cbn [snd] in Hq; [|exact Hq].
    eapply adds_trans; [exact Hq|apply apply_response_adds].
  - unfold scheduler_tick. destruct (gate_open n); by apply adds_same.
  - unfold maintenance_pass. destruct (Tick.db (ag n)); [|by apply adds_same].
    destruct (Maintain _ _ _ _ _ _ _) as [[r d'] fs']. by apply adds_same.
Qed.

Lemma run_honest evs now s fs : Forall honest (calls (run_events p evs (start now s fs))).
Proof.
  assert (Forall honest (calls (start now s fs))) as Hs by (by rewrite (proj1 (start_calls p now s fs))).
  revert Hs. generalize (start now s fs) as n. induction evs as [|ev evs IH]; intros n Hn; [exact Hn|]. apply IH.
  destruct (iterate_adds ev n) as (cs & -> & Hc). by apply Forall_app.
Qed.
End uploads.

(** Every module uploaded is one the node had reported, under exactly the hash
    it had reported, and the bytes uploaded are the ones that hash to it; so a
    server that stores what it is sent recognises the next heartbeat. *)
Theorem uploads_match_reports `{NetIP} `{Checkers} compile order unmarshal sha256_hex
    defaults dir toolsDir d limits r who version arch iter evs now s fs :
  (forall l, order l ≡ₚ l) ->
  build_registry compile order unmarshal sha256_hex defaults dir toolsDir d limits = Ok r -> iter ≡ₚ map_to_list r ->
  let n := run_events (registry_process who version arch iter r) evs (start now s fs) in
  forall rq ms, CallHeartbeat rq ∈ calls n -> CallUpload ms ∈ calls n ->
  Forall (fun up => up_ProberID up +:+ ":" +:+ up_FileHash up ∈ rq_Probers rq
                    /\ up_FileHash up = sha256_hex (up_YAML up)
                    /\ exists m, unmarshal (up_YAML up) = Some m /\ Name m = up_ProberID up
                                 /\ up_Manifest up = manifest_json (ToManifest m)) ms.
Proof.
  intros Hord Hb Hi n rq ms Hrq Hms. pose proof (run_honest (registry_process who version arch iter r) evs now s fs) as Hh.
  rewrite Forall_forall in Hh. pose proof (Hh _ Hrq) as H1. pose proof (Hh _ Hms) as H2. cbn in H1, H2.
  destruct (registry_overrides _ _ _ _ Hord _ _ _ _ _ _ Hb) as [_ Hraw].
  eapply Forall_impl; [exact H2|]. intros up (id & Hup). cbn in Hup.
  destruct (reg_RawYAML id r) as [[[raw hash] manifest]|] eqn:Er; [|done]. injection Hup as <-.
  destruct (Hraw _ _ _ _ Er) as (Hh' & _ & m & Hu & Hn & Hm). cbn [up_ProberID up_FileHash up_YAML up_Manifest fst snd].
  split_and!; [|done|exists m; by rewrite Hm]. rewrite H1. unfold ProberHashes. apply list_elem_of_fmap.
  unfold reg_RawYAML in Er. destruct (r !! id) as [en|] eqn:El; [|done]. injection Er as _ <- _.
  exists (id, en). split; [done|]. rewrite Hi. by apply elem_of_map_to_list.
Qed.

(** ** Witnesses *)

Definition demo_defaults : option (list dir_entry) := Some [mkEntry "tcp.yaml" false (Some "name: tcp")].
Definition demo_overrides : dir_state :=
  Present (Some [mkEntry "xray.yaml" false (Some "name: xray"); mkEntry "tcp.yml" false (Some "name: tcp")]).

Definition demo_build : result module_error Registry :=
  build_registry demo_compile demo_order demo_unmarshal demo_sha demo_defaults "/etc/modules.d" "/opt/tools" demo_overrides no_limits.
Definition demo_registry : Registry := match demo_build with Ok r => r | Err _ => ∅ end.

Definition start_command (c : checker) : list string :=
  match c with
  | Pooled m _ => match Pool m with Some p => match Start p with Some s => Command s | None => [] end | None => [] end
  | Single _ => []
  end.

Example demo_registry_gets :
  (start_command <$> Get "xray" demo_registry) = Some ["/opt/tools/xray"; "{{config_path}}"]
  /\ (checker_Type <$> Get "tcp" demo_registry) = Some "tcp" /\ Get "udp" demo_registry = None
  /\ Shutdown demo_registry = ["xray"].
Proof. vm_compute. done. Qed.

Lemma registry_overrides_witness :
  demo_build = Ok demo_registry
  /\ forall name raw hash manifest, reg_RawYAML name demo_registry = Some (raw, hash, manifest) -> hash = demo_sha raw.
Proof.
  assert (demo_build = Ok demo_registry) as Hb by (vm_compute; reflexivity).
  split; [exact Hb|]. intros name raw hash manifest Hr.
  exact (proj1 (proj2 (registry_overrides demo_compile demo_order demo_unmarshal demo_sha demo_order_perm
    demo_defaults "/etc/modules.d" "/opt/tools" demo_overrides no_limits demo_registry Hb) name raw hash manifest Hr)).
Defined.

Definition demo_linked : process := registry_process demo_identity "dev" "amd64" (map_to_list demo_registry) demo_registry.
Definition demo_calls : list call := calls (run_events demo_linked [Beat demo_beat] (start (unix_milli 8000) demo_settings [])).

(** The first heartbeat is answered with "tcp" missing. *)
Definition demo_first : HeartbeatRequest :=
  match demo_calls with CallHeartbeat rq :: _ => rq | _ => mkHeartbeatRequest "" "" "" "" [] "" (mkReport Health.zeroHealth "" "" "") 0 end.
Definition demo_uploaded : list ModuleUpload := match demo_calls with _ :: CallUpload ms :: _ => ms | _ => [] end.

Lemma uploads_match_reports_witness :
  up_ProberID <$> demo_uploaded = ["tcp"]
  /\ Forall (fun up => up_ProberID up +:+ ":" +:+ up_FileHash up ∈ rq_Probers demo_first
                       /\ up_FileHash up = demo_sha (up_YAML up)) demo_uploaded.
Proof.
  assert (demo_build = Ok demo_registry) as Hb by (vm_compute; reflexivity).
  assert (nth_error demo_calls 0 = Some (CallHeartbeat demo_first)) as E0 by (vm_compute; reflexivity).
  assert (nth_error demo_calls 1 = Some (CallUpload demo_uploaded)) as E1 by (vm_compute; reflexivity).
  split; [vm_compute; reflexivity|].
  apply nth_error_In, list_elem_of_In in E0. apply nth_error_In, list_elem_of_In in E1.
  unfold demo_calls, demo_linked in E0, E1. unfold demo_build in Hb.
  pose proof (uploads_match_reports demo_compile demo_order demo_unmarshal demo_sha
    demo_defaults "/etc/modules.d" "/opt/tools" demo_overrides no_limits demo_registry demo_identity "dev" "amd64"
    (map_to_list demo_registry) [Beat demo_beat] (unix_milli 8000) demo_settings [] demo_order_perm Hb
    (Permutation_refl _) demo_first demo_uploaded E0 E1) as Hu.
  refine (Forall_impl _ _ _ Hu _). intros up (H1 & H2 & _). exact (conj H1 H2).
Defined.
