(* ===== verification/Pool.v ===== *)
(** * Pooled checks

    [internal/module/pool.go] and [internal/portalloc]: a batch of checks is
    deduplicated, put in canonical order, cut into slots, and each slot is
    tested against one engine process that is kept warm while the same jobs
    come back.  Instances live in a heap and slots point into it, as the
    code's pointers do; every answer of the outside (ports, processes, files)
    is asked of the environment at its own step [k]. *)

From Stdlib Require Import ZArith Lia List Bool Ascii String Permutation Sorted.
From stdpp Require Import base tactics gmap strings list fin_maps sorting pretty.
From S2P Require Import PathHealth Prelude GoStrings Wire Netbind Checks Placeholder Schema Module Checker.

Open Scope string_scope.
Open Scope list_scope.
Open Scope Z_scope.

(** ** Data *)

Record pendingJob : Type := mkPending { pj_idx : nat; pj_key : string; pj_o : Options }.

Record poolJob : Type := mkPoolJob { idx : nat; key : string; opts : Options; port : Z }.

Record warmInstance : Type := mkWarm {
  jobsKey : string;
  jobs : list poolJob;
  refs : Z;
  retired : bool;
  stopped : bool
}.

Definition set_refs (n : Z) (w : warmInstance) := mkWarm (jobsKey w) (jobs w) n (retired w) (stopped w).
Definition set_retired (w : warmInstance) := mkWarm (jobsKey w) (jobs w) (refs w) true (stopped w).
Definition set_stopped (w : warmInstance) := mkWarm (jobsKey w) (jobs w) (refs w) (retired w) true.

(** What happened to the engines, and which jobs were put to the test. *)
Inductive pool_event : Type :=
| Started (p : nat) (js : list poolJob)
| StoppedEngine (p : nat)
| Tested (j : poolJob).

Record PoolChecker : Type := mkChecker {
  heap : gmap nat warmInstance;
  next : nat;
  slots : gmap nat nat;
  ports : gmap string Z;
  lastOk : gmap string bool;
  step : nat;
  trace : list pool_event
}.

Definition newPoolChecker : PoolChecker := mkChecker ∅ 0 ∅ ∅ ∅ 0 [].

Definition set_heap h c := mkChecker h (next c) (slots c) (ports c) (lastOk c) (step c) (trace c).
Definition set_slots s c := mkChecker (heap c) (next c) s (ports c) (lastOk c) (step c) (trace c).
Definition set_ports p c := mkChecker (heap c) (next c) (slots c) p (lastOk c) (step c) (trace c).
Definition set_lastOk l c := mkChecker (heap c) (next c) (slots c) (ports c) l (step c) (trace c).
Definition tick c := mkChecker (heap c) (next c) (slots c) (ports c) (lastOk c) (S (step c)) (trace c).
Definition emit e c := mkChecker (heap c) (next c) (slots c) (ports c) (lastOk c) (step c) (trace c ++ [e]).

(** [new]: a fresh pointer. *)
Definition alloc_instance (w : warmInstance) (c : PoolChecker) : nat * PoolChecker :=
  let p := next c in
  (p, emit (Started p (jobs w))
        (mkChecker (<[p := w]> (heap c)) (S p) (slots c) (ports c) (lastOk c) (step c) (trace c))).

(** Why an engine could not be had. *)
Inductive build_error : Type :=
| FilesError (e : string)                        (** plain *)
| EngineBuildError (phase message : string) (deadline : bool).

Definition build_text (e : build_error) : string :=
  match e with FilesError m => m | EngineBuildError phase m _ => "pool " +:+ phase +:+ ": " +:+ m end.

(** What the outside answers at its [k]-th question. *)
Record pool_world : Type := mkPoolWorld {
  pw_alloc : nat -> result string Z;               (** [portalloc.Alloc] *)
  pw_free : nat -> Z -> bool;                      (** [net.Listen] on a port *)
  pw_files : nat -> option string;                 (** [writeJobsJSON], [reservePath] *)
  pw_build : nat -> list poolJob -> option string; (** [build_config] *)
  pw_start : nat -> list poolJob -> engine_start;
  pw_deadline : nat -> bool;                       (** the start error is a deadline *)
  pw_alive : nat -> bool;                          (** the engine has not exited *)
  pw_accepts : nat -> Z -> bool;                   (** an inbound accepts *)
  pw_gate : nat -> poolJob -> bool;                (** [destgate.Wait] *)
  pw_params_file : nat -> option string;
  pw_run : nat -> poolJob -> process_run;
  pw_elapsed : nat -> duration;
  pw_cancelled : nat -> bool                       (** the batch's context, during the backoff *)
}.

Definition contains (s sub : string) : bool := PathHealth.contains (list_ascii_of_string s) (list_ascii_of_string sub).

Definition shouldBisect (e : build_error) (chunkSize : nat) : bool :=
  if (chunkSize <=? 1)%nat then false
  else match e with
       | FilesError _ => true
       | EngineBuildError phase m deadline =>
           if decide (phase = "build_config")
           then negb (contains m "not found" || contains m "exit status 127" || contains m "executable file not found")
           else negb (deadline || contains m "did not become ready")
       end.

Section pool.
Context `{NetIP} (ParseFloat : string -> option float64) (decode_object : string -> option params)
        (overflowed : float64 -> Z) (sha256_hex : string -> string)
        (params_json : params -> string) (* json.Marshal, empty on error *)
        (m : Module) (spec : PoolSpec) (limits : PoolLimits) (w : pool_world).

Definition pool_testConcurrency : Z := testConcurrency limits (TestConcurrency spec).
Definition pool_maxJobs : Z := maxJobsPerInstance limits (MaxJobsPerInstance spec).

Definition jobKey (o : Options) : string :=
  sha256_hex (o_Target o +:+ nul +:+ pretty (milliseconds (o_Timeout o)) +:+ nul +:+ params_json (o_Params o)
              +:+ nul +:+ Binding_String (o_Bind o)).

Definition job_line (j : poolJob) : string :=
  o_Target (opts j) +:+ nul +:+ pretty (milliseconds (o_Timeout (opts j))) +:+ nul +:+ pretty (port j)
  +:+ nul +:+ Binding_String (o_Bind (opts j)) +:+ nul +:+ params_json (o_Params (opts j)) +:+ String "010" "".

Definition hashJobs (js : list poolJob) : string := sha256_hex (concat_strings (map job_line js)).

(** ** Ports *)

(** At most 256 tries for a port nothing is pinned to. *)
Fixpoint allocateUniquePort (attempts : nat) (used : gset Z) (c : PoolChecker) : result string Z * PoolChecker :=
  match attempts with
  | O => (Err "no unique port after 256 attempts", c)
  | S n =>
      match pw_alloc w (step c) with
      | Err e => (Err e, tick c)
      | Ok p => if decide (p ∈ used) then allocateUniquePort n used (tick c) else (Ok p, tick c)
      end
  end.

Fixpoint allocateUniquePortInRange (candidates : list Z) (used : gset Z) (c : PoolChecker) : result string Z * PoolChecker :=
  match candidates with
  | [] => (Err "no free port in range", c)
  | p :: rest =>
      if decide (p ∈ used) then allocateUniquePortInRange rest used c
      else if pw_free w (step c) p then (Ok p, tick c) else allocateUniquePortInRange rest used (tick c)
  end.

Definition allocatePoolPort (used : gset Z) (c : PoolChecker) : result string Z * PoolChecker :=
  if (0 <? PortBase limits) && (0 <? PortSpan limits)
  then allocateUniquePortInRange (map (fun i => PortBase limits + Z.of_nat i) (List.seq 0 (Z.to_nat (PortSpan limits)))) used c
  else allocateUniquePort 256 used c.

Definition pinned (c : PoolChecker) : gset Z := list_to_set (map snd (map_to_list (ports c))).

(** A port for every job of a chunk: its pin, or a new one. *)
Fixpoint pin_jobs (used : gset Z) (chunk : list pendingJob) (c : PoolChecker) : result string (list poolJob) * PoolChecker :=
  match chunk with
  | [] => (Ok [], c)
  | p :: rest =>
      let mk port := mkPoolJob (pj_idx p) (pj_key p) (pj_o p) port in
      match ports c !! pj_key p with
      | Some port =>
          let '(r, c) := pin_jobs used rest c in
          (match r with Ok js => Ok (mk port :: js) | Err e => Err e end, c)
      | None =>
          match allocatePoolPort used c with
          | (Err e, c) => (Err e, c)
          | (Ok port, c) =>
              let '(r, c) := pin_jobs ({[port]} ∪ used) rest (set_ports (<[pj_key p := port]> (ports c)) c) in
              (match r with Ok js => Ok (mk port :: js) | Err e => Err e end, c)
          end
      end
  end.

Definition release_ports (live : gset string) (c : PoolChecker) : PoolChecker :=
  set_ports (filter (fun kp => fst kp ∈ live) (ports c)) c.

(** ** Engines *)

Definition healthyLocked (x : warmInstance) (c : PoolChecker) : bool * PoolChecker :=
  (pw_alive w (step c) && forallb (fun j => pw_accepts w (step c) (port j)) (jobs x), tick c).

(** The stop step, the kill and the removal of the files, once. *)
Definition teardownLocked (p : nat) (c : PoolChecker) : PoolChecker :=
  match heap c !! p with
  | Some x => if stopped x then c else emit (StoppedEngine p) (set_heap (<[p := set_stopped x]> (heap c)) c)
  | None => c
  end.

Definition buildAndStart (js : list poolJob) (k : string) (c : PoolChecker) : result build_error warmInstance * PoolChecker :=
  match pw_files w (step c) with
  | Some e => (Err (FilesError e), tick c)
  | None =>
      let c := tick c in
      let '(failure, c) :=
        match pw_build w (step c) js with
        | None => (None, tick c)
        | Some _ => (pw_build w (S (step c)) js, tick (tick c))
        end in
      match failure with
      | Some e => (Err (EngineBuildError "build_config" e false), c)
      | None =>
          (match startEngine (pw_start w (step c) js) with
           | Err e => Err (EngineBuildError "start" e (pw_deadline w (step c)))
           | Ok _ => Ok (mkWarm k js 0 false false)
           end, tick c)
      end
  end.

(** ** Testing *)

Definition shouldRetryTransient (retryKey : string) (r : CheckResult) (c : PoolChecker) : bool :=
  if bool_decide (retryKey = "") || r_Ok r || Skip r || negb (bool_decide (ErrorCode r = "")) then false
  else match lastOk c !! retryKey with
       | Some true =>
           contains (r_Error r) "jobprobe:"
           && (contains (r_Error r) "context deadline exceeded" || contains (r_Error r) "i/o timeout")
       | _ => false
       end.

(** The run step of a validated module always yields a result. *)
Definition run_job (k : nat) (j : poolJob) : CheckResult :=
  let o := opts j in
  default (Fail_ (Name m) (o_Target o) (o_Seq o) "panic")
    (runAndCollect ParseFloat decode_object overflowed m (pw_run w k j) (pw_elapsed w k) o).

Definition testJob (j : poolJob) (c : PoolChecker) : CheckResult * PoolChecker :=
  let o := opts j in
  let retryKey := if decide (o_ProbeID o = "") then key j else o_ProbeID o in
  let c' := tick c in
  if negb (pw_gate w (step c) j) then (mkCheckResult true false (Name m) (o_Target o) (o_Seq o) None "" "" [], c')
  else
    match pw_params_file w (step c') with
    | Some e => (Fail_ (Name m) (o_Target o) (o_Seq o) ("write params_json: " +:+ e), tick c')
    | None =>
        let c := emit (Tested j) (tick c') in
        let r := run_job (step c) j in
        let c := tick c in
        if shouldRetryTransient retryKey r c && negb (pw_cancelled w (step c)) then
          let r := run_job (step c) j in
          (r, set_lastOk (<[retryKey := r_Ok r]> (lastOk c)) (tick c))
        else (r, set_lastOk (<[retryKey := r_Ok r]> (lastOk c)) c)
    end.

(** [testJobs]: one goroutine per job, which share only the retry memory;
    jobs of one instance belong to different probes. *)
Fixpoint testJobs (js : list poolJob) (rs : list CheckResult) (c : PoolChecker) : list CheckResult * PoolChecker :=
  match js with
  | [] => (rs, c)
  | j :: rest => let '(r, c) := testJob j c in testJobs rest (<[idx j := r]> rs) c
  end.

Definition fail_all {A} (index : A -> nat) (options : A -> Options) (e : string) (l : list A) (rs : list CheckResult)
    : list CheckResult :=
  fold_left (fun rs a => <[index a := Fail_ (Name m) (o_Target (options a)) (o_Seq (options a)) e]> rs) l rs.

(** ** Slots *)

(** The outcome of [runSlot]'s critical section. *)
Inductive acquired : Type :=
| NoPort (e : string)
| NoEngine (js : list poolJob) (e : build_error)
| Serving (js : list poolJob).

Definition set_instance (p : nat) (f : warmInstance -> warmInstance) (c : PoolChecker) : PoolChecker :=
  set_heap (alter f p (heap c)) c.

(** The instance a slot holds is retired, and stopped unless it is in use. *)
Definition retire (slot p : nat) (c : PoolChecker) : PoolChecker :=
  let c := set_instance p set_retired c in
  match heap c !! p with
  | Some x => if refs x =? 0 then set_slots (delete slot (slots c)) (teardownLocked p c) else c
  | None => c
  end.

Definition build_slot (slot : nat) (js : list poolJob) (c : PoolChecker) : acquired * PoolChecker :=
  match buildAndStart js (hashJobs js) c with
  | (Err e, c) => (NoEngine js e, c)
  | (Ok x, c) =>
      let '(p, c) := alloc_instance (set_refs 1 x) c in
      (Serving js, set_slots (<[slot := p]> (slots c)) c)
  end.

Definition acquire (slot : nat) (chunk : list pendingJob) (live : gset string) (c : PoolChecker) : acquired * PoolChecker :=
  match pin_jobs (pinned c) chunk c with
  | (Err e, c) => (NoPort ("allocate port: " +:+ e), c)
  | (Ok js, c) =>
      let c := release_ports live c in
      match slots c !! slot with
      | Some p =>
          match heap c !! p with
          | Some x =>
              let '(reuse, c) :=
                if retired x || negb (bool_decide (jobsKey x = hashJobs js)) then (false, c) else healthyLocked x c in
              if reuse : bool then (Serving js, set_instance p (fun x => set_refs (refs x + 1) x) c)
              else build_slot slot js (retire slot p c)
          | None => build_slot slot js c
          end
      | None => build_slot slot js c
      end
  end.

Definition releaseSlot (slot : nat) (c : PoolChecker) : PoolChecker :=
  match slots c !! slot with
  | None => c
  | Some p =>
      let c := set_instance p (fun x => set_refs (refs x - 1) x) c in
      match heap c !! p with
      | Some x =>
          if retired x && (refs x <=? 0) then set_slots (delete slot (slots c)) (teardownLocked p c) else c
      | None => c
      end
  end.

(** ** Isolating a bad job *)

Fixpoint runEphemeral (fuel : nat) (js : list poolJob) (rs : list CheckResult) (c : PoolChecker)
    : list CheckResult * PoolChecker :=
  match buildAndStart js (hashJobs js) c with
  | (Err e, c) =>
      match fuel with
      | S f =>
          if (1 <? length js)%nat && shouldBisect e (length js) then
            let mid := (length js / 2)%nat in
            let '(rs, c) := runEphemeral f (take mid js) rs c in
            runEphemeral f (drop mid js) rs c
          else (fail_all idx opts (build_text e) js rs, c)
      | O => (fail_all idx opts (build_text e) js rs, c)
      end
  | (Ok x, c) =>
      let '(p, c) := alloc_instance x c in
      let '(rs, c) := testJobs js rs c in
      (rs, teardownLocked p c)
  end.

(** Pins of jobs another call released meanwhile are taken again. *)
Fixpoint repin (chunk : list pendingJob) (c : PoolChecker) : result string (list poolJob) * PoolChecker :=
  match chunk with
  | [] => (Ok [], c)
  | p :: rest =>
      let mk port := mkPoolJob (pj_idx p) (pj_key p) (pj_o p) port in
      match ports c !! pj_key p with
      | Some port => let '(r, c) := repin rest c in (match r with Ok js => Ok (mk port :: js) | Err e => Err e end, c)
      | None =>
          match pw_alloc w (step c) with
          | Err e => (Err e, tick c)
          | Ok port =>
              let '(r, c) := repin rest (set_ports (<[pj_key p := port]> (ports c)) (tick c)) in
              (match r with Ok js => Ok (mk port :: js) | Err e => Err e end, c)
          end
      end
  end.

Definition runBisected (chunk : list pendingJob) (rs : list CheckResult) (c : PoolChecker) : list CheckResult * PoolChecker :=
  match repin chunk c with
  | (Err e, c) => (fail_all pj_idx pj_o ("allocate port: " +:+ e) chunk rs, c)
  | (Ok js, c) => runEphemeral (length js) js rs c
  end.

Definition runSlot (slot : nat) (chunk : list pendingJob) (live : gset string) (rs : list CheckResult) (c : PoolChecker)
    : list CheckResult * PoolChecker :=
  match acquire slot chunk live c with
  | (NoPort e, c) => (fail_all pj_idx pj_o e chunk rs, c)
  | (NoEngine js e, c) =>
      if shouldBisect e (length chunk) then runBisected chunk rs c
      else (fail_all idx opts (build_text e) js rs, c)
  | (Serving js, c) =>
      let '(rs, c) := testJobs js rs c in (rs, releaseSlot slot c)
  end.

(** ** A batch *)

(** [groups[key] = append(groups[key], p)], the keys in order of appearance. *)
Fixpoint add_to_group (p : pendingJob) (gs : list (string * list pendingJob)) : list (string * list pendingJob) :=
  match gs with
  | [] => [(pj_key p, [p])]
  | (k, ps) :: rest => if decide (k = pj_key p) then (k, ps ++ [p]) :: rest else (k, ps) :: add_to_group p rest
  end.

Definition floor_timeout (o : Options) : Options := set_timeout (withMinTimeout m (o_Timeout o)) o.

(** Validation and grouping, from index [i] on. *)
Fixpoint sort_options (i : nat) (os : list Options) (rs : list CheckResult) (gs : list (string * list pendingJob))
    : list CheckResult * list (string * list pendingJob) :=
  match os with
  | [] => (rs, gs)
  | o :: rest =>
      let o := floor_timeout o in
      match validateRequest ParseFloat (Request m) (o_Params o) with
      | Err e => sort_options (S i) rest (<[i := Invalid (Name m) (o_Target o) (o_Seq o) (request_text e)]> rs) gs
      | Ok _ => sort_options (S i) rest rs (add_to_group (mkPending i (jobKey o) o) gs)
      end
  end.

Definition key_le (a b : pendingJob) : Prop := String.le (pj_key a) (pj_key b).
#[export] Instance key_le_dec : RelDecision key_le.
Proof. intros a b. unfold key_le. apply _. Defined.

Definition canonical (gs : list (string * list pendingJob)) : list pendingJob :=
  merge_sort key_le (omap (fun g => head (snd g)) gs).

Fixpoint run_slots (slot : nat) (cs : list (list pendingJob)) (live : gset string) (rs : list CheckResult) (c : PoolChecker)
    : list CheckResult * PoolChecker :=
  match cs with
  | [] => (rs, c)
  | chunk :: rest => let '(rs, c) := runSlot slot chunk live rs c in run_slots (S slot) rest live rs c
  end.

Definition zero_result : CheckResult := mkCheckResult false false "" "" 0 None "" "" [].

Definition set_seq (seq : Z) (r : CheckResult) : CheckResult :=
  mkCheckResult (Skip r) (r_Ok r) (r_Type r) (r_Target r) seq (LatencyMs r) (r_Error r) (ErrorCode r) (Extra r).

(** Every duplicate gets its group's answer under its own number. *)
Definition fan_out (rs : list CheckResult) (g : string * list pendingJob) : list CheckResult :=
  match snd g with
  | [] => rs
  | first :: dups =>
      let answer := default zero_result (rs !! pj_idx first) in
      fold_left (fun rs d => <[pj_idx d := set_seq (o_Seq (pj_o d)) answer]> rs) dups rs
  end.

Definition CheckBatch_ (os : list Options) (c : PoolChecker) : list CheckResult * PoolChecker :=
  let '(rs, gs) := sort_options 0 os (replicate (length os) zero_result) [] in
  match canonical gs with
  | [] => (rs, c)
  | pending =>
      let live := list_to_set (map pj_key pending) in
      let '(rs, c) := run_slots 0 (chunks (Z.to_nat pool_maxJobs) pending) live rs c in
      (fold_left fan_out gs rs, c)
  end.

Definition pool_Check (o : Options) (c : PoolChecker) : CheckResult * PoolChecker :=
  let '(rs, c) := CheckBatch_ [o] c in
  (default (Fail_ (Name m) (o_Target o) (o_Seq o) "pool: no result produced") (head rs), c).

(** [Close], at shutdown: instances in use are left to their last tester. *)
Definition close_slot (c : PoolChecker) (sp : nat * nat) : PoolChecker :=
  match heap c !! snd sp with
  | Some x =>
      if refs x =? 0 then set_slots (delete (fst sp) (slots c)) (teardownLocked (snd sp) c)
      else set_instance (snd sp) set_retired c
  | None => c
  end.

Definition Close (c : PoolChecker) : PoolChecker := fold_left close_slot (map_to_list (slots c)) c.
End pool.
