(* ===== verification/PoolDemo.v ===== *)
(** * A concrete pool

    The module, options and environments the pool's witnesses and examples
    evaluate: engines that always come up, ports counted up from 40000 and
    run steps that measure 12.5 ms. *)

From Stdlib Require Import ZArith List Bool Ascii String.
From stdpp Require Import base strings list gmap fin_maps.
From S2P Require Import Prelude GoStrings Wire Netbind Checks Placeholder Schema Module Checker Pool.

Open Scope string_scope.
Open Scope list_scope.
Open Scope Z_scope.

Definition pool_demo_spec : PoolSpec :=
  mkPool 2 16 (demo_step ["poolconfig"; "{{jobs_json}}"; "{{config_path}}"]) (demo_step ["xray"; "{{config_path}}"]) None.

Definition pool_demo_module : Module := with_steps None (demo_step ["jobprobe"; "{{port}}"]) None (Some pool_demo_spec) (demo_checked None None).

Definition pool_demo_limits : PoolLimits := mkPoolLimits 0 0 0 0.

(** [json.Marshal] of the one parameter the demo module takes. *)
Definition demo_json (ps : params) : string :=
  match ps with
  | [("method", VString v)] => if no_nul v then v else "{}"
  | _ => "{}"
  end.

Lemma demo_json_no_nul ps : no_nul (demo_json ps) = true.
Proof.
  unfold demo_json. destruct ps as [|[k v] ps]; [done|].
  repeat case_match; done.
Qed.

(** Everything works; [refuses] are the jobs no engine config may hold. *)
Definition pool_demo_world (refuses : poolJob -> bool) : pool_world := {|
  pw_alloc k := Ok (40000 + Z.of_nat k);
  pw_free _ _ := true;
  pw_files _ := None;
  pw_build _ js := if existsb refuses js then Some "bad job" else None;
  pw_start _ _ := BecomesReady;
  pw_deadline _ := false;
  pw_alive _ := true;
  pw_accepts _ _ := true;
  pw_gate _ _ := true;
  pw_params_file _ := None;
  pw_run _ _ := demo_run "{latency_ms: 12.5}";
  pw_elapsed _ := 20 * millisecond;
  pw_cancelled _ := false
|}.

Definition all_good : pool_world := pool_demo_world (fun _ => false).

Definition pool_demo_option (target : string) (seq : Z) : Options :=
  mkOptions target (5 * second) "" "" seq [("method", VString "GET")] (mkBinding None "wan").

Definition pool_demo_job (target : string) : pendingJob :=
  let o := pool_demo_option target 0 in mkPending 0 (jobKey (fun s => s) demo_json o) o.

Notation demo_acquire := (@acquire demoNetIP (fun s => s) demo_json pool_demo_limits).
Notation demo_testJobs := (@testJobs demoNetIP demo_float demo_object (fun _ => 0) pool_demo_module).
Notation demo_batch :=
  (@CheckBatch_ demoNetIP demo_float demo_object (fun _ => 0) (fun s => s) demo_json pool_demo_module pool_demo_spec pool_demo_limits).

(** Which engines were started, and which stopped. *)
Definition engines (c : PoolChecker) : list (nat * bool) :=
  omap (fun p => (fun x => (p, stopped x)) <$> heap c !! p) (List.seq 0 (next c)).
