(* ===== verification/PoolBatch.v ===== *)
(** * What a batch answers

    Every option given to [CheckBatch] is answered, in its place, by the one
    physical run of its job: deduplication, the canonical order, the slots,
    the failure paths and the fan-out lose and duplicate nothing. *)

From Stdlib Require Import ZArith Lia List Bool Ascii String Permutation Sorted.
From stdpp Require Import base tactics gmap strings list fin_maps sorting pretty.
From S2P Require Import Prelude GoStrings Wire Netbind Checks Placeholder Schema Module Checker Pool PoolDemo.

Open Scope string_scope.
Open Scope list_scope.
Open Scope Z_scope.

(** Membership in lists built with [::] and [++]. *)
#[local] Ltac in_lists :=
  intros; cbn [map app] in *;
  repeat match goal with
    | H : context [_ ∈ _ ++ _] |- _ => rewrite elem_of_app in H
    | H : context [_ ∈ _ :: _] |- _ => rewrite elem_of_cons in H
    | |- _ => rewrite elem_of_app || rewrite elem_of_cons
    end; tauto.

Section batch.
Context `{NetIP} (ParseFloat : string -> option float64) (decode_object : string -> option params)
        (overflowed : float64 -> Z) (sha256_hex : string -> string) (params_json : params -> string)
        (m : Module) (spec : PoolSpec) (limits : PoolLimits) (w : pool_world).

Notation jobKey' := (jobKey sha256_hex params_json).
Notation hashJobs' := (hashJobs sha256_hex params_json).
Notation testJob' := (testJob ParseFloat decode_object overflowed m w).
Notation testJobs' := (testJobs ParseFloat decode_object overflowed m w).
Notation runEphemeral' := (runEphemeral ParseFloat decode_object overflowed sha256_hex params_json m w).
Notation runBisected' := (runBisected ParseFloat decode_object overflowed sha256_hex params_json m w).
Notation runSlot' := (runSlot ParseFloat decode_object overflowed sha256_hex params_json m limits w).
Notation run_slots' := (run_slots ParseFloat decode_object overflowed sha256_hex params_json m limits w).
Notation acquire' := (acquire sha256_hex params_json limits w).
Notation sort_options' := (sort_options ParseFloat sha256_hex params_json m).
Notation CheckBatch' := (CheckBatch_ ParseFloat decode_object overflowed sha256_hex params_json m spec limits w).

(** ** Jobs put to the test *)

Definition tested (t : list pool_event) : list poolJob :=
  omap (fun e => match e with Tested j => Some j | _ => None end) t.

(** [c'] follows [c] by testing jobs among [js], each at most once, in order. *)
Definition tests (js : list poolJob) (c c' : PoolChecker) : Prop :=
  exists ks, tested (trace c') = tested (trace c) ++ ks /\ sublist ks js.

Lemma tests_none c c' js : tested (trace c') = tested (trace c) -> tests js c c'.
Proof. intros E. exists []. rewrite app_nil_r. split; [done|apply sublist_nil_l]. Qed.

Lemma tests_app js ks c1 c2 c3 : tests js c1 c2 -> tests ks c2 c3 -> tests (js ++ ks) c1 c3.
Proof.
  intros (a & Ea & Ha) (b & Eb & Hb). exists (a ++ b). rewrite Eb, Ea, app_assoc. split; [done|].
  by apply sublist_app.
Qed.

Lemma tests_before js c1 c2 c3 : tested (trace c2) = tested (trace c1) -> tests js c2 c3 -> tests js c1 c3.
Proof. intros E (b & Eb & Hb). exists b. by rewrite Eb, E. Qed.

Lemma tests_after js c1 c2 c3 : tests js c1 c2 -> tested (trace c3) = tested (trace c2) -> tests js c1 c3.
Proof. intros (b & Eb & Hb) E. exists b. by rewrite E, Eb. Qed.

Lemma tested_other t e : (forall j, e <> Tested j) -> tested (t ++ [e]) = tested t.
Proof. intros He. unfold tested. rewrite omap_app. destruct e; cbn; rewrite ?app_nil_r; try done. by destruct (He j). Qed.

Lemma testJob_tests j c r c' : testJob' j c = (r, c') -> tests [j] c c'.
Proof.
  unfold testJob. cbv zeta. destruct (negb _); [intros [= <- <-]; by apply tests_none|].
  destruct (pw_params_file _ _); [intros [= <- <-]; by apply tests_none|].
  assert (tests [j] c (emit (Tested j) (tick (tick c)))) as He.
  { exists [j]. cbn. unfold tested. by rewrite omap_app. }
  destruct (_ && _); intros [= <- <-]; (eapply tests_after; [exact He|done]).
Qed.

Lemma testJobs_tests js rs c rs' c' : testJobs' js rs c = (rs', c') -> tests js c c'.
Proof.
  revert rs c. induction js as [|j js IH]; intros rs c; cbn [testJobs]; [intros [= <- <-]; by apply tests_none|].
  destruct (testJob' j c) as [r c1] eqn:E. apply testJob_tests in E. intros Hr%IH.
  by apply (tests_app [j] js _ c1).
Qed.

Lemma buildAndStart_trace js k c r c' :
  buildAndStart w js k c = (r, c') -> trace c' = trace c.
Proof.
  unfold buildAndStart. destruct (pw_files _ _); [by intros [= <- <-]|].
  destruct (pw_build w (step (tick c)) js); [destruct (pw_build _ _ _)|]; by intros [= <- <-].
Qed.

Lemma teardown_tested p c : tested (trace (teardownLocked p c)) = tested (trace c).
Proof. unfold teardownLocked. destruct (heap c !! p) as [x|]; [|done]. destruct (stopped x); [done|]. by apply tested_other. Qed.

Lemma alloc_tested x p c c' : alloc_instance x c = (p, c') -> tested (trace c') = tested (trace c).
Proof. unfold alloc_instance. intros [= <- <-]. by apply tested_other. Qed.

(** ** Answers *)

Section answers.
Context (os : list Options).

(** What an option is answered: a result filed under its target and number,
    of an attempt when its parameters fit the module's form and of a refused
    request when they do not. *)
Definition answers (o : Options) (r : CheckResult) : Prop :=
  reports m o r
  /\ (request_ok ParseFloat (Request m) (o_Params o) -> ErrorCode r = "")
  /\ (~ request_ok ParseFloat (Request m) (o_Params o) -> r_Ok r = false /\ ErrorCode r = ErrorCodeInvalidParams).

(** [rs] has its option's answer at every place of [W]. *)
Definition answered (W : list nat) (rs : list CheckResult) : Prop :=
  length rs = length os
  /\ forall i o, i ∈ W -> os !! i = Some o -> exists r, rs !! i = Some r /\ answers o r.

(** A job that stands for the option at its place. *)
Definition stands (i : nat) (o' : Options) : Prop :=
  exists o, os !! i = Some o /\ o_Target o' = o_Target o /\ o_Seq o' = o_Seq o
    /\ request_ok ParseFloat (Request m) (o_Params o).

Lemma answered_write W rs i o' r : stands i o' -> attempted m o' r -> answered W rs -> answered (i :: W) (<[i := r]> rs).
Proof.
  intros (o & Ho & Et & Es & Hq) [Hr He] [Hl Hw]. split; [by rewrite length_insert|].
  intros j o1 Hj Ho1. destruct (decide (j = i)) as [->|Hne].
  - exists r. rewrite list_lookup_insert_eq by (rewrite Hl; by eapply lookup_lt_Some). split; [done|].
    rewrite Ho in Ho1. injection Ho1 as <-. unfold answers, reports in *. by rewrite <- Et, <- Es.
  - rewrite list_lookup_insert_ne by done. apply Hw; [|done]. by apply elem_of_cons in Hj as [?|?].
Qed.

Lemma answered_weaken W W' rs : (forall i, i ∈ W' -> i ∈ W) -> answered W rs -> answered W' rs.
Proof. intros Hs [Hl Hw]. split; [done|]. eauto. Qed.

Lemma run_job_attempted k j : attempted m (opts j) (run_job ParseFloat decode_object overflowed m w k j).
Proof.
  unfold run_job. destruct (runAndCollect _ _ _ _ _ _ _) as [r|] eqn:E; [|done]. by apply runAndCollect_reports in E.
Qed.

Lemma testJob_attempted j c : attempted m (opts j) (fst (testJob' j c)).
Proof.
  unfold testJob. cbv zeta. destruct (negb _); [done|]. destruct (pw_params_file _ _); [done|].
  destruct (_ && _); apply run_job_attempted.
Qed.

Definition job_stands (j : poolJob) : Prop := stands (idx j) (opts j).

Lemma testJobs_answered js rs c rs' c' W :
  Forall job_stands js -> testJobs' js rs c = (rs', c') -> answered W rs -> answered (map idx js ++ W) rs'.
Proof.
  intros Hj. revert rs c W. induction Hj as [|j js Hj Hjs IH]; intros rs c W; cbn [testJobs]; [by intros [= <- <-]|].
  pose proof (testJob_attempted j c) as Hr. destruct (testJob' j c) as [r c1]. cbn [fst] in Hr. intros E Ha.
  eapply IH in E; [|by eapply answered_write]. eapply answered_weaken; [|exact E].
  in_lists.
Qed.

Lemma fail_all_answered {A} (index : A -> nat) options e l rs W :
  Forall (fun a => stands (index a) (options a)) l -> answered W rs ->
  answered (map index l ++ W) (fail_all m index options e l rs).
Proof.
  intros Hl. revert rs W. induction Hl as [|a l Ha Hl IH]; intros rs W Hw; [exact Hw|].
  unfold fail_all in *. cbn [fold_left map]. apply (answered_weaken (map index l ++ index a :: W)).
  - in_lists.
  - apply IH. by apply (answered_write _ _ _ (options a)).
Qed.

Lemma runEphemeral_spec fuel js rs c rs' c' W :
  Forall job_stands js -> runEphemeral' fuel js rs c = (rs', c') -> answered W rs ->
  answered (map idx js ++ W) rs' /\ tests js c c'.
Proof.
  revert js rs c rs' c' W. induction fuel as [|f IH]; intros js rs c rs' c' W Hj; cbn [runEphemeral];
    destruct (buildAndStart w js (hashJobs' js) c) as [[x|e] c1] eqn:Eb; apply buildAndStart_trace in Eb.
  1, 3: destruct (alloc_instance x c1) as [p c2] eqn:Ea; apply alloc_tested in Ea;
    destruct (testJobs' js rs c2) as [rs1 c3] eqn:Et; intros [= <- <-] Ha; split; [by eapply testJobs_answered|];
    apply testJobs_tests in Et; eapply tests_before; [by rewrite Ea, Eb|]; eapply tests_after; [exact Et|apply teardown_tested].
  - intros [= <- <-] Ha. split; [by apply fail_all_answered|]. apply tests_none. by rewrite Eb.
  - destruct (_ && _).
    + set (mid := (length js / 2)%nat). destruct (runEphemeral' f (take mid js) rs c1) as [rs1 c2] eqn:E1.
      intros E2 Ha. eapply IH in E1 as [A1 T1]; [|by apply Forall_take|exact Ha].
      eapply IH in E2 as [A2 T2]; [|by apply Forall_drop|exact A1]. split.
      * eapply answered_weaken; [|exact A2]. intros i. rewrite <- (take_drop mid js) at 1.
        rewrite map_app, !elem_of_app. tauto.
      * rewrite <- (take_drop mid js). eapply tests_app; [|exact T2]. eapply tests_before; [|exact T1]. by rewrite Eb.
    + intros [= <- <-] Ha. split; [by apply fail_all_answered|]. apply tests_none. by rewrite Eb.
Qed.

(** ** One slot *)

Definition as_pending (j : poolJob) : pendingJob := mkPending (idx j) (key j) (opts j).

Lemma pin_jobs_spec used chunk c r c' :
  pin_jobs limits w used chunk c = (r, c') ->
  trace c' = trace c /\ forall js, r = Ok js -> map as_pending js = chunk.
Proof.
  assert (forall n u c0 r0 c1, allocateUniquePort w n u c0 = (r0, c1) -> trace c1 = trace c0) as A1.
  { induction n as [|n IH]; intros u c0 r0 c1; cbn; [by intros [= <- <-]|].
    destruct (pw_alloc w (step c0)); [|by intros [= <- <-]]. destruct (decide _); [by intros ->%IH|by intros [= <- <-]]. }
  assert (forall cs u c0 r0 c1, allocateUniquePortInRange w cs u c0 = (r0, c1) -> trace c1 = trace c0) as A2.
  { induction cs as [|p cs IH]; intros u c0 r0 c1; cbn; [by intros [= <- <-]|].
    destruct (decide _); [by intros ->%IH|]. destruct (pw_free _ _ _); [by intros [= <- <-]|by intros ->%IH]. }
  revert used c r c'. induction chunk as [|p chunk IH]; intros used c r c'; cbn [pin_jobs].
  { intros [= <- <-]. split; [done|]. by intros js [= <-]. }
  destruct (ports c !! pj_key p) as [port|].
  - destruct (pin_jobs limits w used chunk c) as [r1 c1] eqn:E. apply IH in E as [Et Ej]. intros [= <- <-]. split; [done|].
    destruct r1 as [js|]; [|done]. intros js' [= <-]. cbn [map]. rewrite (Ej js eq_refl). by destruct p.
  - destruct (allocatePoolPort limits w used c) as [[port|e] c1] eqn:Ea;
      assert (trace c1 = trace c) as Etr by (unfold allocatePoolPort in Ea; destruct (_ && _); eauto);
      [|intros [= <- <-]; done].
    destruct (pin_jobs _ _ _ chunk _) as [r1 c2] eqn:E. apply IH in E as [Et Ej]. intros [= <- <-].
    split; [by rewrite Et|]. destruct r1 as [js|]; [|done]. intros js' [= <-]. cbn [map]. rewrite (Ej js eq_refl). by destruct p.
Qed.

Lemma repin_spec chunk c r c' :
  repin w chunk c = (r, c') -> trace c' = trace c /\ forall js, r = Ok js -> map as_pending js = chunk.
Proof.
  revert c r c'. induction chunk as [|p chunk IH]; intros c r c'; cbn [repin].
  { intros [= <- <-]. split; [done|]. by intros js [= <-]. }
  destruct (ports c !! pj_key p) as [port|]; [|destruct (pw_alloc w (step c)) as [port|e]; [|by intros [= <- <-]]];
    (destruct (repin w chunk _) as [r1 c1] eqn:E; apply IH in E as [Et Ej]; intros [= <- <-]; split; [done|];
     destruct r1 as [js|]; [|done]; intros js' [= <-]; cbn [map]; rewrite (Ej js eq_refl); by destruct p).
Qed.

Lemma retire_tested slot p c : tested (trace (retire slot p c)) = tested (trace c).
Proof.
  unfold retire. cbv zeta. destruct (heap (set_instance _ _ _) !! p) as [x|]; [|done]. destruct (refs x =? 0); [|done].
  cbn [trace set_slots]. by rewrite teardown_tested.
Qed.

Lemma release_tested slot c : tested (trace (releaseSlot slot c)) = tested (trace c).
Proof.
  unfold releaseSlot. destruct (slots c !! slot) as [p|]; [|done]. cbv zeta.
  destruct (heap (set_instance _ _ _) !! p) as [x|]; [|done]. destruct (_ && _); [|done].
  cbn [trace set_slots]. by rewrite teardown_tested.
Qed.

Lemma build_slot_spec slot js c a c' :
  build_slot sha256_hex params_json w slot js c = (a, c') ->
  tested (trace c') = tested (trace c) /\ (a = Serving js \/ exists e, a = NoEngine js e).
Proof.
  unfold build_slot. destruct (buildAndStart _ _ _ _) as [[x|e] c1] eqn:E; apply buildAndStart_trace in E.
  - destruct (alloc_instance _ c1) as [p c2] eqn:Ea. apply alloc_tested in Ea. intros [= <- <-].
    cbn [trace set_slots]. split; [by rewrite Ea, E|by left].
  - intros [= <- <-]. split; [by rewrite E|right; by exists e].
Qed.

Lemma acquire_spec slot chunk live c a c' :
  acquire' slot chunk live c = (a, c') ->
  tested (trace c') = tested (trace c)
  /\ match a with NoPort _ => True | NoEngine js _ | Serving js => map as_pending js = chunk end.
Proof.
  unfold acquire. destruct (pin_jobs _ _ _ chunk c) as [r c1] eqn:E. apply pin_jobs_spec in E as [Et Ej].
  destruct r as [js|e]; [|intros [= <- <-]; split; [by rewrite Et|done]]. specialize (Ej js eq_refl). cbv zeta.
  set (c2 := release_ports live c1). assert (tested (trace c2) = tested (trace c)) as E2 by (cbn; by rewrite Et).
  assert (forall c3, tested (trace c3) = tested (trace c) -> build_slot sha256_hex params_json w slot js c3 = (a, c') ->
    tested (trace c') = tested (trace c) /\ match a with NoPort _ => True | NoEngine js _ | Serving js => map as_pending js = chunk end) as Hb.
  { intros c3 E3 Hb. apply build_slot_spec in Hb as [Et' Ha]. split; [congruence|]. destruct Ha as [->|[e ->]]; done. }
  destruct (slots c2 !! slot) as [p|]; [|by apply Hb]. destruct (heap c2 !! p) as [x|]; [|by apply Hb].
  destruct (if _ || _ then _ else _) as [reuse c3] eqn:Er.
  assert (tested (trace c3) = tested (trace c)) as E3 by (destruct (_ || _); injection Er as _ <-; done).
  destruct reuse; [intros [= <- <-]; done|]. apply Hb. by rewrite retire_tested.
Qed.

Definition chunk_stands (chunk : list pendingJob) : Prop := Forall (fun p => stands (pj_idx p) (pj_o p)) chunk.

Lemma jobs_stand js chunk : map as_pending js = chunk -> chunk_stands chunk -> Forall job_stands js /\ map idx js = map pj_idx chunk.
Proof.
  intros <- Hc. unfold chunk_stands in Hc. rewrite Forall_fmap in Hc. split; [exact Hc|]. by rewrite map_map.
Qed.

(** The keys of what is tested, in order. *)
Definition tests_keys (ks : list string) (c c' : PoolChecker) : Prop :=
  exists js, tested (trace c') = tested (trace c) ++ js /\ sublist (map key js) ks.

Lemma tests_as_keys js chunk c c' : map as_pending js = chunk -> tests js c c' -> tests_keys (map pj_key chunk) c c'.
Proof.
  intros <- (ks & E & Hs). exists ks. split; [done|]. rewrite map_map. by apply (sublist_fmap' key).
Qed.

Lemma runSlot_spec slot chunk live rs c rs' c' W :
  chunk_stands chunk -> runSlot' slot chunk live rs c = (rs', c') -> answered W rs ->
  answered (map pj_idx chunk ++ W) rs' /\ tests_keys (map pj_key chunk) c c'.
Proof.
  intros Hc. unfold runSlot. destruct (acquire' slot chunk live c) as [a c1] eqn:Ea. apply acquire_spec in Ea as [Et Ej].
  assert (forall c2, tested (trace c2) = tested (trace c) -> tests_keys (map pj_key chunk) c c2) as Hnone.
  { intros c2 E. exists []. rewrite app_nil_r. split; [done|apply sublist_nil_l]. }
  destruct a as [e|js e|js].
  - intros [= <- <-] Ha. split; [by apply fail_all_answered|by apply Hnone].
  - destruct (jobs_stand js chunk Ej Hc) as [Hj Hi]. destruct (shouldBisect _ _).
    + unfold runBisected. destruct (repin w chunk c1) as [r c2] eqn:Er. apply repin_spec in Er as [Et2 Ej2].
      destruct r as [js2|e2]; [|intros [= <- <-] Ha; split; [by apply fail_all_answered|apply Hnone; by rewrite Et2]].
      specialize (Ej2 js2 eq_refl). destruct (jobs_stand js2 chunk Ej2 Hc) as [Hj2 Hi2]. intros Hr Ha.
      eapply runEphemeral_spec in Hr as [A T]; [|exact Hj2|exact Ha]. rewrite Hi2 in A. split; [exact A|].
      eapply tests_as_keys; [exact Ej2|]. eapply tests_before; [|exact T]. by rewrite Et2.
    + intros [= <- <-] Ha. rewrite <- Hi. split; [by apply fail_all_answered|by apply Hnone].
  - destruct (jobs_stand js chunk Ej Hc) as [Hj Hi]. destruct (testJobs' js rs c1) as [rs1 c2] eqn:Er.
    intros [= <- <-] Ha. pose proof (testJobs_tests _ _ _ _ _ Er) as T. eapply testJobs_answered in Er; [|exact Hj|exact Ha].
    rewrite Hi in Er. split; [exact Er|]. eapply tests_as_keys; [exact Ej|].
    eapply tests_after; [eapply tests_before; [exact Et|exact T]|apply release_tested].
Qed.

Lemma tests_keys_app ks1 ks2 c1 c2 c3 : tests_keys ks1 c1 c2 -> tests_keys ks2 c2 c3 -> tests_keys (ks1 ++ ks2) c1 c3.
Proof.
  intros (a & Ea & Ha) (b & Eb & Hb). exists (a ++ b). rewrite Eb, Ea, app_assoc. split; [done|].
  rewrite map_app. by apply sublist_app.
Qed.

Lemma run_slots_spec slot cs live rs c rs' c' W :
  chunk_stands (concat cs) -> run_slots' slot cs live rs c = (rs', c') -> answered W rs ->
  answered (map pj_idx (concat cs) ++ W) rs' /\ tests_keys (map pj_key (concat cs)) c c'.
Proof.
  revert slot rs c W. induction cs as [|chunk cs IH]; intros slot rs c W Hc; cbn [run_slots concat].
  - intros [= <- <-] Ha. split; [done|]. exists []. rewrite app_nil_r. split; [done|apply sublist_nil_l].
  - destruct (runSlot' slot chunk live rs c) as [rs1 c1] eqn:E. intros Hr Ha. cbn [concat] in Hc.
    apply Forall_app in Hc as [H1 H2]. eapply runSlot_spec in E as [A1 T1]; [|exact H1|exact Ha].
    eapply IH in Hr as [A2 T2]; [|exact H2|exact A1]. split.
    + eapply answered_weaken; [|exact A2]. intros i. rewrite map_app, !elem_of_app. tauto.
    + rewrite map_app. by eapply tests_keys_app.
Qed.

(** ** Grouping *)

(** The jobs of the options whose parameters fit, and the others' answers. *)
Fixpoint valid_jobs (i : nat) (l : list Options) : list pendingJob :=
  match l with
  | [] => []
  | o :: rest =>
      match validateRequest ParseFloat (Request m) (o_Params o) with
      | Ok _ => mkPending i (jobKey' (floor_timeout m o)) (floor_timeout m o) :: valid_jobs (S i) rest
      | Err _ => valid_jobs (S i) rest
      end
  end.

Fixpoint refuse_invalid (i : nat) (l : list Options) (rs : list CheckResult) : list CheckResult :=
  match l with
  | [] => rs
  | o :: rest =>
      match validateRequest ParseFloat (Request m) (o_Params o) with
      | Ok _ => refuse_invalid (S i) rest rs
      | Err e => refuse_invalid (S i) rest (<[i := Invalid (Name m) (o_Target o) (o_Seq o) (request_text e)]> rs)
      end
  end.

Definition group (ps : list pendingJob) (gs : list (string * list pendingJob)) :=
  fold_left (fun gs p => add_to_group p gs) ps gs.

Lemma sort_options_eq i l rs gs :
  sort_options' i l rs gs = (refuse_invalid i l rs, group (valid_jobs i l) gs).
Proof.
  revert i rs gs. induction l as [|o l IH]; intros i rs gs; cbn [sort_options valid_jobs refuse_invalid]; [done|].
  change (o_Params (floor_timeout m o)) with (o_Params o).
  destruct (validateRequest _ _ _); by rewrite IH.
Qed.

Definition groups_ok (gs : list (string * list pendingJob)) : Prop :=
  NoDup (map fst gs) /\ Forall (fun g => snd g <> [] /\ Forall (fun p => pj_key p = fst g) (snd g)) gs.

Lemma add_to_group_keys p gs k : k ∈ map fst (add_to_group p gs) <-> k = pj_key p \/ k ∈ map fst gs.
Proof.
  induction gs as [|[k' ps] gs IH]; cbn [add_to_group].
  - cbn. rewrite list_elem_of_singleton, elem_of_nil. tauto.
  - destruct (decide (k' = pj_key p)) as [->|]; cbn; rewrite !elem_of_cons; [tauto|]. rewrite IH. tauto.
Qed.

Lemma add_to_group_ok p gs : groups_ok gs -> groups_ok (add_to_group p gs).
Proof.
  unfold groups_ok. induction gs as [|[k ps] gs IH]; cbn [add_to_group].
  - intros _. split; [repeat constructor; by intros ?%elem_of_nil|]. repeat constructor; cbn; done.
  - cbn. rewrite NoDup_cons, Forall_cons. intros [[Hn Hnd] [[Hne Hk] Hgs]].
    destruct (decide (k = pj_key p)) as [->|Hne']; cbn; rewrite NoDup_cons, Forall_cons.
    + split_and!; try done; [by destruct ps|]. cbn. apply Forall_app. split; [done|by repeat constructor].
    + destruct (IH (conj Hnd Hgs)) as [H1 H2]. split_and!; try done.
      rewrite add_to_group_keys. intros [->|?]; done.
Qed.

Lemma add_to_group_perm p gs : concat (map snd (add_to_group p gs)) ≡ₚ concat (map snd gs) ++ [p].
Proof.
  induction gs as [|[k ps] gs IH]; cbn [add_to_group]; [done|]. destruct (decide _); cbn.
  - rewrite <- !app_assoc. apply Permutation_app_head, Permutation_app_comm.
  - rewrite <- app_assoc. by apply Permutation_app_head.
Qed.

Lemma group_spec ps gs : groups_ok gs -> groups_ok (group ps gs) /\ concat (map snd (group ps gs)) ≡ₚ concat (map snd gs) ++ ps.
Proof.
  revert gs. induction ps as [|p ps IH]; intros gs Hg; [by rewrite app_nil_r|]. cbn [group fold_left].
  destruct (IH (add_to_group p gs)) as [H1 H2]; [by apply add_to_group_ok|]. split; [done|].
  unfold group in H2. rewrite H2, add_to_group_perm, <- app_assoc. done.
Qed.

Lemma valid_jobs_elem i l p :
  p ∈ valid_jobs i l ->
  exists o, (i <= pj_idx p)%nat /\ l !! (pj_idx p - i)%nat = Some o /\ pj_o p = floor_timeout m o
    /\ pj_key p = jobKey' (floor_timeout m o) /\ request_ok ParseFloat (Request m) (o_Params o).
Proof.
  revert i. induction l as [|o l IH]; intros i; cbn [valid_jobs]; [by intros ?%elem_of_nil|].
  assert (p ∈ valid_jobs (S i) l -> exists o', (i <= pj_idx p)%nat /\ (o :: l) !! (pj_idx p - i)%nat = Some o'
    /\ pj_o p = floor_timeout m o' /\ pj_key p = jobKey' (floor_timeout m o')
    /\ request_ok ParseFloat (Request m) (o_Params o')) as Hrest.
  { intros (o' & Hi & Hl & Hr)%IH. exists o'. split; [lia|].
    replace (pj_idx p - i)%nat with (S (pj_idx p - S i)) by lia. done. }
  pose proof (validateRequest_Ok ParseFloat (Request m) (o_Params o)) as Hq.
  destruct (validateRequest _ _ _) as [[]|]; [|exact Hrest]. intros [->|Hin]%elem_of_cons; [|auto].
  exists o. cbn. rewrite Nat.sub_diag. split_and!; [lia|done..|by apply Hq].
Qed.

Lemma valid_jobs_complete i l k o :
  l !! k = Some o -> request_ok ParseFloat (Request m) (o_Params o) ->
  mkPending (i + k) (jobKey' (floor_timeout m o)) (floor_timeout m o) ∈ valid_jobs i l.
Proof.
  revert i k. induction l as [|o1 l IH]; intros i [|k] Hk Hr; cbn in Hk; [done|done|..].
  - injection Hk as ->. cbn [valid_jobs]. apply validateRequest_Ok in Hr. rewrite Hr, Nat.add_0_r. by left.
  - cbn [valid_jobs]. replace (i + S k)%nat with (S i + k)%nat by lia. destruct (validateRequest _ _ _); [right|]; by apply IH.
Qed.

Lemma valid_jobs_idx_lt i l : Forall (fun p => (i <= pj_idx p)%nat) (valid_jobs i l).
Proof. apply Forall_forall. intros p Hp%valid_jobs_elem. by destruct Hp as (? & ? & _). Qed.

Lemma valid_jobs_nodup i l : NoDup (map pj_idx (valid_jobs i l)).
Proof.
  revert i. induction l as [|o l IH]; intros i; cbn [valid_jobs]; [constructor|].
  destruct (validateRequest _ _ _); [|done]. cbn. apply NoDup_cons. split; [|done].
  intros (p & E & Hp)%list_elem_of_fmap. pose proof (valid_jobs_idx_lt (S i) l) as Hf.
  rewrite Forall_forall in Hf. specialize (Hf p Hp). lia.
Qed.

Fixpoint invalid_idx (i : nat) (l : list Options) : list nat :=
  match l with
  | [] => []
  | o :: rest =>
      match validateRequest ParseFloat (Request m) (o_Params o) with
      | Ok _ => invalid_idx (S i) rest
      | Err _ => i :: invalid_idx (S i) rest
      end
  end.

Lemma refuse_invalid_answered i l rs W :
  drop i os = l -> answered W rs -> answered (invalid_idx i l ++ W) (refuse_invalid i l rs).
Proof.
  revert i rs W. induction l as [|o l IH]; intros i rs W Hl Ha; cbn [invalid_idx refuse_invalid]; [done|].
  assert (os !! i = Some o) as Hi by (rewrite <- (Nat.add_0_r i), <- lookup_drop, Hl; done).
  assert (drop (S i) os = l) as Hd by (rewrite <- Nat.add_1_r, <- drop_drop, Hl; done).
  pose proof (validateRequest_Ok ParseFloat (Request m) (o_Params o)) as Hq.
  destruct (validateRequest _ _ _) as [[]|e]; [by apply IH|].
  apply (answered_weaken (invalid_idx (S i) l ++ i :: W)).
  { in_lists. }
  apply IH; [done|]. destruct Ha as [Hlen Hw]. split; [by rewrite length_insert|]. intros j o1 Hj Ho1.
  destruct (decide (j = i)) as [->|Hne].
  - rewrite list_lookup_insert_eq by (rewrite Hlen; by eapply lookup_lt_Some). eexists. split; [done|].
    rewrite Hi in Ho1. injection Ho1 as <-. split_and!; [done| |done]. intros Hok. by apply Hq in Hok.
  - rewrite list_lookup_insert_ne by done. apply Hw; [|done]. by apply elem_of_cons in Hj as [?|?].
Qed.

Lemma every_option i l k o :
  l !! k = Some o -> (i + k)%nat ∈ invalid_idx i l \/ exists p, p ∈ valid_jobs i l /\ pj_idx p = (i + k)%nat.
Proof.
  revert i k. induction l as [|o1 l IH]; intros i [|k] Hk; cbn in Hk; [done|done|..].
  - injection Hk as ->. cbn [invalid_idx valid_jobs]. rewrite Nat.add_0_r. destruct (validateRequest _ _ _).
    + right. eexists. split; [by left|done].
    + left. by left.
  - replace (i + S k)%nat with (S i + k)%nat by lia. cbn [invalid_idx valid_jobs].
    destruct (IH (S i) k Hk) as [H1|(p & Hp & E)], (validateRequest _ _ _);
      [left; done|left; by right|right; exists p; split; [by right|done]|right; by exists p].
Qed.

Lemma canonical_perm gs : canonical gs ≡ₚ omap (fun g => head (snd g)) gs.
Proof. apply merge_sort_Permutation. Qed.

Lemma heads_keys gs : groups_ok gs -> map pj_key (omap (fun g => head (snd g)) gs) = map fst gs.
Proof.
  unfold groups_ok. induction gs as [|[k ps] gs IH]; [done|]. cbn. rewrite NoDup_cons, Forall_cons.
  intros [[_ Hnd] [[Hne Hk] Hgs]]. destruct ps as [|p ps]; [done|]. cbn. apply Forall_cons in Hk as [-> _].
  f_equal. by apply IH.
Qed.

Lemma canonical_keys gs : groups_ok gs -> NoDup (map pj_key (canonical gs)) /\ map pj_key (canonical gs) ≡ₚ map fst gs.
Proof.
  intros Hg. assert (map pj_key (canonical gs) ≡ₚ map fst gs) as E by (by rewrite canonical_perm, heads_keys).
  split; [rewrite E; apply Hg|done].
Qed.

Lemma canonical_in gs p : p ∈ canonical gs -> p ∈ concat (map snd gs).
Proof.
  rewrite canonical_perm. intros (g & Hg & Hh)%list_elem_of_omap. apply list_elem_of_In, in_concat.
  exists (snd g). split; [apply in_map; by apply list_elem_of_In|]. destruct (snd g); [done|]. injection Hh as ->. by left.
Qed.

(** ** Fan-out *)

Definition same_job (p q : pendingJob) : Prop := pj_key p = pj_key q -> o_Target (pj_o p) = o_Target (pj_o q).

Lemma copy_answered first dups r o1 rs W :
  os !! pj_idx first = Some o1 -> request_ok ParseFloat (Request m) (o_Params o1) -> answers o1 r ->
  Forall (fun d => stands (pj_idx d) (pj_o d) /\ o_Target (pj_o d) = o_Target o1) dups ->
  answered W rs ->
  answered (map pj_idx dups ++ W) (fold_left (fun rs d => <[pj_idx d := set_seq (o_Seq (pj_o d)) r]> rs) dups rs).
Proof.
  intros Ho Hq [(Ht & Htg & _) [He _]] Hd. revert rs W. induction Hd as [|d dups [Hs Et] Hd IH]; intros rs W Ha; [done|].
  cbn [map fold_left]. apply (answered_weaken (map pj_idx dups ++ pj_idx d :: W)).
  { in_lists. }
  apply IH. apply (answered_write _ _ _ (pj_o d)); [done| |done]. split; [|by apply He].
  split_and!; [done|cbn; congruence|done].
Qed.

Lemma fan_out_answered gs rs W :
  Forall (fun g => snd g <> [] /\ Forall (fun p => pj_key p = fst g) (snd g)) gs ->
  Forall (fun p => stands (pj_idx p) (pj_o p)) (concat (map snd gs)) ->
  (forall p q, p ∈ concat (map snd gs) -> q ∈ concat (map snd gs) -> same_job p q) ->
  Forall (fun g => forall first, head (snd g) = Some first -> pj_idx first ∈ W) gs ->
  answered W rs -> answered (map pj_idx (concat (map snd gs)) ++ W) (fold_left fan_out gs rs).
Proof.
  intros Hk Hs Hsame Hh. revert rs W Hh. induction gs as [|[k ps] gs IH]; intros rs W Hh Ha; [done|].
  cbn [map concat snd fold_left] in *. apply Forall_cons in Hk as [[Hne Hk] Hks], Hh as [Hh Hhs].
  apply Forall_app in Hs as [Hs1 Hs2]. destruct ps as [|first dups]; [done|]. cbn [fst snd] in *.
  specialize (Hh first eq_refl). apply Forall_cons in Hs1 as [(o1 & Ho1 & Et1 & Es1 & Hq1) Hs1].
  destruct Ha as [Hlen Hw]. destruct (Hw _ _ Hh Ho1) as (r & Er & Hr).
  unfold fan_out at 2. cbn [snd]. rewrite Er. change (default zero_result (Some r)) with r.
  apply (answered_weaken (map pj_idx (concat (map snd gs)) ++ map pj_idx dups ++ W)).
  { cbn [app map]. rewrite map_app. intros j Hj. destruct (decide (j = pj_idx first)) as [->|]; in_lists. }
  apply IH; [done|done| | |].
  - intros p q Hp Hq. apply Hsame; apply elem_of_app; by right.
  - eapply Forall_impl; [exact Hhs|]. intros g Hg f Hf. apply elem_of_app. right. eauto.
  - apply (copy_answered first dups r o1); [done..| |done]. apply Forall_forall. intros d Hd. rewrite Forall_forall in Hs1.
    split; [by apply Hs1|]. rewrite <- Et1. apply (Hsame d first).
    + apply elem_of_app. left. by right.
    + apply elem_of_app. left. by left.
    + rewrite Forall_forall in Hk. rewrite (Hk d), (Hk first); [done|by left|by right].
Qed.

Lemma copies_lookup (r : CheckResult) dups (rs : list CheckResult) (j : nat) :
  fold_left (fun rs d => <[pj_idx d := set_seq (o_Seq (pj_o d)) r]> rs) dups rs !! j = rs !! j
  \/ (j ∈ map pj_idx dups /\ exists n, fold_left (fun rs d => <[pj_idx d := set_seq (o_Seq (pj_o d)) r]> rs) dups rs !! j = Some (set_seq n r)).
Proof.
  revert rs. induction dups as [|d dups IH]; intros rs; [by left|]. cbn [fold_left map].
  destruct (IH (<[pj_idx d:=set_seq (o_Seq (pj_o d)) r]> rs)) as [E|[Hin [n E]]]; rewrite E.
  - destruct (decide (j = pj_idx d)) as [->|Hne]; [|left; by rewrite list_lookup_insert_ne].
    destruct (decide (pj_idx d < length rs)%nat) as [Hl|Hl].
    + right. split; [by left|]. eexists. by rewrite list_lookup_insert_eq.
    + left. by rewrite list_insert_ge by lia.
  - right. split; [by right|]. by exists n.
Qed.

Lemma copies_at (r : CheckResult) dups (rs : list CheckResult) d :
  d ∈ dups -> (pj_idx d < length rs)%nat ->
  exists n, fold_left (fun rs d => <[pj_idx d := set_seq (o_Seq (pj_o d)) r]> rs) dups rs !! pj_idx d = Some (set_seq n r).
Proof.
  revert rs. induction dups as [|d1 dups IH]; intros rs Hin Hl; [by apply elem_of_nil in Hin|]. cbn [fold_left].
  destruct (copies_lookup r dups (<[pj_idx d1:=set_seq (o_Seq (pj_o d1)) r]> rs) (pj_idx d)) as [E|[_ E]]; [|exact E].
  apply elem_of_cons in Hin as [->|Hin]; [rewrite E, list_lookup_insert_eq by done; eauto|].
  apply IH; [done|]. by rewrite length_insert.
Qed.

Lemma fan_out_length gs (rs : list CheckResult) : length (fold_left fan_out gs rs) = length rs.
Proof.
  revert rs. induction gs as [|[k [|first dups]] gs IH]; intros rs; cbn [fold_left]; [done|by rewrite IH|].
  rewrite IH. unfold fan_out. cbn [snd]. generalize (default zero_result (rs !! pj_idx first)). intros r.
  revert rs. induction dups as [|d dups IHd]; intros rs; [done|]. cbn [fold_left]. rewrite IHd. apply length_insert.
Qed.

Lemma fan_out_other gs (rs : list CheckResult) (j : nat) : j ∉ map pj_idx (concat (map snd gs)) -> fold_left fan_out gs rs !! j = rs !! j.
Proof.
  revert rs. induction gs as [|[k ps] gs IH]; intros rs Hj; [done|]. cbn [fold_left map concat snd] in *.
  rewrite map_app, not_elem_of_app in Hj. destruct Hj as [H1 H2]. rewrite IH by done. unfold fan_out. cbn [snd].
  destruct ps as [|first dups]; [done|]. destruct (copies_lookup (default zero_result (rs !! pj_idx first)) dups rs j) as [E|[Hin _]]; [done|].
  destruct H1. by right.
Qed.

(** Jobs of one group are answered alike, up to the number. *)
Lemma fan_out_alike gs (rs : list CheckResult) g p :
  NoDup (map pj_idx (concat (map snd gs))) -> Forall (fun p => (pj_idx p < length rs)%nat) (concat (map snd gs)) ->
  g ∈ gs -> p ∈ snd g ->
  exists first, head (snd g) = Some first /\
    set_seq 0 <$> fold_left fan_out gs rs !! pj_idx p = set_seq 0 <$> rs !! pj_idx first.
Proof.
  revert rs. induction gs as [|[k ps] gs IH]; intros rs Hnd Hlt Hg Hp; [by apply elem_of_nil in Hg|].
  cbn [map concat snd fold_left] in *. rewrite map_app in Hnd. apply NoDup_app in Hnd as (Hn1 & Hdis & Hn2).
  apply Forall_app in Hlt as [Hl1 Hl2]. apply elem_of_cons in Hg as [->|Hg].
  - cbn [snd] in *. destruct ps as [|first dups]; [by apply elem_of_nil in Hp|]. exists first. split; [done|].
    rewrite fan_out_other by (apply Hdis; by apply list_elem_of_fmap_2). unfold fan_out. cbn [snd].
    apply Forall_cons in Hl1 as [Hlf Hld]. destruct (lookup_lt_is_Some_2 rs (pj_idx first) Hlf) as [r Er]. rewrite Er. change (default zero_result (Some r)) with r.
    apply elem_of_cons in Hp as [->|Hp].
    + destruct (copies_lookup r dups rs (pj_idx first)) as [->|[_ [n ->]]]; [by rewrite Er|done].
    + rewrite Forall_forall in Hld. destruct (copies_at r dups rs p Hp (Hld p Hp)) as [n ->]. done.
  - assert (length (fan_out rs (k, ps)) = length rs) as El by apply (fan_out_length [(k, ps)]).
    destruct (IH (fan_out rs (k, ps)) Hn2) as (first & Hf & E); [by rewrite El|done..|]. exists first. split; [done|]. rewrite E.
    f_equal. apply (fan_out_other [(k, ps)]). cbn. rewrite app_nil_r. intros Hin. apply (Hdis _ Hin).
    apply list_elem_of_fmap_2. apply list_elem_of_In, in_concat. exists (snd g). split; [apply in_map; by apply list_elem_of_In|].
    destruct (snd g); [done|]. injection Hf as ->. by left.
Qed.
End answers.

(** ** Keys *)

Lemma jobKey_inj o1 o2 :
  (forall a b, sha256_hex a = sha256_hex b -> a = b) -> (forall ps, no_nul (params_json ps) = true) ->
  no_nul (Binding_String (o_Bind o1)) = true -> no_nul (Binding_String (o_Bind o2)) = true ->
  jobKey' o1 = jobKey' o2 ->
  o_Target o1 = o_Target o2 /\ milliseconds (o_Timeout o1) = milliseconds (o_Timeout o2)
  /\ params_json (o_Params o1) = params_json (o_Params o2) /\ Binding_String (o_Bind o1) = Binding_String (o_Bind o2).
Proof.
  intros Hsha Hj H1 H2 E%Hsha. rewrite <- !append_assoc' in E. rewrite (append_assoc' _ nul), (append_assoc' (_ +:+ params_json _) nul) in E.
  apply nul_split in E as [E Eb]; [|done..]. rewrite (append_assoc' _ nul (params_json _)), (append_assoc' (_ +:+ pretty _) nul (params_json _)) in E.
  apply nul_split in E as [E Ep]; [|done..]. rewrite (append_assoc' _ nul), (append_assoc' (o_Target o2) nul) in E.
  apply nul_split in E as [Et Em]; [|apply pretty_Z_nul..]. apply (inj pretty) in Em. done.
Qed.

Lemma valid_stand os : Forall (fun p => stands os (pj_idx p) (pj_o p)) (valid_jobs 0 os).
Proof.
  apply Forall_forall. intros p Hp. apply valid_jobs_elem in Hp as (o & _ & Ho & -> & _ & Hq). rewrite Nat.sub_0_r in Ho.
  exists o. done.
Qed.

Lemma in_group (gs : list (string * list pendingJob)) p : p ∈ concat (map snd gs) -> exists g, g ∈ gs /\ p ∈ snd g.
Proof.
  intros Hp. apply list_elem_of_In, in_concat in Hp as (l & Hl & Hp). apply in_map_iff in Hl as (g & <- & Hg).
  exists g. split; by apply list_elem_of_In.
Qed.

Lemma same_group (gs : list (string * list pendingJob)) g h : groups_ok gs -> g ∈ gs -> h ∈ gs -> fst g = fst h -> g = h.
Proof.
  intros [Hnd _] Hg Hh E. apply list_elem_of_lookup in Hg as [i Hi], Hh as [j Hj].
  assert (i = j) as ->; [|congruence]. eapply NoDup_lookup; [exact Hnd| |].
  - rewrite list_lookup_fmap, Hi. done.
  - rewrite list_lookup_fmap, Hj. cbn. by rewrite E.
Qed.

Lemma fan_out_covers os gs rs :
  (forall a b, sha256_hex a = sha256_hex b -> a = b) -> (forall ps, no_nul (params_json ps) = true) ->
  Forall (fun o => no_nul (Binding_String (o_Bind o)) = true) os ->
  groups_ok gs -> concat (map snd gs) ≡ₚ valid_jobs 0 os ->
  answered os (map pj_idx (canonical gs) ++ invalid_idx 0 os) rs ->
  answered os (map pj_idx (concat (map snd gs)) ++ map pj_idx (canonical gs) ++ invalid_idx 0 os) (fold_left fan_out gs rs).
Proof.
  intros Hsha Hjson Hbind Hg Hperm Ha. apply fan_out_answered; [apply Hg|rewrite Hperm; apply valid_stand| | |exact Ha].
  - intros p q Hp Hq E. rewrite Hperm in Hp, Hq. rewrite Forall_forall in Hbind.
    apply valid_jobs_elem in Hp as (o1 & _ & H1 & -> & E1 & _), Hq as (o2 & _ & H2 & -> & E2 & _).
    rewrite E1, E2 in E. apply list_elem_of_lookup_2 in H1, H2.
    apply jobKey_inj in E as (E & _); [done..|by apply (Hbind o1)|by apply (Hbind o2)].
  - apply Forall_forall. intros g Hgin first Hf. apply elem_of_app. left. apply list_elem_of_fmap_2.
    rewrite canonical_perm. apply list_elem_of_omap. by exists g.
Qed.

Lemma alike_answers os gs rs i j oi oj :
  groups_ok gs -> concat (map snd gs) ≡ₚ valid_jobs 0 os -> length rs = length os ->
  os !! i = Some oi -> os !! j = Some oj ->
  request_ok ParseFloat (Request m) (o_Params oi) -> request_ok ParseFloat (Request m) (o_Params oj) ->
  jobKey' (floor_timeout m oi) = jobKey' (floor_timeout m oj) ->
  set_seq 0 <$> fold_left fan_out gs rs !! i = set_seq 0 <$> fold_left fan_out gs rs !! j.
Proof.
  intros Hg Hperm Hlen Hi Hj Hqi Hqj Ek.
  pose proof (valid_jobs_complete 0 os i oi Hi Hqi) as Hp. pose proof (valid_jobs_complete 0 os j oj Hj Hqj) as Hq. cbn [Nat.add] in Hp, Hq.
  rewrite <- Hperm in Hp, Hq. apply in_group in Hp as (g & Hgi & Hp), Hq as (h & Hhi & Hq).
  assert (forall g p, g ∈ gs -> p ∈ snd g -> pj_key p = fst g) as Hkey.
  { intros g0 p0 Hg0 Hp0. destruct Hg as [_ Hf]. rewrite Forall_forall in Hf. destruct (Hf g0 Hg0) as [_ Hk].
    rewrite Forall_forall in Hk. by apply Hk. }
  assert (g = h) as <-.
  { apply (same_group gs); [done..|]. rewrite <- (Hkey g _ Hgi Hp), <- (Hkey h _ Hhi Hq). exact Ek. }
  assert (NoDup (map pj_idx (concat (map snd gs)))) as Hnd by (rewrite Hperm; apply valid_jobs_nodup).
  assert (Forall (fun p => (pj_idx p < length rs)%nat) (concat (map snd gs))) as Hlt.
  { rewrite Hperm, Hlen. eapply Forall_impl; [apply valid_stand|]. intros p (o & Ho & _). by eapply lookup_lt_Some. }
  destruct (fan_out_alike gs rs g _ Hnd Hlt Hgi Hp) as (f1 & Hf1 & E1), (fan_out_alike gs rs g _ Hnd Hlt Hgi Hq) as (f2 & Hf2 & E2).
  cbn [pj_idx] in E1, E2. rewrite E1, E2. congruence.
Qed.

(** C10: Every option of a batch is answered, in its place.  The answer is filed
    under the option's own target and number; it is an invalid request exactly
    when the parameters do not fit the module's form; and options that are the
    same job (equal target, timeout, parameters and binding) get the same
    answer but for the number.  Each distinct job is put to the test at most
    once in the batch, whatever fails on the way: ports, engine builds, bad
    jobs isolated by bisection. *)
Theorem batch_answers os c rs c' :
  (forall a b, sha256_hex a = sha256_hex b -> a = b) -> (forall ps, no_nul (params_json ps) = true) ->
  Forall (fun o => no_nul (Binding_String (o_Bind o)) = true) os -> 0 < pool_maxJobs spec limits ->
  CheckBatch' os c = (rs, c') ->
  length rs = length os
  /\ (forall i o, os !! i = Some o -> exists r, rs !! i = Some r /\ answers o r)
  /\ (forall i j oi oj, os !! i = Some oi -> os !! j = Some oj ->
       request_ok ParseFloat (Request m) (o_Params oi) -> request_ok ParseFloat (Request m) (o_Params oj) ->
       jobKey' (floor_timeout m oi) = jobKey' (floor_timeout m oj) ->
       set_seq 0 <$> rs !! i = set_seq 0 <$> rs !! j)
  /\ exists js, tested (trace c') = tested (trace c) ++ js /\ NoDup (map key js).
Proof.
  intros Hsha Hjson Hbind Hmax. unfold CheckBatch_. rewrite sort_options_eq.
  set (rs0 := refuse_invalid 0 os _). set (gs := group (valid_jobs 0 os) []).
  destruct (group_spec (valid_jobs 0 os) []) as [Hg Hperm]; [by split; constructor|]. fold gs in Hg, Hperm. cbn [map concat app] in Hperm.
  assert (answered os (invalid_idx 0 os) rs0) as A0.
  { rewrite <- (app_nil_r (invalid_idx 0 os)). apply refuse_invalid_answered; [done|].
    split; [apply length_replicate|]. by intros i o Hi%elem_of_nil. }
  assert (Forall (fun p => stands os (pj_idx p) (pj_o p)) (concat (map snd gs))) as Hst by (rewrite Hperm; apply valid_stand).
  destruct (canonical_keys gs Hg) as [Hnd Hkeys].
  assert (forall rs1 c1, answered os (map pj_idx (canonical gs) ++ invalid_idx 0 os) rs1 ->
    tests_keys (map pj_key (canonical gs)) c c1 -> (fold_left fan_out gs rs1, c1) = (rs, c') ->
    length rs = length os /\ (forall i o, os !! i = Some o -> exists r, rs !! i = Some r /\ answers o r)
    /\ (forall i j oi oj, os !! i = Some oi -> os !! j = Some oj ->
         request_ok ParseFloat (Request m) (o_Params oi) -> request_ok ParseFloat (Request m) (o_Params oj) ->
         jobKey' (floor_timeout m oi) = jobKey' (floor_timeout m oj) -> set_seq 0 <$> rs !! i = set_seq 0 <$> rs !! j)
    /\ exists js, tested (trace c') = tested (trace c) ++ js /\ NoDup (map key js)) as Hfinish.
  { intros rs1 c1 A1 (js & Ej & Hjs) [= <- <-].
    pose proof (fan_out_covers os gs rs1 Hsha Hjson Hbind Hg Hperm A1) as A2. pose proof (proj1 A1) as Hlen.
    split_and!; [apply A2| | |].
    - intros i o Ho. apply A2; [|done]. destruct (every_option 0 os i o Ho) as [Hi|(p & Hp & E)]; cbn in *.
      + in_lists.
      + apply elem_of_app. left. rewrite <- E. apply list_elem_of_fmap_2. by rewrite Hperm.
    - intros i j oi oj. by apply (alike_answers os gs rs1).
    - exists js. split; [done|]. eapply sublist_NoDup; [exact Hnd|exact Hjs]. }
  destruct (canonical gs) as [|p ps] eqn:Ec.
  - intros E. apply (Hfinish rs0 c); [by apply A0|exists []; rewrite app_nil_r; split; [done|constructor]|].
    assert (gs = []) as -> by (destruct gs; [done|cbn in Hkeys; by apply Permutation_nil_l in Hkeys]). exact E.
  - destruct (run_slots' _ _ _ _ _) as [rs1 c1] eqn:Er. intros E. apply (Hfinish rs1 c1); [| |done].
    all: assert (concat (chunks (Z.to_nat (pool_maxJobs spec limits)) (p :: ps)) = p :: ps) as Hch by (apply chunks_concat; lia).
    all: eapply run_slots_spec in Er as [A T]; [rewrite Hch in A, T|rewrite Hch|exact A0]; try done.
    all: apply Forall_forall; intros q Hq; rewrite Forall_forall in Hst; apply Hst, canonical_in; by rewrite Ec.
Qed.
End batch.

(** ** Witness *)

(** Two jobs of one target (one physical run), a request the form refuses, and
    a job no engine accepts, which bisection leaves alone. *)
Definition demo_batch_options : list Options :=
  [pool_demo_option "b.org" 0; pool_demo_option "a.org" 1; pool_demo_option "b.org" 2;
   mkOptions "c.org" 0 "" "" 3 [] (mkBinding None ""); pool_demo_option "bad.org" 4].

Definition demo_batch_world : pool_world := pool_demo_world (fun j => bool_decide (o_Target (opts j) = "bad.org")).
Definition demo_batch_results : list CheckResult := fst (demo_batch demo_batch_world demo_batch_options newPoolChecker).

Example demo_batch_answers :
  map (fun r => (r_Target r, r_Seq r, r_Ok r, ErrorCode r)) demo_batch_results
  = [("b.org", 0, true, ""); ("a.org", 1, true, ""); ("b.org", 2, true, ""); ("c.org", 3, false, ErrorCodeInvalidParams);
     ("bad.org", 4, false, "")].
Proof. vm_compute. reflexivity. Qed.

Lemma batch_answers_witness :
  length demo_batch_results = 5%nat
  /\ set_seq 0 <$> demo_batch_results !! 0%nat = set_seq 0 <$> demo_batch_results !! 2%nat.
Proof.
  destruct (demo_batch demo_batch_world demo_batch_options newPoolChecker) as [rs c'] eqn:E.
  assert (demo_batch_results = rs) as -> by (unfold demo_batch_results; by rewrite E).
  pose proof (@batch_answers demoNetIP demo_float demo_object (fun _ => 0) (fun s => s) demo_json
    pool_demo_module pool_demo_spec pool_demo_limits demo_batch_world demo_batch_options newPoolChecker rs c'
    (fun a b H => H) demo_json_no_nul) as Hb.
  destruct Hb as (Hl & _ & Hsame & _); [repeat constructor|reflexivity|exact E|]. split; [exact Hl|].
  apply (Hsame 0%nat 2%nat (pool_demo_option "b.org" 0) (pool_demo_option "b.org" 2)); try reflexivity.
  all: apply validateRequest_Ok; vm_compute; reflexivity.
Defined.
