(* ===== verification/PoolWarm.v ===== *)
(** * The life of warm engines

    A pool as a state machine whose steps are the critical sections of
    [runSlot] and [releaseSlot]: who tests against which engine, which engines
    run, and what [Close] leaves.  The invariant covers every interleaving in
    which no rebuild replaces an engine that is in use, sequential batches
    among them; [overlapping_calls_lose_engines] shows what any other
    interleaving does. *)

From Stdlib Require Import ZArith Lia List Bool Ascii String.
From stdpp Require Import base tactics gmap strings list fin_maps relations.
From S2P Require Import Prelude GoStrings Wire Netbind Checks Placeholder Schema Module Checker Pool PoolDemo.

Open Scope string_scope.
Open Scope list_scope.
Open Scope Z_scope.

(** A tester: the slot it took and the instance it was given. *)
Abbreviation testers := (list (nat * nat)).

Definition users (p : nat) (T : testers) : Z := Z.of_nat (length (List.filter (fun sp => (snd sp =? p)%nat) T)).

Lemma users_app p T1 T2 : users p (T1 ++ T2) = users p T1 + users p T2.
Proof. unfold users. rewrite List.filter_app, length_app. lia. Qed.

Lemma users_cons p q s T : users p ((s, q) :: T) = (if decide (q = p) then 1 else 0) + users p T.
Proof.
  unfold users. cbn. destruct (decide (q = p)) as [->|Hne].
  - rewrite Nat.eqb_refl. cbn. lia.
  - by rewrite (proj2 (Nat.eqb_neq q p)).
Qed.

Lemma users_none p T : (forall s, (s, p) ∉ T) -> users p T = 0.
Proof.
  intros Hn. unfold users. rewrite filter_none; [done|]. intros [s q] Hin. cbn. apply Nat.eqb_neq. intros ->. by apply (Hn s).
Qed.

Lemma users_some p s T : (s, p) ∈ T -> 0 < users p T.
Proof.
  intros Hin. apply list_elem_of_split in Hin as (T1 & T2 & ->). rewrite users_app, users_cons, decide_True by done.
  unfold users. lia.
Qed.

Lemma users_pos p T : 0 < users p T -> exists s, (s, p) ∈ T.
Proof.
  intros Hu. destruct (decide (p ∈ map snd T)) as [Hin|Hn].
  - apply list_elem_of_fmap in Hin as ([s q] & -> & Hin). by exists s.
  - rewrite users_none in Hu; [lia|]. intros s Hin. apply Hn, list_elem_of_fmap. by exists (s, p).
Qed.

Lemma users_nonneg p T : 0 <= users p T.
Proof. unfold users. lia. Qed.

#[global] Instance users_perm p : Proper ((≡ₚ) ==> eq) (users p).
Proof.
  intros T1 T2 HT. unfold users. f_equal. apply Permutation_length. induction HT; cbn; repeat case_match; eauto using Permutation.
Qed.

(** What the steps preserve. *)
Record accounted (T : testers) (c : PoolChecker) : Prop := mkAccounted {
  ac_slot s p : slots c !! s = Some p ->
    exists x, heap c !! p = Some x /\ stopped x = false /\ refs x = users p T /\ (retired x = true -> 0 < users p T);
  ac_inj s1 s2 p : slots c !! s1 = Some p -> slots c !! s2 = Some p -> s1 = s2;
  ac_test s p : (s, p) ∈ T -> slots c !! s = Some p;
  ac_live p x : heap c !! p = Some x -> stopped x = false -> exists s, slots c !! s = Some p;
  ac_fresh p x : heap c !! p = Some x -> (p < next c)%nat
}.

(** The testers have no order. *)
Lemma accounted_perm T T' c : T ≡ₚ T' -> accounted T c -> accounted T' c.
Proof.
  intros HT [H1 H2 H3 H4 H5]. split; [|done| |done|done].
  - intros s p Hs. destruct (H1 s p Hs) as (x & ?). exists x. by rewrite <- HT.
  - intros s p. rewrite <- HT. apply H3.
Qed.

(** The part of the state it is about. *)
Definition core (c : PoolChecker) : gmap nat warmInstance * gmap nat nat * nat := (heap c, slots c, next c).

Lemma accounted_core T c c' : core c' = core c -> accounted T c -> accounted T c'.
Proof.
  unfold core. intros [= E1 E2 E3] [H1 H2 H3 H4 H5]. split; rewrite ?E1, ?E2, ?E3; eauto. 
Qed.

Lemma accounted_new : accounted [] newPoolChecker.
Proof. split; cbn; intros; simplify_map_eq; try done; by apply not_elem_of_nil in H. Qed.

(** Idle instances of a slot may go. *)
Lemma accounted_drop T T' c s p y :
  accounted T c -> slots c !! s = Some p -> stopped y = false ->
  users p T' = 0 -> (forall q, q <> p -> users q T' = users q T) -> (forall s' q, (s', q) ∈ T' -> slots c !! s' = Some q) ->
  accounted T' (set_slots (delete s (slots c)) (teardownLocked p (set_heap (<[p := y]> (heap c)) c))).
Proof.
  intros [H1 H2 _ H4 H5] Hs Hst Hu Hus H3. destruct (H1 s p Hs) as (x & Hx & _).
  unfold teardownLocked. cbn [heap set_heap]. rewrite lookup_insert_eq, Hst.
  split; cbn [heap slots next set_slots set_heap emit].
  - intros s1 q Hq. rewrite lookup_delete_Some in Hq. destruct Hq as [Hne Hq].
    assert (q <> p) by (intros ->; by apply Hne, (H2 s s1 p)). rewrite !lookup_insert_ne, Hus by done. by apply (H1 s1).
  - intros s1 s2 q. rewrite !lookup_delete_Some. intros [_ ?] [_ ?]. by eapply H2.
  - intros s1 q Hin. rewrite lookup_delete_Some. split; [|by apply H3]. intros <-. pose proof (H3 _ _ Hin) as E.
    rewrite Hs in E. injection E as <-. apply users_some in Hin. lia.
  - intros q z Hz Hzs. destruct (decide (q = p)) as [->|Hne].
    + rewrite lookup_insert_eq in Hz. by injection Hz as <-.
    + rewrite !lookup_insert_ne in Hz by done. destruct (H4 q z Hz Hzs) as [s' Hs']. exists s'. rewrite lookup_delete_Some.
      split; [|done]. intros ->. congruence.
  - intros q z Hz. destruct (decide (q = p)) as [->|Hne]; [by eapply H5|]. rewrite !lookup_insert_ne in Hz by done. by eapply H5.
Qed.

(** A change to a mapped instance that keeps it running. *)
Lemma accounted_update T T' c s p x y :
  accounted T c -> slots c !! s = Some p -> heap c !! p = Some x -> stopped y = false ->
  (forall q, q <> p -> users q T' = users q T) -> refs y = users p T' -> (retired y = true -> 0 < users p T') ->
  (forall s' q, (s', q) ∈ T' -> slots c !! s' = Some q) ->
  accounted T' (set_heap (<[p := y]> (heap c)) c).
Proof.
  intros [H1 H2 H3 H4 H5] Hs Hx Hst Hu Hr Hret HT. split; cbn [heap slots next set_heap]; [|done|done| |].
  - intros s1 q Hq. destruct (decide (q = p)) as [->|Hne]; [rewrite lookup_insert_eq; by exists y|].
    rewrite lookup_insert_ne by done. rewrite Hu by done. by apply (H1 s1).
  - intros q z Hz Hzs. destruct (decide (q = p)) as [->|Hne]; [by exists s|]. rewrite lookup_insert_ne in Hz by done. by eapply H4.
  - intros q z Hz. destruct (decide (q = p)) as [->|Hne]; [by eapply H5|]. rewrite lookup_insert_ne in Hz by done. by eapply H5.
Qed.

(** A fresh instance in a free slot. *)
Lemma accounted_build T c s y e :
  accounted T c -> slots c !! s = None -> refs y = 1 -> retired y = false -> stopped y = false ->
  let c1 := emit e (mkChecker (<[next c := y]> (heap c)) (S (next c)) (slots c) (ports c) (lastOk c) (step c) (trace c)) in
  accounted ((s, next c) :: T) (set_slots (<[s := next c]> (slots c)) c1).
Proof.
  intros [H1 H2 H3 H4 H5] Hs Hr Hret Hst c1.
  assert (forall q, is_Some (heap c !! q) -> q <> next c) as Hfresh by (intros q [z Hz] ->; apply H5 in Hz; lia).
  assert (forall s' q, slots c !! s' = Some q -> q <> next c) as Hslot.
  { intros s' q Hq. destruct (H1 s' q Hq) as (z & Hz & _). apply Hfresh. by exists z. }
  assert (users (next c) T = 0) as Hu0.
  { apply users_none. intros s' Hin. by apply (Hslot s' (next c)); [apply H3|]. }
  split; cbn [c1 heap slots next set_slots emit].
  - intros s1 q Hq. destruct (decide (s1 = s)) as [->|Hne].
    + rewrite lookup_insert_eq in Hq. injection Hq as <-. rewrite lookup_insert_eq, users_cons, decide_True, Hu0 by done.
      exists y. split_and!; [done|done|lia|congruence].
    + rewrite lookup_insert_ne in Hq by done. pose proof (Hslot _ _ Hq). rewrite lookup_insert_ne, users_cons, decide_False by done.
      rewrite Z.add_0_l. by apply (H1 s1).
  - intros s1 s2 q. rewrite !lookup_insert_Some. intros [[<- <-]|[Hn1 Hq1]] [[<- E]|[Hn2 Hq2]]; try done.
    + by destruct (Hslot _ _ Hq2).
    + subst q. by destruct (Hslot _ _ Hq1).
    + by eapply H2.
  - intros s1 q Hin. apply elem_of_cons in Hin as [[= -> ->]|Hin]; [by rewrite lookup_insert_eq|].
    apply H3 in Hin. rewrite lookup_insert_ne; [done|]. intros ->. congruence.
  - intros q z Hz Hzs. rewrite lookup_insert_Some in Hz. destruct Hz as [[<- <-]|[Hne Hz]]; [exists s; by rewrite lookup_insert_eq|].
    destruct (H4 q z Hz Hzs) as [s' Hs']. exists s'. rewrite lookup_insert_ne; [done|]. intros ->. congruence.
  - intros q z Hz. rewrite lookup_insert_Some in Hz. destruct Hz as [[<- _]|[_ Hz]]; [lia|]. apply H5 in Hz. lia.
Qed.

Lemma set_instance_eq p f c x : heap c !! p = Some x -> set_instance p f c = set_heap (<[p := f x]> (heap c)) c.
Proof.
  intros Hx. unfold set_instance. f_equal. apply map_eq. intros q. destruct (decide (q = p)) as [->|Hne].
  - by rewrite lookup_alter_eq, Hx, lookup_insert_eq.
  - by rewrite lookup_alter_ne, lookup_insert_ne.
Qed.

(** ** What leaves the engines alone *)

Lemma pin_jobs_core limits w used chunk c r c' : pin_jobs limits w used chunk c = (r, c') -> core c' = core c.
Proof.
  assert (forall n u c0 r0 c1, allocateUniquePort w n u c0 = (r0, c1) -> core c1 = core c0) as A1.
  { induction n as [|n IH]; intros u c0 r0 c1; cbn; [by intros [= <- <-]|].
    destruct (pw_alloc w (step c0)); [|by intros [= <- <-]]. destruct (decide _); [by intros ->%IH|by intros [= <- <-]]. }
  assert (forall cs u c0 r0 c1, allocateUniquePortInRange w cs u c0 = (r0, c1) -> core c1 = core c0) as A2.
  { induction cs as [|p cs IH]; intros u c0 r0 c1; cbn; [by intros [= <- <-]|].
    destruct (decide _); [by intros ->%IH|]. destruct (pw_free _ _ _); [by intros [= <- <-]|by intros ->%IH]. }
  revert used c r c'. induction chunk as [|p chunk IH]; intros used c r c'; cbn [pin_jobs]; [by intros [= <- <-]|].
  destruct (ports c !! pj_key p) as [port|].
  - destruct (pin_jobs limits w used chunk c) as [r1 c1] eqn:E. apply IH in E. by intros [= <- <-].
  - destruct (allocatePoolPort limits w used c) as [[port|e] c1] eqn:Ea;
      assert (core c1 = core c) as Etr by (unfold allocatePoolPort in Ea; destruct (_ && _); eauto); [|by intros [= <- <-]].
    destruct (pin_jobs _ _ _ chunk _) as [r1 c2] eqn:E. apply IH in E. intros [= <- <-]. by rewrite E.
Qed.

Lemma repin_core w chunk c r c' : repin w chunk c = (r, c') -> core c' = core c.
Proof.
  revert c r c'. induction chunk as [|p chunk IH]; intros c r c'; cbn [repin]; [by intros [= <- <-]|].
  destruct (ports c !! pj_key p); [|destruct (pw_alloc w (step c)); [|by intros [= <- <-]]];
    (destruct (repin w chunk _) as [r1 c1] eqn:E; apply IH in E; intros [= <- <-]; by rewrite E).
Qed.

Lemma buildAndStart_core w js k c r c' :
  buildAndStart w js k c = (r, c') ->
  core c' = core c /\ forall x, r = Ok x -> refs x = 0 /\ retired x = false /\ stopped x = false.
Proof.
  unfold buildAndStart. destruct (pw_files _ _); [by intros [= <- <-]|]. cbv zeta.
  destruct (match pw_build w (step (tick c)) js with None => _ | Some _ => _ end) as [f c1] eqn:E.
  assert (core c1 = core c) as Ec by (destruct (pw_build _ _ _); injection E as _ <-; done).
  destruct f; [intros [= <- <-]; done|]. intros [= <- <-]. split; [done|].
  intros x. destruct (startEngine _); [by intros [= <-]|done].
Qed.

(** An instance no slot points to, stopped again. *)
Lemma accounted_private T c x p c2 c3 :
  accounted T c -> refs x = 0 /\ retired x = false /\ stopped x = false -> alloc_instance x c = (p, c2) -> core c3 = core c2 ->
  accounted T (teardownLocked p c3).
Proof.
  intros [H1 H2 H3 H4 H5] (_ & _ & Hst) Ea. unfold core. intros [= E1 E2 E3]. injection Ea as <- <-. cbn in E1, E2, E3.
  unfold teardownLocked. rewrite E1, lookup_insert_eq, Hst.
  assert (forall q, is_Some (heap c !! q) -> q <> next c) as Hfresh by (intros q [z Hz] ->; apply H5 in Hz; lia).
  split; cbn [heap slots next set_heap emit]; rewrite ?E2, ?E3; [|done|done| |].
  - intros s q Hq. destruct (H1 s q Hq) as (y & Hy & ?). exists y. rewrite !lookup_insert_ne; [done|..]; symmetry; apply Hfresh; by exists y.
  - intros q z Hz Hzs. rewrite lookup_insert_Some in Hz. destruct Hz as [[<- <-]|[Hne Hz]]; [done|].
    rewrite lookup_insert_ne in Hz by done. by eapply H4.
  - intros q z Hz. rewrite lookup_insert_Some in Hz. destruct Hz as [[<- _]|[Hne Hz]]; [lia|].
    rewrite lookup_insert_ne in Hz by done. apply H5 in Hz. lia.
Qed.

Section steps.
Context `{NetIP} (ParseFloat : string -> option float64) (decode_object : string -> option params)
        (overflowed : float64 -> Z) (sha256_hex : string -> string) (params_json : params -> string)
        (m : Module) (spec : PoolSpec) (limits : PoolLimits).

Notation acquire' := (acquire sha256_hex params_json limits).
Notation testJobs' := (testJobs ParseFloat decode_object overflowed m).
Notation runEphemeral' := (runEphemeral ParseFloat decode_object overflowed sha256_hex params_json m).
Notation runBisected' := (runBisected ParseFloat decode_object overflowed sha256_hex params_json m).
Notation runSlot' := (runSlot ParseFloat decode_object overflowed sha256_hex params_json m limits).
Notation run_slots' := (run_slots ParseFloat decode_object overflowed sha256_hex params_json m limits).
Notation CheckBatch' := (CheckBatch_ ParseFloat decode_object overflowed sha256_hex params_json m spec limits).

Lemma testJobs_core w js rs c rs' c' : testJobs' w js rs c = (rs', c') -> core c' = core c.
Proof.
  revert rs c. induction js as [|j js IH]; intros rs c; cbn [testJobs]; [by intros [= <- <-]|].
  destruct (testJob ParseFloat decode_object overflowed m w j c) as [r c1] eqn:E. intros Hr%IH. rewrite Hr.
  revert E. unfold testJob. cbv zeta. destruct (negb _); [by intros [= <- <-]|].
  destruct (pw_params_file _ _); [by intros [= <- <-]|]. by destruct (_ && _); intros [= <- <-].
Qed.

(** A private instance is gone when its jobs are done. *)
Lemma runEphemeral_accounted w fuel js rs c rs' c' T :
  runEphemeral' w fuel js rs c = (rs', c') -> accounted T c -> accounted T c'.
Proof.
  revert js rs c rs' c'. induction fuel as [|f IH]; intros js rs c rs' c'; cbn [runEphemeral];
    destruct (buildAndStart w js _ c) as [[x|e] c1] eqn:Eb; apply buildAndStart_core in Eb as [Eb Hx].
  1, 3: destruct (alloc_instance x c1) as [p c2] eqn:Ea; destruct (testJobs' w js rs c2) as [rs1 c3] eqn:Et;
    intros [= <- <-] Ha; apply testJobs_core in Et; apply (accounted_core T c c1 Eb) in Ha; eapply accounted_private; [exact Ha|by apply Hx|exact Ea|exact Et].
  - intros [= <- <-]. by apply accounted_core.
  - destruct (_ && _); [|intros [= <- <-]; by apply accounted_core].
    destruct (runEphemeral' w f _ rs c1) as [rs1 c2] eqn:E1. intros E2 Ha. eapply IH; [exact E2|]. eapply IH; [exact E1|].
    by apply (accounted_core T c).
Qed.

Lemma runBisected_accounted w chunk rs c rs' c' T :
  runBisected' w chunk rs c = (rs', c') -> accounted T c -> accounted T c'.
Proof.
  unfold runBisected. destruct (repin w chunk c) as [[js|e] c1] eqn:Er; apply repin_core in Er; intros E Ha;
    apply (accounted_core T c c1 Er) in Ha.
  - by eapply runEphemeral_accounted.
  - by injection E as _ <-.
Qed.

(** The engine of a slot gains a tester, or makes room for another. *)
Lemma acquire_accounted w slot chunk live c a c' T :
  acquire' w slot chunk live c = (a, c') -> accounted T c ->
  (forall js p, a = Serving js -> (slot, p) ∈ T -> slots c' !! slot = Some p) ->
  match a with
  | Serving _ => exists p, slots c' !! slot = Some p /\ accounted ((slot, p) :: T) c'
  | _ => accounted T c'
  end.
Proof.
  unfold acquire. destruct (pin_jobs _ _ _ chunk c) as [[js|e] c1] eqn:Ep; apply pin_jobs_core in Ep;
    intros E Ha; apply (accounted_core T c c1 Ep) in Ha; [|by injection E as <- <-].
  cbv zeta in E. set (c2 := release_ports live c1) in E. apply (accounted_core T c1 c2) in Ha; [|done]. clearbody c2.
  assert (forall c3, build_slot sha256_hex params_json w slot js c3 = (a, c') -> accounted T c3 -> slots c3 !! slot = None ->
    match a with Serving _ => exists p, slots c' !! slot = Some p /\ accounted ((slot, p) :: T) c' | _ => accounted T c' end) as Hfree.
  { intros c3 Eb H3 Hs. unfold build_slot in Eb. destruct (buildAndStart _ _ _ c3) as [[x|e] c4] eqn:Es;
      apply buildAndStart_core in Es as [Es Hx]; apply (accounted_core T c3 c4 Es) in H3; [|by injection Eb as <- <-].
    destruct (Hx x eq_refl) as (_ & Hr & Hst). injection Eb as <- <-. exists (next c4). unfold set_slots at 1, slots at 1.
    split; [apply lookup_insert_eq|]. apply (accounted_build T c4 slot (set_refs 1 x)); try done.
    unfold core in Es. injection Es as _ -> _. done. }
  destruct (slots c2 !! slot) as [p|] eqn:Hslot; [|by intros _; eapply Hfree].
  destruct (ac_slot _ _ Ha slot p Hslot) as (x & Hx & Hst & Hrefs & Hret). rewrite Hx in E.
  destruct (if _ || _ then _ else _) as [reuse c3] eqn:Er.
  assert (core c3 = core c2) as E3 by (destruct (_ || _); injection Er as _ <-; done).
  apply (accounted_core T c2 c3 E3) in Ha. unfold core in E3. injection E3 as Eh Es _. rewrite <- Es in Hslot. rewrite <- Eh in Hx.
  destruct reuse.
  { injection E as <- <-. intros _. exists p. split; [done|]. rewrite (set_instance_eq p _ c3 x Hx).
    apply (accounted_update T _ c3 slot p x); try done.
    - intros q Hq. by rewrite users_cons, decide_False.
    - cbn. rewrite users_cons, decide_True by done. lia.
    - intros _. eapply users_some. by left.
    - intros s q Hin. apply elem_of_cons in Hin as [[= -> ->]|Hin]; [done|]. by apply (ac_test _ _ Ha). }
  unfold retire in E. cbv zeta in E. rewrite (set_instance_eq p _ c3 x Hx) in E. unfold heap at 1, set_heap at 1 in E.
  rewrite lookup_insert_eq in E. change (refs (set_retired x)) with (refs x) in E. intros Hkeep.
  destruct (decide (refs x = 0)) as [Hz|Hnz].
  - rewrite (proj2 (Z.eqb_eq _ _) Hz) in E. eapply Hfree; [exact E| |apply lookup_delete_eq].
    apply (accounted_drop T T c3 slot p (set_retired x)); try done; [by rewrite <- Hrefs|apply (ac_test _ _ Ha)].
  - rewrite (proj2 (Z.eqb_neq _ _) Hnz) in E. pose proof (users_nonneg p T).
    assert (0 < users p T) as Hpos by lia. destruct (users_pos p T Hpos) as [s' Hin].
    assert (s' = slot) as -> by (eapply ac_inj; [exact Ha|by apply (ac_test _ _ Ha)|done]).
    apply (accounted_update T T c3 slot p x (set_retired x)) in Ha; try done; [|by apply (ac_test _ _ Ha)].
    unfold build_slot in E. destruct (buildAndStart _ _ _ _) as [[y|e] c4] eqn:Eb;
      apply buildAndStart_core in Eb as [Eb _]; apply (accounted_core T _ c4 Eb) in Ha; [|by injection E as <- <-].
    injection E as <- <-. specialize (Hkeep js p eq_refl Hin). cbn in Hkeep. rewrite lookup_insert_eq in Hkeep. injection Hkeep as <-.
    apply (ac_test _ _ Ha) in Hin. destruct (ac_slot _ _ Ha _ _ Hin) as (z & Hz & _). apply (ac_fresh _ _ Ha) in Hz. lia.
Qed.

Lemma releaseSlot_accounted s p T c : accounted ((s, p) :: T) c -> accounted T (releaseSlot s c).
Proof.
  intros Ha. pose proof (ac_test _ _ Ha s p ltac:(by left)) as Hs. destruct (ac_slot _ _ Ha s p Hs) as (x & Hx & Hst & Hrefs & Hret).
  rewrite users_cons, decide_True in Hrefs by done. pose proof (users_nonneg p T) as Hnn.
  unfold releaseSlot. rewrite Hs. cbv zeta. rewrite (set_instance_eq p _ c x Hx). unfold heap at 1, set_heap at 1. rewrite lookup_insert_eq.
  set (y := set_refs (refs x - 1) x).
  assert (forall q, q <> p -> users q T = users q ((s, p) :: T)) as Hu by (intros q Hq; by rewrite users_cons, decide_False).
  assert (forall s' q, (s', q) ∈ T -> slots c !! s' = Some q) as Ht by (intros s' q Hin; apply (ac_test _ _ Ha); by right).
  destruct (retired y && (refs y <=? 0)) eqn:E.
  - apply andb_true_iff in E as [_ Eu%Z.leb_le]. cbn in Eu. apply (accounted_drop ((s, p) :: T) T c s p y); try done. lia.
  - apply (accounted_update ((s, p) :: T) T c s p x); try done; [cbn; lia|].
    intros Hr. change (retired y) with (retired x) in E, Hr. rewrite Hr in E. apply Z.leb_gt in E. cbn in E. lia.
Qed.

Lemma close_slot_accounted T c s p :
  accounted T c -> slots c !! s = Some p ->
  accounted T (close_slot c (s, p))
  /\ (forall s', s' <> s -> slots (close_slot c (s, p)) !! s' = slots c !! s')
  /\ (T = [] -> slots (close_slot c (s, p)) = delete s (slots c)).
Proof.
  intros Ha Hs. destruct (ac_slot _ _ Ha s p Hs) as (x & Hx & Hst & Hrefs & Hret). unfold close_slot. cbn [fst snd]. rewrite Hx.
  assert (set_heap (<[p := x]> (heap c)) c = c) as Eid by (rewrite insert_id by done; by destruct c).
  destruct (refs x =? 0) eqn:Ez.
  - apply Z.eqb_eq in Ez. split_and!; [|intros s' Hne; cbn; by apply lookup_delete_ne|done].
    rewrite <- Eid at 2. apply (accounted_drop T T c s p x); try done; [congruence|apply (ac_test _ _ Ha)].
  - apply Z.eqb_neq in Ez. rewrite (set_instance_eq p _ c x Hx). split_and!; [|done|intros ->; by rewrite Hrefs in Ez].
    apply (accounted_update T T c s p x); try done; [|apply (ac_test _ _ Ha)]. pose proof (users_nonneg p T). lia.
Qed.

(** With nobody testing, [Close] empties the pool. *)
Lemma Close_accounted T c : accounted T c -> accounted T (Close c) /\ (T = [] -> slots (Close c) = ∅).
Proof.
  unfold Close. assert (forall l c, NoDup (map fst l) -> (forall s p, (s, p) ∈ l -> slots c !! s = Some p) -> accounted T c ->
    accounted T (fold_left close_slot l c)
    /\ (T = [] -> (forall s, is_Some (slots c !! s) -> s ∈ map fst l) -> slots (fold_left close_slot l c) = ∅)) as Hfold.
  { clear c. induction l as [|[s p] l IH]; intros c Hnd Hl Ha; cbn [fold_left map].
    - split; [done|]. intros _ Hall. apply map_empty. intros s. apply eq_None_not_Some. intros Hs. by apply Hall, elem_of_nil in Hs.
    - apply NoDup_cons in Hnd as [Hnin Hnd]. destruct (close_slot_accounted T c s p Ha) as (Ha' & Hother & Hempty); [apply Hl; by left|].
      destruct (IH (close_slot c (s, p)) Hnd) as [A B]; [|done|].
      + intros s' q Hin. rewrite Hother; [apply Hl; by right|]. intros ->. apply Hnin. by apply (list_elem_of_fmap_2 fst) in Hin.
      + split; [exact A|]. intros HT Hall. apply B; [done|]. intros s' Hs'. rewrite (Hempty HT), lookup_delete_is_Some in Hs'.
        destruct Hs' as [Hne Hs']. apply Hall, elem_of_cons in Hs' as [?|?]; [by subst|done]. }
  intros Ha. destruct (Hfold (map_to_list (slots c)) c) as [A B]; [apply NoDup_fst_map_to_list| |done|].
  - intros s p. apply elem_of_map_to_list.
  - split; [done|]. intros HT. apply B; [done|]. intros s [p Hs]. apply (list_elem_of_fmap_2 fst _ (s, p)). by apply elem_of_map_to_list.
Qed.

(** ** Whole batches *)

Lemma runSlot_accounted w slot chunk live rs c rs' c' :
  runSlot' w slot chunk live rs c = (rs', c') -> accounted [] c -> accounted [] c'.
Proof.
  unfold runSlot. destruct (acquire' w slot chunk live c) as [a c1] eqn:Ea. intros E Ha.
  eapply acquire_accounted in Ea; [|exact Ha|by intros js p _ ?%elem_of_nil]. destruct a as [e|js e|js].
  - by injection E as _ <-.
  - destruct (shouldBisect _ _); [by eapply runBisected_accounted|by injection E as _ <-].
  - destruct Ea as (p & _ & Hacc). destruct (testJobs' w js rs c1) as [rs1 c2] eqn:Et. apply testJobs_core in Et.
    injection E as _ <-. eapply releaseSlot_accounted. by eapply accounted_core.
Qed.

Lemma CheckBatch_accounted w os c rs c' :
  CheckBatch' w os c = (rs, c') -> accounted [] c -> accounted [] c'.
Proof.
  assert (forall cs slot live rs c rs' c', run_slots' w slot cs live rs c = (rs', c') -> accounted [] c -> accounted [] c') as Hslots.
  { induction cs as [|chunk cs IH]; intros slot live rs0 c0 rs1 c1; cbn [run_slots]; [by intros [= _ <-]|].
    destruct (runSlot' w slot chunk live rs0 c0) as [rs2 c2] eqn:E. intros E2 Ha. eapply IH; [exact E2|]. by eapply runSlot_accounted. }
  unfold CheckBatch_. destruct (sort_options _ _ _ _ _ _ _ _) as [rs0 gs]. destruct (canonical gs) as [|p ps]; [by intros [= _ <-]|].
  destruct (run_slots' w _ _ _ _ _) as [rs1 c1] eqn:E. intros [= _ <-]. by eapply Hslots.
Qed.

(** The engines that have not been stopped. *)
Definition running (c : PoolChecker) : list nat :=
  omap (fun px => if stopped (snd px) then None else Some (fst px)) (map_to_list (heap c)).

Lemma accounted_clean T c : T = [] -> accounted T c -> running (Close c) = [].
Proof.
  intros -> Ha. apply elem_of_nil_inv. intros q Hq. apply list_elem_of_omap in Hq as ([p x] & Hx%elem_of_map_to_list & E). revert E. cbn.
  enough (stopped x = true) as -> by done. destruct (Close_accounted [] c Ha) as [Hc Hempty]. specialize (Hempty eq_refl).
  destruct (stopped x) eqn:Es; [done|]. destruct (ac_live _ _ Hc p x Hx Es) as [s Hs]. by rewrite Hempty in Hs.
Qed.

(** ** Interleaved batches *)

(** What concurrent calls do to a pool, one critical section or test at a
    time, each against its own environment.  An [Acquire] may replace the
    engine of its slot only when nobody is testing against it. *)
Inductive pool_step : testers * PoolChecker -> testers * PoolChecker -> Prop :=
| step_serve w slot chunk live js p T c c' :
    acquire' w slot chunk live c = (Serving js, c') -> slots c' !! slot = Some p ->
    (forall q, (slot, q) ∈ T -> q = p) -> pool_step (T, c) ((slot, p) :: T, c')
| step_refuse w slot chunk live a T c c' :
    acquire' w slot chunk live c = (a, c') -> (forall js, a <> Serving js) -> pool_step (T, c) (T, c')
| step_test w js rs rs' T c c' : testJobs' w js rs c = (rs', c') -> pool_step (T, c) (T, c')
| step_bisect w chunk rs rs' T c c' : runBisected' w chunk rs c = (rs', c') -> pool_step (T, c) (T, c')
| step_release s p T1 T2 c : pool_step (T1 ++ (s, p) :: T2, c) (T1 ++ T2, releaseSlot s c)
| step_close T c : pool_step (T, c) (T, Close c).

Lemma pool_step_accounted T c T' c' : pool_step (T, c) (T', c') -> accounted T c -> accounted T' c'.
Proof.
  intros Hs Ha. inversion Hs as [w slot chunk live js p ? ? ? Eq Hp Huse|w slot chunk live a ? ? ? Eq Hno|w js rs rs' ? ? ? Eq
    |w chunk rs rs' ? ? ? Eq|s p T1 T2|]; subst.
  - eapply acquire_accounted in Eq as (q & Hq & Hacc); [|exact Ha|].
    + by simplify_eq.
    + intros js' q _ Hin. by rewrite (Huse q Hin).
  - eapply acquire_accounted in Eq; [|exact Ha|by intros js p ->; destruct (Hno js)].
    destruct a as [e|js e|js]; [done..|by destruct (Hno js)].
  - eapply accounted_core; [|exact Ha]. by eapply testJobs_core.
  - by eapply runBisected_accounted.
  - eapply releaseSlot_accounted. eapply accounted_perm; [|exact Ha]. by rewrite Permutation_middle.
  - by apply Close_accounted.
Qed.

Definition reachable (s : testers * PoolChecker) : Prop := rtc pool_step ([], newPoolChecker) s.

Lemma reachable_accounted T c : reachable (T, c) -> accounted T c.
Proof.
  intros Hr. apply (rtc_ind_r (fun s => accounted (fst s) (snd s)) ([], newPoolChecker)) in Hr; [done|apply accounted_new|].
  intros [T1 c1] [T2 c2] _ Hs. cbn. by apply pool_step_accounted.
Qed.

(** Batches one after another, each in its own world. *)
Fixpoint run_batches (bs : list (pool_world * list Options)) (c : PoolChecker) : PoolChecker :=
  match bs with [] => c | (w, os) :: bs => run_batches bs (snd (CheckBatch' w os c)) end.

(** C11: However calls interleave, as long as no rebuild replaces an engine that is
    being tested against: whoever is testing has a running engine, the one its
    slot holds; a slot's reference count is the number of its testers, and an
    engine marked for retirement has some; every running engine is held by
    exactly one slot, so nothing leaks; and once the last tester is done,
    [Close] leaves no engine running. *)
Theorem warm_engines_accounted T c :
  reachable (T, c) ->
  (forall s p, (s, p) ∈ T -> slots c !! s = Some p /\ exists x, heap c !! p = Some x /\ stopped x = false)
  /\ (forall s p x, slots c !! s = Some p -> heap c !! p = Some x ->
       refs x = users p T /\ (retired x = true -> 0 < users p T))
  /\ (forall p x, heap c !! p = Some x -> stopped x = false -> exists! s, slots c !! s = Some p)
  /\ (T = [] -> running (Close c) = []).
Proof.
  intros Ha%reachable_accounted. split_and!.
  - intros s p Hin. apply (ac_test _ _ Ha) in Hin. split; [done|]. destruct (ac_slot _ _ Ha s p Hin) as (x & Hx & Hst & _). by exists x.
  - intros s p x Hs Hx. destruct (ac_slot _ _ Ha s p Hs) as (y & Hy & _ & Hr & Hret). simplify_eq. by split.
  - intros p x Hx Hst. destruct (ac_live _ _ Ha p x Hx Hst) as [s Hs]. exists s. split; [done|].
    intros s' Hs'. by eapply ac_inj.
  - intros HT. by apply (accounted_clean T).
Qed.

(** Batches that follow one another need no such care: whatever the engines,
    ports and files do, and however jobs come and go, no engine is left
    running after the shutdown that follows them. *)
Theorem batches_leave_no_engine bs : running (Close (run_batches bs newPoolChecker)) = [].
Proof.
  apply (accounted_clean []); [done|]. assert (accounted [] newPoolChecker) as Ha by apply accounted_new. revert Ha.
  generalize newPoolChecker. induction bs as [|[w os] bs IH]; intros c Ha; [done|]. cbn [run_batches].
  apply IH. destruct (CheckBatch' w os c) as [rs c'] eqn:E. by eapply CheckBatch_accounted.
Qed.

(** ** Overlapping rebuilds *)

(** Whatever any caller may do next, rebuilds of engines in use included. *)
Inductive any_step : PoolChecker -> PoolChecker -> Prop :=
| any_acquire w slot chunk live a c c' : acquire' w slot chunk live c = (a, c') -> any_step c c'
| any_test w js rs rs' c c' : testJobs' w js rs c = (rs', c') -> any_step c c'
| any_bisect w chunk rs rs' c c' : runBisected' w chunk rs c = (rs', c') -> any_step c c'
| any_release s c : any_step c (releaseSlot s c)
| any_close c : any_step c (Close c).

(** A running engine that no slot holds. *)
Record lost (p : nat) (c : PoolChecker) : Prop := mkLost {
  lo_runs : exists x, heap c !! p = Some x /\ stopped x = false;
  lo_slots s : slots c !! s <> Some p;
  lo_old : (p < next c)%nat
}.

Lemma lost_core p c c' : core c' = core c -> lost p c -> lost p c'.
Proof. unfold core. intros [= E1 E2 E3] [H1 H2 H3]. split; by rewrite ?E1, ?E2, ?E3. Qed.

Lemma lost_instance p q f c : q <> p -> lost p c -> lost p (set_instance q f c).
Proof. intros Hne [H1 H2 H3]. split; [|done|done]. unfold set_instance. cbn [heap set_heap]. by rewrite lookup_alter_ne. Qed.

Lemma lost_teardown p q c : q <> p -> lost p c -> lost p (teardownLocked q c).
Proof.
  intros Hne [H1 H2 H3]. unfold teardownLocked. destruct (heap c !! q) as [x|]; [|by split].
  destruct (stopped x); [by split|]. split; [|done|done]. cbn [heap set_heap emit]. by rewrite lookup_insert_ne.
Qed.

Lemma lost_delete p s c : lost p c -> lost p (set_slots (delete s (slots c)) c).
Proof. intros [H1 H2 H3]. split; [done| |done]. intros s'. cbn. rewrite lookup_delete_Some. by intros [_ ?%H2]. Qed.

(** Stopping the engine a slot holds, and clearing the slot. *)
Lemma lost_drop p s q c : q <> p -> lost p c -> lost p (set_slots (delete s (slots c)) (teardownLocked q c)).
Proof.
  intros Hne Hl. apply (lost_delete p s), (lost_teardown p q) in Hl; [|done]. revert Hl. apply lost_core.
  unfold teardownLocked. cbn [heap set_slots]. destruct (heap c !! q) as [x|]; [|done]. by destruct (stopped x).
Qed.

Lemma lost_alloc p x c q c' : alloc_instance x c = (q, c') -> lost p c -> lost p c' /\ q <> p.
Proof.
  intros [= <- <-] [H1 H2 H3]. split; [|lia]. split; [|done|cbn; lia].
  cbn [heap emit]. by rewrite lookup_insert_ne by lia.
Qed.

Lemma lost_build w slot js c a c' p : build_slot sha256_hex params_json w slot js c = (a, c') -> lost p c -> lost p c'.
Proof.
  unfold build_slot. destruct (buildAndStart _ _ _ c) as [[x|e] c1] eqn:Eb; apply buildAndStart_core in Eb as [Eb _];
    [|intros [= <- <-]; by apply lost_core].
  destruct (alloc_instance (set_refs 1 x) c1) as [q c2] eqn:Ea. intros [= <- <-] Hl%(lost_core p c c1 Eb).
  apply (lost_alloc _ _ _ _ _ Ea) in Hl as [[H1 H2 H3] Hq]. split; [done| |done].
  intros s. cbn. rewrite lookup_insert_Some. by intros [[_ ?]|[_ ?%H2]].
Qed.

Lemma lost_acquire w slot chunk live c a c' p : acquire' w slot chunk live c = (a, c') -> lost p c -> lost p c'.
Proof.
  unfold acquire. destruct (pin_jobs _ _ _ chunk c) as [[js|e] c1] eqn:Ep; apply pin_jobs_core in Ep;
    intros E Hl; apply (lost_core p c c1 Ep) in Hl; [|by injection E as <- <-].
  cbv zeta in E. set (c2 := release_ports live c1) in E. apply (lost_core p c1 c2) in Hl; [|done]. clearbody c2.
  destruct (slots c2 !! slot) as [q|] eqn:Hslot; [|by eapply lost_build]. assert (q <> p) as Hq by (intros ->; by eapply lo_slots).
  destruct (heap c2 !! q) as [x|]; [|by eapply lost_build]. destruct (if _ || _ then _ else _) as [reuse c3] eqn:Er.
  assert (core c3 = core c2) as E3 by (destruct (_ || _); injection Er as _ <-; done). apply (lost_core p c2 c3 E3) in Hl.
  destruct reuse; [injection E as <- <-; by apply lost_instance|]. eapply lost_build; [exact E|].
  unfold retire. cbv zeta. apply (lost_instance p q set_retired) in Hl; [|done].
  destruct (heap (set_instance q set_retired c3) !! q) as [y|]; [|done]. destruct (refs y =? 0); [by apply lost_drop|done].
Qed.

Lemma lost_release s c p : lost p c -> lost p (releaseSlot s c).
Proof.
  intros Hl. unfold releaseSlot. destruct (slots c !! s) as [q|] eqn:Hs; [|done]. assert (q <> p) as Hq by (intros ->; by eapply lo_slots).
  cbv zeta. apply (lost_instance p q (fun x => set_refs (refs x - 1) x)) in Hl; [|done].
  destruct (heap (set_instance _ _ _) !! q) as [y|]; [|done]. destruct (_ && _); [by apply lost_drop|done].
Qed.

Lemma lost_close c p : lost p c -> lost p (Close c).
Proof.
  unfold Close. intros Hl. assert (Forall (fun sq => snd sq <> p) (map_to_list (slots c))) as Hall.
  { apply Forall_forall. intros [s q] Hin%elem_of_map_to_list E. cbn in E. subst q. by eapply lo_slots. }
  revert Hl Hall. generalize (map_to_list (slots c)). intros l. revert c. induction l as [|[s q] l IH]; intros c Hl Hall; [done|].
  apply Forall_cons in Hall as [Hq Hall]. cbn [fold_left snd] in *. apply IH; [|done]. unfold close_slot. cbn [fst snd].
  destruct (heap c !! q) as [x|]; [|done]. destruct (refs x =? 0); [by apply lost_drop|by apply lost_instance].
Qed.

Lemma lost_ephemeral w fuel js rs c rs' c' p : runEphemeral' w fuel js rs c = (rs', c') -> lost p c -> lost p c'.
Proof.
  revert js rs c rs' c'. induction fuel as [|f IH]; intros js rs c rs' c'; cbn [runEphemeral];
    destruct (buildAndStart w js _ c) as [[x|e] c1] eqn:Eb; apply buildAndStart_core in Eb as [Eb _].
  1, 3: destruct (alloc_instance x c1) as [q c2] eqn:Ea; destruct (testJobs' w js rs c2) as [rs1 c3] eqn:Et;
    intros [= <- <-] Hl%(lost_core p c c1 Eb); apply testJobs_core in Et; apply (lost_alloc _ _ _ _ _ Ea) in Hl as [Hl Hq];
    apply lost_teardown; [done|by apply (lost_core p c2)].
  - intros [= <- <-]. by apply lost_core.
  - destruct (_ && _); [|intros [= <- <-]; by apply lost_core].
    destruct (runEphemeral' w f _ rs c1) as [rs1 c2] eqn:E1. intros E2 Hl. eapply IH; [exact E2|]. eapply IH; [exact E1|].
    by apply (lost_core p c).
Qed.

Lemma lost_forever p c c' : rtc any_step c c' -> lost p c -> lost p c'.
Proof.
  induction 1 as [|x y z Hs _ IH]; [done|]. intros Hl. apply IH.
  destruct Hs as [w slot chunk live a c1 c2 E|w js rs rs' c1 c2 E|w chunk rs rs' c1 c2 E|s c1|c1].
  - by eapply lost_acquire.
  - eapply lost_core; [by eapply testJobs_core|done].
  - unfold runBisected in E. destruct (repin w chunk c1) as [[js|e] c3] eqn:Er; apply repin_core in Er; apply (lost_core p c1 c3 Er) in Hl.
    + by eapply lost_ephemeral.
    + by injection E as _ <-.
  - by apply lost_release.
  - by apply lost_close.
Qed.

(** A rebuild while somebody tests: the old engine loses its slot, and the new
    one is counted as used once. *)
Lemma rebuild_in_use w slot chunk live c js c1 p T :
  acquire' w slot chunk live c = (Serving js, c1) -> accounted T c -> (slot, p) ∈ T -> slots c1 !! slot <> Some p ->
  lost p c1 /\ exists p2 y, slots c1 !! slot = Some p2 /\ heap c1 !! p2 = Some y /\ refs y = 1 /\ retired y = false /\ stopped y = false
    /\ (p2 < next c1)%nat.
Proof.
  unfold acquire. destruct (pin_jobs _ _ _ chunk c) as [[js0|e] c0] eqn:Ep; [|done]. apply pin_jobs_core in Ep.
  intros E Ha Hin Hnew. apply (accounted_core T c c0 Ep) in Ha. cbv zeta in E. set (c2 := release_ports live c0) in E.
  apply (accounted_core T c0 c2) in Ha; [|done]. clearbody c2. pose proof (ac_test _ _ Ha _ _ Hin) as Hslot. rewrite Hslot in E.
  destruct (ac_slot _ _ Ha slot p Hslot) as (x & Hx & Hst & Hrefs & _). rewrite Hx in E.
  destruct (if _ || _ then _ else _) as [reuse c3] eqn:Er.
  assert (core c3 = core c2) as E3 by (destruct (_ || _); injection Er as _ <-; done).
  apply (accounted_core T c2 c3 E3) in Ha. unfold core in E3. injection E3 as Eh Es _. rewrite <- Es in Hslot. rewrite <- Eh in Hx.
  destruct reuse; [by injection E as _ <-|]. unfold retire in E. cbv zeta in E. rewrite (set_instance_eq p _ c3 x Hx) in E.
  unfold heap at 1, set_heap at 1 in E. rewrite lookup_insert_eq in E. apply users_some in Hin.
  change (refs (set_retired x)) with (refs x) in E. rewrite (proj2 (Z.eqb_neq _ _)) in E by lia.
  unfold build_slot in E. destruct (buildAndStart _ _ _ _) as [[y|e] c4] eqn:Eb; [|done].
  apply buildAndStart_core in Eb as [Eb Hy]. destruct (Hy y eq_refl) as (_ & Hr & Hs). injection E as _ <-.
  unfold core in Eb. cbn in Eb. injection Eb as E1 E2 E3. pose proof (ac_fresh _ _ Ha _ _ Hx) as Hp. split.
  - split; cbn [heap slots next set_slots emit]; rewrite ?E1, ?E2, ?E3; [|intros s|lia].
    + exists (set_retired x). rewrite lookup_insert_ne by lia. by rewrite lookup_insert_eq.
    + rewrite lookup_insert_Some. intros [[_ Eq]|[Hne Hq]]; [lia|]. by apply Hne, (ac_inj _ _ Ha slot s p).
  - exists (next c4), (set_refs 1 y). cbn. rewrite !lookup_insert_eq. split_and!; (done || lia).
Qed.

(** An engine nobody is counted on goes as soon as its slot is asked for
    anything else. *)
Lemma idle_replaced w slot chunk live c a c' p y :
  acquire' w slot chunk live c = (a, c') -> slots c !! slot = Some p -> heap c !! p = Some y -> refs y = 0 -> stopped y = false ->
  (p < next c)%nat -> slots c' !! slot <> Some p -> exists z, heap c' !! p = Some z /\ stopped z = true.
Proof.
  unfold acquire. destruct (pin_jobs _ _ _ chunk c) as [[js0|e] c0] eqn:Ep; apply pin_jobs_core in Ep; unfold core in Ep; injection Ep as Eh Es En;
    [|intros [= _ <-]; by rewrite Es].
  intros E Hs Hy Hr Hst Hp Hnew. cbv zeta in E. cbn [slots heap release_ports set_ports] in E. rewrite Es, Hs, Eh, Hy in E.
  destruct (if _ || _ then _ else _) as [reuse c3] eqn:Er.
  assert (core c3 = core c) as E3 by (destruct (_ || _); injection Er as _ <-; unfold core; cbn; by rewrite Eh, Es, En).
  unfold core in E3. injection E3 as Eh3 Es3 En3. rewrite <- Eh3 in Hy. rewrite <- Es3 in Hs. rewrite <- En3 in Hp.
  destruct reuse; [by injection E as _ <-|]. unfold retire in E. cbv zeta in E. rewrite (set_instance_eq p _ c3 y Hy) in E.
  unfold heap at 1, set_heap at 1 in E. rewrite lookup_insert_eq in E. change (refs (set_retired y)) with (refs y) in E.
  rewrite Hr in E. cbn [Z.eqb] in E. unfold teardownLocked in E. cbn [heap set_heap] in E. rewrite lookup_insert_eq in E.
  change (stopped (set_retired y)) with (stopped y) in E. rewrite Hst in E.
  unfold build_slot in E. destruct (buildAndStart _ _ _ _) as [[x|e] c4] eqn:Eb; apply buildAndStart_core in Eb as [Eb _];
    unfold core in Eb; cbn in Eb; injection Eb as E1 E2 E4; injection E as _ <-; exists (set_stopped (set_retired y)).
  - cbn. rewrite E1, lookup_insert_ne by lia. by rewrite lookup_insert_eq.
  - cbn. rewrite E1. by rewrite lookup_insert_eq.
Qed.

(** C37: A call that is given another engine while somebody still tests against
    the one its slot held loses that one for good: whatever any caller does
    afterwards, it keeps running, no slot holds it, and [Close] leaves it
    running.  And once the first tester is done, its release is counted against
    the new engine, so the next call that asks the slot for anything else stops
    that engine under the second tester. *)
Theorem overlapping_calls_lose_engines w slot p T c chunk live js c1 :
  reachable (T, c) -> (slot, p) ∈ T ->
  acquire' w slot chunk live c = (Serving js, c1) -> slots c1 !! slot <> Some p ->
  (forall c2, rtc any_step c1 c2 ->
     (exists x, heap c2 !! p = Some x /\ stopped x = false) /\ (forall s, slots c2 !! s <> Some p) /\ p ∈ running (Close c2))
  /\ exists p2, slots c1 !! slot = Some p2
       /\ forall w' chunk' live' a c3, acquire' w' slot chunk' live' (releaseSlot slot c1) = (a, c3) -> slots c3 !! slot <> Some p2 ->
           exists z, heap c3 !! p2 = Some z /\ stopped z = true.
Proof.
  intros Ha%reachable_accounted Hin E Hnew. destruct (rebuild_in_use _ _ _ _ _ _ _ _ _ E Ha Hin Hnew) as (Hl & p2 & y & Hs & Hy & Hr & Hret & Hst & Hp2).
  split.
  - intros c2 Hc. apply (lost_forever p _ _ Hc) in Hl. split; [apply Hl|]. split; [apply Hl|].
    destruct (lo_runs _ _ (lost_close _ _ Hl)) as (x & Hx & Hxs). apply list_elem_of_omap. exists (p, x). cbn. rewrite Hxs.
    split; [by apply elem_of_map_to_list|done].
  - exists p2. split; [done|]. intros w' chunk' live' a c3 E3.
    assert (releaseSlot slot c1 = set_heap (<[p2 := set_refs 0 y]> (heap c1)) c1) as Erel.
    { unfold releaseSlot. rewrite Hs. cbv zeta. rewrite (set_instance_eq p2 _ c1 y Hy). cbn [heap set_heap]. rewrite lookup_insert_eq.
      rewrite Hr. change (retired (set_refs (1 - 1) y)) with (retired y). by rewrite Hret. }
    rewrite Erel in E3. eapply idle_replaced with (y := set_refs 0 y); [exact E3|done| |done..]. cbn. by rewrite lookup_insert_eq.
Qed.
End steps.

(** ** Concrete pools *)

Notation demo_step_to := (@pool_step demoNetIP demo_float demo_object (fun _ => 0) (fun s => s) demo_json pool_demo_module pool_demo_limits).
Notation demo_reachable := (@reachable demoNetIP demo_float demo_object (fun _ => 0) (fun s => s) demo_json pool_demo_module pool_demo_limits).

Definition job_a : pendingJob := pool_demo_job "a.org".
Definition job_b : pendingJob := pool_demo_job "b.org".

(** [runSlot]'s critical section for slot 0 and one job. *)
Definition take0 (p : pendingJob) (c : PoolChecker) : PoolChecker := snd (demo_acquire all_good 0%nat [p] {[pj_key p]} c).

(** Two calls share the engine of one job. *)
Definition shared_pool : PoolChecker := take0 job_a (take0 job_a newPoolChecker).

Lemma demo_serve T c :
  (c = newPoolChecker \/ c = take0 job_a newPoolChecker) -> (forall q, (0%nat, q) ∈ T -> q = 0%nat) ->
  demo_step_to (T, c) ((0, 0)%nat :: T, take0 job_a c).
Proof.
  intros Hc HT.
  apply (step_serve demo_float demo_object (fun _ => 0) (fun s => s) demo_json pool_demo_module pool_demo_limits all_good 0%nat [job_a] {[pj_key job_a]}
    match fst (demo_acquire all_good 0%nat [job_a] {[pj_key job_a]} c) with Serving js => js | _ => [] end 0%nat T c (take0 job_a c)); [| |exact HT].
  - rewrite (surjective_pairing (demo_acquire _ _ _ _ c)). unfold take0. f_equal. destruct Hc as [->| ->]; by vm_compute.
  - destruct Hc as [->| ->]; by vm_compute.
Qed.

Lemma warm_engines_accounted_witness :
  demo_reachable ([(0, 0); (0, 0)]%nat, shared_pool)
  /\ forall p x, heap shared_pool !! p = Some x -> stopped x = false -> exists! s, slots shared_pool !! s = Some p.
Proof.
  assert (demo_reachable ([(0, 0); (0, 0)]%nat, shared_pool)) as Hr.
  { eapply rtc_l; [|apply rtc_once].
    - apply (demo_serve []); [by left|]. by intros q ?%elem_of_nil.
    - apply (demo_serve [(0, 0)%nat]); [by right|]. intros q Hq. apply list_elem_of_singleton in Hq. by injection Hq. }
  split; [exact Hr|]. exact (proj1 (proj2 (proj2 (warm_engines_accounted _ _ _ _ _ _ _ _ _ Hr)))).
Defined.

(** Two overlapping calls with different jobs, then a third. *)
Definition overlap_1 : PoolChecker := take0 job_b (take0 job_a newPoolChecker).
Definition overlap_2 : PoolChecker := take0 job_a (releaseSlot 0 overlap_1).

(** The second call takes slot 0 from the first, whose release the third call
    then finds counted against the second's engine. *)
Example overlap_engines :
  slots overlap_1 !! 0%nat = Some 1%nat
  /\ engines overlap_1 = [(0, false); (1, false)]%nat
  /\ engines overlap_2 = [(0, false); (1, true); (2, false)]%nat
  /\ engines (Close (releaseSlot 0 overlap_2)) = [(0, false); (1, true); (2, true)]%nat.
Proof. vm_compute. split_and!; reflexivity. Qed.

Lemma overlapping_calls_lose_engines_witness :
  slots overlap_1 !! 0%nat = Some 1%nat
  /\ 0%nat ∈ running (Close overlap_1)
  /\ exists z, heap overlap_2 !! 1%nat = Some z /\ stopped z = true.
Proof.
  assert (demo_reachable ([(0, 0)]%nat, take0 job_a newPoolChecker)) as Hr.
  { apply rtc_once, (demo_serve []); [by left|]. by intros q ?%elem_of_nil. }
  set (served c p := match fst (demo_acquire all_good 0%nat [p] {[pj_key p]} c) with Serving js => js | _ => [] end).
  assert (demo_acquire all_good 0%nat [job_b] {[pj_key job_b]} (take0 job_a newPoolChecker)
    = (Serving (served (take0 job_a newPoolChecker) job_b), overlap_1)) as E
    by (rewrite (surjective_pairing (demo_acquire _ _ _ _ _)); unfold overlap_1, take0; f_equal; by vm_compute).
  assert (slots overlap_1 !! 0%nat = Some 1%nat) as Hs by (vm_compute; reflexivity).
  destruct (overlapping_calls_lose_engines demo_float demo_object (fun _ => 0) (fun s => s) demo_json pool_demo_module pool_demo_limits
    all_good 0%nat 0%nat [(0, 0)]%nat (take0 job_a newPoolChecker) [job_b] {[pj_key job_b]} (served (take0 job_a newPoolChecker) job_b) overlap_1 Hr) as [Hall (p2 & Hp2 & Hstop)];
    [by left|exact E|rewrite Hs; discriminate|].
  split; [exact Hs|]. split; [exact (proj2 (proj2 (Hall overlap_1 (rtc_refl _ _))))|].
  rewrite Hs in Hp2. injection Hp2 as <-.
  apply (Hstop all_good [job_a] {[pj_key job_a]} (fst (demo_acquire all_good 0%nat [job_a] {[pj_key job_a]} (releaseSlot 0 overlap_1))) overlap_2).
  - unfold overlap_2, take0. apply surjective_pairing.
  - assert (slots overlap_2 !! 0%nat = Some 2%nat) as -> by (vm_compute; reflexivity). discriminate.
Defined.

(** A job that leaves a batch gives its port back, but the slot it alone
    occupied keeps its engine: here the third job's, once two are left. *)
Theorem shrunk_batch_keeps_engine :
  let batch os c := snd (demo_batch all_good os c) in
  let two := [pool_demo_option "a.org" 0; pool_demo_option "b.org" 1] in
  let c := batch two (batch (two ++ [pool_demo_option "c.org" 2]) newPoolChecker) in
  engines c = [(0, false); (1, false)]%nat /\ length (map_to_list (ports c)) = 2%nat.
Proof. vm_compute. split_and!; reflexivity. Qed.
