(* ===== verification/PoolReuse.v ===== *)
(** * Pinned ports and warm reuse

    Every job keeps the port pinned to its content: no two pins agree, so the
    inbounds of an engine never collide as long as no pin is released between
    a failed build and its isolation ([released_pins_collide] has what happens
    then), and a slot asked for the same jobs again is served by the engine it
    already runs. *)

From Stdlib Require Import ZArith Lia List Bool Ascii String Permutation Sorted.
From stdpp Require Import base tactics gmap strings list fin_maps sorting.
From S2P Require Import Prelude GoStrings Wire Netbind Checks Placeholder Schema Module Checker Pool PoolDemo PoolBatch PoolWarm.

Open Scope string_scope.
Open Scope list_scope.
Open Scope Z_scope.

Definition pins_distinct (c : PoolChecker) : Prop :=
  forall k1 k2 port, ports c !! k1 = Some port -> ports c !! k2 = Some port -> k1 = k2.

(** A job stands for a pending one, on its pin. *)
Definition pinned_as (c : PoolChecker) (p : pendingJob) (j : poolJob) : Prop :=
  j = mkPoolJob (pj_idx p) (pj_key p) (pj_o p) (port j) /\ ports c !! pj_key p = Some (port j).

Lemma pinned_as_mono c c' p j : ports c ⊆ ports c' -> pinned_as c p j -> pinned_as c' p j.
Proof. intros Hs [Ej Hp]. split; [done|]. by eapply lookup_weaken. Qed.

Lemma pinned_nodup c chunk js :
  pins_distinct c -> NoDup (map pj_key chunk) -> Forall2 (pinned_as c) chunk js -> NoDup (map port js).
Proof.
  intros Hd Hnd HF. induction HF as [|p j chunk js [Ej Hj] HF IH]; [constructor|]. cbn [map] in *. apply NoDup_cons in Hnd as [Hn Hnd].
  constructor; [|by apply IH]. intros Hin. apply Hn. apply list_elem_of_fmap in Hin as (j' & Ep & Hin).
  apply list_elem_of_lookup in Hin as [i Hi]. apply (Forall2_lookup_r _ _ _ _ _ HF) in Hi as (q & Hq & _ & Hqp).
  assert (pj_key p = pj_key q) as -> by (eapply Hd; [exact Hj|by rewrite Ep]). apply list_elem_of_fmap_2. by eapply list_elem_of_lookup_2.
Qed.

Lemma pinned_elem c k port : ports c !! k = Some port -> port ∈ pinned c.
Proof.
  intros Hk. unfold pinned. rewrite elem_of_list_to_set. apply (list_elem_of_fmap_2 snd _ (k, port)). by apply elem_of_map_to_list.
Qed.

Section ports.
Context (limits : PoolLimits) (w : pool_world).

Lemma allocatePoolPort_spec used c r c' :
  allocatePoolPort limits w used c = (r, c') -> ports c' = ports c /\ trace c' = trace c /\ forall port, r = Ok port -> port ∉ used.
Proof.
  assert (forall n c0 r0 c1, allocateUniquePort w n used c0 = (r0, c1) ->
    ports c1 = ports c0 /\ trace c1 = trace c0 /\ forall port, r0 = Ok port -> port ∉ used) as A1.
  { induction n as [|n IH]; intros c0 r0 c1; cbn; [by intros [= <- <-]|].
    destruct (pw_alloc w (step c0)); [|by intros [= <- <-]]. destruct (decide _); [intros E%IH; exact E|].
    intros [= <- <-]. split_and!; [done..|]. by intros port [= <-]. }
  assert (forall cs c0 r0 c1, allocateUniquePortInRange w cs used c0 = (r0, c1) ->
    ports c1 = ports c0 /\ trace c1 = trace c0 /\ forall port, r0 = Ok port -> port ∉ used) as A2.
  { induction cs as [|p cs IH]; intros c0 r0 c1; cbn; [by intros [= <- <-]|].
    destruct (decide _); [intros E%IH; exact E|]. destruct (pw_free _ _ _); [|intros E%IH; exact E].
    intros [= <- <-]. split_and!; [done..|]. by intros port [= <-]. }
  unfold allocatePoolPort. destruct (_ && _); eauto.
Qed.

Lemma pin_jobs_pins used chunk c r c' :
  pin_jobs limits w used chunk c = (r, c') -> pins_distinct c -> (forall k port, ports c !! k = Some port -> port ∈ used) ->
  pins_distinct c' /\ ports c ⊆ ports c' /\ trace c' = trace c /\ forall js, r = Ok js -> Forall2 (pinned_as c') chunk js.
Proof.
  revert used c r c'. induction chunk as [|p chunk IH]; intros used c r c'; cbn [pin_jobs].
  { intros [= <- <-] Hd _. split_and!; [done..|]. by intros js [= <-]. }
  destruct (ports c !! pj_key p) as [port|] eqn:Hp.
  - destruct (pin_jobs limits w used chunk c) as [r1 c1] eqn:E. intros [= <- <-] Hd Hu.
    destruct (IH _ _ _ _ E Hd Hu) as (Hd1 & Hs & Ht & Hj). split_and!; [done..|]. destruct r1 as [js|]; [|done].
    intros js' [= <-]. constructor; [|by apply Hj]. split; [done|]. cbn. by eapply lookup_weaken.
  - destruct (allocatePoolPort limits w used c) as [[port|e] c1] eqn:Ea; apply allocatePoolPort_spec in Ea as (Ep & Et & Hfresh);
      [|intros [= <- <-] Hd _; split_and!; [by unfold pins_distinct; rewrite Ep|by rewrite Ep|done|done]].
    specialize (Hfresh port eq_refl). destruct (pin_jobs _ _ _ chunk _) as [r1 c2] eqn:E. intros [= <- <-] Hd Hu.
    destruct (IH _ _ _ _ E) as (Hd1 & Hs & Ht & Hj).
    + intros k1 k2 q. cbn. rewrite Ep, !lookup_insert_Some. intros [[<- <-]|[_ H1]] [[<- E2]|[_ H2]]; subst; try done.
      * by destruct Hfresh; apply (Hu k2).
      * by destruct Hfresh; apply (Hu k1).
      * by eapply Hd.
    + intros k q. cbn. rewrite Ep, lookup_insert_Some. intros [[_ <-]|[_ H1]]; [set_solver|]. apply Hu in H1. set_solver.
    + cbn in Hs. rewrite Ep in Hs. split_and!; [done| |by rewrite Ht|].
      * etrans; [|exact Hs]. by apply insert_subseteq.
      * destruct r1 as [js|]; [|done]. intros js' [= <-]. constructor; [|by apply Hj]. split; [done|]. cbn.
        eapply lookup_weaken; [|exact Hs]. by apply lookup_insert_eq.
Qed.

(** Jobs that are all pinned keep their pins. *)
Lemma pin_jobs_again used chunk js c :
  Forall2 (pinned_as c) chunk js -> pin_jobs limits w used chunk c = (Ok js, c).
Proof.
  intros HF. revert used. induction HF as [|p j chunk js [Ej Hj] HF IH]; intros used; [done|]. cbn [pin_jobs]. by rewrite Hj, IH, <- Ej.
Qed.

Lemma repin_again chunk js c : Forall2 (pinned_as c) chunk js -> repin w chunk c = (Ok js, c).
Proof. intros HF. induction HF as [|p j chunk js [Ej Hj] HF IH]; [done|]. cbn [repin]. by rewrite Hj, IH, <- Ej. Qed.
End ports.

Lemma release_pinned live chunk js c :
  Forall (fun p => pj_key p ∈ live) chunk -> Forall2 (pinned_as c) chunk js -> Forall2 (pinned_as (release_ports live c)) chunk js.
Proof.
  intros Hl HF. induction HF as [|p j chunk js [Ej Hj] HF IH]; [constructor|]. apply Forall_cons in Hl as [Hp Hl].
  constructor; [|by apply IH]. split; [done|]. cbn. by rewrite map_lookup_filter_Some.
Qed.

Lemma release_distinct live c : pins_distinct c -> pins_distinct (release_ports live c).
Proof. intros Hd k1 k2 q. cbn. rewrite !map_lookup_filter_Some. intros [? _] [? _]. by eapply Hd. Qed.

(** ** Engines get distinct ports *)

Definition started_distinct (c : PoolChecker) : Prop := forall p js, Started p js ∈ trace c -> NoDup (map port js).

Definition good (c : PoolChecker) : Prop := pins_distinct c /\ started_distinct c.

(** Pins untouched and no engine started. *)
Definition quiet (c c' : PoolChecker) : Prop :=
  ports c' = ports c /\ forall p js, Started p js ∈ trace c' -> Started p js ∈ trace c.

#[export] Instance quiet_preorder : PreOrder quiet.
Proof.
  split; [done|]. intros c1 c2 c3 [P1 T1] [P2 T2]. split; [congruence|]. eauto.
Qed.

Lemma quiet_good c c' : quiet c c' -> good c -> good c'.
Proof.
  intros [Hp Ht] [Hd Hs]. split; [unfold pins_distinct; by rewrite Hp|]. intros p js Hin. by eapply Hs, Ht.
Qed.

Lemma pinned_ports c c' chunk js : ports c' = ports c -> Forall2 (pinned_as c) chunk js -> Forall2 (pinned_as c') chunk js.
Proof. intros Hp HF. eapply Forall2_impl; [exact HF|]. intros p j. apply pinned_as_mono. by rewrite Hp. Qed.

Lemma quiet_pinned c c' chunk js : quiet c c' -> Forall2 (pinned_as c) chunk js -> Forall2 (pinned_as c') chunk js.
Proof. intros [Hp _]. by apply pinned_ports. Qed.

Lemma quiet_emit e c : (forall p js, e <> Started p js) -> quiet c (emit e c).
Proof.
  intros He. split; [done|]. intros p js Hin. cbn in Hin. apply elem_of_app in Hin as [?|Hin]; [done|].
  apply list_elem_of_singleton in Hin. by destruct (He p js).
Qed.

Lemma quiet_fields c c' : ports c' = ports c -> trace c' = trace c -> quiet c c'.
Proof. intros Hp Ht. split; [done|]. by rewrite Ht. Qed.

Lemma teardown_quiet p c : quiet c (teardownLocked p c).
Proof.
  unfold teardownLocked. destruct (heap c !! p) as [x|]; [|done]. destruct (stopped x); [done|].
  etrans; [|by apply quiet_emit]. by apply quiet_fields.
Qed.

Lemma drop_quiet s p f c : quiet c (set_slots s (teardownLocked p (set_instance p f c))).
Proof. etrans; [|by apply quiet_fields]. etrans; [|apply teardown_quiet]. by apply quiet_fields. Qed.

Lemma retire_quiet slot p c : quiet c (retire slot p c).
Proof.
  unfold retire. cbv zeta. destruct (heap (set_instance _ _ _) !! p) as [x|]; [|by apply quiet_fields].
  destruct (refs x =? 0); [apply drop_quiet|by apply quiet_fields].
Qed.

Lemma release_quiet slot c : quiet c (releaseSlot slot c).
Proof.
  unfold releaseSlot. destruct (slots c !! slot) as [p|]; [|done]. cbv zeta.
  destruct (heap (set_instance _ _ _) !! p) as [x|]; [|by apply quiet_fields]. destruct (_ && _); [apply drop_quiet|by apply quiet_fields].
Qed.

Lemma buildAndStart_quiet w js k c r c' :
  buildAndStart w js k c = (r, c') -> quiet c c' /\ forall x, r = Ok x -> jobs x = js /\ jobsKey x = k /\ retired x = false.
Proof.
  unfold buildAndStart. destruct (pw_files _ _); [by intros [= <- <-]|]. cbv zeta.
  destruct (match pw_build w (step (tick c)) js with None => _ | Some _ => _ end) as [f c1] eqn:E.
  assert (quiet c c1) as Hq by (destruct (pw_build _ _ _); injection E as _ <-; by apply quiet_fields).
  destruct f; [by intros [= <- <-]|]. intros [= <- <-]. split; [done|].
  intros x. destruct (startEngine _); [by intros [= <-]|done].
Qed.

Lemma alloc_good x c p c' : alloc_instance x c = (p, c') -> NoDup (map port (jobs x)) -> good c -> good c'.
Proof.
  intros [= <- <-] Hx [Hd Hs]. split; [done|]. intros p js Hin. cbn in Hin. apply elem_of_app in Hin as [?|Hin]; [by eapply Hs|].
  apply list_elem_of_singleton in Hin. by injection Hin as -> ->.
Qed.

Section steps.
Context `{NetIP} (ParseFloat : string -> option float64) (decode_object : string -> option params)
        (overflowed : float64 -> Z) (sha256_hex : string -> string) (params_json : params -> string)
        (m : Module) (spec : PoolSpec) (limits : PoolLimits) (w : pool_world).

Notation acquire' := (acquire sha256_hex params_json limits w).
Notation hashJobs' := (hashJobs sha256_hex params_json).
Notation testJobs' := (testJobs ParseFloat decode_object overflowed m w).
Notation runEphemeral' := (runEphemeral ParseFloat decode_object overflowed sha256_hex params_json m w).
Notation runSlot' := (runSlot ParseFloat decode_object overflowed sha256_hex params_json m limits w).
Notation run_slots' := (run_slots ParseFloat decode_object overflowed sha256_hex params_json m limits w).
Notation CheckBatch' := (CheckBatch_ ParseFloat decode_object overflowed sha256_hex params_json m spec limits w).

Lemma testJobs_quiet js rs c rs' c' : testJobs' js rs c = (rs', c') -> quiet c c'.
Proof.
  revert rs c. induction js as [|j js IH]; intros rs c; cbn [testJobs]; [by intros [= <- <-]|].
  destruct (testJob ParseFloat decode_object overflowed m w j c) as [r c1] eqn:E. intros Hr%IH. etrans; [|exact Hr].
  revert E. unfold testJob. cbv zeta. destruct (negb _); [by intros [= <- <-]|].
  destruct (pw_params_file _ _); [by intros [= <- <-]|].
  assert (quiet c (emit (Tested j) (tick (tick c)))) as Hq by (etrans; [|by apply quiet_emit]; by apply quiet_fields).
  destruct (_ && _); intros [= <- <-]; (etrans; [exact Hq|]; by apply quiet_fields).
Qed.

Lemma runEphemeral_good fuel js rs c rs' c' :
  NoDup (map port js) -> runEphemeral' fuel js rs c = (rs', c') -> good c -> good c'.
Proof.
  revert js rs c rs' c'. induction fuel as [|f IH]; intros js rs c rs' c' Hnd; cbn [runEphemeral];
    destruct (buildAndStart w js _ c) as [[x|e] c1] eqn:Eb; apply buildAndStart_quiet in Eb as [Eb Hx].
  1, 3: destruct (alloc_instance x c1) as [p c2] eqn:Ea; destruct (testJobs' js rs c2) as [rs1 c3] eqn:Et; apply testJobs_quiet in Et;
    intros [= <- <-] Hg%(quiet_good _ _ Eb); apply (alloc_good _ _ _ _ Ea) in Hg; [|by destruct (Hx x eq_refl) as [-> _]];
    apply (quiet_good _ _ Et) in Hg; revert Hg; apply quiet_good, teardown_quiet.
  - intros [= <- <-]. by apply quiet_good.
  - destruct (_ && _); [|intros [= <- <-]; by apply quiet_good].
    destruct (runEphemeral' f _ rs c1) as [rs1 c2] eqn:E1. intros E2 Hg%(quiet_good _ _ Eb).
    rewrite <- (take_drop (length js / 2) js), map_app in Hnd. apply NoDup_app in Hnd as (Hn1 & _ & Hn2).
    eapply IH; [exact Hn2|exact E2|]. by eapply IH; [exact Hn1|exact E1|].
Qed.

Lemma acquire_good slot chunk live c a c' :
  acquire' slot chunk live c = (a, c') -> good c -> NoDup (map pj_key chunk) -> Forall (fun p => pj_key p ∈ live) chunk ->
  good c'
  /\ match a with
     | NoPort _ => True
     | NoEngine js _ => Forall2 (pinned_as c') chunk js
     | Serving js => Forall2 (pinned_as c') chunk js
         /\ exists p x, slots c' !! slot = Some p /\ heap c' !! p = Some x /\ jobsKey x = hashJobs' js /\ retired x = false
     end.
Proof.
  unfold acquire. destruct (pin_jobs _ _ _ chunk c) as [r c1] eqn:Ep. intros E [Hd Hs] Hnd Hlive.
  apply pin_jobs_pins in Ep as (Hd1 & Hsub & Ht & Hj); [|done|apply pinned_elem].
  destruct r as [js|e]; [|injection E as <- <-; split; [|done]; split; [done|by unfold started_distinct; rewrite Ht]].
  specialize (Hj js eq_refl). pose proof (pinned_nodup c1 chunk js Hd1 Hnd Hj) as Hports. cbv zeta in E.
  set (c2 := release_ports live c1) in E.
  assert (good c2) as Hg2 by (split; [by apply release_distinct|unfold started_distinct in *; cbn; by rewrite Ht]).
  assert (Forall2 (pinned_as c2) chunk js) as Hj2 by (by apply release_pinned). clearbody c2. clear Hj.
  assert (forall c3, quiet c2 c3 -> build_slot sha256_hex params_json w slot js c3 = (a, c') -> good c'
    /\ match a with NoPort _ => True | NoEngine js _ => Forall2 (pinned_as c') chunk js
       | Serving js => Forall2 (pinned_as c') chunk js
           /\ exists p x, slots c' !! slot = Some p /\ heap c' !! p = Some x /\ jobsKey x = hashJobs' js /\ retired x = false end) as Hbuild.
  { intros c3 Hq3 Eb. unfold build_slot in Eb. destruct (buildAndStart _ _ _ c3) as [[x|e] c4] eqn:Es; apply buildAndStart_quiet in Es as [Hq4 Hx].
    - destruct (Hx x eq_refl) as (Ex & Hkey & Hret). injection Eb as <- <-. split_and!.
      + apply (alloc_good (set_refs 1 x) c4 (next c4) _ eq_refl); [cbn; by rewrite Ex|]. by do 2 (eapply quiet_good; [eassumption|]).
      + apply (pinned_ports c4); [done|]. by do 2 (eapply quiet_pinned; [eassumption|]).
      + exists (next c4), (set_refs 1 x). cbn. rewrite !lookup_insert_eq. done.
    - injection Eb as <- <-. split; [by do 2 (eapply quiet_good; [eassumption|])|by do 2 (eapply quiet_pinned; [eassumption|])]. }
  destruct (slots c2 !! slot) as [p|] eqn:Hslot; [|by eapply Hbuild]. destruct (heap c2 !! p) as [x|] eqn:Hx; [|by eapply Hbuild].
  destruct (if _ || _ then _ else _) as [reuse c3] eqn:Er.
  assert (quiet c2 c3 /\ heap c3 = heap c2 /\ slots c3 = slots c2 /\ (reuse = true -> retired x = false /\ jobsKey x = hashJobs' js)) as (Hq3 & Eh & Es & Hreuse).
  { destruct (_ || _) eqn:Eo; injection Er as <- <-; [done|]. apply orb_false_iff in Eo as [-> Ek]. split_and!; try done.
    intros _. split; [done|]. by apply negb_false_iff, bool_decide_eq_true in Ek. }
  destruct reuse; [|eapply Hbuild, E; etrans; [exact Hq3|apply retire_quiet]]. injection E as <- <-. destruct (Hreuse eq_refl) as [Hret Hkey].
  split_and!; [by do 2 (eapply quiet_good; [by (eassumption || apply quiet_fields)|])|by do 2 (eapply quiet_pinned; [by (eassumption || apply quiet_fields)|])|].
  exists p, (set_refs (refs x + 1) x). cbn. by rewrite Es, Eh, lookup_alter_eq, Hx.
Qed.

Lemma runSlot_good slot chunk live rs c rs' c' :
  runSlot' slot chunk live rs c = (rs', c') -> good c -> NoDup (map pj_key chunk) -> Forall (fun p => pj_key p ∈ live) chunk -> good c'.
Proof.
  unfold runSlot. destruct (acquire' slot chunk live c) as [a c1] eqn:Ea. intros E Hg Hnd Hl.
  apply acquire_good in Ea as [Hg1 Ha]; [|done..]. destruct a as [e|js e|js].
  - by injection E as _ <-.
  - destruct (shouldBisect _ _); [|by injection E as _ <-]. unfold runBisected in E. rewrite (repin_again w chunk js c1 Ha) in E.
    eapply runEphemeral_good; [|exact E|done]. eapply pinned_nodup; [apply Hg1|exact Hnd|exact Ha].
  - destruct (testJobs' js rs c1) as [rs1 c2] eqn:Et. apply testJobs_quiet in Et. injection E as _ <-.
    eapply quiet_good; [|exact Hg1]. etrans; [exact Et|apply release_quiet].
Qed.

Lemma run_slots_good cs slot live rs c rs' c' :
  run_slots' slot cs live rs c = (rs', c') -> good c -> NoDup (map pj_key (concat cs)) ->
  Forall (fun p => pj_key p ∈ live) (concat cs) -> good c'.
Proof.
  revert slot rs c. induction cs as [|chunk cs IH]; intros slot rs c; cbn [run_slots concat]; [by intros [= _ <-]|].
  destruct (runSlot' slot chunk live rs c) as [rs1 c1] eqn:E. intros E2 Hg Hnd [Hl1 Hl2]%Forall_app.
  rewrite map_app in Hnd. apply NoDup_app in Hnd as (Hn1 & _ & Hn2). eapply IH; [exact E2| |done|done]. by eapply runSlot_good.
Qed.
End steps.

Lemma CheckBatch_good `{NetIP} ParseFloat decode_object overflowed sha256_hex params_json m spec limits w os c rs c' :
  0 < pool_maxJobs spec limits ->
  CheckBatch_ ParseFloat decode_object overflowed sha256_hex params_json m spec limits w os c = (rs, c') -> good c -> good c'.
Proof.
  intros Hmax. unfold CheckBatch_. rewrite sort_options_eq. set (gs := group _ _).
  destruct (group_spec ParseFloat decode_object sha256_hex (valid_jobs ParseFloat sha256_hex params_json m 0 os) []) as [Hg _]; [by split; constructor|]. fold gs in Hg.
  destruct (canonical_keys gs Hg) as [Hnd _]. destruct (canonical gs) as [|p ps]; [by intros [= _ <-]|].
  destruct (run_slots _ _ _ _ _ _ _ _ _ _ _ _ _) as [rs1 c1] eqn:E. intros [= _ <-] Hc. eapply run_slots_good; [exact E|done|..].
  all: rewrite chunks_concat by lia.
  1: exact Hnd.
  apply Forall_forall. intros q Hq. rewrite elem_of_list_to_set. by apply list_elem_of_fmap_2.
Qed.

(** Batches one after another. *)
Lemma run_batches_good `{NetIP} ParseFloat decode_object overflowed sha256_hex params_json m spec limits bs c :
  0 < pool_maxJobs spec limits -> good c ->
  good (run_batches ParseFloat decode_object overflowed sha256_hex params_json m spec limits bs c).
Proof.
  intros Hmax. revert c. induction bs as [|[w os] bs IH]; intros c Hg; [done|]. cbn [run_batches].
  apply IH. destruct (CheckBatch_ _ _ _ _ _ _ _ _ _ _ _) as [rs c'] eqn:E. by eapply CheckBatch_good.
Qed.

Lemma new_good : good newPoolChecker.
Proof. split; [intros k1 k2 q; cbn; by rewrite lookup_empty|by intros q ks ?%elem_of_nil]. Qed.

Section interleaved.
Context `{NetIP} (ParseFloat : string -> option float64) (decode_object : string -> option params)
        (overflowed : float64 -> Z) (sha256_hex : string -> string) (params_json : params -> string)
        (m : Module) (spec : PoolSpec) (limits : PoolLimits).

(** Any number of calls, one locked section or engine operation at a time, and
    the jobs each isolating call has taken ports for.  A call's jobs are
    distinct and among those it keeps pinned; [call_isolate] is the locked part
    of [runBisected] when no pin it needs was released meanwhile, and the
    engines it then builds serve parts of those jobs. *)
Inductive call_step : list (list poolJob) * PoolChecker -> list (list poolJob) * PoolChecker -> Prop :=
| call_acquire w slot chunk live a I c c' :
    acquire sha256_hex params_json limits w slot chunk live c = (a, c') ->
    NoDup (map pj_key chunk) -> Forall (fun q => pj_key q ∈ live) chunk -> call_step (I, c) (I, c')
| call_test w js rs rs' I c c' : testJobs ParseFloat decode_object overflowed m w js rs c = (rs', c') -> call_step (I, c) (I, c')
| call_release s I c : call_step (I, c) (I, releaseSlot s c)
| call_isolate w chunk js I c c' :
    repin w chunk c = (Ok js, c') -> NoDup (map pj_key chunk) ->
    Forall (fun q => is_Some (ports c !! pj_key q)) chunk -> call_step (I, c) (js :: I, c')
| call_private w js part k r I c c' :
    js ∈ I -> sublist part js -> buildAndStart w part k c = (r, c') ->
    call_step (I, c) (I, match r with Ok x => snd (alloc_instance x c') | Err _ => c' end)
| call_stop p I c : call_step (I, c) (I, teardownLocked p c)
| call_close I c : call_step (I, c) (I, Close c).

Lemma close_quiet c : quiet c (Close c).
Proof.
  unfold Close. generalize (map_to_list (slots c)). intros l. revert c. induction l as [|[s p] l IH]; intros c; [done|].
  cbn [fold_left]. etrans; [|apply IH]. unfold close_slot. cbn [fst snd]. destruct (heap c !! p) as [x|]; [|done].
  destruct (refs x =? 0); [|by apply quiet_fields]. etrans; [apply teardown_quiet|by apply quiet_fields].
Qed.

(** Pins that are there are kept. *)
Lemma repin_pinned w chunk c r c' :
  repin w chunk c = (r, c') -> Forall (fun q => is_Some (ports c !! pj_key q)) chunk ->
  c' = c /\ exists js, r = Ok js /\ Forall2 (pinned_as c) chunk js.
Proof.
  revert r c'. induction chunk as [|q chunk IH]; intros r c'; cbn [repin].
  - intros [= <- <-] _. split; [done|]. by exists [].
  - intros E [[port Hq] Hl]%Forall_cons. rewrite Hq in E. destruct (repin w chunk c) as [r1 c1].
    destruct (IH _ _ eq_refl Hl) as (-> & js & -> & HF). injection E as <- <-. split; [done|]. eexists. split; [done|]. by constructor.
Qed.

Definition isolates (s : list (list poolJob) * PoolChecker) : Prop := good (snd s) /\ Forall (fun js => NoDup (map port js)) (fst s).

Lemma sublist_map {A B} (f : A -> B) l k : sublist l k -> sublist (map f l) (map f k).
Proof. induction 1; cbn; by constructor. Qed.

Lemma call_step_isolates s s' : call_step s s' -> isolates s -> isolates s'.
Proof.
  intros Hs [Hg HI].
  destruct Hs as [w slot chunk live a I c c' E Hnd Hl|w js rs rs' I c c' E|s I c|w chunk js I c c' E Hnd Hp|w js part k r I c c' Hin Hsub E|p I c|I c];
    cbn [fst snd] in *; (split; [cbn [fst snd]|]).
  - by eapply acquire_good.
  - done.
  - eapply quiet_good; [by eapply testJobs_quiet|done].
  - done.
  - eapply quiet_good; [apply release_quiet|done].
  - done.
  - by apply repin_pinned in E as [-> _].
  - apply repin_pinned in E as (-> & js' & [= <-] & HF); [|done]. cbn. constructor; [|done]. eapply pinned_nodup; [apply Hg|done|done].
  - apply buildAndStart_quiet in E as [Hq Hx]. pose proof (quiet_good _ _ Hq Hg) as Hg'. destruct r as [x|e]; [|done].
    destruct (alloc_instance x c') as [p c2] eqn:Ea. apply (alloc_good _ _ _ _ Ea); [|done]. destruct (Hx x eq_refl) as [-> _].
    rewrite Forall_forall in HI. eapply sublist_NoDup; [by apply HI|by apply sublist_map].
  - done.
  - eapply quiet_good; [apply teardown_quiet|done].
  - done.
  - eapply quiet_good; [apply close_quiet|done].
  - done.
Qed.

(** C36: The jobs an engine is started for never share a port, so the module's
    inbounds cannot collide with each other, in batches that follow one another
    and in any interleaving of calls in which a bad job is isolated on pins that
    no other call has released meanwhile: whatever ports the system hands out
    (twice the same, or one an earlier engine holds), and whichever jobs came
    and went before. *)
Theorem engine_ports_distinct p js :
  (forall I c, rtc call_step ([], newPoolChecker) (I, c) -> Started p js ∈ trace c -> NoDup (map port js))
  /\ (0 < pool_maxJobs spec limits -> forall bs,
       Started p js ∈ trace (run_batches ParseFloat decode_object overflowed sha256_hex params_json m spec limits bs newPoolChecker) ->
       NoDup (map port js)).
Proof.
  split.
  - intros I c Hr. apply (rtc_ind_r isolates ([], newPoolChecker)) in Hr as [[_ Hs] _]; [apply Hs|by split; [apply new_good|]|].
    intros s s' _. apply call_step_isolates.
  - intros Hmax bs. pose proof (run_batches_good ParseFloat decode_object overflowed sha256_hex params_json m spec limits bs newPoolChecker Hmax new_good) as [_ Hs].
    apply Hs.
Qed.
End interleaved.

(** ** Warm reuse *)

(** The same job, whoever asks and wherever the answer goes. *)
Definition alike `{NetIP} (params_json : params -> string) (p q : pendingJob) : Prop :=
  pj_key p = pj_key q /\ o_Target (pj_o p) = o_Target (pj_o q)
  /\ milliseconds (o_Timeout (pj_o p)) = milliseconds (o_Timeout (pj_o q))
  /\ params_json (o_Params (pj_o p)) = params_json (o_Params (pj_o q))
  /\ Binding_String (o_Bind (pj_o p)) = Binding_String (o_Bind (pj_o q)).

Lemma alike_hash `{NetIP} params_json (sha256_hex : string -> string) c chunk chunk' js :
  Forall2 (alike params_json) chunk chunk' -> Forall2 (pinned_as c) chunk js ->
  exists js', Forall2 (pinned_as c) chunk' js' /\ map port js' = map port js /\ map (job_line params_json) js' = map (job_line params_json) js.
Proof.
  intros HA. revert js. induction HA as [|p q ps qs (Ek & Et & Em & Ep & Eb) HA IH]; intros js HF.
  - apply Forall2_nil_inv_l in HF as ->. by exists [].
  - apply Forall2_cons_inv_l in HF as (j & js1 & [Ej Hj] & HF & ->). destruct (IH js1 HF) as (js' & HF' & E1 & E2).
    exists (mkPoolJob (pj_idx q) (pj_key q) (pj_o q) (port j) :: js'). split_and!.
    + constructor; [|done]. split; [done|]. cbn. by rewrite <- Ek.
    + cbn. by rewrite E1.
    + cbn [map]. rewrite E2. f_equal. rewrite Ej. unfold job_line. cbn. by rewrite Et, Em, Ep, Eb.
Qed.

Section reuse.
Context `{NetIP} (sha256_hex : string -> string) (params_json : params -> string) (limits : PoolLimits).

Notation acquire' := (acquire sha256_hex params_json limits).

(** What one call leaves to the next: the slot's instance and the pins of its
    jobs; releasing the slot keeps both ([release_keeps]). *)
Definition keeps (slot : nat) (chunk : list pendingJob) (c c' : PoolChecker) : Prop :=
  slots c' !! slot = slots c !! slot
  /\ (forall p x, slots c !! slot = Some p -> heap c !! p = Some x ->
       exists y, heap c' !! p = Some y /\ jobsKey y = jobsKey x /\ retired y = retired x)
  /\ Forall (fun q => ports c' !! pj_key q = ports c !! pj_key q) chunk.

Lemma release_keeps slot chunk c : 
  (forall p x, slots c !! slot = Some p -> heap c !! p = Some x -> retired x = false) -> keeps slot chunk c (releaseSlot slot c).
Proof.
  intros Hret. unfold keeps, releaseSlot. destruct (slots c !! slot) as [p|] eqn:Es; [|split_and!; [done..|by apply Forall_true]].
  cbv zeta. destruct (heap c !! p) as [x|] eqn:Ex.
  - cbn [heap set_instance set_heap]. rewrite lookup_alter_eq, Ex. cbn [fmap option_fmap option_map].
    change (retired (set_refs (refs x - 1) x)) with (retired x). rewrite (Hret p x eq_refl Ex). cbn [andb].
    split_and!; [done| |by apply Forall_true]. intros q y [= <-] Hy. rewrite Ex in Hy. injection Hy as <-.
    exists (set_refs (refs x - 1) x). cbn. by rewrite lookup_alter_eq, Ex.
  - cbn [heap set_instance set_heap]. rewrite lookup_alter_eq, Ex. split_and!; [done| |by apply Forall_true].
    intros q y [= <-] Hy. by rewrite Ex in Hy.
Qed.

(** A slot that served a set of jobs serves it again from the engine it has:
    whatever the numbers, the probes and the world of the new request, when the
    engine is alive and its ports accept, the same jobs in canonical order get
    the same ports and no engine is started or stopped. *)
Theorem warm_reuse w slot chunk live c js c1 c2 w2 chunk2 live2 :
  acquire' w slot chunk live c = (Serving js, c1) -> good c ->
  NoDup (map pj_key chunk) -> Forall (fun p => pj_key p ∈ live) chunk ->
  keeps slot chunk c1 c2 -> Forall2 (alike params_json) chunk chunk2 ->
  Forall (fun p => pj_key p ∈ live2) chunk2 ->
  (forall k, pw_alive w2 k = true) -> (forall k port, pw_accepts w2 k port = true) ->
  exists js2 c3, acquire' w2 slot chunk2 live2 c2 = (Serving js2, c3)
    /\ map port js2 = map port js /\ trace c3 = trace c2 /\ slots c3 = slots c2.
Proof.
  intros Ea Hg Hnd Hl (Es & Eh & Ep) HA Hl2 Halive Hacc.
  apply acquire_good in Ea as (_ & Hj & p & x & Hslot & Hx & Hkey & Hret); [|done..].
  assert (Forall2 (pinned_as c2) chunk js) as Hj2.
  { clear -Hj Ep. induction Hj as [|q j chunk js [Ej Hq] HF IH]; [constructor|]. apply Forall_cons in Ep as [Eq Ep].
    constructor; [|by apply IH]. split; [done|]. by rewrite Eq. }
  destruct (alike_hash params_json sha256_hex c2 chunk chunk2 js HA Hj2) as (js2 & Hjs2 & Eports & Elines).
  destruct (Eh p x Hslot Hx) as (y & Hy & Ek & Er). rewrite Hslot in Es.
  assert (hashJobs sha256_hex params_json js2 = hashJobs sha256_hex params_json js) as Ehash by (unfold hashJobs; by rewrite Elines).
  unfold acquire. rewrite (pin_jobs_again limits w2 _ chunk2 js2 c2 Hjs2). cbv zeta. cbn [slots heap release_ports set_ports].
  rewrite Es, Hy, Er, Hret, Ehash, Ek, Hkey, bool_decide_eq_true_2 by done. cbn [orb negb]. unfold healthyLocked.
  rewrite Halive. replace (forallb _ (jobs y)) with true by (symmetry; apply forallb_forall; intros; apply Hacc).
  cbn [andb]. by eexists _, _.
Qed.
End reuse.

(** ** Witnesses *)

Definition reuse_jobs (seq : Z) : list pendingJob :=
  canonical [("a", [mkPending 0 "a" (pool_demo_option "a.org" seq)]); ("b", [mkPending 1 "b" (pool_demo_option "b.org" seq)])].

Definition reuse_first : acquired * PoolChecker := demo_acquire all_good 0%nat (reuse_jobs 0) {["a"; "b"]} newPoolChecker.
Definition reuse_served : list poolJob := match fst reuse_first with Serving js => js | _ => [] end.

Lemma warm_reuse_witness :
  exists js2 c3, demo_acquire all_good 0%nat (reuse_jobs 7) {["a"; "b"]} (releaseSlot 0 (snd reuse_first)) = (Serving js2, c3)
    /\ map port js2 = [40000; 40001] /\ trace c3 = [Started 0 reuse_served].
Proof.
  assert (reuse_first = (Serving reuse_served, snd reuse_first)) as E by (rewrite (surjective_pairing reuse_first) at 1; f_equal; by vm_compute).
  unfold reuse_first at 1 in E.
  destruct (@warm_reuse demoNetIP (fun s => s) demo_json pool_demo_limits all_good 0%nat (reuse_jobs 0) {["a"; "b"]} newPoolChecker
    reuse_served (snd reuse_first) (releaseSlot 0 (snd reuse_first)) all_good (reuse_jobs 7) {["a"; "b"]} E) as (js2 & c3 & E3 & Ep & Et & _).
  - split; [intros k1 k2 q; cbn; by rewrite lookup_empty|by intros q ks ?%elem_of_nil].
  - by apply (bool_decide_unpack _); vm_compute.
  - by apply (bool_decide_unpack _); vm_compute.
  - apply release_keeps. intros p x Hp Hx. assert (p = 0%nat) as -> by (vm_compute in Hp; by injection Hp).
    assert (retired <$> heap (snd reuse_first) !! 0%nat = Some false) as Hr by (by vm_compute). rewrite Hx in Hr. by injection Hr.
  - repeat constructor.
  - by apply (bool_decide_unpack _); vm_compute.
  - done.
  - done.
  - exists js2, c3. split_and!; [exact E3|rewrite Ep; by vm_compute|rewrite Et; by vm_compute].
Defined.

Definition reuse_run : PoolChecker :=
  @run_batches demoNetIP demo_float demo_object (fun _ => 0) (fun s => s) demo_json pool_demo_module pool_demo_spec pool_demo_limits
    [(all_good, demo_batch_options)] newPoolChecker.
Definition reuse_started : list poolJob := match head (trace reuse_run) with Some (Started _ js) => js | _ => [] end.

(** A bad job among two, isolated while a third call runs. *)
Definition isolated_jobs : list pendingJob := reuse_jobs 0.
Definition other_job : pendingJob := pool_demo_job "c.org".
Definition all_bad : pool_world := pool_demo_world (fun _ => true).

(** The failed build, with its pins still held. *)
Definition failed_build : acquired * PoolChecker := demo_acquire all_bad 0%nat isolated_jobs {["a"; "b"]} newPoolChecker.
Definition held_pool : PoolChecker := snd failed_build.
Definition held_jobs : list poolJob := match fst (repin all_good isolated_jobs held_pool) with Ok js => js | Err _ => [] end.
Definition held_build : result build_error warmInstance * PoolChecker := buildAndStart all_good held_jobs "" held_pool.
Definition held_engine : PoolChecker := match fst held_build with Ok x => snd (alloc_instance x (snd held_build)) | Err _ => snd held_build end.

Notation demo_call_to := (@call_step demoNetIP demo_float demo_object (fun _ => 0) (fun s => s) demo_json pool_demo_module pool_demo_limits).

Lemma held_reachable : rtc demo_call_to ([], newPoolChecker) ([held_jobs], held_engine).
Proof.
  eapply rtc_l; [|eapply rtc_l; [|apply rtc_once]].
  - apply (call_acquire _ _ _ _ _ _ _ all_bad 0%nat isolated_jobs {["a"; "b"]} (fst failed_build) [] newPoolChecker held_pool).
    + unfold held_pool, failed_build. apply surjective_pairing.
    + by apply (bool_decide_unpack _); vm_compute.
    + by apply (bool_decide_unpack _); vm_compute.
  - apply (call_isolate _ _ _ _ _ _ _ all_good isolated_jobs held_jobs [] held_pool held_pool).
    + by vm_compute.
    + by apply (bool_decide_unpack _); vm_compute.
    + by apply (bool_decide_unpack _); vm_compute.
  - apply (call_private _ _ _ _ _ _ _ all_good held_jobs held_jobs "" (fst held_build) [held_jobs] held_pool (snd held_build)).
    + by left.
    + done.
    + unfold held_build. apply surjective_pairing.
Qed.

Lemma engine_ports_distinct_witness :
  (length held_jobs = 2%nat /\ NoDup (map port held_jobs))
  /\ 0 < pool_maxJobs pool_demo_spec pool_demo_limits /\ length reuse_started = 2%nat /\ NoDup (map port reuse_started).
Proof.
  split; [split; [by vm_compute|]|split_and!; [reflexivity|by vm_compute|]].
  - refine (proj1 (@engine_ports_distinct demoNetIP demo_float demo_object (fun _ => 0) (fun s => s) demo_json pool_demo_module pool_demo_spec
      pool_demo_limits 0%nat held_jobs) [held_jobs] held_engine held_reachable _).
    assert (trace held_engine = [Started 0 held_jobs]) as -> by (vm_compute; reflexivity). by left.
  - assert (head (trace reuse_run) = Some (Started 0 reuse_started)) as E by (by vm_compute).
    refine (proj2 (@engine_ports_distinct demoNetIP demo_float demo_object (fun _ => 0) (fun s => s) demo_json pool_demo_module pool_demo_spec
      pool_demo_limits 0%nat reuse_started) _ [(all_good, demo_batch_options)] _); [reflexivity|].
    fold reuse_run. destruct (trace reuse_run) as [|e t]; [done|]. injection E as ->. by left.
Defined.

(** ** Pins released while a bad job is isolated *)

(** Another call, which does not have the two jobs, has run meanwhile; and the
    system hands out the same port twice. *)
Definition other_call : acquired * PoolChecker := demo_acquire all_good 1%nat [other_job] {[pj_key other_job]} held_pool.
Definition released_pool : PoolChecker := snd other_call.

Definition same_port : pool_world := {|
  pw_alloc _ := Ok 50000; pw_free := pw_free all_good; pw_files := pw_files all_good; pw_build := pw_build all_good;
  pw_start := pw_start all_good; pw_deadline := pw_deadline all_good; pw_alive := pw_alive all_good; pw_accepts := pw_accepts all_good;
  pw_gate := pw_gate all_good; pw_params_file := pw_params_file all_good; pw_run := pw_run all_good; pw_elapsed := pw_elapsed all_good;
  pw_cancelled := pw_cancelled all_good
|}.

Notation demo_runBisected := (@runBisected demoNetIP demo_float demo_object (fun _ => 0) (fun s => s) demo_json pool_demo_module).

Definition collided_pool : PoolChecker := snd (demo_runBisected same_port isolated_jobs [] released_pool).
Definition collided_jobs : list poolJob :=
  match fst (repin same_port isolated_jobs released_pool) with Ok js => js | Err _ => [] end.

(** Why [call_isolate] asks for the pins: [runBisected] takes a released pin
    again from the system alone, without looking at the ports in use, so two
    jobs of the engine it starts may be given the same port. *)
Theorem released_pins_collide :
  demo_reachable ([(1, 0)]%nat, collided_pool) /\ Started 1 collided_jobs ∈ trace collided_pool /\ map port collided_jobs = [50000; 50000].
Proof.
  split; [|split; [|by vm_compute]].
  - eapply rtc_l; [|eapply rtc_l; [|apply rtc_once]].
    + apply (step_refuse _ _ _ _ _ _ _ all_bad 0%nat isolated_jobs {["a"; "b"]} (fst failed_build) [] newPoolChecker held_pool).
      * unfold held_pool, failed_build. apply surjective_pairing.
      * intros js. by vm_compute.
    + apply (step_serve _ _ _ _ _ _ _ all_good 1%nat [other_job] {[pj_key other_job]}
        match fst other_call with Serving js => js | _ => [] end 0%nat [] held_pool released_pool).
      * rewrite (surjective_pairing (demo_acquire _ _ _ _ held_pool)). unfold released_pool, other_call. by f_equal.
      * by vm_compute.
      * by intros q ?%elem_of_nil.
    + apply (step_bisect _ _ _ _ _ _ _ same_port isolated_jobs [] (fst (demo_runBisected same_port isolated_jobs [] released_pool))).
      unfold collided_pool. apply surjective_pairing.
  - assert (trace collided_pool !! 1%nat = Some (Started 1 collided_jobs)) as E by (by vm_compute).
    exact (list_elem_of_lookup_2 _ _ _ E).
Qed.
