(* ===== verification/Filepath.v ===== *)
(** * Path names

    [path/filepath] on Unix, as far as the program uses it, and what cleaning a
    path guarantees: a cleaned absolute path that extends another by a
    separator names something below it. *)

From Stdlib Require Import ZArith Lia List Bool Ascii String.
From stdpp Require Import base tactics gmap strings list.
From S2P Require Import Prelude GoStrings.

Open Scope string_scope.
Open Scope list_scope.
Open Scope Z_scope.

Definition slash : ascii := "/"%char.

Definition IsAbs (s : string) : bool := has_prefix s "/".

(** One element of a path against those kept so far, the last first. *)
Definition clean_step (rooted : bool) (kept : list string) (elem : string) : list string :=
  if decide (elem = "" \/ elem = ".") then kept
  else if decide (elem = "..") then
    match kept with
    | last :: rest => if decide (last = "..") then elem :: kept else rest
    | [] => if rooted then [] else [elem]
    end
  else elem :: kept.

Definition clean_elems (s : string) : list string :=
  rev (fold_left (clean_step (IsAbs s)) (split slash s) []).

Definition Clean (s : string) : string :=
  let joined := join "/" (clean_elems s) in
  if IsAbs s then "/" +:+ joined else if decide (joined = "") then "." else joined.

(** [filepath.Join] of two elements. *)
Definition Join (a b : string) : string :=
  match filter (fun s => s <> "") [a; b] with
  | [] => ""
  | l => Clean (join "/" l)
  end.

(** The last slash-free part, and what is before it. *)
Fixpoint split_last (s : string) : string * string :=
  match s with
  | "" => ("", "")
  | String c r =>
      let '(dir, file) := split_last r in
      if decide (dir = "" /\ c <> slash) then ("", String c file)
      else (String c dir, file)
  end.

Fixpoint trim_slashes (fuel : nat) (s : string) : string :=
  match fuel with
  | O => s
  | S f => match split_last s with (dir, "") => if decide (dir = "") then s else trim_slashes f (String.substring 0 (String.length s - 1) s) | _ => s end
  end.

Definition Base (s : string) : string :=
  if decide (s = "") then "."
  else let file := snd (split_last (trim_slashes (String.length s) s)) in if decide (file = "") then "/" else file.

Definition Dir (s : string) : string := Clean (fst (split_last s)).

(** ** Elements *)

Definition plain_name (s : string) : Prop := s <> "" /\ s <> "." /\ s <> ".." /\ lacks slash s = true.

Lemma split_lacks c s : Forall (fun w => lacks c w = true) (split c s).
Proof.
  induction s as [|d s IH]; cbn; [by repeat constructor|]. destruct (decide (c = d)) as [->|Hne]; [by constructor|].
  assert (Ascii.eqb d c = false) as Hd by (apply Ascii.eqb_neq; congruence).
  destruct (split c s) as [|w ws]; [repeat constructor; cbn; by rewrite Hd|].
  apply Forall_cons in IH as [Hw Hws]. constructor; [|done]. cbn. by rewrite Hd, Hw.
Qed.

Lemma clean_step_plain kept elem :
  Forall plain_name kept -> lacks slash elem = true -> Forall plain_name (clean_step true kept elem).
Proof.
  intros Hk He. unfold clean_step. destruct (decide _); [done|]. destruct (decide _) as [|Hd].
  - destruct kept as [|l rest]; [done|]. apply Forall_cons in Hk as [(_ & _ & Hl & _) Hk]. by rewrite decide_False.
  - constructor; [|done]. split_and!; [tauto|tauto|done|done].
Qed.

(** An absolute path cleans to plain names: no dot element survives. *)
Lemma clean_elems_plain s : IsAbs s = true -> Forall plain_name (clean_elems s).
Proof.
  intros Ha. unfold clean_elems. rewrite Ha. apply Forall_rev.
  assert (forall l kept, Forall plain_name kept -> Forall (fun w => lacks slash w = true) l ->
    Forall plain_name (fold_left (clean_step true) l kept)) as Hfold.
  { induction l as [|w l IH]; intros kept Hk Hl; [done|]. apply Forall_cons in Hl as [Hw Hl]. cbn [fold_left].
    apply IH; [by apply clean_step_plain|done]. }
  apply Hfold; [constructor|apply split_lacks].
Qed.

Lemma cut_lacks c s a b : cut c s = Some (a, b) -> lacks c a = true.
Proof.
  revert a. induction s as [|d s IH]; intros a; cbn; [done|]. destruct (decide (c = d)) as [<-|Hne]; [by intros [= <- _]|].
  destruct (cut c s) as [[x y]|]; [|done]. intros [= <- <-]. cbn [lacks]. rewrite (IH x) by done.
  by rewrite (proj2 (Ascii.eqb_neq d c)) by congruence.
Qed.

Lemma cut_None c s : cut c s = None -> lacks c s = true.
Proof.
  induction s as [|d s IH]; [done|]. cbn. destruct (decide (c = d)) as [|Hne]; [done|]. destruct (cut c s) as [[x y]|]; [done|].
  intros _. rewrite IH by done. by rewrite (proj2 (Ascii.eqb_neq d c)) by congruence.
Qed.

(** Where a list of plain names is cut at a separator, it is cut in two. *)
Lemma join_cut names a r :
  Forall (fun w => lacks slash w = true) names -> join "/" names = a +:+ "/" +:+ r ->
  exists n1 n2, names = n1 ++ n2 /\ n1 <> [] /\ n2 <> [] /\ a = join "/" n1 /\ r = join "/" n2.
Proof.
  revert a. induction names as [|w ws IH]; intros a Hf E.
  - destruct a; done.
  - apply Forall_cons in Hf as [Hw Hws]. destruct ws as [|v vs].
    + cbn [join] in E. rewrite E in Hw. change (a +:+ "/" +:+ r) with (a +:+ String slash r) in Hw. by rewrite lacks_mid in Hw.
    + rewrite join_cons in E by done. change (w +:+ "/" +:+ join "/" (v :: vs)) with (w +:+ String slash (join "/" (v :: vs))) in E.
      change (a +:+ "/" +:+ r) with (a +:+ String slash r) in E. destruct (cut slash a) as [[a1 a2]|] eqn:Ec.
      * apply cut_Some in Ec as Ea. rewrite Ea in E. rewrite append_assoc', app_String in E.
        pose proof (cut_lacks _ _ _ _ Ec) as Ha1.
        apply lacks_split_left in E as [<- E]; [|done..].
        destruct (IH a2 Hws) as (n1 & n2 & -> & H1 & H2 & E1 & E2); [exact E|]. exists (w :: n1), n2. split_and!; try done.
        rewrite join_cons, <- E1 by done. exact Ea.
      * pose proof (cut_None _ _ Ec) as Ha.
        apply lacks_split_left in E as [<- <-]; [|done..]. by exists [w], (v :: vs).
Qed.

(** Something below a directory: its path, and one or more plain names. *)
Definition below (base path : string) : Prop :=
  exists names, names <> [] /\ Forall plain_name names /\ path = base +:+ "/" +:+ join "/" names.

(** The check [strings.HasPrefix(full, base + "/")] on cleaned absolute paths. *)
Lemma clean_prefix_below base s :
  IsAbs base = true -> base = Clean base -> IsAbs s = true -> has_prefix (Clean s) (base +:+ "/") = true ->
  below base (Clean s).
Proof.
  intros Hb Ecl Hs Hp. unfold has_prefix in Hp. destruct (cut_prefix _ _) as [r|] eqn:E; [|done]. apply cut_prefix_Some in E.
  unfold Clean in Ecl. rewrite Hb in Ecl. unfold Clean in E. rewrite Hs in E. unfold Clean. rewrite Hs.
  rewrite Ecl, !append_assoc' in E. injection E as E.
  pose proof (clean_elems_plain s Hs) as Hf.
  assert (Forall (fun w => lacks slash w = true) (clean_elems s)) as Hl.
  { rewrite Forall_forall in *. intros w Hw. by apply Hf. }
  apply (join_cut _ (join "/" (clean_elems base)) r) in E as (n1 & n2 & En & H1 & H2 & E1 & E2); [|done].
  exists n2. split_and!; [done|by rewrite En in Hf; apply Forall_app in Hf as [_ ?]|].
  transitivity (("/" +:+ join "/" (clean_elems base)) +:+ "/" +:+ join "/" n2); [|by rewrite <- Ecl].
  rewrite E1, En, append_assoc'. f_equal. clear -H1 H2. induction n1 as [|w n1 IH]; [done|]. destruct n1 as [|v n1].
  - cbn [app]. by rewrite join_cons.
  - cbn [app] in *. rewrite !(join_cons _ w), IH by done. by rewrite !append_assoc'.
Qed.

(** ** Joining a plain name *)

Lemma split_app c a b : split c (a +:+ String c b) = split c a ++ split c b.
Proof.
  induction a as [|d a IH]; [rewrite app_empty; cbn; by rewrite decide_True|]. rewrite app_String. cbn. destruct (decide (c = d)); [by rewrite IH|].
  rewrite IH. destruct (split c a) as [|w ws] eqn:E; [|done]. exfalso. by destruct a as [|e a]; cbn in E; repeat case_match.
Qed.

Lemma split_lacking c s : lacks c s = true -> split c s = [s].
Proof.
  induction s as [|d s IH]; [done|]. cbn. intros [Hd Hs]%andb_true_iff. apply negb_true_iff, Ascii.eqb_neq in Hd.
  rewrite decide_False by congruence. by rewrite IH.
Qed.

Lemma has_prefix_app s t p : has_prefix s p = true -> has_prefix (s +:+ t) p = true.
Proof.
  unfold has_prefix. destruct (cut_prefix p s) as [r|] eqn:E; [|done]. apply cut_prefix_Some in E as ->. intros _.
  by rewrite append_assoc', cut_prefix_app.
Qed.

Lemma Join_plain base n :
  IsAbs base = true -> base = Clean base -> base <> "/" -> plain_name n -> Join base n = base +:+ "/" +:+ n.
Proof.
  intros Hb Ecl Hroot (H1 & H2 & H3 & H4). unfold Join. rewrite filter_cons_True by (by intros ->).
  rewrite filter_cons_True by done. cbn [filter list_filter]. change (join "/" [base; n]) with (base +:+ String slash n).
  assert (IsAbs (base +:+ String slash n) = true) as Ha by (by apply has_prefix_app).
  unfold Clean in *. rewrite Ha. rewrite Hb in Ecl. unfold clean_elems in *. rewrite Ha. rewrite Hb in Ecl.
  rewrite split_app, fold_left_app, (split_lacking _ n) by done. cbn [fold_left]. set (kept := fold_left _ _ _) in *.
  assert (clean_step true kept n = n :: kept) as -> by (unfold clean_step; rewrite decide_False by tauto; by rewrite decide_False).
  cbn [rev]. assert (rev kept <> []) as Hne by (intros E; rewrite E in Ecl; apply Hroot; exact Ecl).
  rewrite Ecl at 1. rewrite append_assoc'. f_equal. clear -Hne. induction (rev kept) as [|w l IH]; [done|]. destruct l as [|v l]; [done|].
  cbn [app] in *. rewrite !(join_cons _ w), IH by done. by rewrite !append_assoc'.
Qed.

Lemma Join_abs base rel : IsAbs base = true -> base = Clean base ->
  Join base rel = base \/ exists s, IsAbs s = true /\ Join base rel = Clean s.
Proof.
  intros Hb Ecl. unfold Join. rewrite filter_cons_True by (by intros ->). destruct (decide (rel = "")) as [->|Hr].
  - left. rewrite filter_cons_False by tauto. cbn. congruence.
  - right. rewrite filter_cons_True by done. exists (base +:+ "/" +:+ rel). split; [by apply has_prefix_app|done].
Qed.
