(* ===== verification/PoolConfig.v ===== *)
(** * The merged engine configuration

    [internal/poolconfig/poolconfig.go]: one engine configuration out of the
    jobs of a pooled instance.  Configurations are JSON objects; [None] stands
    for a JSON null where the code expects an object, a nil map that reads as
    empty and that no entry can be assigned to.  Reading and writing the files
    and [encoding/json] are arguments. *)

From Stdlib Require Import ZArith Lia List Bool Ascii String.
From Stdlib Require Import SpecFloat.
From stdpp Require Import base tactics gmap strings list pretty.
From S2P Require Import Prelude GoStrings Wire Netbind Config Checks Module Checker.

Open Scope string_scope.
Open Scope list_scope.
Open Scope Z_scope.

Record job : Type := mkJob {
  Index : Z;
  AllocPort : Z;
  Inbounds : list (option params);
  Outbounds : list (option params);
  SocksPort : any
}.

Record mergedConfig : Type := mkMerged {
  merged_Inbounds : list params;
  merged_Outbounds : list params;
  Rules : list params
}.

(** ** The environment of the child process *)

Definition domainStrategyFromEnv (env : list string) : option string :=
  let value := trim_space (Getenv env "RADAR_DOMAIN_STRATEGY") in
  let v := GoStrings.to_lower value in
  if decide (v = "") then Some ""
  else if decide (v ∈ ["as_is"; "asis"]) then Some "AsIs"
  else if decide (v ∈ ["use_ipv4"; "useipv4"]) then Some "UseIPv4"
  else if decide (v ∈ ["use_ip"; "useip"]) then Some "UseIP"
  else if decide (v ∈ ["use_ipv6"; "useipv6"]) then Some "UseIPv6"
  else None.

(** ** Outbounds *)

(** [sockopt[key] = value], the objects above it created as needed. *)
Definition set_sockopt (key value : string) (outbound : params) : params :=
  let stream := object_at outbound "streamSettings" in
  let sockopt := object_at stream "sockopt" in
  obj_set outbound "streamSettings" (VObject (obj_set stream "sockopt" (VObject (obj_set sockopt key (VString value))))).

Definition applyDomainStrategy (outbound : params) (strategy : string) : params :=
  if decide (strategy = "") then outbound else set_sockopt "domainStrategy" strategy outbound.

Definition string_at (m : params) (key : string) : string := default "" (as_string (obj_get m key)).

(** Mux.Cool, unless the transport is XHTTP or the security is REALITY. *)
Definition apply_mux (outbound : params) : params :=
  let stream := object_at outbound "streamSettings" in
  if negb (bool_decide (string_at stream "network" = "xhttp")) && negb (bool_decide (string_at stream "security" = "reality"))
  then obj_set outbound "mux" (VObject [("enabled", VBool true); ("concurrency", VInt 8)])
  else outbound.

Definition in_tag (j : job) : string := "job-" +:+ pretty (Index j) +:+ "-in".
Definition out_tag (j : job) (i : nat) : string := "job-" +:+ pretty (Index j) +:+ "-out-" +:+ pretty (Z.of_nat i).

Section poolconfig.
Context `{NetIP} (overflowed : float64 -> Z).

Definition applyBinding (outbound : params) (b : Binding) : params :=
  if Binding_IsZero b then outbound
  else
    let outbound := match SourceIP b with
      | Some a => if IsLinkLocalUnicast a then outbound
                  else obj_set outbound "sendThrough" (VString (AddrString (WithZone "" a)))
      | None => outbound
      end in
    if decide (Interface b = "") then outbound else set_sockopt "interface" (Interface b) outbound.

(** ** Inbounds *)

(** A [json.Number] is never decoded into [any]. *)
Definition asInt (v : any) : option Z :=
  match v with
  | VFloat f => let n := int64_of_float overflowed f in if SFeqb f (float_of_Z n) then Some n else None
  | VInt z | VInt64 z => Some z
  | _ => None
  end.

(** The first inbound on the declared port, copied onto the allocated one. *)
Fixpoint remapInbound (inbounds : list (option params)) (declaredPort allocPort : Z) : option params :=
  match inbounds with
  | [] => None
  | raw :: rest =>
      let raw := default [] raw in
      if bool_decide (asInt (obj_get raw "port") = Some declaredPort) then Some (obj_set raw "port" (VInt allocPort))
      else if bool_decide (asInt (obj_get raw "listen_port") = Some declaredPort)
      then Some (obj_set raw "listen_port" (VInt allocPort))
      else remapInbound rest declaredPort allocPort
  end.

(** ** The configuration *)

(** One outbound; assigning to a nil map panics ([None]). *)
Definition build_outbound (strategy : string) (b : Binding) (j : job) (i : nat) (outbound : option params) : option params :=
  outbound ← outbound;
  let outbound := obj_set outbound "tag" (VString (out_tag j i)) in
  let outbound := applyBinding (applyDomainStrategy outbound strategy) b in
  Some (if decide (i = 0%nat) then apply_mux outbound else outbound).

Fixpoint build_outbounds (strategy : string) (b : Binding) (j : job) (i : nat) (outbounds : list (option params))
    : option (list params) :=
  match outbounds with
  | [] => Some []
  | o :: rest =>
      o ← build_outbound strategy b j i o;
      rest ← build_outbounds strategy b j (S i) rest;
      Some (o :: rest)
  end.

Definition rule (j : job) : params :=
  [("type", VString "field"); ("inboundTag", VArray [VString (in_tag j)]); ("outboundTag", VString (out_tag j 0))].

(** The inbound of a job that takes part. *)
Definition usable (j : job) : option params :=
  declaredPort ← asInt (SocksPort j);
  if (length (Inbounds j) =? 0)%nat || (length (Outbounds j) =? 0)%nat then None
  else remapInbound (Inbounds j) declaredPort (AllocPort j).

Definition add_job (strategy : string) (b : Binding) (merged : mergedConfig) (j : job) : option mergedConfig :=
  match usable j with
  | None => Some merged
  | Some inbound =>
      outs ← build_outbounds strategy b j 0 (Outbounds j);
      Some (mkMerged (merged_Inbounds merged ++ [obj_set inbound "tag" (VString (in_tag j))])
                     (merged_Outbounds merged ++ outs) (Rules merged ++ [rule j]))
  end.

Fixpoint add_jobs (strategy : string) (b : Binding) (merged : mergedConfig) (jobs : list job) : option mergedConfig :=
  match jobs with
  | [] => Some merged
  | j :: rest => merged ← add_job strategy b merged j; add_jobs strategy b merged rest
  end.

Definition buildConfig (jobs : list job) (strategy : string) (b : Binding) : option mergedConfig :=
  add_jobs strategy b (mkMerged [] [] []) jobs.

(** ** The command *)

(** Panics are [None]; a success is what is written where. *)
Definition Run (env : list string) (ReadFile : string -> result string string) (Unmarshal : string -> result string (list job))
    (Marshal : mergedConfig -> result string string) (WriteFile : string -> string -> option string)
    (jobsPath outPath : string) : option (result string (string * string)) :=
  if bool_decide (jobsPath = "") || bool_decide (outPath = "") then Some (Err "poolconfig: --jobs and --out are required")
  else
    match ReadFile jobsPath with
    | Err e => Some (Err ("poolconfig: read jobs: " +:+ e))
    | Ok raw =>
        match Unmarshal raw with
        | Err e => Some (Err ("poolconfig: parse jobs: " +:+ e))
        | Ok jobs =>
            match domainStrategyFromEnv env with
            | None => Some (Err "poolconfig: unknown RADAR_DOMAIN_STRATEGY")
            | Some strategy =>
                match FromEnv env with
                | Err _ => Some (Err "poolconfig: binding")
                | Ok b =>
                    merged ← buildConfig jobs strategy b;
                    Some match Marshal merged with
                         | Err e => Err ("poolconfig: encode config: " +:+ e)
                         | Ok encoded =>
                             match WriteFile outPath encoded with
                             | Some e => Err ("poolconfig: write config: " +:+ e)
                             | None => Ok (outPath, encoded)
                             end
                         end
                end
            end
        end
    end.
End poolconfig.

(** ** Objects *)

Lemma obj_get_set m k v k' : obj_get (obj_set m k v) k' = if decide (k = k') then v else obj_get m k'.
Proof.
  unfold obj_get. induction m as [|[k1 v1] m IH]; cbn [obj_set obj_find].
  - cbn. by destruct (decide (k = k')).
  - destruct (decide (k1 = k)) as [->|Hne]; cbn [obj_find]; [by destruct (decide (k = k'))|].
    destruct (decide (k1 = k')) as [->|]; [by rewrite decide_False|exact IH].
Qed.

Lemma obj_get_set_eq m k v : obj_get (obj_set m k v) k = v.
Proof. by rewrite obj_get_set, decide_True. Qed.

Lemma obj_get_set_ne m k v k' : k <> k' -> obj_get (obj_set m k v) k' = obj_get m k'.
Proof. intros Hne. by rewrite obj_get_set, decide_False. Qed.

Definition sockopt_of (o : params) : params := object_at (object_at o "streamSettings") "sockopt".

Lemma object_at_set m k v : object_at (obj_set m k (VObject v)) k = v.
Proof. unfold object_at. by rewrite obj_get_set_eq. Qed.

Lemma object_at_set_ne m k v k' : k <> k' -> object_at (obj_set m k v) k' = object_at m k'.
Proof. intros Hne. unfold object_at. by rewrite obj_get_set_ne. Qed.

Lemma sockopt_set k v o : sockopt_of (set_sockopt k v o) = obj_set (sockopt_of o) k (VString v).
Proof. unfold sockopt_of, set_sockopt. by rewrite !object_at_set. Qed.

Lemma stream_set k v o key :
  key <> "sockopt" -> obj_get (object_at (set_sockopt k v o) "streamSettings") key = obj_get (object_at o "streamSettings") key.
Proof. intros Hne. unfold set_sockopt. rewrite object_at_set. by apply obj_get_set_ne. Qed.

Lemma set_sockopt_other k v o key : key <> "streamSettings" -> obj_get (set_sockopt k v o) key = obj_get o key.
Proof. intros Hne. unfold set_sockopt. by apply obj_get_set_ne. Qed.

(** ** Tags *)

Lemma string_app_inj (a b c : string) : a +:+ b = a +:+ c -> b = c.
Proof. induction a as [|x a IH]; [done|]. rewrite !app_String. intros E. injection E as E. by apply IH. Qed.

Lemma minus_lacks c (z : Z) : numeral_char c = false -> lacks c (pretty z +:+ "-") = true.
Proof.
  intros Hc. rewrite lacks_app, pretty_Z_lacks by done. cbn [lacks]. unfold numeral_char in Hc.
  apply orb_false_iff in Hc as [-> _]. done.
Qed.

(** Both kinds of tag as a number before a letter no number has. *)
Lemma in_tag_eq j : in_tag j = "job-" +:+ ((pretty (Index j) +:+ "-") +:+ String "i" "n").
Proof. unfold in_tag. by rewrite append_assoc'. Qed.

Lemma out_tag_eq j i : out_tag j i = "job-" +:+ ((pretty (Index j) +:+ "-") +:+ String "o" ("ut-" +:+ pretty (Z.of_nat i))).
Proof. unfold out_tag. by rewrite append_assoc'. Qed.

Lemma minus_inj (a b : string) : a +:+ "-" = b +:+ "-" -> a = b.
Proof.
  intros E. apply (f_equal rev_string) in E. rewrite !rev_string_app in E. apply string_app_inj in E.
  apply (f_equal rev_string) in E. by rewrite !rev_string_involutive in E.
Qed.

Lemma in_tag_inj j1 j2 : in_tag j1 = in_tag j2 -> Index j1 = Index j2.
Proof.
  rewrite !in_tag_eq. intros E%string_app_inj. apply lacks_split_left in E as [E%minus_inj _]; [|by apply minus_lacks..].
  by apply (inj pretty) in E.
Qed.

Lemma out_tag_inj j1 j2 i1 i2 : out_tag j1 i1 = out_tag j2 i2 -> Index j1 = Index j2 /\ i1 = i2.
Proof.
  rewrite !out_tag_eq. intros E%string_app_inj. apply lacks_split_left in E as [E1%minus_inj E2]; [|by apply minus_lacks..].
  apply (inj pretty) in E1. apply string_app_inj, (inj pretty) in E2. lia.
Qed.

Lemma in_out_tag j1 j2 i : in_tag j1 <> out_tag j2 i.
Proof.
  rewrite in_tag_eq, out_tag_eq. intros E%string_app_inj.
  assert (lacks "o" ((pretty (Index j1) +:+ "-") +:+ String "i" "n") = true) as H1 by (rewrite lacks_app, minus_lacks by done; done).
  rewrite E, lacks_mid in H1. done.
Qed.

(** ** What the configuration holds *)

Definition tag (o : params) : string := string_at o "tag".

Definition listens_on (port : Z) (inbound : params) : Prop :=
  obj_get inbound "port" = VInt port \/ obj_get inbound "listen_port" = VInt port.

(** How an outbound of the configuration follows from the job's own. *)
Record follows `{NetIP} (strategy : string) (b : Binding) (first : bool) (raw o : params) : Prop := mkFollows {
  fo_strategy : strategy <> "" -> obj_get (sockopt_of o) "domainStrategy" = VString strategy;
  fo_interface : Interface b <> "" -> obj_get (sockopt_of o) "interface" = VString (Interface b);
  fo_source a : SourceIP b = Some a -> IsLinkLocalUnicast a = false -> obj_get o "sendThrough" = VString (AddrString (WithZone "" a));
  fo_mux : obj_get o "mux" =
    if first && negb (bool_decide (string_at (object_at raw "streamSettings") "network" = "xhttp"))
             && negb (bool_decide (string_at (object_at raw "streamSettings") "security" = "reality"))
    then VObject [("enabled", VBool true); ("concurrency", VInt 8)] else obj_get raw "mux";
  fo_sockopt key : key ∉ ["domainStrategy"; "interface"] -> obj_get (sockopt_of o) key = obj_get (sockopt_of raw) key;
  fo_stream key : key <> "sockopt" -> obj_get (object_at o "streamSettings") key = obj_get (object_at raw "streamSettings") key;
  fo_other key : key ∉ ["tag"; "streamSettings"; "sendThrough"; "mux"] -> obj_get o key = obj_get raw key
}.

Section config_spec.
Context `{NetIP} (overflowed : float64 -> Z).

(** The steps before the multiplexer, key by key. *)
Definition bound (strategy : string) (b : Binding) (t : string) (raw : params) : params :=
  applyBinding (applyDomainStrategy (obj_set raw "tag" (VString t)) strategy) b.

Lemma strategy_other strategy o key : key <> "streamSettings" -> obj_get (applyDomainStrategy o strategy) key = obj_get o key.
Proof. intros Hne. unfold applyDomainStrategy. destruct (decide _); [done|]. by apply set_sockopt_other. Qed.

Lemma strategy_stream strategy o key :
  key <> "sockopt" ->
  obj_get (object_at (applyDomainStrategy o strategy) "streamSettings") key = obj_get (object_at o "streamSettings") key.
Proof. intros Hne. unfold applyDomainStrategy. destruct (decide _); [done|]. by apply stream_set. Qed.

Lemma strategy_sockopt strategy o :
  sockopt_of (applyDomainStrategy o strategy)
  = if decide (strategy = "") then sockopt_of o else obj_set (sockopt_of o) "domainStrategy" (VString strategy).
Proof. unfold applyDomainStrategy. destruct (decide _); [done|]. by rewrite sockopt_set. Qed.

Lemma binding_other b o key : key ∉ ["streamSettings"; "sendThrough"] -> obj_get (applyBinding o b) key = obj_get o key.
Proof.
  intros [H1 [H2 _]%not_elem_of_cons]%not_elem_of_cons. unfold applyBinding. destruct (Binding_IsZero b); [done|].
  cbv zeta. destruct (decide _); [|rewrite set_sockopt_other by done]; repeat case_match; rewrite ?obj_get_set_ne by done; done.
Qed.

Lemma binding_stream b o key :
  key <> "sockopt" -> obj_get (object_at (applyBinding o b) "streamSettings") key = obj_get (object_at o "streamSettings") key.
Proof.
  intros Hne. unfold applyBinding. destruct (Binding_IsZero b); [done|]. cbv zeta.
  destruct (decide _); [|rewrite stream_set by done]; repeat case_match; rewrite ?object_at_set_ne by done; done.
Qed.

Lemma binding_sockopt b o :
  sockopt_of (applyBinding o b)
  = if decide (Interface b = "") then sockopt_of o else obj_set (sockopt_of o) "interface" (VString (Interface b)).
Proof.
  unfold applyBinding. destruct (Binding_IsZero b) eqn:Ez.
  { unfold Binding_IsZero in Ez. destruct (SourceIP b); [done|]. apply bool_decide_eq_true in Ez. by rewrite decide_True. }
  cbv zeta. destruct (decide _); [|rewrite sockopt_set]; unfold sockopt_of; repeat case_match; rewrite ?object_at_set_ne by done; done.
Qed.

Lemma binding_source b o a :
  SourceIP b = Some a -> IsLinkLocalUnicast a = false ->
  obj_get (applyBinding o b) "sendThrough" = VString (AddrString (WithZone "" a)).
Proof.
  intros Ea El. unfold applyBinding, Binding_IsZero. rewrite Ea, El. cbv zeta.
  destruct (decide _); [|rewrite set_sockopt_other by done]; apply obj_get_set_eq.
Qed.

(** Keys apart from [mux] are not touched by it. *)
Lemma mux_other o key : key <> "mux" -> obj_get (apply_mux o) key = obj_get o key.
Proof. intros Hne. unfold apply_mux. destruct (_ && _); [by apply obj_get_set_ne|done]. Qed.

Lemma build_outbound_follows strategy b j i raw o :
  build_outbound strategy b j i (Some raw) = Some o ->
  tag o = out_tag j i /\ follows strategy b (bool_decide (i = 0%nat)) raw o.
Proof.
  unfold build_outbound. cbn [mbind option_bind]. intros [= <-]. fold (bound strategy b (out_tag j i) raw). set (o := bound _ _ _ _).
  assert (forall key, key ∉ ["tag"; "streamSettings"; "sendThrough"] -> obj_get o key = obj_get raw key) as Hother.
  { intros key Hk. unfold o, bound. rewrite binding_other, strategy_other, obj_get_set_ne; set_solver. }
  assert (forall key, key <> "sockopt" -> obj_get (object_at o "streamSettings") key = obj_get (object_at raw "streamSettings") key) as Hstream.
  { intros key Hk. unfold o, bound. rewrite binding_stream, strategy_stream by done. unfold object_at. by rewrite obj_get_set_ne. }
  assert (obj_get o "tag" = VString (out_tag j i)) as Htag.
  { unfold o, bound. rewrite binding_other, strategy_other by set_solver. apply obj_get_set_eq. }
  assert (sockopt_of o = let s := if decide (strategy = "") then sockopt_of raw else obj_set (sockopt_of raw) "domainStrategy" (VString strategy) in
    if decide (Interface b = "") then s else obj_set s "interface" (VString (Interface b))) as Hsock.
  { unfold o, bound. rewrite binding_sockopt, strategy_sockopt. unfold sockopt_of. by rewrite object_at_set_ne. }
  assert (forall a, SourceIP b = Some a -> IsLinkLocalUnicast a = false -> obj_get o "sendThrough" = VString (AddrString (WithZone "" a))) as Hsrc.
  { intros a. apply binding_source. }
  clearbody o. set (o' := if decide (i = 0%nat) then apply_mux o else o).
  assert (forall key, key <> "mux" -> obj_get o' key = obj_get o key) as Hmux.
  { intros key Hk. unfold o'. destruct (decide (i = 0%nat)); [by apply mux_other|done]. }
  assert (object_at o' "streamSettings" = object_at o "streamSettings") as Hst by (unfold object_at; by rewrite Hmux).
  assert (sockopt_of o' = sockopt_of o) as Hso by (unfold sockopt_of; by rewrite Hst).
  split; [unfold tag, string_at; by rewrite Hmux, Htag|]. split; rewrite ?Hso, ?Hst; cbv zeta in Hsock.
  - intros Hs. rewrite Hsock, (decide_False (P := strategy = "")) by done. destruct (decide (Interface b = "")); rewrite ?obj_get_set_ne by done; apply obj_get_set_eq.
  - intros Hi. rewrite Hsock, (decide_False (P := Interface b = "")) by done. apply obj_get_set_eq.
  - intros a Ea El. rewrite Hmux by done. by apply Hsrc.
  - unfold o'. destruct (decide (i = 0%nat)) as [->|Hn]; [|rewrite bool_decide_eq_false_2 by done; cbn [andb]; apply Hother; set_solver].
    rewrite bool_decide_eq_true_2 by done. cbn [andb]. unfold apply_mux, string_at. rewrite !Hstream by done.
    destruct (_ && _); [apply obj_get_set_eq|apply Hother; set_solver].
  - intros key Hk. rewrite Hsock. destruct (decide (Interface b = "")), (decide (strategy = "")); rewrite ?obj_get_set_ne; set_solver.
  - intros key Hk. by apply Hstream.
  - intros key Hk. rewrite Hmux by set_solver. apply Hother. set_solver.
Qed.

Lemma remapInbound_listens ins d a inbound : remapInbound overflowed ins d a = Some inbound -> listens_on a inbound.
Proof.
  induction ins as [|raw ins IH]; cbn [remapInbound]; [done|]. cbv zeta.
  destruct (bool_decide _); [intros [= <-]; left; apply obj_get_set_eq|].
  destruct (bool_decide _); [intros [= <-]; right; apply obj_get_set_eq|done].
Qed.

Definition used (jobs : list job) : list job := List.filter (fun j => bool_decide (is_Some (usable overflowed j))) jobs.

Definition out_tags (j : job) : list string := imap (fun i _ => out_tag j i) (Outbounds j).

Lemma build_outbounds_spec strategy b j outbounds i os :
  build_outbounds strategy b j i outbounds = Some os ->
  map tag os = imap (fun k _ => out_tag j (i + k)) outbounds
  /\ forall k o, os !! k = Some o ->
       exists raw, outbounds !! k = Some (Some raw) /\ follows strategy b (bool_decide ((i + k)%nat = 0%nat)) raw o.
Proof.
  revert i os. induction outbounds as [|ob obs IH]; intros i os; cbn [build_outbounds].
  { intros [= <-]. split; [done|]. intros k o Ho. by rewrite lookup_nil in Ho. }
  destruct ob as [raw|]; [|done]. destruct (build_outbound strategy b j i (Some raw)) as [o|] eqn:E1; [|done]. cbn [mbind option_bind].
  destruct (build_outbounds strategy b j (S i) obs) as [rest|] eqn:E2; [|done]. intros [= <-].
  apply build_outbound_follows in E1 as [Et Hf]. apply IH in E2 as [Ets Hfs]. split.
  - cbn [map imap]. rewrite Et, Ets, Nat.add_0_r. f_equal. apply imap_ext. intros k x _. cbn. by rewrite Nat.add_succ_r.
  - intros [|k] o1; cbn; [intros [= <-]; exists raw; by rewrite Nat.add_0_r|].
    intros Ho. destruct (Hfs k o1 Ho) as (raw1 & Hr & Hf1). exists raw1. by rewrite Nat.add_succ_r.
Qed.

Lemma build_outbounds_None strategy b j outbounds i :
  build_outbounds strategy b j i outbounds = None <-> None ∈ outbounds.
Proof.
  revert i. induction outbounds as [|[raw|] obs IH]; intros i; cbn [build_outbounds].
  - split; [done|by intros ?%elem_of_nil].
  - cbn [build_outbound mbind option_bind]. rewrite elem_of_cons. destruct (build_outbounds strategy b j (S i) obs) eqn:E; cbn.
    + split; [done|]. intros [?|Hin]; [done|]. apply (IH (S i)) in Hin. congruence.
    + split; [|done]. intros _. right. by apply (IH (S i)).
  - cbn [build_outbound mbind option_bind]. split; [by left|done].
Qed.

(** What a run of the loop appends. *)
Record appended (strategy : string) (b : Binding) (jobs : list job) (m0 m1 : mergedConfig) : Prop := mkAppended {
  ap_in : exists ins, merged_Inbounds m1 = merged_Inbounds m0 ++ ins /\ map tag ins = map in_tag (used jobs)
          /\ Forall2 (fun j inb => listens_on (AllocPort j) inb) (used jobs) ins;
  ap_out : exists outs, merged_Outbounds m1 = merged_Outbounds m0 ++ outs /\ map tag outs = concat (map out_tags (used jobs))
          /\ Forall (fun o => exists j i raw, j ∈ jobs /\ Outbounds j !! i = Some (Some raw) /\ tag o = out_tag j i
                                 /\ follows strategy b (bool_decide (i = 0%nat)) raw o) outs;
  ap_rules : Rules m1 = Rules m0 ++ map rule (used jobs)
}.

Lemma add_job_appended strategy b m0 j m1 : add_job overflowed strategy b m0 j = Some m1 -> appended strategy b [j] m0 m1.
Proof.
  unfold add_job. unfold used. destruct (usable overflowed j) as [inbound|] eqn:Eu.
  - destruct (build_outbounds strategy b j 0 (Outbounds j)) as [outs|] eqn:Eo; [|done]. intros [= <-].
    apply build_outbounds_spec in Eo as [Et Hf].
    assert (used [j] = [j]) as Ej by (unfold used; cbn [List.filter]; by rewrite Eu, bool_decide_eq_true_2 by by eexists).
    split; cbn [merged_Inbounds merged_Outbounds Rules]; rewrite ?Ej.
    + eexists. split_and!; [done|..]; cbn [map].
      * f_equal. unfold tag, string_at. by rewrite obj_get_set_eq.
      * constructor; [|constructor]. unfold usable in Eu. destruct (asInt _ _); [|done]. cbn [mbind option_bind] in Eu.
        destruct (_ || _); [done|]. apply remapInbound_listens in Eu. unfold listens_on. by rewrite !obj_get_set_ne by done.
    + exists outs. split_and!; [done|cbn; by rewrite app_nil_r|]. apply Forall_lookup_2. intros k o Ho.
      destruct (Hf k o Ho) as (raw & Hr & Hfo). exists j, k, raw. split_and!; [by left|done| |done].
      assert (map tag outs !! k = Some (tag o)) as Hk by (by rewrite list_lookup_fmap, Ho).
      rewrite Et, list_lookup_imap, Hr in Hk. by injection Hk.
    + done.
  - intros [= <-]. assert (used [j] = []) as Ej by (unfold used; cbn [List.filter]; by rewrite Eu, bool_decide_eq_false_2 by by intros [? ?]).
    split; rewrite ?Ej; [exists []|exists []|]; rewrite ?app_nil_r; try done.
Qed.

Lemma used_app j1 j2 : used (j1 ++ j2) = used j1 ++ used j2.
Proof. apply List.filter_app. Qed.

Lemma appended_trans strategy b j1 j2 m0 m1 m2 :
  appended strategy b j1 m0 m1 -> appended strategy b j2 m1 m2 -> appended strategy b (j1 ++ j2) m0 m2.
Proof.
  intros [(i1 & I1 & T1 & L1) (o1 & O1 & U1 & F1) R1] [(i2 & I2 & T2 & L2) (o2 & O2 & U2 & F2) R2].
  split; rewrite ?used_app.
  - exists (i1 ++ i2). rewrite I2, I1, !map_app, T1, T2, app_assoc. split_and!; [done..|by apply Forall2_app].
  - exists (o1 ++ o2). rewrite O2, O1, !map_app, concat_app, U1, U2, app_assoc. split_and!; [done..|].
    rewrite Forall_forall in F1, F2. apply Forall_app. split; apply Forall_forall; intros o Ho;
      [destruct (F1 o Ho) as (j & i & raw & Hj & ?)|destruct (F2 o Ho) as (j & i & raw & Hj & ?)];
      exists j, i, raw; (split; [|done]); apply elem_of_app; tauto.
  - by rewrite R2, R1, map_app, app_assoc.
Qed.

Lemma add_jobs_appended strategy b jobs m0 m1 : add_jobs overflowed strategy b m0 jobs = Some m1 -> appended strategy b jobs m0 m1.
Proof.
  revert m0. induction jobs as [|j jobs IH]; intros m0; cbn [add_jobs].
  - intros [= <-]. split; [exists []|exists []|]; rewrite ?app_nil_r; try done; split_and!; try done; constructor.
  - destruct (add_job overflowed strategy b m0 j) as [m|] eqn:E; [|done]. cbn. intros Hm%IH.
    apply (appended_trans strategy b [j] jobs m0 m); [by apply add_job_appended|done].
Qed.

Lemma out_tags_elem j t : t ∈ out_tags j -> exists i, t = out_tag j i.
Proof. intros (i & x & -> & _)%elem_of_lookup_imap_1. by exists i. Qed.

Lemma out_tags_nodup jobs : NoDup (map Index jobs) -> NoDup (concat (map out_tags jobs)).
Proof.
  induction jobs as [|j jobs IH]; intros Hnd; [constructor|]. cbn [map concat] in *. apply NoDup_cons in Hnd as [Hn Hnd].
  apply NoDup_app. split_and!; [|intros t Ht Hin|by apply IH].
  - apply NoDup_alt. intros i1 i2 t. unfold out_tags. rewrite !list_lookup_imap. destruct (Outbounds j !! i1), (Outbounds j !! i2); try done.
    cbn [fmap option_fmap option_map]. intros E1 E2. assert (out_tag j i1 = out_tag j i2) as E by congruence. by apply out_tag_inj in E as [_ ->].
  - apply out_tags_elem in Ht as [i ->]. apply list_elem_of_In, in_concat in Hin as (l & Hl & Hin). apply in_map_iff in Hl as (j2 & <- & Hj2).
    apply list_elem_of_In, out_tags_elem in Hin as [i2 E]. apply out_tag_inj in E as [E _]. apply Hn. rewrite E.
    apply list_elem_of_fmap_2. by apply list_elem_of_In.
Qed.

Lemma in_tags_nodup jobs : NoDup (map Index jobs) -> NoDup (map in_tag jobs).
Proof.
  induction jobs as [|j jobs IH]; intros Hnd; [constructor|]. cbn [map] in *. apply NoDup_cons in Hnd as [Hn Hnd].
  constructor; [|by apply IH]. intros Hin. apply Hn. apply list_elem_of_fmap in Hin as (j2 & E & Hj2). rewrite (in_tag_inj _ _ E).
  by apply list_elem_of_fmap_2.
Qed.

Lemma used_nodup jobs : NoDup (map Index jobs) -> NoDup (map Index (used jobs)).
Proof.
  intros Hnd. eapply sublist_NoDup; [exact Hnd|]. apply sublist_fmap'. unfold used.
  induction jobs as [|j jobs IH]; [constructor|]. cbn [List.filter]. cbn in Hnd. apply NoDup_cons in Hnd as [_ Hnd].
  destruct (bool_decide _); constructor; by apply IH.
Qed.

(** C20: Jobs that share an engine cannot cross-talk: the inbounds are those of the
    jobs that can take part, in order, each on the port allocated to its job
    and under a tag of its own; there is one rule per inbound, and it leads to
    the first outbound of the same job, whose tag no other inbound or outbound
    has.  Every outbound leaves by the node's binding and address family, with
    the multiplexer only where it is allowed, and is otherwise the job's own. *)
Theorem config_isolates_jobs jobs strategy b cfg :
  buildConfig overflowed jobs strategy b = Some cfg -> NoDup (map Index jobs) ->
  map tag (merged_Inbounds cfg) = map in_tag (used jobs)
  /\ Forall2 (fun j inb => listens_on (AllocPort j) inb) (used jobs) (merged_Inbounds cfg)
  /\ Rules cfg = map rule (used jobs)
  /\ Forall (fun j => out_tag j 0 ∈ map tag (merged_Outbounds cfg)) (used jobs)
  /\ NoDup (map tag (merged_Inbounds cfg) ++ map tag (merged_Outbounds cfg))
  /\ Forall (fun o => exists j i raw, j ∈ jobs /\ Outbounds j !! i = Some (Some raw) /\ tag o = out_tag j i
                         /\ follows strategy b (bool_decide (i = 0%nat)) raw o) (merged_Outbounds cfg).
Proof.
  intros Hc Hnd. apply add_jobs_appended in Hc as [(ins & -> & Ei & Hl) (outs & -> & Eo & Hf) ->]. cbn [merged_Inbounds merged_Outbounds Rules app].
  apply used_nodup in Hnd. rewrite Ei, Eo. split_and!; try done.
  - apply Forall_forall. intros j Hj. apply list_elem_of_In, in_concat. exists (out_tags j). split; [apply in_map; by apply list_elem_of_In|].
    apply list_elem_of_In in Hj. apply List.filter_In in Hj as [_ Hu%bool_decide_eq_true]. destruct Hu as [inb Hu]. unfold usable in Hu.
    destruct (asInt _ _); [|done]. cbn [mbind option_bind] in Hu. unfold out_tags. destruct (Outbounds j); [by rewrite orb_true_r in Hu|]. by left.
  - apply NoDup_app. split_and!; [|intros t Ht Hin|by apply out_tags_nodup].
    + apply (in_tags_nodup (used jobs)), Hnd.
    + apply list_elem_of_fmap in Ht as (j & -> & _). apply list_elem_of_In, in_concat in Hin as (l & Hl' & Hin).
      apply in_map_iff in Hl' as (j2 & <- & _). apply list_elem_of_In, out_tags_elem in Hin as [i E]. by apply in_out_tag in E.
Qed.

(** A job that cannot take part is left out, but one that can and holds a null
    among its outbounds panics the whole command. *)
Theorem null_outbound_panics jobs strategy b :
  buildConfig overflowed jobs strategy b = None <->
  exists j, j ∈ jobs /\ is_Some (usable overflowed j) /\ None ∈ Outbounds j.
Proof.
  unfold buildConfig. generalize (mkMerged [] [] []). induction jobs as [|j jobs IH]; intros m0; cbn [add_jobs].
  - split; [done|]. by intros (j & ?%elem_of_nil & _).
  - destruct (add_job overflowed strategy b m0 j) as [m|] eqn:E; cbn [mbind option_bind].
    + rewrite IH. split; intros (j1 & Hj & Hu & Hn); exists j1; (split; [|done]); [by right|]. apply elem_of_cons in Hj as [->|?]; [|done].
      unfold add_job in E. destruct Hu as [inb Hu]. rewrite Hu in E. apply (build_outbounds_None strategy b j _ 0) in Hn. by rewrite Hn in E.
    + split; [|done]. intros _. exists j. split; [by left|]. unfold add_job in E. destruct (usable overflowed j); [|done].
      split; [by eexists|]. apply (build_outbounds_None strategy b j _ 0). by destruct (build_outbounds _ _ _ _ _).
Qed.
End config_spec.

(** The child accepts what the agent's [domain.go] exports, unchanged. *)
Lemma exported_strategy_accepted v d :
  Config.normalizeDomainStrategy v = Some d -> domainStrategyFromEnv ["PATH=/bin"; "RADAR_DOMAIN_STRATEGY=" +:+ d] = Some d.
Proof.
  unfold Config.normalizeDomainStrategy. cbv zeta. repeat destruct (decide _); intros [= <-]; by vm_compute.
Qed.

(** ** Witnesses *)

Definition demo_job (i port : Z) (network : string) : job :=
  mkJob i port [Some [("listen", VString "127.0.0.1"); ("listen_port", VFloat (float_of_Z 10808))]]
    [Some [("protocol", VString "vless"); ("streamSettings", VObject [("network", VString network); ("security", VString "tls")])];
     Some [("protocol", VString "freedom")]] (VFloat (float_of_Z 10808)).

Definition demo_jobs : list job :=
  [demo_job 0 40000 "ws"; mkJob 1 40001 [] [] (VString "no port"); demo_job 2 40002 "xhttp"].

Definition demo_config : mergedConfig :=
  default (mkMerged [] [] []) (@buildConfig demoNetIP (fun _ => 0) demo_jobs "UseIPv4" (mkBinding None "wan")).

Example demo_config_parts :
  map tag (merged_Inbounds demo_config) = ["job-0-in"; "job-2-in"]
  /\ map tag (merged_Outbounds demo_config) = ["job-0-out-0"; "job-0-out-1"; "job-2-out-0"; "job-2-out-1"]
  /\ map (fun o => bool_decide (obj_find o "mux" = None)) (merged_Outbounds demo_config) = [false; true; true; true]
  /\ obj_get (default [] (head (merged_Inbounds demo_config))) "listen_port" = VInt 40000.
Proof. vm_compute. split_and!; reflexivity. Qed.

Lemma config_isolates_jobs_witness :
  @buildConfig demoNetIP (fun _ => 0) demo_jobs "UseIPv4" (mkBinding None "wan") = Some demo_config
  /\ NoDup (map tag (merged_Inbounds demo_config) ++ map tag (merged_Outbounds demo_config))
  /\ Forall (fun o => obj_get (sockopt_of o) "interface" = VString "wan") (merged_Outbounds demo_config).
Proof.
  assert (@buildConfig demoNetIP (fun _ => 0) demo_jobs "UseIPv4" (mkBinding None "wan") = Some demo_config) as Hc by (vm_compute; reflexivity).
  split; [exact Hc|].
  pose proof (@config_isolates_jobs demoNetIP (fun _ => 0) demo_jobs "UseIPv4" (mkBinding None "wan") demo_config Hc) as Hi.
  destruct Hi as (_ & _ & _ & _ & Hnd & Hf); [by apply (bool_decide_unpack _); vm_compute|].
  split; [exact Hnd|]. apply Forall_forall. intros o Ho. rewrite Forall_forall in Hf. destruct (Hf o Ho) as (j & i & raw & _ & _ & _ & Hfo).
  by apply (fo_interface _ _ _ _ _ Hfo).
Defined.
