(* ===== verification/PoolEngine.v ===== *)
(** * A pooled engine and its configuration

    How [internal/module/pool.go] and [internal/poolconfig] fit together: an
    engine is taken for ready when the port of its first job accepts, and for
    healthy while the ports of all its jobs do, but a malformed job is left out
    of the configuration, so nothing ever listens on its port. *)

From Stdlib Require Import ZArith Lia List Bool Ascii String.
From stdpp Require Import base tactics gmap strings list pretty fin_maps.
From S2P Require Import Prelude GoStrings Wire Netbind Config Checks Placeholder Schema Module Checker Pool PoolDemo PoolBatch PoolWarm PoolReuse PoolConfig.

Open Scope string_scope.
Open Scope list_scope.
Open Scope Z_scope.

(** [WaitForPort]'s error once the readiness timeout is over. *)
Definition not_ready (port : Z) : string := "did not become ready on port " +:+ pretty port +:+ ": context deadline exceeded".

(** [jobs[0].port]. *)
Definition readiness_port (js : list poolJob) : option Z := port <$> head js.

(** The readiness wait is the longest timeout of the batch's jobs, and at least
    twenty seconds. *)
Definition maxTimeout (js : list poolJob) : duration :=
  let max := fold_left (fun mx j => if mx <? o_Timeout (opts j) then o_Timeout (opts j) else mx) js 0 in
  if max <=? 0 then 5 * second else max.

Definition readiness_timeout (js : list poolJob) : duration :=
  let t := maxTimeout js in if t <? 20 * second then 20 * second else t.

(** No job's own timeout is longer than the wait for its engine. *)
Lemma readiness_covers_jobs js j : j ∈ js -> o_Timeout (opts j) <= readiness_timeout js /\ 20 * second <= readiness_timeout js.
Proof.
  intros Hj. assert (forall l mx, mx <= fold_left (fun mx j => if mx <? o_Timeout (opts j) then o_Timeout (opts j) else mx) l mx
    /\ forall x, x ∈ l -> o_Timeout (opts x) <= fold_left (fun mx j => if mx <? o_Timeout (opts j) then o_Timeout (opts j) else mx) l mx) as Hmax.
  { induction l as [|x l IH]; intros mx; [split; [done|by intros x ?%elem_of_nil]|]. cbn [fold_left].
    destruct (IH (if mx <? o_Timeout (opts x) then o_Timeout (opts x) else mx)) as [H1 H2]. destruct (Z.ltb_spec mx (o_Timeout (opts x))).
    - split; [lia|]. intros y [->|Hy]%elem_of_cons; [done|by apply H2].
    - split; [done|]. intros y [->|Hy]%elem_of_cons; [lia|by apply H2]. }
  destruct (Hmax js 0) as [H0 Hall]. specialize (Hall j Hj). unfold readiness_timeout, maxTimeout. cbv zeta.
  repeat match goal with |- context [Z.leb ?a ?b] => destruct (Z.leb_spec a b) | |- context [Z.ltb ?a ?b] => destruct (Z.ltb_spec a b) end; unfold second in *; lia.
Qed.

Section engine.
Context `{NetIP} (ParseFloat : string -> option float64) (decode_object : string -> option params)
        (overflowed : float64 -> Z) (sha256_hex : string -> string) (params_json : params -> string)
        (m : Module) (spec : PoolSpec) (limits : PoolLimits) (w : pool_world).

(** What [radar-node poolconfig] decodes of a job's line in [jobs_json]: the
    port the executor allocated, and the job's own engine configuration, whose
    numbers are JSON numbers. *)
Context (read : poolJob -> job) (read_port : forall j, AllocPort (read j) = port j).
Context (read_json : forall j inb z, Some inb ∈ Inbounds (read j) -> obj_get inb "port" <> VInt z /\ obj_get inb "listen_port" <> VInt z).
Context (strategy : string) (bind : Binding).

Definition engine_config (js : list poolJob) : option mergedConfig := buildConfig overflowed (map read js) strategy bind.

(** A job that is left out of the configuration. *)
Definition malformed (j : poolJob) : Prop := usable overflowed (read j) = None.

Definition opens (cfg : mergedConfig) (p : Z) : Prop := Exists (listens_on p) (merged_Inbounds cfg).

(** The engine opens the ports of its configuration and no others: a start waits
    in vain for a port it does not open, and no such port ever accepts. *)
Record engine_honest : Prop := {
  eh_start : forall k js cfg p, engine_config js = Some cfg -> readiness_port js = Some p -> ~ opens cfg p -> pw_start w k js = WaitFails (not_ready p);
  eh_accepts : forall k js cfg p, engine_config js = Some cfg -> p ∈ map port js -> ~ opens cfg p -> pw_accepts w k p = false
}.

(** ** Where a configuration listens *)

Lemma remapped_only ins d a inbound p :
  (forall inb z, Some inb ∈ ins -> obj_get inb "port" <> VInt z /\ obj_get inb "listen_port" <> VInt z) ->
  remapInbound overflowed ins d a = Some inbound -> listens_on p inbound -> p = a.
Proof.
  intros Hj. assert (forall raw : option params, raw ∈ ins -> forall z, obj_get (default [] raw) "port" <> VInt z /\ obj_get (default [] raw) "listen_port" <> VInt z) as Hj'.
  { intros [raw|] Hin z; [by apply Hj|done]. }
  clear Hj. induction ins as [|raw ins IH]; cbn [remapInbound]; [done|]. cbv zeta.
  destruct (Hj' raw ltac:(left) p) as [Hp Hl]. unfold listens_on.
  destruct (bool_decide _); [intros [= <-]; rewrite obj_get_set_eq, obj_get_set_ne by done; intros [[= ->]|E]; [done|by destruct Hl]|].
  destruct (bool_decide _); [intros [= <-]; rewrite obj_get_set_eq, obj_get_set_ne by done; intros [E|[= ->]]; [by destruct Hp|done]|].
  apply IH. intros raw' Hin. apply Hj'. by right.
Qed.

Lemma add_jobs_opens jobs m0 cfg p :
  (forall j inb z, j ∈ jobs -> Some inb ∈ Inbounds j -> obj_get inb "port" <> VInt z /\ obj_get inb "listen_port" <> VInt z) ->
  add_jobs overflowed strategy bind m0 jobs = Some cfg -> opens cfg p ->
  Exists (listens_on p) (merged_Inbounds m0) \/ exists j, j ∈ jobs /\ is_Some (usable overflowed j) /\ AllocPort j = p.
Proof.
  revert m0. induction jobs as [|j jobs IH]; intros m0 Hj; cbn [add_jobs]; [intros [= <-]; by left|].
  destruct (add_job overflowed strategy bind m0 j) as [m1|] eqn:E; [|done]. cbn [mbind option_bind]. intros Ha Ho.
  destruct (IH m1) as [H1|(x & Hx & Hu)]; [intros x inb z Hx; apply Hj; by right|done|done| |right; exists x; split; [by right|done]].
  unfold add_job in E. destruct (usable overflowed j) as [inbound|] eqn:Eu; [|injection E as <-; by left].
  destruct (build_outbounds _ _ _ _ _) as [outs|]; [|done]. injection E as <-. cbn [merged_Inbounds] in H1.
  apply Exists_app in H1 as [H1|H1]; [by left|right]. exists j. split; [by left|]. split; [by eexists|].
  apply Exists_cons in H1 as [H1|H1]; [|by apply Exists_nil in H1]. unfold listens_on in H1. rewrite !obj_get_set_ne in H1 by done.
  unfold usable in Eu. destruct (asInt overflowed _); [|done]. cbn [mbind option_bind] in Eu. destruct (_ || _); [done|].
  symmetry. eapply remapped_only; [|exact Eu|exact H1]. intros inb y. apply Hj. by left.
Qed.

(** Nothing listens on a malformed job's port, when the ports are distinct. *)
Lemma malformed_closed js j cfg :
  NoDup (map port js) -> j ∈ js -> malformed j -> engine_config js = Some cfg -> ~ opens cfg (port j).
Proof.
  intros Hn Hj Hm Hc Ho. apply (add_jobs_opens (map read js) (mkMerged [] [] [])) in Ho as [Ho|(x & Hx & Hu & Hp)]; [by apply Exists_nil in Ho| | |exact Hc].
  - apply list_elem_of_In, in_map_iff in Hx as (j' & <- & Hj'%list_elem_of_In). rewrite read_port in Hp.
    assert (j' = j) as ->; [|destruct Hu as [? Hu]; unfold malformed in Hm; congruence].
    clear -Hn Hj Hj' Hp. induction js as [|x js IH]; [by apply elem_of_nil in Hj|]. cbn [map] in Hn. apply NoDup_cons in Hn as [Hx Hn].
    assert (forall y, y ∈ js -> port y ∈ map port js) as Hin by (intros y Hy; apply list_elem_of_In, in_map, list_elem_of_In, Hy).
    apply elem_of_cons in Hj as [->|Hj], Hj' as [->|Hj']; [done| | |by apply IH].
    + destruct Hx. rewrite <- Hp. by apply Hin.
    + destruct Hx. rewrite Hp. by apply Hin.
  - intros x inb z Hx Hinb. apply list_elem_of_In, in_map_iff in Hx as (j' & <- & _). by eapply read_json.
Qed.

(** ** What that does to the pool *)

Lemma not_ready_whole_chunk p deadline n : shouldBisect (EngineBuildError "start" (not_ready p) deadline) n = false.
Proof. unfold shouldBisect. destruct (n <=? 1)%nat; [done|]. cbn. by rewrite orb_true_r. Qed.

Notation runSlot' := (runSlot ParseFloat decode_object overflowed sha256_hex params_json m limits w).

(** Every job of a failed chunk is answered with a failure. *)
Lemma fail_all_fails {A} (index : A -> nat) options e (l : list A) rs a :
  a ∈ l -> (index a < length rs)%nat ->
  exists r, fail_all m index options e l rs !! index a = Some r /\ r_Ok r = false /\ Skip r = false.
Proof.
  intros Ha. assert (forall i (l : list A) rs, (exists r, rs !! i = Some r /\ r_Ok r = false /\ Skip r = false) ->
    exists r, fail_all m index options e l rs !! i = Some r /\ r_Ok r = false /\ Skip r = false) as Hkeep.
  { clear. intros i l. induction l as [|a l IH]; intros rs Hr; [done|]. unfold fail_all in *. cbn [fold_left]. apply IH.
    destruct Hr as (r & Hr & Hf). destruct (decide (index a = i)) as [->|Hne].
    - eexists. split; [apply list_lookup_insert_eq; by eapply lookup_lt_Some|done].
    - exists r. by rewrite list_lookup_insert_ne. }
  revert rs. induction l as [|x l IH]; intros rs Hl; [by apply elem_of_nil in Ha|]. unfold fail_all in *. cbn [fold_left].
  apply elem_of_cons in Ha as [->|Ha].
  - apply Hkeep. eexists. split; [by apply list_lookup_insert_eq|done].
  - apply IH; [done|]. by rewrite length_insert.
Qed.

(** C21: One malformed job fails its whole chunk when it comes first.  The
    configuration is built without it, the engine comes up with every other
    job's inbound, and the start still waits for the first job's port until its
    time is over; that is taken for a failure of the environment, so the chunk
    is not split, and each of its jobs, however good, is answered with a
    failure.  No engine is kept, so the next batch goes the same way. *)
Theorem malformed_first_fails_the_chunk slot chunk live rs c j0 js c1 cfg :
  engine_honest -> pins_distinct c -> NoDup (map pj_key chunk) -> slots c !! slot = None ->
  (forall k, pw_files w k = None) -> (forall k l, pw_build w k l = None) ->
  pin_jobs limits w (pinned c) chunk c = (Ok (j0 :: js), c1) ->
  malformed j0 -> engine_config (j0 :: js) = Some cfg ->
  let '(rs', c') := runSlot' slot chunk live rs c in
  (forall j, j ∈ j0 :: js -> (idx j < length rs)%nat -> exists r, rs' !! idx j = Some r /\ r_Ok r = false /\ Skip r = false)
  /\ trace c' = trace c /\ slots c' !! slot = None.
Proof.
  intros Hh Hd Hk Hs Hf Hb Hp Hm Hc.
  pose proof (pin_jobs_pins _ _ _ _ _ _ _ Hp Hd (pinned_elem c)) as (Hd1 & _ & Ht & Hj). specialize (Hj _ eq_refl).
  pose proof (pinned_nodup _ _ _ Hd1 Hk Hj) as Hn.
  assert (~ opens cfg (port j0)) as Ho by (eapply malformed_closed; [done| |done|done]; left).
  assert (slots c1 = slots c) as Hs1 by (pose proof (pin_jobs_core _ _ _ _ _ _ _ Hp) as E; by injection E).
  unfold runSlot, acquire. rewrite Hp. cbn [release_ports set_ports slots]. rewrite Hs1, Hs.
  unfold build_slot, buildAndStart. rewrite Hf. cbn [tick step]. rewrite Hb. cbn [tick step].
  rewrite (eh_start Hh _ _ _ _ Hc eq_refl Ho). cbn [startEngine]. rewrite not_ready_whole_chunk. split_and!.
  - intros j Hin Hl. by apply fail_all_fails.
  - done.
  - cbn. by rewrite Hs1.
Qed.

(** Wherever it comes, a malformed job's port never accepts, so an engine with
    one is never found healthy: each batch stops it and starts another. *)
Lemma malformed_never_healthy x c j cfg :
  engine_honest -> NoDup (map port (jobs x)) -> j ∈ jobs x -> malformed j -> engine_config (jobs x) = Some cfg ->
  fst (healthyLocked w x c) = false.
Proof.
  intros Hh Hn Hj Hm Hc. unfold healthyLocked. cbn [fst]. apply andb_false_iff. right. apply not_true_iff_false. rewrite forallb_forall. intros Ha.
  specialize (Ha j (proj1 (list_elem_of_In _ _) Hj)). rewrite (eh_accepts Hh _ _ _ _ Hc) in Ha; [done| |by eapply malformed_closed].
  apply list_elem_of_In, in_map, list_elem_of_In, Hj.
Qed.
End engine.

(** ** Witness *)

Definition demo_bad (j : poolJob) : bool := bool_decide (o_Target (opts j) = "bad").

(** The job of target [bad] declares no port. *)
Definition demo_read (j : poolJob) : job :=
  if demo_bad j then mkJob (Z.of_nat (idx j)) (port j) [] [] (VString "no port") else demo_job (Z.of_nat (idx j)) (port j) "ws".

(** An engine opens the ports of its good jobs. *)
Definition engine_world : pool_world := {|
  pw_alloc k := Ok (40000 + Z.of_nat k); pw_free _ _ := true; pw_files _ := None; pw_build _ _ := None;
  pw_start _ js := match js with j :: _ => if demo_bad j then WaitFails (not_ready (port j)) else BecomesReady | [] => BecomesReady end;
  pw_deadline _ := true; pw_alive _ := true; pw_accepts _ _ := false; pw_gate _ _ := true; pw_params_file _ := None;
  pw_run _ _ := demo_run "{latency_ms: 12.5}"; pw_elapsed _ := 20 * millisecond; pw_cancelled _ := false |}.

Lemma demo_read_port j : AllocPort (demo_read j) = port j.
Proof. unfold demo_read. by destruct (demo_bad j). Qed.

Lemma demo_read_json j inb z :
  Some inb ∈ Inbounds (demo_read j) -> obj_get inb "port" <> VInt z /\ obj_get inb "listen_port" <> VInt z.
Proof.
  unfold demo_read. destruct (demo_bad j); cbn [Inbounds demo_job]; [by intros ?%elem_of_nil|].
  intros [= ->]%list_elem_of_singleton. by split.
Qed.

Lemma demo_engine_honest : @engine_honest demoNetIP (fun _ => 0) engine_world demo_read "" (mkBinding None "").
Proof.
  split; [|done]. intros k js cfg p Hc Hp Ho. destruct js as [|j js]; [done|]. injection Hp as <-. cbn [pw_start engine_world].
  destruct (demo_bad j) eqn:Eb; [done|]. destruct Ho. unfold engine_config, buildConfig in Hc. cbn [map] in Hc.
  apply add_jobs_appended in Hc as [(ins & E & _ & Hl) _ _]. unfold opens. rewrite E. cbn [merged_Inbounds app].
  assert (used (fun _ => 0) (demo_read j :: map demo_read js) = demo_read j :: used (fun _ => 0) (map demo_read js)) as Eu.
  { unfold used. cbn [List.filter]. rewrite bool_decide_eq_true_2; [done|]. unfold demo_read. rewrite Eb. by eexists. }
  rewrite Eu in Hl. inversion_clear Hl as [|? inb ? ? Hi _]. rewrite demo_read_port in Hi. by left.
Qed.

Definition bad_chunk : list pendingJob := [mkPending 0 "k0" (pool_demo_option "bad" 0); mkPending 1 "k1" (pool_demo_option "good" 0)].

Lemma malformed_first_fails_the_chunk_witness :
  let '(rs, _) := @runSlot demoNetIP demo_float demo_object (fun _ => 0) (fun s => s) demo_json pool_demo_module pool_demo_limits engine_world
                    0 bad_chunk {["k0"; "k1"]} [zero_result; zero_result] newPoolChecker in
  exists r, rs !! 1%nat = Some r /\ r_Ok r = false.
Proof.
  set (c1 := snd (pin_jobs pool_demo_limits engine_world (pinned newPoolChecker) bad_chunk newPoolChecker)).
  set (j0 := mkPoolJob 0 "k0" (pool_demo_option "bad" 0) 40000). set (j1 := mkPoolJob 1 "k1" (pool_demo_option "good" 0) 40001).
  assert (exists cfg, @engine_config demoNetIP (fun _ => 0) demo_read "" (mkBinding None "") [j0; j1] = Some cfg) as [cfg Hc] by (eexists; vm_compute; reflexivity).
  pose proof (@malformed_first_fails_the_chunk demoNetIP demo_float demo_object (fun _ => 0) (fun s => s) demo_json pool_demo_module pool_demo_limits
    engine_world demo_read demo_read_port demo_read_json "" (mkBinding None "") 0 bad_chunk {["k0"; "k1"]} [zero_result; zero_result] newPoolChecker j0 [j1] c1 cfg
    demo_engine_honest) as Hx.
  destruct (runSlot _ _ _ _ _ _ _ _ _ _ _ _) as [rs c']. destruct Hx as [Hx _].
  - intros k1 k2 q. cbn. by rewrite lookup_empty.
  - by apply (bool_decide_unpack _); vm_compute.
  - vm_compute. reflexivity.
  - done.
  - done.
  - vm_compute. reflexivity.
  - vm_compute. reflexivity.
  - exact Hc.
  - destruct (Hx j1) as (r & Hr & Hf & _); [right; left|cbn; lia|]. by exists r.
Defined.
