(* ===== verification/ModuleInstall.v ===== *)
(** * Installing modules

    [internal/moduleinstall/moduleinstall.go]: fetching a module's YAML and the
    binaries and files it declares, reinstalling and removing it.  The host is
    its files and the requests it has sent; HTTP answers, archives and the
    file system's refusals come from a world.  The progress lines are left out,
    and a proxy that cannot be used is an error of the world. *)

From Stdlib Require Import ZArith Lia List Bool Ascii String.
From stdpp Require Import base tactics gmap strings list fin_maps.
From S2P Require Import Prelude GoStrings Filepath Spool Schema Module.

Open Scope string_scope.
Open Scope list_scope.
Open Scope Z_scope.

Record Config : Type := mkConfig { ModulesDir : string; ToolsDir : string }.

Record file : Type := mkFile { content : string; mode : Z }.

#[export] Instance file_eq_dec : EqDecision file.
Proof. solve_decision. Defined.

Record host : Type := mkHost { files : gmap string file; asked : list string }.

Definition set_files f h := mkHost f (asked h).

Inductive answer : Type :=
| NoAnswer (e : string)
| Answered (status : Z) (contentType body : string) (read_error : option string).

Record install_world : Type := mkWorld {
  iw_client : option string;                                        (** the transport's error *)
  iw_get : nat -> string -> answer;                                 (** the [k]-th request *)
  iw_cancelled : nat -> bool;                                       (** during a backoff *)
  iw_mkdir : nat -> string -> option string;
  iw_write : nat -> string -> option (string * option file);        (** an error, and what it leaves behind *)
  iw_removable : string -> bool
}.

Definition responseCap : Z := Z.shiftl 200 20.
Definition limited (body : string) : string :=
  if Z.of_nat (String.length body) <=? responseCap then body else String.substring 0 (Z.to_nat responseCap) body.

(** ** Paths *)

Definition resolveInstallPath (path : string) (cfg : Config) : result string string :=
  match (if has_prefix path "__TOOLS_DIR__/" then Some (ToolsDir cfg, trim_prefix path "__TOOLS_DIR__/")
         else if has_prefix path "__MODULES_DIR__/" then Some (ModulesDir cfg, trim_prefix path "__MODULES_DIR__/")
         else None) with
  | None => Err "path must start with __TOOLS_DIR__/ or __MODULES_DIR__/"
  | Some (baseDir, rel) =>
      let full := Filepath.Join baseDir rel in
      if negb (bool_decide (full = baseDir)) && negb (has_prefix full (baseDir +:+ "/"))
      then Err "path escapes its base directory" else Ok full
  end.

Definition resolveExistingPath (path : string) (cfg : Config) : result string string :=
  if IsAbs path then Ok path else resolveInstallPath path cfg.

Definition substitutePlaceholders (data : string) (cfg : Config) : string :=
  ReplaceAll (ReplaceAll data "__MODULES_DIR__" (ModulesDir cfg)) "__TOOLS_DIR__" (ToolsDir cfg).

Definition marker (dest : string) : string := dest +:+ ".checksum".

Definition yaml_path (cfg : Config) (name : string) : string := Filepath.Join (ModulesDir cfg) (name +:+ ".yaml").

Section install.
Context (compile : string -> option regex) (order : list (string * option Step) -> list (string * option Step))
        (unmarshal : string -> option Module) (sha256_hex : string -> string)
        (* gzip and tar: an error, or the entries with what reading each gives, and how the archive ends *)
        (untar : string -> result string (list (string * result string string) * option string))
        (unzip : string -> result string (list (string * result string string)))
        (goos goarch : string) (cfg : Config) (w : install_world).

Notation parse := (ParseBytes compile order unmarshal sha256_hex).

(** ** Requests *)

Definition fetchURLWithType (u : string) (h : host) : result string (string * string) * host :=
  let h' := mkHost (files h) (asked h ++ [u]) in
  (match iw_get w (length (asked h)) u with
   | NoAnswer e => Err e
   | Answered status ctype body rerr =>
       if negb (status =? 200) then Err ("GET " +:+ u +:+ ": unexpected status")
       else match rerr with Some e => Err e | None => Ok (limited body, ctype) end
   end, h').

Definition fetchURL (u : string) (h : host) : result string string * host :=
  let '(r, h) := fetchURLWithType u h in (match r with Ok (data, _) => Ok data | Err e => Err e end, h).

(** [remaining] attempts are still allowed, the one at hand included. *)
Fixpoint fetch_attempts (remaining : nat) (u : string) (versioned : bool) (h : host) : result string string * host :=
  match remaining with
  | O => (Err "", h)
  | S remaining =>
      let '(r, h) := fetchURLWithType u h in
      match r with
      | Ok (data, ctype) =>
          if negb (versioned && has_prefix ctype "text/html") then (Ok data, h)
          else if (remaining =? 0)%nat then (Err ("GET " +:+ u +:+ ": still not published after 5 attempts"), h)
          else if iw_cancelled w (length (asked h)) then (Err "context canceled", h)
          else fetch_attempts remaining u versioned h
      | Err e =>
          if (remaining =? 0)%nat then (Err e, h)
          else if iw_cancelled w (length (asked h)) then (Err "context canceled", h)
          else fetch_attempts remaining u versioned h
      end
  end.

Definition maxAttempts : nat := 5.
Definition fetchAssetWithRetry : string -> bool -> host -> result string string * host := fetch_attempts maxAttempts.

(** ** Files *)

(** [os.WriteFile]: the mode is for a file it creates; one that was there keeps
    its own. *)
Definition written (old : option file) (data : string) (m : Z) : file :=
  mkFile data (match old with Some f => mode f | None => m end).

Definition WriteFile (path data : string) (m : Z) (h : host) : option string * host :=
  match iw_write w (length (asked h)) path with
  | None => (None, set_files (<[path := written (files h !! path) data m]> (files h)) h)
  | Some (e, leftover) => (Some ("write " +:+ path +:+ ": " +:+ e),
                       match leftover with Some f => set_files (<[path := f]> (files h)) h | None => h end)
  end.

Definition os_Remove (path : string) (h : host) : option string * host :=
  match files h !! path with
  | Some _ => if iw_removable w path then (None, set_files (delete path (files h)) h) else (Some "not removed", h)
  | None => (Some "no such file", h)
  end.

(** ** Archives *)

Fixpoint find_entry (binName : string) (entries : list (string * result string string)) : option (result string string) :=
  match entries with
  | [] => None
  | (name, data) :: rest => if decide (Filepath.Base name = binName) then Some data else find_entry binName rest
  end.

Definition missing (binName : string) : string := "archive doesn't contain " +:+ binName.

Definition extractFromTarGz (data binName : string) : result string string :=
  match untar data with
  | Err e => Err ("gzip: " +:+ e)
  | Ok (entries, end_error) =>
      match find_entry binName entries with
      | Some r => r
      | None => match end_error with Some e => Err ("tar: " +:+ e) | None => Err (missing binName) end
      end
  end.

Definition extractFromZip (data binName : string) : result string string :=
  match unzip data with
  | Err e => Err ("zip: " +:+ e)
  | Ok entries => default (Err (missing binName)) (find_entry binName entries)
  end.

Definition extractBinary (data binName : string) (zipFmt : bool) : result string string :=
  if zipFmt then extractFromZip data binName else extractFromTarGz data binName.

(** ** One dependency *)

Definition install_file (dep : InstallDependency) (destPath assetURL : string) (versioned : bool) (h : host) : option string * host :=
  match fetchAssetWithRetry assetURL versioned h with
  | (Err e, h) => (Some ("fetch " +:+ assetURL +:+ ": " +:+ e), h)
  | (Ok content, h) =>
      WriteFile destPath (substitutePlaceholders content cfg) (if has_suffix destPath ".sh" then 493 else 420) h
  end.

(** The marker names the expected checksum and the binary is there. *)
Definition up_to_date (destPath expected : string) (h : host) : bool :=
  match files h !! marker destPath with
  | Some f => bool_decide (trim_space (content f) = expected) && bool_decide (is_Some (files h !! destPath))
  | None => false
  end.

Definition install_binary (dep : InstallDependency) (destPath assetURL : string) (versioned : bool) (h : host) : option string * host :=
  let checksumURL := assetURL +:+ ".checksum.txt" in
  match fetchAssetWithRetry checksumURL versioned h with
  | (Err e, h) => (Some ("fetch checksum " +:+ checksumURL +:+ ": " +:+ e), h)
  | (Ok checksumData, h) =>
      let expected := trim_space checksumData in
      if up_to_date destPath expected h then (None, h)
      else
        match fetchAssetWithRetry assetURL versioned h with
        | (Err e, h) => (Some ("fetch " +:+ assetURL +:+ ": " +:+ e), h)
        | (Ok assetData, h) =>
            if negb (bool_decide (expected = sha256_hex assetData)) then (Some ("checksum mismatch for " +:+ assetURL), h)
            else
              match extractBinary assetData (dep_Name dep) (has_suffix assetURL ".zip") with
              | Err e => (Some e, h)
              | Ok binData =>
                  match WriteFile destPath binData 493 h with
                  | (Some e, h) => (Some e, h)
                  | (None, h) => WriteFile (marker destPath) expected 420 h
                  end
              end
        end
  end.

Definition installDependency (dep : InstallDependency) (h : host) : option string * host :=
  match resolveInstallPath (Path dep) cfg with
  | Err e => (Some ("install " +:+ dep_Name dep +:+ ": " +:+ e), h)
  | Ok destPath =>
      match iw_mkdir w (length (asked h)) (Filepath.Dir destPath) with
      | Some e => (Some ("install " +:+ dep_Name dep +:+ ": create: " +:+ e), h)
      | None =>
          let assetURL := ResolveURL dep goos goarch in
          let versioned := negb (bool_decide (dep_Version dep = "")) in
          if IsFile dep then install_file dep destPath assetURL versioned h
          else install_binary dep destPath assetURL versioned h
      end
  end.

Fixpoint install_all (deps : list InstallDependency) (h : host) : option string * host :=
  match deps with
  | [] => (None, h)
  | d :: rest => match installDependency d h with (Some e, h) => (Some e, h) | (None, h) => install_all rest h end
  end.

(** ** Modules *)

Definition checkPlatform (m : Module) : option string :=
  if negb (bool_decide (OS m = [])) && negb (bool_decide (goos ∈ OS m)) then Some "module does not support this OS"
  else if negb (bool_decide (Arch m = [])) && negb (bool_decide (goarch ∈ Arch m))
  then Some "module does not support this architecture" else None.

Definition Fetch (moduleURL : string) (h : host) : option string * host :=
  match iw_client w with
  | Some e => (Some e, h)
  | None =>
      match fetchURL moduleURL h with
      | (Err e, h) => (Some ("fetch " +:+ moduleURL +:+ ": " +:+ e), h)
      | (Ok data, h) =>
          match parse data with
          | Err _ => (Some (moduleURL +:+ ": parse"), h)
          | Ok m =>
              match checkPlatform m with
              | Some e => (Some e, h)
              | None =>
                  match iw_mkdir w (length (asked h)) (ToolsDir cfg) with
                  | Some e => (Some ("create: " +:+ e), h)
                  | None =>
                      match iw_mkdir w (length (asked h)) (ModulesDir cfg) with
                      | Some e => (Some ("create: " +:+ e), h)
                      | None =>
                          match install_all (Install m) h with
                          | (Some e, h) => (Some ("module " +:+ Name m +:+ ": " +:+ e), h)
                          | (None, h) =>
                              let rawYAML := if decide (URL m = "") then data +:+ String "010" ("url: " +:+ moduleURL +:+ String "010" "") else data in
                              WriteFile (yaml_path cfg (Name m)) rawYAML 420 h
                          end
                      end
                  end
              end
          end
      end
  end.

(** The module a name stands for. *)
Definition known (name : string) (h : host) : result string Module :=
  match files h !! yaml_path cfg name with
  | None => Err (name +:+ " is not a locally known module")
  | Some f => match parse (content f) with Err _ => Err "parse" | Ok m => Ok m end
  end.

Definition Install_ (name : string) (h : host) : option string * host :=
  match known name h with
  | Err e => (Some e, h)
  | Ok m => if decide (URL m = "") then (Some (name +:+ " has no url recorded"), h) else Fetch (URL m) h
  end.

(** Best effort on what a dependency left. *)
Definition remove_dependency (h : host) (dep : InstallDependency) : host :=
  match resolveExistingPath (Path dep) cfg with
  | Ok dest => snd (os_Remove (marker dest) (snd (os_Remove dest h)))
  | Err _ => h
  end.

Definition Remove (name : string) (h : host) : option string * host :=
  match known name h with
  | Err e => (Some e, h)
  | Ok m => os_Remove (yaml_path cfg name) (fold_left remove_dependency (Install m) h)
  end.
End install.

(** ** Frames: what a step may change *)

Definition changed (h h' : host) (p : string) : Prop := files h' !! p <> files h !! p.

Lemma changed_trans h1 h2 h3 p : changed h1 h3 p -> changed h1 h2 p \/ changed h2 h3 p.
Proof. unfold changed. intros Hc. destruct (decide (files h2 !! p = files h1 !! p)) as [E|]; [right; by rewrite E|by left]. Qed.

Lemma unchanged h h' p : files h' = files h -> ~ changed h h' p.
Proof. unfold changed. intros ->. tauto. Qed.

(** Files below the two directories of a node. *)
Definition within (cfg : Config) (p : string) : Prop := below (ToolsDir cfg) p \/ below (ModulesDir cfg) p.

Record sane_dirs (cfg : Config) : Prop := mkSane {
  sd_tools : IsAbs (ToolsDir cfg) = true /\ ToolsDir cfg = Clean (ToolsDir cfg);
  sd_modules : IsAbs (ModulesDir cfg) = true /\ ModulesDir cfg = Clean (ModulesDir cfg) /\ ModulesDir cfg <> "/"
}.

Lemma join_snoc names last suffix :
  join "/" (names ++ [last]) +:+ suffix = join "/" (names ++ [last +:+ suffix]).
Proof.
  induction names as [|n names IH]; [done|]. cbn [app]. rewrite !join_cons by (by destruct names).
  by rewrite !append_assoc', IH.
Qed.

Lemma marker_below base p : below base p -> below base (marker p).
Proof.
  intros (names & Hne & Hf & ->). destruct (exists_last Hne) as (ns & l & ->). apply Forall_app in Hf as [Hns Hl].
  exists (ns ++ [l +:+ ".checksum"]). split_and!; [by destruct ns| |].
  - apply Forall_app. split; [done|]. apply Forall_singleton in Hl as (H1 & _ & _ & H4). constructor; [|constructor].
    split_and!; [by destruct l|..].
    + destruct l as [|a l]; [done|]. intros E. apply (f_equal String.length) in E. cbn in E. rewrite string_length_app in E. cbn in E. lia.
    + destruct l as [|a l]; [done|]. intros E. apply (f_equal String.length) in E. cbn in E. rewrite string_length_app in E. cbn in E. lia.
    + by rewrite lacks_app, H4.
  - unfold marker. by rewrite !append_assoc', join_snoc.
Qed.

Lemma marker_ne p : marker p <> p.
Proof. unfold marker. intros E. apply (f_equal String.length) in E. rewrite string_length_app in E. cbn in E. lia. Qed.

(** A module name is a file name. *)
Lemma name_ok_plain name suffix :
  name_ok name = true -> lacks slash suffix = true -> (2 < String.length suffix)%nat -> plain_name (name +:+ suffix).
Proof.
  intros Hn Hs Hl. destruct name as [|c r]; [done|]. cbn in Hn. apply andb_true_iff in Hn as [Hc Hr].
  assert (forall x, is_lower x || is_digit x || bool_decide (x = "-"%char) = true -> Ascii.eqb x slash = false) as Hx.
  { intros x Hx. apply Ascii.eqb_neq. intros ->. by vm_compute in Hx. }
  assert (lacks slash (String c r) = true) as Hlk.
  { cbn [lacks]. rewrite Hx by (by rewrite Hc). cbn [negb andb]. clear Hc. induction r as [|d r IH]; [done|]. cbn in Hr.
    apply andb_true_iff in Hr as [Hd Hr]. cbn [lacks]. rewrite Hx by done. by apply IH. }
  split_and!.
  - done.
  - intros E. apply (f_equal String.length) in E. rewrite string_length_app in E. cbn in E. lia.
  - intros E. apply (f_equal String.length) in E. rewrite string_length_app in E. cbn in E. lia.
  - by rewrite lacks_app, Hlk.
Qed.

Lemma resolve_within cfg path full :
  sane_dirs cfg -> resolveInstallPath path cfg = Ok full -> full = ToolsDir cfg \/ full = ModulesDir cfg \/ within cfg full.
Proof.
  intros [[T1 T2] (M1 & M2 & _)]. unfold resolveInstallPath.
  assert (forall base rel, IsAbs base = true -> base = Clean base ->
    (if negb (bool_decide (Filepath.Join base rel = base)) && negb (has_prefix (Filepath.Join base rel) (base +:+ "/"))
     then Err "path escapes its base directory" else Ok (Filepath.Join base rel)) = Ok full -> full = base \/ below base full) as Hone.
  { intros base rel H1 H2. destruct (bool_decide (Filepath.Join base rel = base)) eqn:Ed; cbn [negb andb].
    - apply bool_decide_eq_true in Ed. intros [= <-]. by left.
    - apply bool_decide_eq_false in Ed. destruct (has_prefix _ _) eqn:Ep; [|done]. intros [= <-]. right.
      destruct (Join_abs base rel H1 H2) as [?|(s & Hs & E)]; [done|]. rewrite E in *. by apply clean_prefix_below. }
  unfold within. destruct (has_prefix path "__TOOLS_DIR__/"); cbv zeta.
  - intros Hr. apply Hone in Hr as [?|?]; tauto.
  - destruct (has_prefix path "__MODULES_DIR__/"); [|done]. intros Hr. apply Hone in Hr as [?|?]; tauto.
Qed.

Lemma yaml_within cfg name : sane_dirs cfg -> name_ok name = true -> within cfg (yaml_path cfg name).
Proof.
  intros [_ (M1 & M2 & M3)] Hn. right. assert (plain_name (name +:+ ".yaml")) as Hp by (apply name_ok_plain; [done|done|cbn; lia]).
  exists [name +:+ ".yaml"]. split_and!; [done|by constructor|]. by apply Join_plain.
Qed.

Section install_spec.
Context (compile : string -> option regex) (order : list (string * option Step) -> list (string * option Step))
        (unmarshal : string -> option Module) (sha256_hex : string -> string)
        (untar : string -> result string (list (string * result string string) * option string))
        (unzip : string -> result string (list (string * result string string)))
        (goos goarch : string) (cfg : Config) (w : install_world).

Notation installDependency' := (installDependency sha256_hex untar unzip goos goarch cfg w).
Notation install_binary' := (install_binary sha256_hex untar unzip w).
Notation install_all' := (install_all sha256_hex untar unzip goos goarch cfg w).
Notation Fetch' := (Fetch compile order unmarshal sha256_hex untar unzip goos goarch cfg w).
Notation extractBinary' := (extractBinary untar unzip).
Notation parse := (ParseBytes compile order unmarshal sha256_hex).

(** The world answered a request for [u] with [body]. *)
Definition answered (u body : string) : Prop :=
  exists k ctype b, iw_get w k u = Answered 200 ctype b None /\ body = limited b.

Lemma fetchURLWithType_spec u h r h' :
  fetchURLWithType w u h = (r, h') ->
  files h' = files h /\ asked h' = asked h ++ [u] /\ forall body ct, r = Ok (body, ct) -> answered u body.
Proof.
  unfold fetchURLWithType. intros [= <- <-]. split_and!; [done..|]. intros body ct.
  destruct (iw_get w (length (asked h)) u) as [e|st c b re] eqn:E; [done|]. destruct (st =? 200) eqn:Es; [|done]. cbn [negb].
  destruct re; [done|]. intros [= <- <-]. apply Z.eqb_eq in Es as ->. by exists (length (asked h)), c, b.
Qed.

(** At most five requests for one URL, and nothing but requests. *)
Lemma fetch_attempts_spec n u versioned h r h' :
  fetch_attempts w n u versioned h = (r, h') ->
  files h' = files h /\ (exists k, (k <= n)%nat /\ asked h' = asked h ++ replicate k u)
  /\ forall body, r = Ok body -> answered u body.
Proof.
  revert h r h'. induction n as [|n IH]; intros h r h'; cbn [fetch_attempts].
  { intros [= <- <-]. split_and!; [done| |done]. exists 0%nat. by rewrite app_nil_r. }
  destruct (fetchURLWithType w u h) as [r1 h1] eqn:E. apply fetchURLWithType_spec in E as (Ef & Ea & Hb).
  assert (forall r2 h2, fetch_attempts w n u versioned h1 = (r2, h2) ->
    files h2 = files h /\ (exists k, (k <= S n)%nat /\ asked h2 = asked h ++ replicate k u) /\ forall body, r2 = Ok body -> answered u body) as Hrec.
  { intros r2 h2 (F2 & (k & Hk & A2) & B2)%IH. split_and!; [by rewrite F2| |done]. exists (S k). split; [lia|]. by rewrite A2, Ea, <- app_assoc. }
  assert (exists k, (k <= S n)%nat /\ asked h1 = asked h ++ replicate k u) as Hone by (exists 1%nat; split; [lia|done]).
  destruct r1 as [[data ct]|e].
  - destruct (negb _); [intros [= <- <-]; split_and!; [done..|]; intros body [= <-]; by eapply Hb|].
    destruct (n =? 0)%nat; [by intros [= <- <-]|]. destruct (iw_cancelled _ _); [by intros [= <- <-]|apply Hrec].
  - destruct (n =? 0)%nat; [by intros [= <- <-]|]. destruct (iw_cancelled _ _); [by intros [= <- <-]|apply Hrec].
Qed.

Lemma WriteFile_changed path data m h e h' p : WriteFile w path data m h = (e, h') -> changed h h' p -> p = path.
Proof.
  unfold WriteFile, changed. destruct (iw_write _ _ path) as [[er lo]|]; intros [= <- <-] Hc.
  - destruct (decide (p = path)) as [|Hne]; [done|]. destruct lo; cbn in Hc; [|done]. by rewrite lookup_insert_ne in Hc by done.
  - destruct (decide (p = path)) as [|Hne]; [done|]. cbn in Hc. by rewrite lookup_insert_ne in Hc by done.
Qed.

Lemma WriteFile_ok path data m h h' : WriteFile w path data m h = (None, h') -> files h' = <[path := written (files h !! path) data m]> (files h).
Proof. unfold WriteFile. destruct (iw_write _ _ path) as [[e lo]|]; by intros [= <-]. Qed.

(** ** One dependency *)

(** What a run of [install_binary] did. *)
Lemma install_binary_spec dep dest assetURL versioned h e h' :
  install_binary' dep dest assetURL versioned h = (e, h') ->
  (e <> None /\ files h' = files h)
  \/ (exists checksum, answered (assetURL +:+ ".checksum.txt") checksum /\
      let expected := trim_space checksum in
      (e = None /\ up_to_date dest expected h = true /\ files h' = files h)
      \/ (exists asset bin h1 e1 h2, answered assetURL asset /\ sha256_hex asset = expected
           /\ extractBinary' asset (dep_Name dep) (has_suffix assetURL ".zip") = Ok bin
           /\ files h1 = files h /\ WriteFile w dest bin 493 h1 = (e1, h2)
           /\ match e1 with
              | Some _ => e <> None /\ h' = h2
              | None => WriteFile w (marker dest) expected 420 h2 = (e, h')
              end)).
Proof.
  unfold install_binary. destruct (fetchAssetWithRetry w (assetURL +:+ ".checksum.txt") versioned h) as [[checksum|er] h1] eqn:E1;
    apply fetch_attempts_spec in E1 as (F1 & _ & B1); [|intros [= <- <-]; by left].
  cbv zeta. assert (up_to_date dest (trim_space checksum) h1 = up_to_date dest (trim_space checksum) h) as Eup by (unfold up_to_date; by rewrite F1).
  rewrite Eup. destruct (up_to_date dest (trim_space checksum) h) eqn:Eu.
  { intros [= <- <-]. right. exists checksum. split; [by apply B1|by left]. }
  destruct (fetchAssetWithRetry w assetURL versioned h1) as [[asset|er] h2] eqn:E2;
    apply fetch_attempts_spec in E2 as (F2 & _ & B2); [|intros [= <- <-]; left; by rewrite F2].
  destruct (bool_decide _) eqn:Ed; cbn [negb]; [|intros [= <- <-]; left; by rewrite F2]. apply bool_decide_eq_true in Ed.
  destruct (extractBinary' _ _ _) as [bin|er] eqn:Ex; [|intros [= <- <-]; left; by rewrite F2].
  destruct (WriteFile w dest bin 493 h2) as [e1 h3] eqn:Ew. intros E. right. exists checksum. split; [by apply B1|]. right.
  exists asset, bin, h2, e1, h3. split_and!; [by apply B2|done|done|by rewrite F2|done|].
  destruct e1; [by injection E as <- <-|exact E].
Qed.

Lemma install_binary_changed dep dest assetURL versioned h e h' p :
  install_binary' dep dest assetURL versioned h = (e, h') -> changed h h' p ->
  (p = dest \/ p = marker dest) /\ (forall er, (forall k, iw_write w k dest = Some (er, None)) -> False).
Proof.
  intros Hi Hc. apply install_binary_spec in Hi as [[_ F]|(checksum & _ & [(_ & _ & F)|(asset & bin & h1 & e1 & h2 & _ & _ & _ & F1 & W1 & W2)])];
    [by apply unchanged in Hc|by apply unchanged in Hc|].
  assert (changed h1 h' p) as Hc1 by (unfold changed in *; by rewrite F1). split.
  - apply (changed_trans h1 h2) in Hc1 as [Hc1|Hc1].
    + left. by eapply WriteFile_changed.
    + destruct e1; [destruct W2 as [_ ->]; by apply unchanged in Hc1|]. right. by eapply WriteFile_changed.
  - intros er Hw. unfold WriteFile in W1. rewrite Hw in W1. injection W1 as <- <-. destruct W2 as [_ ->]. by apply unchanged in Hc1.
Qed.

(** Writing to one of the two directories themselves is an error. *)
Definition dirs_not_files : Prop :=
  exists e, forall k, iw_write w k (ToolsDir cfg) = Some (e, None) /\ iw_write w k (ModulesDir cfg) = Some (e, None).

Lemma installDependency_within dep h e h' p :
  sane_dirs cfg -> dirs_not_files -> installDependency' dep h = (e, h') -> changed h h' p -> within cfg p.
Proof.
  intros Hs [er Hd]. unfold installDependency. destruct (resolveInstallPath (Path dep) cfg) as [dest|] eqn:Er;
    [|intros [= _ <-] Hc; by apply unchanged in Hc].
  destruct (iw_mkdir _ _ _); [intros [= _ <-] Hc; by apply unchanged in Hc|]. cbv zeta.
  assert ((forall k, iw_write w k dest = Some (er, None)) \/ within cfg dest) as Hdest.
  { destruct (resolve_within cfg _ _ Hs Er) as [->|[->|?]]; [left; apply Hd..|by right]. }
  destruct (IsFile dep).
  - unfold install_file. destruct (fetchAssetWithRetry w _ _ h) as [[c|er1] h1] eqn:E1; apply fetch_attempts_spec in E1 as (F1 & _);
      [|intros [= _ <-] Hc; by apply unchanged in Hc].
    intros Hw Hc. assert (changed h1 h' p) as Hc1 by (unfold changed in *; by rewrite F1).
    destruct Hdest as [Hn|Hin]; [|by rewrite (WriteFile_changed _ _ _ _ _ _ _ Hw Hc1)].
    unfold WriteFile in Hw. rewrite Hn in Hw. injection Hw as _ <-. by apply unchanged in Hc1.
  - intros Hi Hc. destruct (install_binary_changed _ _ _ _ _ _ _ _ Hi Hc) as [Hp Hno].
    destruct Hdest as [Hn|Hin]; [by destruct (Hno er Hn)|]. destruct Hp as [->| ->]; [done|].
    destruct Hin as [?|?]; [left|right]; by apply marker_below.
Qed.

Lemma install_all_within deps h e h' p :
  sane_dirs cfg -> dirs_not_files -> install_all' deps h = (e, h') -> changed h h' p -> within cfg p.
Proof.
  intros Hs Hd. revert h. induction deps as [|d deps IH]; intros h; cbn [install_all].
  { intros [= _ <-] Hc. by apply unchanged in Hc. }
  destruct (installDependency' d h) as [[er|] h1] eqn:E.
  - intros [= _ <-] Hc. by eapply installDependency_within.
  - intros E2 Hc. apply (changed_trans h h1) in Hc as [Hc|Hc]; [by eapply installDependency_within|by eapply IH].
Qed.

(** [ParseBytes] gives modules whose names are file names. *)
Lemma parse_name data m : parse data = Ok m -> name_ok (Name m) = true.
Proof.
  unfold ParseBytes. destruct (unmarshal data) as [m0|]; [|done]. intros (m1 & Hv & [= <-])%res_bind_Ok. cbn.
  assert (Name m1 = Name m0 /\ name_ok (Name m0) = true) as [-> ?]; [|done].
  revert Hv. unfold validate. intros (u & Hn & Hv)%res_bind_Ok. apply refuse_Ok, negb_false_iff in Hn.
  split; [|done]. repeat apply res_bind_Ok in Hv as (? & _ & Hv). cbv zeta in Hv.
  destruct (_ && _); [done|]. destruct (_ && _); [done|]. destruct (negb _).
  - repeat apply res_bind_Ok in Hv as (? & _ & Hv). by injection Hv as <-.
  - repeat apply res_bind_Ok in Hv as (? & _ & Hv). unfold validate_collect in Hv. cbv zeta in Hv.
    destruct (decide _); [apply res_bind_Ok in Hv as (? & _ & Hv); by injection Hv as <-|].
    destruct (decide _); [|done]. destruct (compile _); [|done]. destruct (hasGroup _ _); [|done]. by injection Hv as <-.
Qed.

(** The stages of a fetch that gets as far as its dependencies. *)
Lemma Fetch_spec u h e h' :
  Fetch' u h = (e, h') ->
  (e <> None /\ files h' = files h)
  \/ exists data m h1 e2 h2, answered u data /\ parse data = Ok m /\ checkPlatform goos goarch m = None
       /\ files h1 = files h /\ install_all' (Install m) h1 = (e2, h2)
       /\ match e2 with
          | Some _ => e <> None /\ h' = h2
          | None => WriteFile w (yaml_path cfg (Name m))
                      (if decide (URL m = "") then data +:+ String "010" ("url: " +:+ u +:+ String "010" "") else data) 420 h2 = (e, h')
          end.
Proof.
  unfold Fetch. destruct (iw_client w); [intros [= <- <-]; by left|]. unfold fetchURL.
  destruct (fetchURLWithType w u h) as [[[data ct]|er] h1] eqn:E1; apply fetchURLWithType_spec in E1 as (F1 & _ & B1);
    [|intros [= <- <-]; by left].
  destruct (parse data) as [m|] eqn:Ep; [|intros [= <- <-]; by left].
  destruct (checkPlatform goos goarch m) eqn:Ec; [intros [= <- <-]; by left|].
  destruct (iw_mkdir _ _ _); [intros [= <- <-]; by left|]. destruct (iw_mkdir _ _ _); [intros [= <- <-]; by left|].
  destruct (install_all' (Install m) h1) as [e2 h2] eqn:Ei. intros E. right. exists data, m, h1, e2, h2. split_and!; try done.
  - by eapply B1.
  - destruct e2; [by injection E as <- <-|exact E].
Qed.

(** C19: Whatever a module's YAML declares, and whoever serves it: fetching it
    changes no file outside the node's tools and modules directories, on
    success and on every failure. *)
Theorem fetch_stays_within u h e h' p :
  sane_dirs cfg -> dirs_not_files -> Fetch' u h = (e, h') -> changed h h' p -> within cfg p.
Proof.
  intros Hs Hd [[_ F]|(data & m & h1 & e2 & h2 & _ & Hp & _ & F1 & Hi & Hw)]%Fetch_spec Hc; [by apply unchanged in Hc|].
  assert (changed h1 h' p) as Hc1 by (unfold changed in *; by rewrite F1).
  apply (changed_trans h1 h2) in Hc1 as [Hc1|Hc1]; [by eapply install_all_within|].
  destruct e2; [destruct Hw as [_ ->]; by apply unchanged in Hc1|]. rewrite (WriteFile_changed _ _ _ _ _ _ _ Hw Hc1).
  apply yaml_within; [done|by eapply parse_name].
Qed.

(** The archive at the dependency's URL has the SHA-256 its sidecar names, and
    holds this binary under the dependency's own name. *)
Definition verified (dep : InstallDependency) (checksum bin : string) : Prop :=
  let url := ResolveURL dep goos goarch in
  exists asset, answered (url +:+ ".checksum.txt") checksum /\ answered url asset /\ sha256_hex asset = trim_space checksum
    /\ extractBinary' asset (dep_Name dep) (has_suffix url ".zip") = Ok bin.

(** C18: An executable is only ever put in place when it was verified, whatever
    fails.  On every outcome of installing a binary, success or error, either no
    file changed, or the archive that was fetched has the SHA-256 the sidecar
    names and holds the binary under the dependency's own name; then only the
    destination and its marker changed, and the destination holds exactly that
    binary, or what a failed write of it left.  A success means that the marker
    was written after the binary, or that this very version was in place and
    nothing changed. *)
Theorem installs_only_verified dep h e h' :
  installDependency' dep h = (e, h') -> IsFile dep = false ->
  (files h' = files h
   \/ exists dest checksum bin, resolveInstallPath (Path dep) cfg = Ok dest /\ verified dep checksum bin
        /\ (forall p, p <> dest -> p <> marker dest -> files h' !! p = files h !! p)
        /\ (files h' !! dest = Some (written (files h !! dest) bin 493)
            \/ (e <> None /\ files h' !! marker dest = files h !! marker dest
                /\ exists k er left, iw_write w k dest = Some (er, Some left) /\ files h' !! dest = Some left)))
  /\ (e = None -> exists dest checksum, resolveInstallPath (Path dep) cfg = Ok dest
        /\ answered (ResolveURL dep goos goarch +:+ ".checksum.txt") checksum
        /\ ((up_to_date dest (trim_space checksum) h = true /\ files h' = files h)
            \/ exists bin, verified dep checksum bin
                 /\ files h' = <[marker dest := written (files h !! marker dest) (trim_space checksum) 420]>
                                 (<[dest := written (files h !! dest) bin 493]> (files h)))).
Proof.
  unfold installDependency. destruct (resolveInstallPath (Path dep) cfg) as [dest|] eqn:Er; [|intros [= <- <-] _; split; [by left|done]].
  destruct (iw_mkdir _ _ _); [intros [= <- <-] _; split; [by left|done]|]. cbv zeta. intros Hi Hf. rewrite Hf in Hi.
  apply install_binary_spec in Hi as [[? F]|(checksum & Hck & Hcase)]; [split; [by left|done]|].
  destruct Hcase as [(_ & Hu & F)|(asset & bin & h1 & e1 & h2 & Ha & Hsha & Hx & F1 & W1 & W2)].
  { split; [by left|]. intros _. exists dest, checksum. eauto. }
  assert (verified dep checksum bin) as Hv by (exists asset; done).
  assert (marker dest <> dest) as Hm by apply marker_ne. destruct e1 as [er1|].
  - destruct W2 as [He ->]. split; [|done].
    pose proof (fun p => WriteFile_changed dest bin 493 h1 (Some er1) h2 p W1) as Hch.
    assert (forall p, p <> dest -> files h2 !! p = files h !! p) as Hsame.
    { intros p Hp. rewrite <- F1. destruct (decide (files h2 !! p = files h1 !! p)) as [|Hc]; [done|]. by apply Hch in Hc. }
    unfold WriteFile in W1. destruct (iw_write w _ dest) as [[er [left|]]|] eqn:Ew; [| |done].
    + injection W1 as _ <-. right. exists dest, checksum, bin. split; [done|]. split; [exact Hv|]. split; [auto|]. right.
      split; [done|]. split; [by apply Hsame|]. exists (length (asked h1)), er, left. split; [done|]. apply lookup_insert_eq.
    + injection W1 as _ <-. left. exact F1.
  - pose proof (WriteFile_ok _ _ _ _ _ W1) as F2. rewrite F1 in F2.
    pose proof (fun p => WriteFile_changed _ _ _ _ _ _ p W2) as Hch. split.
    + right. exists dest, checksum, bin. split; [done|]. split; [exact Hv|].
      assert (forall p, p <> marker dest -> files h' !! p = files h2 !! p) as Hsame.
      { intros p Hp. destruct (decide (files h' !! p = files h2 !! p)) as [|Hc]; [done|]. by apply Hch in Hc. }
      split; [intros p Hd Hmd; by rewrite Hsame, F2, lookup_insert_ne|]. left. by rewrite Hsame, F2, lookup_insert_eq.
    + intros ->. exists dest, checksum. split; [done|]. split; [exact Hck|]. right. exists bin. split; [exact Hv|].
      by rewrite (WriteFile_ok _ _ _ _ _ W2), F2, (lookup_insert_ne _ dest (marker dest)).
Qed.

(** The module becomes locally known last: when a fetch fails, the YAML of the
    module is what it was before, unless a dependency claims that very path or
    writing the YAML itself is what failed. *)
Theorem fetch_commits_last u h e h' :
  Fetch' u h = (Some e, h') ->
  files h' = files h
  \/ exists data m, answered u data /\ parse data = Ok m
       /\ let yaml := yaml_path cfg (Name m) in
          (forall d dest, d ∈ Install m -> resolveInstallPath (Path d) cfg = Ok dest -> dest <> yaml /\ marker dest <> yaml) ->
          (forall k, iw_write w k yaml = None) ->
          files h' !! yaml = files h !! yaml.
Proof.
  intros [[_ F]|(data & m & h1 & e2 & h2 & Ha & Hp & _ & F1 & Hi & Hw)]%Fetch_spec; [by left|right].
  exists data, m. split_and!; [done..|]. intros yaml Hdeps Hyaml. destruct e2.
  - destruct Hw as [_ ->]. rewrite <- F1. clear -Hi Hdeps. revert h1 Hi. induction (Install m) as [|d deps IH]; intros h1; cbn [install_all].
    { by intros [= _ <-]. }
    destruct (installDependency' d h1) as [e1 h3] eqn:E.
    assert (files h3 !! yaml = files h1 !! yaml) as E3.
    { destruct (decide (files h3 !! yaml = files h1 !! yaml)) as [|Hc]; [done|]. exfalso. revert E. unfold installDependency.
      destruct (resolveInstallPath (Path d) cfg) as [dest|] eqn:Er; [|by intros [= _ <-]].
      destruct (Hdeps d dest ltac:(by left) Er) as [N1 N2]. destruct (iw_mkdir _ _ _); [by intros [= _ <-]|]. cbv zeta.
      destruct (IsFile d).
      - unfold install_file. destruct (fetchAssetWithRetry w _ _ h1) as [[c|er1] h4] eqn:E1; apply fetch_attempts_spec in E1 as (F & _);
          [|intros [= _ <-]; by rewrite F in Hc].
        intros Hw. apply N1. symmetry. eapply WriteFile_changed; [exact Hw|]. unfold changed. by rewrite F.
      - intros Hi. by destruct (install_binary_changed _ _ _ _ _ _ _ yaml Hi Hc) as [[?|?] _]. }
    destruct e1; [by intros [= _ <-]|]. intros Hi. rewrite <- E3. eapply IH; [|exact Hi]. intros d' dest Hd'. apply Hdeps. by right.
  - exfalso. unfold WriteFile in Hw. by rewrite Hyaml in Hw.
Qed.
End install_spec.

(** ** Doing it again, and undoing it *)

Section again.
Context (compile : string -> option regex) (order : list (string * option Step) -> list (string * option Step))
        (unmarshal : string -> option Module) (sha256_hex : string -> string)
        (untar : string -> result string (list (string * result string string) * option string))
        (unzip : string -> result string (list (string * result string string)))
        (goos goarch : string) (cfg : Config).

Notation installDependency' := (installDependency sha256_hex untar unzip goos goarch cfg).

(** An install that succeeded is up to date for the checksum it saw. *)
Lemma installed_up_to_date w dep h h' :
  installDependency' w dep h = (None, h') -> IsFile dep = false ->
  exists dest checksum, resolveInstallPath (Path dep) cfg = Ok dest
    /\ answered w (ResolveURL dep goos goarch +:+ ".checksum.txt") checksum
    /\ up_to_date dest (trim_space checksum) h' = true.
Proof.
  unfold installDependency. destruct (resolveInstallPath (Path dep) cfg) as [dest|] eqn:Er; [|done].
  destruct (iw_mkdir _ _ _); [done|]. cbv zeta. intros Hi Hf. rewrite Hf in Hi.
  apply install_binary_spec in Hi as [[? _]|(checksum & Hck & Hcase)]; [done|]. exists dest, checksum. split_and!; [done|done|].
  destruct Hcase as [(_ & Hu & F)|(asset & bin & h1 & e1 & h2 & _ & _ & _ & F1 & W1 & W2)].
  - unfold up_to_date in *. by rewrite F.
  - destruct e1; [by destruct W2|]. unfold up_to_date.
    rewrite (WriteFile_ok _ _ _ _ _ _ W2), lookup_insert_eq. cbn [written content]. rewrite trim_space_idem, bool_decide_eq_true_2 by done.
    rewrite lookup_insert_ne by apply marker_ne. rewrite (WriteFile_ok _ _ _ _ _ _ W1), lookup_insert_eq. by rewrite bool_decide_eq_true_2 by by eexists.
Qed.

(** Installing again costs one request: when the sidecar still names the
    checksum that was installed, the asset is not downloaded and no file is
    touched, in whatever world the second run takes place. *)
Theorem reinstall_downloads_nothing w dep h h1 :
  installDependency' w dep h = (None, h1) -> IsFile dep = false ->
  let sidecar := ResolveURL dep goos goarch +:+ ".checksum.txt" in
  exists checksum, answered w sidecar checksum
    /\ forall w2 ct b,
         (forall k d, iw_mkdir w2 k d = None) -> iw_get w2 (length (asked h1)) sidecar = Answered 200 ct b None ->
         has_prefix ct "text/html" = false -> trim_space (limited b) = trim_space checksum ->
         installDependency' w2 dep h1 = (None, mkHost (files h1) (asked h1 ++ [sidecar])).
Proof.
  intros Hi Hf sidecar. destruct (installed_up_to_date w dep h h1 Hi Hf) as (dest & checksum & Hr & Hck & Hu).
  exists checksum. split; [exact Hck|]. intros w2 ct b Hmk Hget Hct Hb.
  unfold installDependency. rewrite Hr, Hmk, Hf. cbv zeta. fold sidecar. unfold install_binary, fetchAssetWithRetry, maxAttempts. fold sidecar.
  assert (fetchURLWithType w2 sidecar h1 = (Ok (limited b, ct), mkHost (files h1) (asked h1 ++ [sidecar]))) as E
    by (unfold fetchURLWithType; by rewrite Hget).
  cbn [fetch_attempts]. rewrite E, Hct, andb_false_r. cbn [negb]. cbv zeta. rewrite Hb.
  by replace (up_to_date _ _ _) with true.
Qed.

End again.

(** ** Removing *)

Section remove.
Context (compile : string -> option regex) (order : list (string * option Step) -> list (string * option Step))
        (unmarshal : string -> option Module) (sha256_hex : string -> string) (cfg : Config).

Lemma os_Remove_spec w path h e h' :
  os_Remove w path h = (e, h') ->
  (e = None /\ files h' = delete path (files h)) \/ (e <> None /\ h' = h /\ (iw_removable w path = true -> files h !! path = None)).
Proof.
  unfold os_Remove. destruct (files h !! path) eqn:E; [destruct (iw_removable w path) eqn:Er|]; intros [= <- <-]; [by left|right..]; done.
Qed.

(** A path the removal of a dependency names. *)
Definition named (dep : InstallDependency) (p : string) : Prop :=
  exists dest, resolveExistingPath (Path dep) cfg = Ok dest /\ (p = dest \/ p = marker dest).

#[local] Instance named_dec dep p : Decision (named dep p).
Proof.
  unfold named. destruct (resolveExistingPath (Path dep) cfg) as [dest|]; [|by right; intros (? & ? & _)].
  destruct (decide (p = dest \/ p = marker dest)) as [Hp|Hp]; [left; by exists dest|right; by intros (d & [= <-] & ?)].
Defined.

Lemma os_Remove_lookup w path h p :
  (p <> path -> files (snd (os_Remove w path h)) !! p = files h !! p)
  /\ (files h !! p = None -> files (snd (os_Remove w path h)) !! p = None)
  /\ (iw_removable w path = true -> files (snd (os_Remove w path h)) !! path = None).
Proof.
  destruct (os_Remove w path h) as [e h'] eqn:E. cbn [snd]. apply os_Remove_spec in E as [[_ ->]|(_ & -> & Hn)]; [|done].
  split_and!; intros; [by rewrite lookup_delete_ne|rewrite lookup_delete_None; by right|apply lookup_delete_eq].
Qed.

Lemma remove_dependency_lookup w h dep p :
  (~ named dep p -> files (remove_dependency cfg w h dep) !! p = files h !! p)
  /\ (files h !! p = None -> files (remove_dependency cfg w h dep) !! p = None)
  /\ (named dep p -> iw_removable w p = true -> files (remove_dependency cfg w h dep) !! p = None).
Proof.
  unfold remove_dependency, named. destruct (resolveExistingPath (Path dep) cfg) as [dest|]; [|split_and!; [done..|by intros (? & ? & _)]].
  destruct (os_Remove_lookup w dest h p) as (A1 & A2 & A3).
  destruct (os_Remove_lookup w (marker dest) (snd (os_Remove w dest h)) p) as (B1 & B2 & B3). split_and!.
  - intros Hn. rewrite B1, A1; [done|intros ->..]; apply Hn; eexists; (split; [done|tauto]).
  - intros Hp. by apply B2, A2.
  - intros (d & [= <-] & [->| ->]) Hr; [|by apply B3]. apply B2. by apply A3.
Qed.

Lemma remove_all_lookup w deps h p :
  ((forall d, d ∈ deps -> ~ named d p) -> files (fold_left (remove_dependency cfg w) deps h) !! p = files h !! p)
  /\ (files h !! p = None -> files (fold_left (remove_dependency cfg w) deps h) !! p = None)
  /\ (forall d, d ∈ deps -> named d p -> iw_removable w p = true -> files (fold_left (remove_dependency cfg w) deps h) !! p = None).
Proof.
  revert h. induction deps as [|d deps IH]; intros h; cbn [fold_left]; [split_and!; [done..|by intros d ?%elem_of_nil]|].
  destruct (IH (remove_dependency cfg w h d)) as (A1 & A2 & A3). destruct (remove_dependency_lookup w h d p) as (B1 & B2 & B3). split_and!.
  - intros Hn. rewrite A1, B1; [done|apply Hn; by left|]. intros d' Hd'. apply Hn. by right.
  - intros Hp. by apply A2, B2.
  - intros d' [->|Hd']%elem_of_cons Hnm Hr; [apply A2; by apply B3|by eapply A3].
Qed.

(** A module that was removed is not known any more, its binaries, markers and
    files are gone wherever the file system lets them go, and nothing else has
    changed; a refusal of any of these does not stop the others. *)
Theorem remove_forgets w name h h' :
  Remove compile order unmarshal sha256_hex cfg w name h = (None, h') ->
  exists m, known compile order unmarshal sha256_hex cfg name h = Ok m
    /\ (exists e, known compile order unmarshal sha256_hex cfg name h' = Err e)
    /\ (forall d p, d ∈ Install m -> named d p -> iw_removable w p = true -> files h' !! p = None)
    /\ forall p, changed h h' p -> p = yaml_path cfg name \/ exists d, d ∈ Install m /\ named d p.
Proof.
  unfold Remove. destruct (known _ _ _ _ cfg name h) as [m|] eqn:Ek; [|done]. set (h1 := fold_left _ _ h). intros Hr.
  apply os_Remove_spec in Hr as [[_ F]|(? & _)]; [|done]. exists m. split; [done|].
  split; [eexists; unfold known; by rewrite F, lookup_delete_eq|]. split.
  - intros d p Hd Hn Hp. rewrite F. apply lookup_delete_None. right. by eapply (remove_all_lookup w (Install m) h p).
  - intros p Hc. destruct (decide (p = yaml_path cfg name)) as [|Hne]; [by left|right]. unfold changed in Hc. rewrite F, lookup_delete_ne in Hc by done.
    destruct (decide (Exists (fun d => named d p) (Install m))) as [Hex|Hno].
    + by apply Exists_exists in Hex.
    + exfalso. apply Hc. apply (remove_all_lookup w (Install m) h p). intros d Hd Hn. apply Hno, Exists_exists. by exists d.
Qed.
End remove.

(** ** Witnesses *)

Definition demo_wg : Module :=
  mkModule "wg" "" "" "" "https://r/wg.yaml" ["linux"] []
    [mkDependency "wg" "1" "" "https://r/wg_{os}_{version}.tar.gz" "__TOOLS_DIR__/bin/../wg";
     mkDependency "run.sh" "" "file" "https://r/run.sh" "__MODULES_DIR__/run.sh"]
    "tcp_connect" None None (mkCollect "" "") None None 0 [] [] "" "" None.

Definition demo_install_unmarshal (data : string) : option Module := if decide (data = "wg") then Some demo_wg else None.
Definition demo_cfg : Config := mkConfig "/etc/modules.d" "/opt/tools".

Definition demo_install_world : install_world := {|
  iw_client := None;
  iw_get _ u :=
    if decide (u = "https://r/wg.yaml") then Answered 200 "text/yaml" "wg" None
    else if decide (u = "https://r/wg_linux_1.tar.gz.checksum.txt") then Answered 200 "text/plain" ("SUM" +:+ String "010" "") None
    else if decide (u = "https://r/wg_linux_1.tar.gz") then Answered 200 "application/gzip" "SUM" None
    else if decide (u = "https://r/run.sh") then Answered 200 "text/plain" "cd __TOOLS_DIR__" None
    else NoAnswer "no route";
  iw_cancelled _ := false;
  iw_mkdir _ _ := None;
  iw_write _ p := if decide (p = "/opt/tools" \/ p = "/etc/modules.d") then Some ("is a directory", None) else None;
  iw_removable _ := true
|}.

Definition demo_untar (data : string) : result string (list (string * result string string) * option string) :=
  Ok ([("LICENSE", Ok "MIT"); ("bin/wg", Ok "ELF")], None).

Notation demo_fetch := (Fetch demo_compile demo_order demo_install_unmarshal (fun s => s) demo_untar (fun _ => Err "zip") "linux" "arm64" demo_cfg demo_install_world).
Notation demo_dependency := (installDependency (fun s => s) demo_untar (fun _ => Err "zip") "linux" "arm64" demo_cfg).

Definition demo_fetched : host := snd (demo_fetch "https://r/wg.yaml" (mkHost ∅ [])).
Definition demo_dep : InstallDependency := mkDependency "wg" "1" "" "https://r/wg_{os}_{version}.tar.gz" "__TOOLS_DIR__/bin/../wg".

Example demo_fetch_files :
  fst (demo_fetch "https://r/wg.yaml" (mkHost ∅ [])) = None
  /\ files demo_fetched !! "/opt/tools/wg" = Some (mkFile "ELF" 493)
  /\ files demo_fetched !! "/opt/tools/wg.checksum" = Some (mkFile "SUM" 420)
  /\ files demo_fetched !! "/etc/modules.d/run.sh" = Some (mkFile "cd /opt/tools" 493)
  /\ files demo_fetched !! "/etc/modules.d/wg.yaml" = Some (mkFile "wg" 420).
Proof. vm_compute. split_and!; reflexivity. Qed.

(** A fetch writes each dependency as it goes.  When the second one cannot be
    downloaded, the first one's binary and marker are in place already, and
    stay. *)
Theorem fetch_keeps_what_it_wrote :
  let w := {| iw_client := None; iw_get k u := if decide (u = "https://r/run.sh") then NoAnswer "no route" else iw_get demo_install_world k u;
              iw_cancelled _ := false; iw_mkdir _ _ := None; iw_write _ _ := None; iw_removable _ := true |} in
  let out := Fetch demo_compile demo_order demo_install_unmarshal (fun s => s) demo_untar (fun _ => Err "zip") "linux" "arm64" demo_cfg w "https://r/wg.yaml" (mkHost ∅ []) in
  is_Some (fst out)
  /\ files (snd out) = {["/opt/tools/wg" := mkFile "ELF" 493; "/opt/tools/wg.checksum" := mkFile "SUM" 420]}.
Proof. split; vm_compute; [by eexists|reflexivity]. Qed.

(** A binary that takes the place of a file which is not executable is installed,
    with its marker, and still not executable. *)
Example reinstalled_mode :
  files (snd (demo_dependency demo_install_world (mkDependency "wg" "1" "" "https://r/wg_{os}_{version}.tar.gz" "__TOOLS_DIR__/wg")
    (mkHost {["/opt/tools/wg" := mkFile "config" 420]} []))) !! "/opt/tools/wg" = Some (mkFile "ELF" 420).
Proof. vm_compute. reflexivity. Qed.

Example escape_refused : resolveInstallPath "__TOOLS_DIR__/../../etc/passwd" demo_cfg = Err "path escapes its base directory".
Proof. reflexivity. Qed.

Lemma demo_sane : sane_dirs demo_cfg.
Proof. split; [by vm_compute|]. split_and!; [by vm_compute..|done]. Qed.

Lemma fetch_stays_within_witness : within demo_cfg "/opt/tools/wg.checksum".
Proof.
  assert (dirs_not_files demo_cfg demo_install_world) as Hd by (exists "is a directory"; intros k; split; reflexivity).
  assert (demo_fetch "https://r/wg.yaml" (mkHost ∅ []) = (fst (demo_fetch "https://r/wg.yaml" (mkHost ∅ [])), demo_fetched)) as E
    by (unfold demo_fetched; apply surjective_pairing).
  apply (fetch_stays_within _ _ _ _ _ _ _ _ demo_cfg demo_install_world "https://r/wg.yaml" (mkHost ∅ []) _ demo_fetched _ demo_sane Hd E).
  intros Hc. by vm_compute in Hc.
Defined.

Definition demo_installed : host := snd (demo_dependency demo_install_world demo_dep (mkHost ∅ [])).

Lemma installs_only_verified_witness :
  demo_dependency demo_install_world demo_dep (mkHost ∅ []) = (None, demo_installed)
  /\ exists dest checksum, resolveInstallPath (Path demo_dep) demo_cfg = Ok dest
       /\ answered demo_install_world "https://r/wg_linux_1.tar.gz.checksum.txt" checksum.
Proof.
  assert (demo_dependency demo_install_world demo_dep (mkHost ∅ []) = (None, demo_installed)) as E
    by (unfold demo_installed; rewrite (surjective_pairing (demo_dependency _ _ _)) at 1; f_equal; by vm_compute).
  split; [exact E|].
  destruct (installs_only_verified _ _ _ _ _ _ demo_install_world demo_dep (mkHost ∅ []) None demo_installed E eq_refl) as [_ H].
  destruct (H eq_refl) as (dest & checksum & Hr & Ha & _). exists dest, checksum. split; [exact Hr|exact Ha].
Defined.

(** A checksum that does not match leaves every file as it was. *)
Example mismatch_changes_nothing :
  let w := {| iw_client := None; iw_get k u := if decide (u = "https://r/wg_linux_1.tar.gz") then Answered 200 "application/gzip" "EVIL" None else iw_get demo_install_world k u;
              iw_cancelled _ := false; iw_mkdir _ _ := None; iw_write _ _ := None; iw_removable _ := true |} in
  let h := mkHost {["/opt/tools/wg" := mkFile "OLD" 493]} [] in
  is_Some (fst (demo_dependency w demo_dep h)) /\ files (snd (demo_dependency w demo_dep h)) = files h.
Proof. split; vm_compute; [by eexists|reflexivity]. Qed.

Lemma reinstall_downloads_nothing_witness :
  demo_dependency demo_install_world demo_dep demo_installed
  = (None, mkHost (files demo_installed) (asked demo_installed ++ ["https://r/wg_linux_1.tar.gz.checksum.txt"])).
Proof.
  assert (demo_dependency demo_install_world demo_dep (mkHost ∅ []) = (None, demo_installed)) as E
    by (unfold demo_installed; rewrite (surjective_pairing (demo_dependency _ _ _)) at 1; f_equal; by vm_compute).
  destruct (reinstall_downloads_nothing _ _ _ _ _ _ demo_install_world demo_dep (mkHost ∅ []) demo_installed E eq_refl) as (checksum & Hc & H).
  destruct Hc as (k & ct & b & Hb & ->). injection Hb as <- <-.
  apply (H demo_install_world "text/plain" ("SUM" +:+ String "010" "")); reflexivity.
Defined.

Definition demo_removed : host :=
  snd (Remove demo_compile demo_order demo_install_unmarshal (fun s => s) demo_cfg demo_install_world "wg" demo_fetched).

Lemma remove_forgets_witness :
  exists e, known demo_compile demo_order demo_install_unmarshal (fun s => s) demo_cfg "wg" demo_removed = Err e.
Proof.
  assert (Remove demo_compile demo_order demo_install_unmarshal (fun s => s) demo_cfg demo_install_world "wg" demo_fetched = (None, demo_removed)) as E
    by (unfold demo_removed; rewrite (surjective_pairing (Remove _ _ _ _ _ _ _ _)) at 1; f_equal; by vm_compute).
  destruct (remove_forgets _ _ _ _ demo_cfg demo_install_world "wg" demo_fetched demo_removed E) as (m & _ & He & _). exact He.
Defined.
