(* ===== verification/JobProbe.v ===== *)
(** * The measurements of a pooled job

    [internal/jobprobe/jobprobe.go]: which targets are tried, for how long, and
    what is reported.  Time is nanoseconds since the start of the run; what a
    dial or a request through the tunnel answers, and how long it takes, comes
    from a world.  Parsing flags and JSON, [%.3f] and the sockets are
    arguments. *)

From Stdlib Require Import ZArith Lia List Bool Ascii String SpecFloat.
From stdpp Require Import base tactics gmap strings list pretty.
From S2P Require Import Prelude GoStrings Wire Netbind Checks Module Checker Pool.

Open Scope string_scope.
Open Scope list_scope.
Open Scope Z_scope.

(** ** Fractions of the timeout *)

(** The float64 nearest to a ratio of small integers. *)
Definition ratio (a b : Z) : float64 := SFdiv 53 1024 (float_of_Z a) (float_of_Z b).
Definition dialFraction : float64 := ratio 5 100.
Definition primaryFraction : float64 := ratio 45 100.
Definition fallbackPhaseEndFraction : float64 := ratio 60 100.
Definition totalFraction : float64 := ratio 85 100.
Definition floorFraction : float64 := ratio 1 10.

(** A fraction of a duration is never out of the range of int64. *)
Definition durationFraction (total : duration) (fraction : float64) : duration :=
  int64_of_float (fun _ => 0) (SFmul 53 1024 (float_of_Z total) fraction).

Definition defaultFallbackTargets : list string :=
  ["https://www.google.com/generate_204"; "https://www.youtube.com/generate_204"; "https://www.ytimg.com/generate_204";
   "https://abs.twimg.com/favicons/favicon.ico"].

(** ** The server behind the proxy *)

Record endpoint : Type := mkEndpoint { Address : string; Port : Z }.
Record outbound : Type := mkOutbound { Vnext : list endpoint; Servers : list endpoint }.

Definition first_endpoint (l : list endpoint) : option endpoint :=
  match l with e :: _ => if decide (Address e = "") then None else Some e | [] => None end.

(** [None]: the parameters cannot be read or decoded. *)
Definition extractEndpoint (outbounds : option (list outbound)) : option endpoint :=
  head (omap (fun o => match first_endpoint (Vnext o) with Some e => Some e | None => first_endpoint (Servers o) end)
             (default [] outbounds)).

Definition dialNetwork (env : list string) : string :=
  let v := GoStrings.to_lower (trim_space (Getenv env "RADAR_DOMAIN_STRATEGY")) in
  if decide (v ∈ ["useipv4"; "use_ipv4"]) then "tcp4"
  else if decide (v ∈ ["useipv6"; "use_ipv6"]) then "tcp6" else "tcp".

(** ** Targets *)

Fixpoint add_targets (targets fallbacks : list string) : list string :=
  match fallbacks with
  | [] => targets
  | t :: rest => if decide (t = "" \/ t ∈ targets) then add_targets targets rest else add_targets (targets ++ [t]) rest
  end.

Definition probeTargets (primary : string) (fallbacks : list string) : list string := add_targets [primary] fallbacks.

Definition fallback_list (flag : string) : list string :=
  if decide (flag = "") then defaultFallbackTargets
  else filter (fun s => s <> "") (map trim_space (split ","%char flag)).

(** curl's reading of a target without a scheme. *)
Definition normalize_target (target : string) : string :=
  if contains target "://" then target else "http://" +:+ target.

(** ** Attempts *)

Record targetAttempt : Type := mkAttempt { at_target : string; at_err : string }.

Definition formatAttempts (attempts : list targetAttempt) : string :=
  let message := "all targets failed (" +:+ join "; " (map (fun a => at_target a +:+ ": " +:+ at_err a) attempts) +:+ ")" in
  if (600 <? String.length message)%nat then String.substring 0 600 message +:+ "..." else message.

(** What a request answers, the time it reports and the time it takes. *)
Record request : Type := mkRequest { rq_answer : result string Z; rq_elapsed : duration; rq_took : duration }.

Record jp_world : Type := mkJpWorld {
  jp_dial : string -> endpoint -> duration -> option duration * duration;  (** the delay, and the time it takes *)
  jp_tunnel : nat -> option string;                                       (** the [k]-th tunnel's error *)
  jp_request : nat -> string -> duration -> request                       (** the [k]-th request *)
}.

Inductive attempted : Type :=
| Answered (target : string) (realDelay : duration) (now : Z) (k : nat) (attempts : list targetAttempt)
| Exhausted (now : Z) (attempts : list targetAttempt).

Section jobprobe.
Context (w : jp_world).

Definition attempt_timeout (timeout : duration) (n i : nat) (now : Z) : duration :=
  if (i =? 0)%nat then durationFraction timeout primaryFraction
  else let remaining := durationFraction timeout fallbackPhaseEndFraction - now in
       if remaining <=? 0 then 0 else remaining ÷ Z.of_nat (n - i).

(** The loop over the targets, from the [i]-th of [n] on; [k] requests were sent. *)
Fixpoint try_targets (timeout : duration) (n i : nat) (targets : list string) (now : Z) (k : nat) (attempts : list targetAttempt)
    : attempted :=
  match targets with
  | [] => Exhausted now attempts
  | candidate :: rest =>
      let attemptTimeout := attempt_timeout timeout n i now in
      if attemptTimeout <=? 0 then Exhausted now attempts
      else
        match jp_tunnel w i with
        | Some e => try_targets timeout n (S i) rest now k (attempts ++ [mkAttempt candidate e])
        | None =>
            let r := jp_request w k candidate attemptTimeout in
            let now := now + rq_took r in
            match rq_answer r with
            | Ok code =>
                if (200 <=? code) && (code <? 400) then Answered candidate (rq_elapsed r) now (S k) attempts
                else try_targets timeout n (S i) rest now (S k) (attempts ++ [mkAttempt candidate ("target returned HTTP " +:+ pretty code)])
            | Err e => try_targets timeout n (S i) rest now (S k) (attempts ++ [mkAttempt candidate e])
            end
        end
  end.

(** ** The run *)

Record report : Type := mkReport {
  http_delay : duration; http_code : Z; real_delay : duration; tcp_delay : option duration;
  target_url : string; target_attempts : Z
}.

Record arguments : Type := mkArguments {
  socks_port : Z; target : string; timeout_ms : Z; params_file : string; fallback_targets : string
}.

Definition timeout_of (a : arguments) : duration :=
  let timeout := int_mul (timeout_ms a) millisecond in if timeout <=? 0 then 5 * second else timeout.

(** What the second request is given. *)
Definition second_timeout (timeout : duration) (now : Z) : duration :=
  let remaining := durationFraction timeout totalFraction - now in
  let floor := durationFraction timeout floorFraction in
  if remaining <? floor then floor else remaining.

Definition dial (timeout : duration) (network : string) (ep : option endpoint) : option duration * duration :=
  match ep with Some e => jp_dial w network e (durationFraction timeout dialFraction) | None => (None, 0) end.

(** The report or the error, and when the run ends. *)
Definition measure (timeout : duration) (network : string) (ep : option endpoint) (targets : list string) : result string report * Z :=
  let '(tcpDelay, dialTook) := dial timeout network ep in
  match try_targets timeout (length targets) 0 targets 0 0 [] with
  | Exhausted now attempts => (Err ("jobprobe: " +:+ formatAttempts attempts), Z.max now dialTook)
  | Answered t realDelay now k attempts =>
      let now := Z.max now dialTook in
      let r := jp_request w k t (second_timeout timeout now) in
      (match rq_answer r with
       | Err e => Err ("jobprobe: second request through tunnel (" +:+ t +:+ "): " +:+ e)
       | Ok code => Ok (mkReport (rq_elapsed r) code realDelay tcpDelay t (Z.of_nat (length attempts) + 1))
       end, now + rq_took r)
  end.

Context `{NetIP} (env : list string) (read_params : string -> option (list outbound)).

Definition Run (a : arguments) : result string report * Z :=
  if (socks_port a <=? 0) || bool_decide (target a = "") || bool_decide (params_file a = "")
  then (Err "jobprobe: --socks-port, --target and --params-file are all required", 0)
  else
    match FromEnv env with
    | Err _ => (Err "jobprobe: binding", 0)
    | Ok b =>
        measure (timeout_of a) (Network b (dialNetwork env)) (extractEndpoint (read_params (params_file a)))
          (probeTargets (normalize_target (target a)) (fallback_list (fallback_targets a)))
    end.
End jobprobe.

(** ** The line on standard output *)

Section print.
Context (fmt3 : float64 -> string) (json_string : string -> string).

(** Milliseconds as a float64. *)
Definition ms_of (d : duration) : float64 := float_quot (float_of_Z d) (float_of_Z millisecond).

Definition jsonNumber (v : option float64) : string := match v with None => "null" | Some f => fmt3 f end.

Definition dq : string := String "034" "".

Definition field (name value : string) : string := dq +:+ name +:+ dq +:+ ": " +:+ value.

Definition report_line (r : report) : string :=
  "{" +:+ join ", "
    [field "latency_ms" (jsonNumber (Some (ms_of (http_delay r)))); field "http_code" (pretty (http_code r));
     field "http_delay_ms" (jsonNumber (Some (ms_of (http_delay r)))); field "real_delay_ms" (jsonNumber (Some (ms_of (real_delay r))));
     field "tcp_delay_ms" (jsonNumber (ms_of <$> tcp_delay r)); field "target_url" (json_string (target_url r));
     field "target_attempts" (pretty (target_attempts r))] +:+ "}" +:+ String "010" "".
End print.

(** ** What a run reports *)

Lemma add_targets_spec targets fallbacks :
  NoDup targets ->
  NoDup (add_targets targets fallbacks) /\ (exists l, add_targets targets fallbacks = targets ++ l)
  /\ forall t, t ∈ add_targets targets fallbacks <-> t ∈ targets \/ (t ∈ fallbacks /\ t <> "").
Proof.
  revert targets. induction fallbacks as [|f fs IH]; intros ts Hnd; cbn [add_targets].
  { split_and!; [done|exists []; by rewrite app_nil_r|]. intros t. rewrite elem_of_nil. tauto. }
  destruct (decide (f = "" \/ f ∈ ts)) as [Hf|Hf].
  - destruct (IH ts Hnd) as (A & B & C). split_and!; [done..|]. intros t. rewrite C, elem_of_cons. split; [tauto|].
    intros [Ht|[[E|Ht] Hne]]; [tauto| |tauto]. subst t. destruct Hf; tauto.
  - destruct (IH (ts ++ [f])) as (A & [l B] & C).
    { apply NoDup_app. split_and!; [done|intros t Ht ->%list_elem_of_singleton; tauto|apply NoDup_singleton]. }
    split_and!; [done|exists (f :: l); by rewrite B, <- app_assoc|]. intros t. rewrite C, elem_of_app, list_elem_of_singleton, elem_of_cons.
    split; [intros [[Ht|E]|Ht]; try subst t; tauto|intros [Ht|[[E|Ht] Hne]]; tauto].
Qed.

Section spec.
Context (w : jp_world).

(** A request for [t] that counts as an answer. *)
Definition reachable_at (t : string) (d : duration) : Prop :=
  exists k tmo code, rq_answer (jp_request w k t tmo) = Ok code /\ 200 <= code < 400 /\ d = rq_elapsed (jp_request w k t tmo).

Lemma try_targets_spec timeout n i targets now k attempts :
  match try_targets w timeout n i targets now k attempts with
  | Answered t d _ _ atts =>
      exists pre post, targets = pre ++ t :: post /\ map at_target atts = map at_target attempts ++ pre /\ reachable_at t d
  | Exhausted now' atts =>
      exists pre post, targets = pre ++ post /\ map at_target atts = map at_target attempts ++ pre
        /\ (post = [] \/ attempt_timeout timeout n (i + length pre) now' <= 0)
  end.
Proof.
  revert i now k attempts. induction targets as [|c rest IH]; intros i now k attempts; cbn [try_targets].
  { exists [], []. split_and!; [done|by rewrite app_nil_r|by left]. }
  destruct (attempt_timeout timeout n i now <=? 0) eqn:Et.
  { apply Z.leb_le in Et. exists [], (c :: rest). split_and!; [done|by rewrite app_nil_r|right; by rewrite Nat.add_0_r]. }
  assert (forall now' k' e, match try_targets w timeout n (S i) rest now' k' (attempts ++ [mkAttempt c e]) with
    | Answered t d _ _ atts => exists pre post, c :: rest = pre ++ t :: post /\ map at_target atts = map at_target attempts ++ pre /\ reachable_at t d
    | Exhausted now'' atts => exists pre post, c :: rest = pre ++ post /\ map at_target atts = map at_target attempts ++ pre
        /\ (post = [] \/ attempt_timeout timeout n (i + length pre) now'' <= 0) end) as Hnext.
  { intros now' k' e. pose proof (IH (S i) now' k' (attempts ++ [mkAttempt c e])) as Hi.
    destruct (try_targets _ _ _ _ rest _ _ _); destruct Hi as (pre & post & -> & Em & Hr); exists (c :: pre), post;
      rewrite Em, map_app, <- app_assoc; cbn [length app map at_target]; rewrite ?Nat.add_succ_r; done. }
  destruct (jp_tunnel w i); [apply Hnext|]. cbv zeta.
  destruct (rq_answer (jp_request w k c _)) as [code|] eqn:Er; [|apply Hnext].
  destruct (_ && _) eqn:Ec; [|apply Hnext]. apply andb_true_iff in Ec as [C1%Z.leb_le C2%Z.ltb_lt].
  exists [], rest. split_and!; [done|by rewrite app_nil_r|]. by exists k, (attempt_timeout timeout n i now), code.
Qed.

(** The target reported is the first of the list that answered with a 2xx or
    3xx: every one before it was tried and failed, none of them is reported,
    and the number of attempts counts them and the one that answered.  Without
    such an answer there is no report. *)
Theorem report_first_answer timeout network ep targets r t_end :
  measure w timeout network ep targets = (Ok r, t_end) ->
  exists pre post, targets = pre ++ target_url r :: post /\ target_attempts r = Z.of_nat (length pre) + 1
    /\ reachable_at (target_url r) (real_delay r)
    /\ exists k tmo, rq_answer (jp_request w k (target_url r) tmo) = Ok (http_code r)
                     /\ http_delay r = rq_elapsed (jp_request w k (target_url r) tmo).
Proof.
  unfold measure. destruct (dial w timeout network ep) as [tcp took]. pose proof (try_targets_spec timeout (length targets) 0 targets 0 0 []) as Hs.
  destruct (try_targets _ _ _ _ _ _ _ _) as [t d now k atts|now atts]; [|done]. destruct Hs as (pre & post & Et & Em & Hr). cbv zeta.
  destruct (rq_answer _) as [code|] eqn:Ea; [|done]. intros [= <- _]. cbn [target_url target_attempts real_delay http_code http_delay].
  exists pre, post. split_and!; [done| |done|eauto]. apply (f_equal length) in Em. rewrite !length_map in Em. cbn in Em. by rewrite Em.
Qed.

(** ** Time *)

(** What the budget needs of the fractions of a timeout. *)
Definition fractions_ok (timeout : duration) : Prop :=
  0 <= durationFraction timeout dialFraction <= durationFraction timeout fallbackPhaseEndFraction
  /\ 0 <= durationFraction timeout primaryFraction <= durationFraction timeout fallbackPhaseEndFraction
  /\ 0 <= durationFraction timeout floorFraction
  /\ durationFraction timeout fallbackPhaseEndFraction + durationFraction timeout floorFraction <= durationFraction timeout totalFraction
  /\ durationFraction timeout totalFraction < timeout.

(** Dials and requests end when their context does. *)
Record punctual : Prop := mkPunctual {
  pu_dial network e tmo : 0 <= tmo -> snd (jp_dial w network e tmo) <= tmo;
  pu_request k t tmo : 0 <= tmo -> rq_took (jp_request w k t tmo) <= tmo
}.

Lemma try_targets_time timeout n i targets now k attempts :
  punctual -> fractions_ok timeout -> (i + length targets = n)%nat -> (i = 0%nat -> now = 0) ->
  now <= durationFraction timeout fallbackPhaseEndFraction ->
  match try_targets w timeout n i targets now k attempts with
  | Answered _ _ now' _ _ | Exhausted now' _ => now' <= durationFraction timeout fallbackPhaseEndFraction
  end.
Proof.
  intros Hp (_ & Hprim & _). revert i now k attempts. induction targets as [|c rest IH]; intros i now k attempts Hn H0 Hnow; cbn [try_targets]; [done|].
  destruct (attempt_timeout timeout n i now <=? 0) eqn:Et; [done|]. apply Z.leb_gt in Et.
  assert (forall now' k' e, now' <= durationFraction timeout fallbackPhaseEndFraction ->
    match try_targets w timeout n (S i) rest now' k' (attempts ++ [mkAttempt c e]) with
    | Answered _ _ now'' _ _ | Exhausted now'' _ => now'' <= durationFraction timeout fallbackPhaseEndFraction end) as Hnext.
  { intros now' k' e Hle. apply IH; [cbn in Hn; lia|done|done]. }
  destruct (jp_tunnel w i); [by apply Hnext|]. cbv zeta. set (r := jp_request w k c _).
  assert (now + rq_took r <= durationFraction timeout fallbackPhaseEndFraction) as Hle.
  { pose proof (pu_request Hp k c (attempt_timeout timeout n i now) ltac:(lia)) as Ht. fold r in Ht.
    unfold attempt_timeout in Ht, Et. destruct (i =? 0)%nat eqn:Ei; [apply Nat.eqb_eq in Ei; rewrite (H0 Ei) in *; lia|]. cbv zeta in Ht, Et.
    destruct (_ <=? 0) eqn:Er; [lia|]. apply Z.leb_gt in Er. cbn in Hn.
    assert (Z.quot (durationFraction timeout fallbackPhaseEndFraction - now) (Z.of_nat (n - i)) <= durationFraction timeout fallbackPhaseEndFraction - now); [|lia].
    rewrite Z.quot_div_nonneg by lia. apply Z.div_le_upper_bound; nia. }
  destruct (rq_answer r) as [code|]; [|by apply Hnext]. destruct (_ && _); [done|by apply Hnext].
Qed.

(** C24: Whatever answers and in whatever order, the measurements are over by 85% of
    the job's timeout: the raw dial, the primary, every fallback and the second
    request together, however many fallbacks are configured. *)
Theorem measure_within_budget timeout network ep targets :
  punctual -> fractions_ok timeout ->
  snd (measure w timeout network ep targets) <= durationFraction timeout totalFraction < timeout.
Proof.
  intros Hp Hf. pose proof Hf as (Hd & Hprim & Hfl & Htot & Hlt). split; [|done]. unfold measure.
  assert (snd (dial w timeout network ep) <= durationFraction timeout fallbackPhaseEndFraction) as Hdial.
  { unfold dial. destruct ep as [e|]; [|cbn; lia]. pose proof (pu_dial Hp network e (durationFraction timeout dialFraction) (proj1 Hd)). lia. }
  destruct (dial w timeout network ep) as [tcp took]. cbn [snd] in Hdial.
  pose proof (try_targets_time timeout (length targets) 0 targets 0 0 [] Hp Hf eq_refl (fun _ => eq_refl) ltac:(lia)) as Ht.
  destruct (try_targets _ _ _ _ _ _ _ _) as [t d now k atts|now atts]; cbn [snd]; [|lia]. cbv zeta. cbn [snd].
  set (now' := Z.max now took). assert (0 <= second_timeout timeout now') as Hs by (unfold second_timeout; destruct (_ <? _) eqn:E; [lia|apply Z.ltb_ge in E; lia]).
  pose proof (pu_request Hp k t _ Hs) as Hr. unfold second_timeout in Hr at 2. destruct (_ <? _) eqn:E.
  - apply Z.ltb_lt in E. lia.
  - lia.
Qed.
End spec.

(** The condition on the fractions, which rounding could break, for every
    quarter of a second up to five minutes. *)
Definition fractions_okb (timeout : duration) : bool :=
  let f := durationFraction timeout in
  (0 <=? f dialFraction) && (f dialFraction <=? f fallbackPhaseEndFraction) && (0 <=? f primaryFraction)
  && (f primaryFraction <=? f fallbackPhaseEndFraction) && (0 <=? f floorFraction)
  && (f fallbackPhaseEndFraction + f floorFraction <=? f totalFraction) && (f totalFraction <? timeout).

Lemma fractions_computed : forallb (fun n => fractions_okb (Z.of_nat n * (250 * millisecond))) (List.seq 1 1200) = true.
Proof. vm_compute. reflexivity. Qed.

Lemma fractions_ok_quarters n : (1 <= n <= 1200)%nat -> fractions_ok (Z.of_nat n * (250 * millisecond)).
Proof.
  intros Hn. pose proof fractions_computed as Hc. rewrite forallb_forall in Hc. specialize (Hc n ltac:(apply in_seq; lia)).
  unfold fractions_okb in Hc. cbv zeta in Hc. rewrite !andb_true_iff, !Z.leb_le, Z.ltb_lt in Hc. unfold fractions_ok. lia.
Qed.

(** ** Targets *)

(** The probe's own target comes first and no target is tried twice. *)
Theorem targets_distinct primary fallbacks :
  NoDup (probeTargets primary fallbacks) /\ head (probeTargets primary fallbacks) = Some primary
  /\ forall t, t ∈ probeTargets primary fallbacks <-> t = primary \/ (t ∈ fallbacks /\ t <> "").
Proof.
  destruct (add_targets_spec [primary] fallbacks (NoDup_singleton _)) as (A & [l B] & C). unfold probeTargets. split_and!.
  - exact A.
  - by rewrite B.
  - intros t. by rewrite C, list_elem_of_singleton.
Qed.

(** ** Witnesses *)

(** The primary is blocked; the second fallback answers. *)
Definition demo_jp : jp_world := {|
  jp_dial _ _ tmo := (Some (30 * millisecond), Z.min (30 * millisecond) tmo);
  jp_tunnel _ := None;
  jp_request _ t tmo :=
    if decide (t = "https://blocked/") then mkRequest (Err "EOF") 0 (Z.min (900 * millisecond) tmo)
    else if decide (t = "https://busy/") then mkRequest (Ok 503) (10 * millisecond) (Z.min (10 * millisecond) tmo)
    else mkRequest (Ok 204) (40 * millisecond) (Z.min (40 * millisecond) tmo)
|}.

Definition demo_targets : list string := probeTargets "https://blocked/" ["https://busy/"; "https://blocked/"; ""; "https://up/"].
Definition demo_report : report := mkReport (40 * millisecond) 204 (40 * millisecond) None "https://up/" 3.

Lemma demo_punctual : punctual demo_jp.
Proof.
  split.
  - intros network e tmo Ht. cbn. lia.
  - intros k t tmo Ht. cbn. repeat destruct (decide _); cbn; lia.
Qed.

Lemma measure_within_budget_witness :
  snd (measure demo_jp (12 * second) "tcp" None demo_targets) <= 10200 * millisecond.
Proof.
  pose proof (measure_within_budget demo_jp (12 * second) "tcp" None demo_targets demo_punctual (fractions_ok_quarters 48 ltac:(lia))) as [Hm _].
  exact Hm.
Defined.

Lemma report_first_answer_witness :
  fst (measure demo_jp (12 * second) "tcp" None demo_targets) = Ok demo_report
  /\ exists pre post, demo_targets = pre ++ "https://up/" :: post /\ length pre = 2%nat.
Proof.
  assert (measure demo_jp (12 * second) "tcp" None demo_targets = (Ok demo_report, snd (measure demo_jp (12 * second) "tcp" None demo_targets))) as E
    by (rewrite (surjective_pairing (measure _ _ _ _ _)) at 1; f_equal; by vm_compute).
  split; [by rewrite E|].
  destruct (report_first_answer demo_jp (12 * second) "tcp" None demo_targets demo_report _ E) as (pre & post & Et & En & _).
  exists pre, post. split; [exact Et|]. cbn in En. lia.
Defined.
