(* ===== verification/StoreReads.v ===== *)
(** * Reading the node store

    [store.go]'s journal replay and statistics, and [rollups.go]'s hourly
    buckets: what the store CLI and the agent's log read back. *)

From Stdlib Require Import ZArith Lia List Bool Ascii String Sorted.
From stdpp Require Import base tactics gmap strings list fin_maps sorting.
From S2P Require Import Prelude Wire Sql Store StoreMaint Journal StoreWf StoreDemo.

Open Scope string_scope.
Open Scope list_scope.
Open Scope Z_scope.

(** ** Replay *)

(** [store.Event]; the payload of a control event is the document stored. *)
Record JournalEvent : Type := mkJournalEvent {
  je_Seq : Z; je_Kind : string; je_Origin : string; je_OriginSeq : Z; je_AtMS : Z;
  je_Result : option Result; je_Payload : option body
}.

Definition kind_of (b : body) : string :=
  match b with
  | BResult _ => "result"
  | BAssignment _ => "assignment"
  | BTrigger _ _ _ => "trigger"
  | BTriggerDone _ _ _ => "trigger_done"
  end.

Definition event_of_row (r : jrow) : JournalEvent :=
  mkJournalEvent (seq r) (kind_of (jbody r)) (origin r) (origin_seq r) (at_ms r)
    (match jbody r with BResult c => Some (resultFromRow c (at_ms r)) | _ => None end)
    (match jbody r with BResult _ => None | b => Some b end).

Definition replay_limit (limit : Z) : Z := if limit <=? 0 then 1000 else if 10000 <? limit then 10000 else limit.

(** The rows a query returns one by one: the scan of each may fail. *)
Definition replay_rows (after limit : Z) (d : database) : list jrow :=
  take (Z.to_nat (replay_limit limit)) (List.filter (fun r => after <? seq r) (journal d)).

(** [fn] over the rows with a state of its own: the state it leaves, the last
    cursor it accepted and the error.  Each row is read from the database, and
    so is the end of the result. *)
Fixpoint replay_loop {A} (fn : A -> JournalEvent -> A * option string) (rows : list jrow) (a : A) (last : Z) (fs : faults)
    : A * Z * option string :=
  match fs, rows with
  | true :: _, [] => (a, last, Some "store: replay rows")
  | _, [] => (a, last, None)
  | true :: _, _ => (a, last, Some "store: scan replay row")
  | _, r :: rest =>
      match fn a (event_of_row r) with
      | (a, Some e) => (a, last, Some e)
      | (a, None) => replay_loop fn rest a (seq r) (tail fs)
      end
  end.

Definition Replay {A} (after limit : Z) (fn : A -> JournalEvent -> A * option string) (a : A) (fs : faults) (d : database)
    : A * Z * option string :=
  match query "store: replay" (replay_rows after limit) fs d with
  | (Err e, _, _) => (a, after, Some e)
  | (Ok rows, _, fs) => replay_loop fn rows a after fs
  end.

(** ** Statistics *)

Record Stats : Type := mkStoreStats {
  JournalRows : Z; Results : Z; st_PendingResults : Z; DeliveredResults : Z; RejectedResults : Z;
  Probes : Z; st_PendingTriggers : Z; st_Rollups : Z; OldestAtMS : Z; NewestAtMS : Z;
  PageSize : Z; PageCount : Z; FreePages : Z; DBBytes : Z; WALBytes : Z; JournalMode : string; AutoVacuum : Z
}.

(** What SQLite's pragmas and the file system say. *)
Record file_facts : Type := mkFacts {
  ff_page_size : Z; ff_page_count : Z; ff_free : Z; ff_auto_vacuum : Z; ff_db : option Z; ff_wal : option Z; ff_mode : string
}.

Definition count_rows (p : jrow -> bool) (d : database) : Z := Z.of_nat (length (List.filter p (journal d))).
Definition in_state (st : Z) (r : jrow) : bool := match jbody r with BResult c => delivery_state c =? st | _ => false end.

Definition oldest (j : list jrow) : Z := match at_ms <$> j with [] => 0 | x :: l => fold_left Z.min l x end.
Definition newest (j : list jrow) : Z := match at_ms <$> j with [] => 0 | x :: l => fold_left Z.max l x end.

Definition Stats_ (ff : file_facts) : sql Stats :=
  c ← query "store: journal stats" (fun d =>
        (Z.of_nat (length (journal d)), count_rows is_result d, count_rows (in_state 0) d, count_rows (in_state 1) d,
         count_rows (in_state 2) d, oldest (journal d), newest (journal d)));
  let '(rows, results, pending, delivered, rejected, old, new) := c in
  probes ← query "store: probe stats" (fun d => Z.of_nat (size (probes_t d)));
  triggers ← query "store: trigger stats" (fun d => Z.of_nat (size (pending_triggers d)));
  buckets ← query "store: rollup stats" (fun d => Z.of_nat (size (rollups d)));
  page_size ← query "store: page size" (fun _ => ff_page_size ff);
  page_count ← query "store: page count" (fun _ => ff_page_count ff);
  free ← query "store: free pages" (fun _ => ff_free ff);
  vacuum ← query "store: auto vacuum" (fun _ => ff_auto_vacuum ff);
  mret (mkStoreStats rows results pending delivered rejected probes triggers buckets old new page_size page_count free
          (default 0 (ff_db ff)) (default 0 (ff_wal ff)) (ff_mode ff) vacuum).

(** ** Hourly buckets *)

(** A bucket's hour, probe and origin, in the order of the query. *)
Definition hour (kr : rollupKey * rollupRow_) : Z := snd (fst kr).
Definition bucket_probe (kr : rollupKey * rollupRow_) : string := snd (fst (fst kr)).
Definition bucket_origin (kr : rollupKey * rollupRow_) : string := fst (fst (fst kr)).

Definition rollup_le (a b : rollupKey * rollupRow_) : Prop :=
  hour a < hour b
  \/ (hour a = hour b /\
      ((bucket_probe a <> bucket_probe b /\ String.le (bucket_probe a) (bucket_probe b))
       \/ (bucket_probe a = bucket_probe b /\ String.le (bucket_origin a) (bucket_origin b)))).

#[export] Instance rollup_le_dec : RelDecision rollup_le.
Proof. intros a b. unfold rollup_le. apply _. Defined.

#[export] Instance rollup_le_trans : Transitive rollup_le.
Proof.
  unfold rollup_le. intros a b c [H1|[E1 [[N1 L1]|[P1 L1]]]] [H2|[E2 [[N2 L2]|[P2 L2]]]]; try (left; lia); right; (split; [lia|]).
  - destruct (decide (bucket_probe a = bucket_probe c)) as [Eac|Nac].
    + exfalso. apply N1. rewrite Eac in *. by apply (anti_symm String.le).
    + left. split; [done|]. by transitivity (bucket_probe b).
  - left. rewrite <- P2. done.
  - left. rewrite P1. done.
  - right. split; [congruence|]. by transitivity (bucket_origin b).
Qed.

#[export] Instance rollup_le_total : Total rollup_le.
Proof.
  intros a b. unfold rollup_le. destruct (Z.lt_trichotomy (hour a) (hour b)) as [H|[E|H]]; [left; by left| |right; by left].
  destruct (decide (bucket_probe a = bucket_probe b)) as [Ep|Np].
  - destruct (total String.le (bucket_origin a) (bucket_origin b)) as [L|L]; [left|right]; right; (split; [done|]); right; done.
  - destruct (total String.le (bucket_probe a) (bucket_probe b)) as [L|L]; [left|right]; right; (split; [done|]); left; (split; [congruence|done]).
Qed.

Definition rollup_wanted (probeID : string) (fromMS toMS : Z) (kr : rollupKey * rollupRow_) : bool :=
  (fromMS <=? hour kr) && (hour kr <? toMS) && (bool_decide (probeID = "") || bool_decide (bucket_probe kr = probeID)).

Record Rollup : Type := mkBucket {
  ro_Origin : string; ro_ProbeID : string; BucketMS : Z; Checks : Z; OK : Z; Errors : Z;
  LatencySumUS : Z; LatencyCount : Z; LatencyMinUS : option Z; LatencyMaxUS : option Z
}.

Definition bucket_of (kr : rollupKey * rollupRow_) : Rollup :=
  let r := snd kr in
  mkBucket (bucket_origin kr) (bucket_probe kr) (hour kr) (ru_checks r) (ru_ok r) (ru_errors r)
    (ru_latency_sum r) (ru_latency_count r) (ru_latency_min r) (ru_latency_max r).

(** [for rows.Next()]: each row is read on its own, and so is the end. *)
Fixpoint scan_rollups (rows : list (rollupKey * rollupRow_)) (out : list Rollup) : sql (list Rollup) :=
  match rows with
  | [] => query "store: rollup rows" (fun _ => out)
  | kr :: rest => r ← query "store: scan rollup" (fun _ => bucket_of kr); scan_rollups rest (out ++ [r])
  end.

Definition Rollups (probeID : string) (fromMS toMS limit : Z) : sql (list Rollup) :=
  rows ← query "store: query rollups" (fun d =>
    take (Z.to_nat (replay_limit limit))
      (merge_sort rollup_le (List.filter (rollup_wanted probeID fromMS toMS) (map_to_list (rollups d)))));
  scan_rollups rows [].

(** ** Replay resumes where it stopped *)

(** A consumer that keeps what it accepts; what it kept may decide. *)
Definition collect (refuse : list JournalEvent -> JournalEvent -> option string) (acc : list JournalEvent) (e : JournalEvent)
    : list JournalEvent * option string :=
  match refuse acc e with Some err => (acc, Some err) | None => (acc ++ [e], None) end.

(** The events of the rows in ([after], [upto]]. *)
Definition events_between (after upto : Z) (d : database) : list JournalEvent :=
  map event_of_row (List.filter (fun r => (after <? seq r) && (seq r <=? upto)) (journal d)).

(** The cursor after the rows of [pre]. *)
Definition end_of (after : Z) (pre : list jrow) : Z := fold_left (fun _ r => seq r) pre after.

Definition ahead (after : Z) (l : list jrow) : Prop := StronglySorted Z.lt (seq <$> l) /\ Forall (fun r => after < seq r) l.

Lemma ahead_cons after r l : ahead after (r :: l) -> after < seq r /\ ahead (seq r) l.
Proof.
  intros [Hs Hf]. rewrite fmap_cons in Hs. apply StronglySorted_inv in Hs as [Hs Hlt]. apply Forall_cons in Hf as [Hr _].
  split; [done|]. split; [done|]. by rewrite Forall_fmap in Hlt.
Qed.

Lemma end_of_le after pre post : ahead after (pre ++ post) -> after <= end_of after pre.
Proof.
  revert after. induction pre as [|r pre IH]; intros after Ha; [unfold end_of; cbn; lia|]. apply ahead_cons in Ha as [Hr Ha]. apply IH in Ha. change (after <= end_of (seq r) pre). lia.
Qed.

Lemma ahead_split after pre post :
  ahead after (pre ++ post) ->
  List.filter (fun r => seq r <=? end_of after pre) (pre ++ post) = pre
  /\ List.filter (fun r => end_of after pre <? seq r) (pre ++ post) = post.
Proof.
  revert after. induction pre as [|r pre IH]; intros after Ha; cbn [app end_of fold_left].
  - destruct Ha as [_ Hf]. split.
    + apply filter_none. intros x Hx. apply Z.leb_gt. rewrite Forall_forall in Hf. by apply Hf.
    + induction post as [|x post IH]; [done|]. apply Forall_cons in Hf as [Hx Hf]. cbn. rewrite (proj2 (Z.ltb_lt _ _) Hx). f_equal. by apply IH.
  - apply ahead_cons in Ha as [Hr Ha]. destruct (IH (seq r) Ha) as [E1 E2]. pose proof (end_of_le _ _ _ Ha) as Hle.
    cbn [List.filter]. fold (end_of (seq r) pre). rewrite (proj2 (Z.leb_le _ _) Hle), E1.
    rewrite (proj2 (Z.ltb_ge _ _) Hle), E2. done.
Qed.

Lemma replay_loop_spec refuse rows acc after fs acc' cur err :
  replay_loop (collect refuse) rows acc after fs = (acc', cur, err) ->
  exists pre post, rows = pre ++ post /\ acc' = acc ++ map event_of_row pre /\ cur = end_of after pre /\ (err = None -> post = []).
Proof.
  assert (forall rows0 acc0 after0, (acc', cur, err) = (acc0, after0, @None string) -> rows0 = [] ->
    exists pre post : list jrow, rows0 = pre ++ post /\ acc' = acc0 ++ map event_of_row pre /\ cur = end_of after0 pre /\ (err = None -> post = [])) as Hend.
  { intros rows0 acc0 after0 [= -> -> ->] ->. exists [], []. split_and!; [done|by rewrite app_nil_r|done|done]. }
  assert (forall rows0 acc0 after0 e, (acc', cur, err) = (acc0, after0, Some e) ->
    exists pre post : list jrow, rows0 = pre ++ post /\ acc' = acc0 ++ map event_of_row pre /\ cur = end_of after0 pre /\ (err = None -> post = [])) as Hstop.
  { intros rows0 acc0 after0 e [= -> -> ->]. exists [], rows0. split_and!; [done|by rewrite app_nil_r|done|done]. }
  revert acc after fs. induction rows as [|r rows IH]; intros acc after fs; cbn [replay_loop].
  - destruct fs as [|[] fs]; intros E; symmetry in E; [by apply Hend|by eapply Hstop|by apply Hend].
  - assert (match collect refuse acc (event_of_row r) with (a, None) => replay_loop (collect refuse) rows a (seq r) (tail fs) | (a, Some e) => (a, after, Some e) end
      = (acc', cur, err) -> exists pre post, r :: rows = pre ++ post /\ acc' = acc ++ map event_of_row pre /\ cur = end_of after pre /\ (err = None -> post = [])) as Hstep.
    { unfold collect at 1. destruct (refuse _ _) as [e|]; [intros E; symmetry in E; by eapply Hstop|].
      intros (pre & post & -> & -> & -> & He)%IH. exists (r :: pre), post. cbn [map]. by rewrite <- app_assoc. }
    destruct fs as [|[] fs]; [exact Hstep|intros E; symmetry in E; by eapply Hstop|exact Hstep].
Qed.

(** One page after another, each with its limit and its faults. *)
Fixpoint run_pages (refuse : list JournalEvent -> JournalEvent -> option string) (pages : list (Z * faults)) (acc : list JournalEvent) (cur : Z) (d : database)
    : list JournalEvent * Z :=
  match pages with
  | [] => (acc, cur)
  | (limit, fs) :: rest => let '(acc, cur, _) := Replay cur limit (collect refuse) acc fs d in run_pages refuse rest acc cur d
  end.

Lemma rows_ahead after d : db_wf d -> ahead after (List.filter (fun r => after <? seq r) (journal d)).
Proof.
  intros Hwf. split.
  - eapply sublist_StronglySorted; [|apply (wf_sorted d Hwf)]. apply sublist_fmap'.
    induction (journal d) as [|r j IH]; [constructor|]. cbn. destruct (_ <? _); by constructor.
  - apply Forall_forall. intros r [_ Hr%Z.ltb_lt]%list_elem_of_In%List.filter_In. done.
Qed.

Lemma filter_filter {A} (p q : A -> bool) (l : list A) : List.filter p (List.filter q l) = List.filter (fun x => q x && p x) l.
Proof. induction l as [|x l IH]; [done|]. cbn. destruct (q x) eqn:Eq; cbn; [destruct (p x)|]; by rewrite IH. Qed.

Lemma Replay_spec refuse after limit acc fs d acc' cur err :
  db_wf d -> Replay after limit (collect refuse) acc fs d = (acc', cur, err) ->
  after <= cur /\ acc' = acc ++ events_between after cur d
  /\ (err = None -> exists post, List.filter (fun r => cur <? seq r) (journal d) = post
                    /\ List.filter (fun r => after <? seq r) (journal d)
                       = take (Z.to_nat (replay_limit limit)) (List.filter (fun r => after <? seq r) (journal d)) ++ post).
Proof.
  intros Hwf. unfold Replay, query, stmt. set (rows := List.filter (fun r => after <? seq r) (journal d)).
  assert (forall fs, replay_loop (collect refuse) (replay_rows after limit d) acc after fs = (acc', cur, err) ->
    after <= cur /\ acc' = acc ++ events_between after cur d
    /\ (err = None -> exists post, List.filter (fun r => cur <? seq r) (journal d) = post
                    /\ rows = take (Z.to_nat (replay_limit limit)) rows ++ post)) as Hloop.
  { intros fs0 (pre & post & E & -> & -> & He)%replay_loop_spec. pose proof (rows_ahead after d Hwf) as Ha. fold rows in Ha.
    unfold replay_rows in E. fold rows in E. set (n := Z.to_nat (replay_limit limit)) in *.
    assert (rows = pre ++ (post ++ drop n rows)) as Er by (rewrite app_assoc, <- E; by rewrite take_drop).
    rewrite Er in Ha. destruct (ahead_split _ _ _ Ha) as [E1 E2]. rewrite <- Er in E1, E2. pose proof (end_of_le _ _ _ Ha) as Hle.
    split; [done|]. split.
    - f_equal. unfold events_between. f_equal. rewrite <- E1 at 1. unfold rows. apply filter_filter.
    - intros Hn. specialize (He Hn) as ->. rewrite app_nil_r in E. exists (drop n rows). split; [|by rewrite take_drop].
      cbn [app] in E2. rewrite <- E2. unfold rows. rewrite filter_filter. apply filter_ext_in. intros r _.
      destruct (end_of after pre <? seq r) eqn:Ec; [|by rewrite andb_false_r]. apply Z.ltb_lt in Ec. symmetry. apply andb_true_iff. split; [|done]. apply Z.ltb_lt. lia. }
  destruct fs as [|[] fs]; [apply Hloop| |apply Hloop].
  intros [= <- <- <-]. split; [lia|]. split; [|done]. unfold events_between. rewrite filter_none; [by rewrite app_nil_r|].
  intros r _. apply andb_false_iff. destruct (after <? seq r) eqn:E; [right|by left]. apply Z.ltb_lt in E. apply Z.leb_gt. lia.
Qed.

Lemma events_between_app a b c d :
  db_wf d -> a <= b -> b <= c -> events_between a b d ++ events_between b c d = events_between a c d.
Proof.
  intros Hwf Hab Hbc. unfold events_between. rewrite <- map_app. f_equal. pose proof (wf_sorted d Hwf) as Hs.
  induction (journal d) as [|r j IH]; [done|]. rewrite fmap_cons in Hs. apply StronglySorted_inv in Hs as [Hs Hlt]. cbn [List.filter].
  destruct (Z.leb_spec (seq r) b) as [Hb|Hb].
  - rewrite (proj2 (Z.ltb_ge b (seq r)) Hb), andb_true_r. cbn [andb]. assert (seq r <=? c = true) as -> by (apply Z.leb_le; lia). rewrite andb_true_r.
    rewrite <- IH by done. by destruct (a <? seq r).
  - rewrite andb_false_r. rewrite (proj2 (Z.ltb_lt b (seq r)) Hb). assert (a <? seq r = true) as -> by (apply Z.ltb_lt; lia). cbn [andb].
    assert (List.filter (fun r => (a <? seq r) && (seq r <=? b)) j = []) as E.
    { apply filter_none. intros x Hx. apply andb_false_iff. right. apply Z.leb_gt. rewrite Forall_fmap, Forall_forall in Hlt.
      specialize (Hlt x Hx). cbn in Hlt. lia. }
    rewrite E. cbn [app]. rewrite <- IH, E by done. by destruct (seq r <=? c).
Qed.

Lemma run_pages_spec refuse pages acc cur d acc' cur' :
  db_wf d -> run_pages refuse pages acc cur d = (acc', cur') -> cur <= cur' /\ acc' = acc ++ events_between cur cur' d.
Proof.
  intros Hwf. revert acc cur. induction pages as [|[limit fs] pages IH]; intros acc cur; cbn [run_pages].
  - intros [= <- <-]. split; [lia|]. unfold events_between. rewrite filter_none; [by rewrite app_nil_r|].
    intros r _. apply andb_false_iff. destruct (cur <? seq r) eqn:E; [right|by left]. apply Z.ltb_lt in E. apply Z.leb_gt. lia.
  - destruct (Replay cur limit (collect refuse) acc fs d) as [[acc1 cur1] err] eqn:E. apply Replay_spec in E as (H1 & -> & _); [|done].
    intros [H2 ->]%IH. split; [lia|]. by rewrite <- app_assoc, events_between_app.
Qed.

(** Replay resumes where it stopped.  Whatever interrupts the pages (a failing
    query, a row that cannot be read, a consumer that refuses an event) and
    whatever limits they have, going on from the cursor each of them returned
    delivers exactly the rows between the first cursor and the last, in order,
    none skipped and none twice. *)
Theorem replay_resumes refuse pages cur d acc' cur' :
  db_wf d -> run_pages refuse pages [] cur d = (acc', cur') -> cur <= cur' /\ acc' = events_between cur cur' d.
Proof. intros Hwf Hr. by apply run_pages_spec in Hr. Qed.

Lemma replay_limit_pos limit : 0 < replay_limit limit.
Proof. unfold replay_limit. destruct (limit <=? 0) eqn:E; [lia|]. apply Z.leb_gt in E. destruct (10000 <? limit); lia. Qed.

(** Pages without faults read on until nothing is left. *)
Lemma run_pages_progress (limits : list Z) acc cur d :
  db_wf d -> (length (List.filter (fun r => (cur <? seq r)%Z) (journal d)) <= length limits)%nat ->
  List.filter (fun r => snd (run_pages (fun _ _ => None) (map (fun l => (l, [])) limits) acc cur d) <? seq r) (journal d) = [].
Proof.
  intros Hwf. revert acc cur. induction limits as [|l limits IH]; intros acc cur Hlen; cbn [map run_pages].
  { by apply length_zero_iff_nil, Nat.le_0_r. }
  destruct (Replay cur l (collect (fun _ _ => None)) acc [] d) as [[acc1 cur1] err] eqn:E.
  assert (err = None) as ->.
  { revert E. unfold Replay, query, stmt. cbn [tail]. generalize (replay_rows cur l d). intros rows. generalize cur at 1. intros c. revert acc c.
    induction rows as [|r rows IHr]; intros a c; cbn [replay_loop]; [by intros [= _ _ <-]|]. cbn [collect tail]. apply IHr. }
  apply Replay_spec in E as (_ & _ & Hrest); [|done]. destruct (Hrest eq_refl) as (post & Epost & Erows). apply IH. rewrite Epost.
  apply (f_equal length) in Erows. rewrite length_app, length_take in Erows. pose proof (replay_limit_pos l). cbn in Hlen. lia.
Qed.

(** C22: As many pages as there are rows, of whatever limits, read the whole journal. *)
Theorem replay_reads_all (limits : list Z) d :
  db_wf d -> (length (journal d) <= length limits)%nat ->
  fst (run_pages (fun _ _ => None) (map (fun l => (l, [])) limits) [] 0 d) = map event_of_row (journal d).
Proof.
  intros Hwf Hlen. pose proof (run_pages_progress limits [] 0 d Hwf) as Hdone.
  destruct (run_pages _ _ [] 0 d) as [acc cur] eqn:E. apply run_pages_spec in E as [Hle ->]; [|done]. cbn [fst snd app] in *.
  unfold events_between. f_equal. assert (List.filter (fun r => 0 <? seq r) (journal d) = journal d) as Eall.
  { pose proof (wf_bound d Hwf) as Hb. clear -Hb. induction Hb as [|r j Hr Hb IH]; [done|]. cbn. rewrite (proj2 (Z.ltb_lt _ _)) by lia. by rewrite IH. }
  rewrite Eall in Hdone. specialize (Hdone Hlen). clear -Hdone Eall. revert Hdone Eall. induction (journal d) as [|r j IH]; [done|].
  cbn [List.filter]. destruct (cur <? seq r) eqn:Ec; [done|]. destruct (0 <? seq r) eqn:E0.
  - intros Hd [= Ea]. apply Z.ltb_ge in Ec. rewrite (proj2 (Z.leb_le _ _) Ec). cbn [andb]. f_equal. by apply IH.
  - intros Hd Ea. assert (length (List.filter (fun r => (0 <? seq r)%Z) j) <= length j)%nat by apply List.filter_length_le. rewrite Ea in *. cbn in *. lia.
Qed.

(** ** Statistics add up *)

(** In a well-formed store every result is pending, delivered or rejected, so
    the three counts the CLI prints sum to the results, and the rest of the
    journal is control events. *)
Theorem stats_add_up ff fs d st d' fs' :
  db_wf d -> Stats_ ff fs d = (Ok st, d', fs') ->
  d' = d /\ Results st = st_PendingResults st + DeliveredResults st + RejectedResults st
  /\ JournalRows st = Results st + count_rows (fun r => negb (is_result r)) d
  /\ st_PendingResults st = Z.of_nat (length (List.filter row_pending (journal d))).
Proof.
  intros Hwf. unfold Stats_. intros H. apply bind_ok in H as (c & d1 & f1 & (-> & -> & ->)%query_ok & H). cbn beta iota in H.
  do 7 (apply bind_ok in H as (? & ? & ? & (-> & -> & ->)%query_ok & H)). apply ret_ok in H as (<- & -> & _).
  cbn [Results st_PendingResults DeliveredResults RejectedResults JournalRows]. split; [done|]. unfold count_rows.
  pose proof (wf_cols d Hwf) as Hc. split; [|split; [|done]].
  - induction Hc as [|r j Hr Hc IH]; [done|]. cbn [List.filter]. unfold is_result, in_state, body_ok, cols_ok in *.
    destruct (jbody r) as [c|?|? ? ?|? ? ?]; [|exact IH..]. destruct Hr as [_ Hr].
    destruct (Z.eqb_spec (delivery_state c) 0), (Z.eqb_spec (delivery_state c) 1), (Z.eqb_spec (delivery_state c) 2); cbn [length]; try lia.
    exfalso. repeat case_match; try lia; done.
  - clear. induction (journal d) as [|r j IH]; [done|]. cbn [List.filter length]. destruct (is_result r); cbn [negb length]; lia.
Qed.

(** ** Buckets come out in order *)

Lemma scan_rollups_ok rows out fs d out' d' fs' :
  scan_rollups rows out fs d = (Ok out', d', fs') -> d' = d /\ out' = out ++ map bucket_of rows.
Proof.
  revert out fs. induction rows as [|kr rows IH]; intros out fs; cbn [scan_rollups map].
  - intros (-> & -> & _)%query_ok. by rewrite app_nil_r.
  - intros (r & ? & ? & (-> & -> & ->)%query_ok & H)%bind_ok. apply IH in H as [-> ->]. by rewrite <- app_assoc.
Qed.

(** What [Rollups] returns is read from buckets of the store that the interval
    and the probe ask for, each once, sorted by hour, probe and origin; when it
    is shorter than its limit every such bucket is there. *)
Theorem rollups_in_order probeID fromMS toMS limit fs d out d' fs' :
  Rollups probeID fromMS toMS limit fs d = (Ok out, d', fs') ->
  exists rows, out = map bucket_of rows /\ d' = d /\ Sorted rollup_le rows /\ NoDup rows
  /\ Forall (fun kr => rollups d !! fst kr = Some (snd kr) /\ rollup_wanted probeID fromMS toMS kr = true) rows
  /\ (Z.of_nat (length out) < replay_limit limit ->
      forall k r, rollups d !! k = Some r -> rollup_wanted probeID fromMS toMS (k, r) = true -> (k, r) ∈ rows).
Proof.
  unfold Rollups. intros (rows & ? & ? & (Er & -> & ->)%query_ok & H)%bind_ok. apply scan_rollups_ok in H as [-> ->]. cbn [app].
  exists rows. set (all := List.filter (rollup_wanted probeID fromMS toMS) (map_to_list (rollups d))) in *.
  set (n := Z.to_nat (replay_limit limit)) in *. pose proof (merge_sort_Permutation rollup_le all) as Hp.
  assert (forall kr, kr ∈ all <-> rollups d !! fst kr = Some (snd kr) /\ rollup_wanted probeID fromMS toMS kr = true) as Hall.
  { intros [k r]. unfold all. rewrite list_elem_of_In, List.filter_In, <- list_elem_of_In. by rewrite elem_of_map_to_list. }
  assert (NoDup all) as Hnd.
  { eapply sublist_NoDup; [apply (NoDup_map_to_list (rollups d))|]. unfold all. generalize (map_to_list (rollups d)). intros l.
    induction l as [|x l IH]; [constructor|]. cbn. destruct (rollup_wanted _ _ _ _); by constructor. }
  assert (rows `sublist_of` merge_sort rollup_le all) as Hsub by (rewrite Er; apply sublist_take).
  split; [done|]. split; [done|]. split; [|split; [|split]].
  - apply StronglySorted_Sorted. eapply sublist_StronglySorted; [exact Hsub|]. apply (StronglySorted_merge_sort rollup_le).
  - eapply sublist_NoDup; [|exact Hsub]. by rewrite Hp.
  - apply Forall_forall. intros kr Hkr. apply Hall. rewrite <- Hp. by eapply elem_of_sublist.
  - intros Hlen k r Hk Hw. rewrite Er in *. rewrite take_ge; [rewrite Hp; by apply Hall|].
    rewrite length_map, length_take in Hlen. lia.
Qed.

(** ** Witnesses *)

(** A page of two, a page the consumer stops at its second row and a third
    whose first row cannot be read. *)
Definition demo_pages : list (Z * faults) := [(2, []); (1000, []); (5, [false; true])].
Definition demo_refuse (_ : list JournalEvent) (e : JournalEvent) : option string := if bool_decide (je_Seq e = 4) then Some "full" else None.

Lemma replay_resumes_witness :
  let out := run_pages demo_refuse demo_pages [] 0 demo_db in
  0 <= snd out /\ fst out = events_between 0 (snd out) demo_db /\ snd out = 3.
Proof.
  destruct (replay_resumes demo_refuse demo_pages 0 demo_db (fst (run_pages demo_refuse demo_pages [] 0 demo_db)) (snd (run_pages demo_refuse demo_pages [] 0 demo_db))
              demo_db_wf (surjective_pairing _)) as [H1 H2].
  split; [exact H1|]. split; [exact H2|]. by vm_compute.
Defined.

Lemma replay_reads_all_witness :
  fst (run_pages (fun _ _ => None) (map (fun l => (l, [])) [1; 1; 0; 1]) [] 0 demo_db) = map event_of_row (journal demo_db).
Proof. apply (replay_reads_all [1; 1; 0; 1] demo_db demo_db_wf). apply Nat.leb_le. by vm_compute. Defined.

Lemma demo_settled_wf : db_wf demo_settled.
Proof.
  refine (reachable_wf false "node" demo_db demo_settled _ demo_db_wf).
  eapply rtc_l; [|apply rtc_refl]. unfold demo_settled. econstructor; by vm_compute.
Qed.

Definition demo_facts : file_facts := mkFacts 4096 10 1 2 (Some 40960) None "wal".

Lemma stats_add_up_witness :
  exists st, fst (fst (Stats_ demo_facts [] demo_settled)) = Ok st /\ Results st = st_PendingResults st + DeliveredResults st + RejectedResults st
             /\ Results st = 2 /\ RejectedResults st = 1.
Proof.
  eexists. split; [by vm_compute|]. split.
  - refine (proj1 (proj2 (stats_add_up demo_facts [] demo_settled _ demo_settled [] demo_settled_wf _))). by vm_compute.
  - by vm_compute.
Defined.

(** The two results of the small store, counted into their hour. *)
Definition demo_buckets : database := run (rollupResults map_to_list (fun x => x) 3) [] demo_db.

Lemma rollups_in_order_witness :
  exists rows, fst (fst (Rollups "a" 0 3600000 10 [] demo_buckets)) = Ok (map bucket_of rows) /\ Sorted rollup_le rows /\ length rows = 1%nat.
Proof.
  destruct (rollups_in_order "a" 0 3600000 10 [] demo_buckets
              (match Rollups "a" 0 3600000 10 [] demo_buckets with (Ok out, _, _) => out | _ => [] end) demo_buckets []
              ltac:(by vm_compute)) as (rows & E & _ & Hs & _).
  exists rows. split; [rewrite <- E; by vm_compute|]. split; [exact Hs|]. apply (f_equal (@length Rollup)) in E. rewrite length_map in E.
  rewrite <- E. by vm_compute.
Defined.
