(* ===== verification/GoText.v ===== *)
(** * Numbers, upper case and base64 of Go's library

    [strconv.Atoi], [strings.ToUpper] for a comparison with an ASCII word, and
    the decoders of [encoding/base64]: the text the checks read. *)

From Stdlib Require Import ZArith Lia List Bool Ascii String.
From stdpp Require Import base tactics strings list pretty.
From S2P Require Import Prelude GoStrings.

Open Scope string_scope.
Open Scope list_scope.
Open Scope Z_scope.

(** ** Decimal numbers *)

Definition digit (c : ascii) : option Z :=
  let n := Z.of_nat (nat_of_ascii c) in if (48 <=? n) && (n <=? 57) then Some (n - 48) else None.

Fixpoint digits (acc : Z) (s : string) : option Z :=
  match s with
  | "" => Some acc
  | String c s => match digit c with Some d => digits (10 * acc + d) s | None => None end
  end.

Definition unsigned (s : string) : option Z := if decide (s = "") then None else digits 0 s.

Definition in_range (z : Z) : option Z := if (min_int64 <=? z) && (z <=? max_int64) then Some z else None.

Definition Atoi (s : string) : option Z :=
  match s with
  | String c r =>
      if decide (c = "-"%char) then match unsigned r with Some z => in_range (- z) | None => None end
      else match unsigned (if decide (c = "+"%char) then r else s) with Some z => in_range z | None => None end
  | "" => None
  end.

Lemma digits_app acc s t : digits acc (s +:+ t) = match digits acc s with Some a => digits a t | None => None end.
Proof. revert acc. induction s as [|c s IH]; intros acc; [done|]. rewrite app_String. cbn [digits]. by destruct (digit c). Qed.

Lemma digit_pretty (x : N) : (x < 10)%N -> digit (pretty_N_char x) = Some (Z.of_N x).
Proof.
  intros Hx. assert (x = 0 \/ x = 1 \/ x = 2 \/ x = 3 \/ x = 4 \/ x = 5 \/ x = 6 \/ x = 7 \/ x = 8 \/ x = 9)%N as H by lia.
  repeat destruct H as [->|H]; [done..|by subst x].
Qed.

Lemma digits_pretty_go (x : N) s :
  exists n, 0 < n /\ forall acc, digits acc (pretty_N_go x s) = digits (acc * n + Z.of_N x) s.
Proof.
  revert s. induction (N.lt_wf_0 x) as [x _ IH]; intros s. destruct (decide (0 < x)%N) as [Hx|Hx].
  - rewrite pretty_N_go_step by done.
    destruct (IH (x / 10)%N) with (s := String (pretty_N_char (x `mod` 10)) s) as (n & Hn & E); [by apply N.div_lt|].
    exists (n * 10). split; [lia|]. intros acc. rewrite E. cbn [digits]. rewrite digit_pretty by (by apply N.mod_lt). f_equal.
    rewrite N2Z.inj_div, N2Z.inj_mod. pose proof (Z.div_mod (Z.of_N x) 10). lia.
  - assert (x = 0%N) as -> by lia. exists 1. split; [lia|]. intros acc. rewrite pretty_N_go_0. f_equal. lia.
Qed.

Lemma unsigned_pretty (x : N) : unsigned (pretty x) = Some (Z.of_N x).
Proof.
  unfold unsigned, pretty, pretty_N. destruct (decide (x = 0)%N) as [->|Hx]; [done|].
  destruct (digits_pretty_go x "") as (n & _ & E). rewrite E. cbn [digits].
  destruct (decide (pretty_N_go x "" = "")) as [H|]; [|done]. rewrite pretty_N_go_step in H by lia.
  exfalso. assert (forall y s, s <> "" -> pretty_N_go y s <> "") as Hne.
  { intros y. induction (N.lt_wf_0 y) as [y _ IH]; intros s Hs. destruct (decide (0 < y)%N).
    - rewrite pretty_N_go_step by done. apply IH; [by apply N.div_lt|done].
    - assert (y = 0%N) as -> by lia. by rewrite pretty_N_go_0. }
  revert H. by apply Hne.
Qed.

Lemma pretty_N_digit (x : N) : exists d s, pretty x = String (pretty_N_char d) s /\ (d < 10)%N.
Proof.
  unfold pretty, pretty_N. destruct (decide (x = 0)%N) as [->|Hx]; [by exists 0%N, ""|].
  assert (forall y s, (0 < y)%N -> exists d t, pretty_N_go y s = String (pretty_N_char d) t /\ (d < 10)%N) as H.
  { intros y. induction (N.lt_wf_0 y) as [y _ IH]; intros s Hy. rewrite pretty_N_go_step by done.
    destruct (decide (0 < y / 10)%N) as [Hy'|Hy'].
    - apply IH; [by apply N.div_lt|done].
    - assert (y / 10 = 0)%N as -> by (by apply N.le_0_r, N.nlt_ge). rewrite pretty_N_go_0. eexists _, _. split; [done|]. by apply N.mod_lt. }
  apply H. lia.
Qed.

(** [Atoi] reads back what [Itoa] writes. *)
Lemma Atoi_pretty (z : Z) : in_int64 z -> Atoi (pretty z) = Some z.
Proof.
  intros Hz. assert (in_range z = Some z) as Hr.
  { unfold in_range. destruct Hz. rewrite (proj2 (Z.leb_le _ _)), (proj2 (Z.leb_le _ _)); done. }
  assert (forall p, Atoi (pretty (N.pos p)) = in_range (Z.pos p)) as Hpos.
  { intros p. destruct (pretty_N_digit (N.pos p)) as (d & s & E & Hd). pose proof (unsigned_pretty (N.pos p)) as Hu. rewrite E in *.
    unfold Atoi. rewrite !decide_False; [by rewrite Hu| |]; intros Hc;
      assert (digit (pretty_N_char d) = Some (Z.of_N d)) as Hd' by (by apply digit_pretty); by rewrite Hc in Hd'. }
  destruct z as [|p|p]; [done| |].
  - change (pretty (Z.pos p)) with (pretty (N.pos p)). by rewrite Hpos.
  - change (pretty (Z.neg p)) with (String "-" (pretty (N.pos p))). unfold Atoi. rewrite decide_True by done.
    by rewrite unsigned_pretty.
Qed.

(** ** Text without blanks *)

Definition code (c : ascii) : Z := Z.of_nat (nat_of_ascii c).

(** Printable ASCII other than the space. *)
Definition plain_char (c : ascii) : bool := (33 <=? code c) && (code c <=? 126).

Fixpoint plain (s : string) : bool := match s with "" => true | String c s => plain_char c && plain s end.

Lemma plain_app s t : plain (s +:+ t) = plain s && plain t.
Proof. induction s as [|c s IH]; [done|]. rewrite app_String. cbn. by rewrite IH, andb_assoc. Qed.

Lemma spaces_not_plain w : w ∈ spaces -> plain w = false.
Proof.
  intros Hw. assert (forallb (fun w => negb (plain w)) spaces = true) as H by (by vm_compute).
  rewrite forallb_forall in H. apply list_elem_of_In in Hw. by apply negb_true_iff, H.
Qed.

Lemma plain_trim s : plain s = true -> trim_space s = s.
Proof.
  intros Hs. apply trim_space_id; intros (w & r & Hw & ->); apply spaces_not_plain in Hw; rewrite plain_app, Hw in Hs;
    [done|by rewrite andb_false_r in Hs].
Qed.

(** ** Splitting what was joined *)

Lemma split_lacking' c s t : lacks c s = true -> split c (s +:+ String c t) = s :: split c t.
Proof.
  induction s as [|d s IH]; intros Hs; cbn [lacks] in Hs.
  - rewrite app_empty. cbn [split]. by rewrite decide_True.
  - apply andb_true_iff in Hs as [Hd Hs]. rewrite app_String. cbn [split]. rewrite decide_False.
    + by rewrite IH.
    + intros <-. by rewrite Ascii.eqb_refl in Hd.
Qed.

Lemma split_alone c s : lacks c s = true -> split c s = [s].
Proof.
  induction s as [|d s IH]; intros Hs; [done|]. cbn [lacks] in Hs. apply andb_true_iff in Hs as [Hd Hs]. cbn [split]. rewrite decide_False.
  - by rewrite IH.
  - intros <-. by rewrite Ascii.eqb_refl in Hd.
Qed.

Lemma split_join c ws : ws <> [] -> Forall (fun w => lacks c w = true) ws -> split c (join (String c "") ws) = ws.
Proof.
  intros Hne Hf. induction Hf as [|w ws Hw Hf IH]; [done|]. destruct ws as [|w' ws]; [by apply split_alone|].
  rewrite join_cons by done. rewrite app_String, app_empty, split_lacking' by done. by rewrite IH.
Qed.

Lemma cut_lacking c s t : lacks c s = true -> cut c (s +:+ String c t) = Some (s, t).
Proof.
  induction s as [|d s IH]; intros Hs; cbn [lacks] in Hs.
  - rewrite app_empty. cbn [cut]. by rewrite decide_True.
  - apply andb_true_iff in Hs as [Hd Hs]. rewrite app_String. cbn [cut]. rewrite decide_False.
    + by rewrite IH.
    + intros <-. by rewrite Ascii.eqb_refl in Hd.
Qed.

Lemma cut_alone c s : lacks c s = true -> cut c s = None.
Proof.
  induction s as [|d s IH]; intros Hs; [done|]. cbn [lacks] in Hs. apply andb_true_iff in Hs as [Hd Hs]. cbn [cut]. rewrite decide_False.
  - by rewrite IH.
  - intros <-. by rewrite Ascii.eqb_refl in Hd.
Qed.

(** ** Upper case

    [strings.ToUpper], for a comparison with an ASCII word: besides a to z,
    only U+0131 and U+017F map to an ASCII letter. *)

Definition upper_ascii (c : ascii) : ascii :=
  let n := nat_of_ascii c in
  if (97 <=? n)%nat && (n <=? 122)%nat then ascii_of_nat (n - 32) else c.

Fixpoint to_upper (s : string) : string :=
  match s with
  | "" => ""
  | String c rest =>
      match rest with
      | String d rest' =>
          if (nat_of_ascii c =? 196)%nat && (nat_of_ascii d =? 177)%nat then String "I" (to_upper rest')
          else if (nat_of_ascii c =? 197)%nat && (nat_of_ascii d =? 191)%nat then String "S" (to_upper rest')
          else String (upper_ascii c) (to_upper rest)
      | "" => String (upper_ascii c) ""
      end
  end.

Example to_upper_ex : to_upper (bytes [112; 111; 197; 191; 116]%nat) = "POST".
Proof. reflexivity. Qed.

(** [strings.Contains]. *)
Fixpoint contains (sub s : string) : bool :=
  has_prefix s sub || match s with String _ s => contains sub s | "" => false end.

(** The double quote. *)
Definition dq : string := String "034" "".

(** [strings.TrimSuffix]. *)
Definition trim_suffix (s suffix : string) : string := rev_string (trim_prefix (rev_string s) (rev_string suffix)).

(** ** Base64 *)

(** A variant of [encoding/base64]: its last two characters and whether it pads. *)
Record encoding : Type := mkEncoding { c62 : ascii; c63 : ascii; padded : bool }.

Definition StdEncoding := mkEncoding "+" "/" true.
Definition RawStdEncoding := mkEncoding "+" "/" false.
Definition URLEncoding := mkEncoding "-" "_" true.
Definition RawURLEncoding := mkEncoding "-" "_" false.

Definition byte (z : Z) : ascii := ascii_of_nat (Z.to_nat z).

Definition sextet (enc : encoding) (c : ascii) : option Z :=
  let n := code c in
  if (65 <=? n) && (n <=? 90) then Some (n - 65)
  else if (97 <=? n) && (n <=? 122) then Some (n - 71)
  else if (48 <=? n) && (n <=? 57) then Some (n + 4)
  else if decide (c = c62 enc) then Some 62
  else if decide (c = c63 enc) then Some 63 else None.

Definition is_pad (enc : encoding) (c : ascii) : bool := padded enc && bool_decide (c = "="%char).

(** The three bytes of four sextets. *)
Definition triple (a b c d : Z) : ascii * ascii * ascii :=
  let v := a * 262144 + b * 4096 + c * 64 + d in (byte (v / 65536), byte (v / 256 mod 256), byte (v mod 256)).

(** The quanta of a text without line breaks. *)
Fixpoint quanta (enc : encoding) (s : string) : option string :=
  match s with
  | "" => Some ""
  | String a (String b (String c (String d rest))) =>
      match sextet enc a, sextet enc b with
      | Some a, Some b =>
          match sextet enc c, sextet enc d with
          | Some c, Some d =>
              let '(x, y, z) := triple a b c d in (fun t => String x (String y (String z t))) <$> quanta enc rest
          | Some c, None =>
              if is_pad enc d && bool_decide (rest = "")
              then let '(x, y, _) := triple a b c 0 in Some (String x (String y "")) else None
          | None, _ =>
              if is_pad enc c && is_pad enc d && bool_decide (rest = "")
              then let '(x, _, _) := triple a b 0 0 in Some (String x "") else None
          end
      | _, _ => None
      end
  | String a (String b (String c "")) =>
      match sextet enc a, sextet enc b, sextet enc c with
      | Some a, Some b, Some c => if padded enc then None else let '(x, y, _) := triple a b c 0 in Some (String x (String y ""))
      | _, _, _ => None
      end
  | String a (String b "") =>
      match sextet enc a, sextet enc b with
      | Some a, Some b => if padded enc then None else let '(x, _, _) := triple a b 0 0 in Some (String x "")
      | _, _ => None
      end
  | String _ "" => None
  end.

Fixpoint drop_breaks (s : string) : string :=
  match s with
  | "" => ""
  | String c s => if (code c =? 10) || (code c =? 13) then drop_breaks s else String c (drop_breaks s)
  end.

Definition DecodeString (enc : encoding) (s : string) : option string := quanta enc (drop_breaks s).

(** ** Decoding what was encoded *)

Definition sym (enc : encoding) (n : Z) : ascii :=
  if n <? 26 then byte (n + 65) else if n <? 52 then byte (n + 71) else if n <? 62 then byte (n - 4)
  else if n =? 62 then c62 enc else c63 enc.

Definition pad_with (enc : encoding) (n : nat) : string :=
  if padded enc then match n with 1%nat => "=" | _ => "==" end else "".

(** RFC 4648. *)
Fixpoint encode (enc : encoding) (s : string) : string :=
  match s with
  | "" => ""
  | String x "" => let v := code x * 65536 in String (sym enc (v / 262144)) (String (sym enc (v / 4096 mod 64)) (pad_with enc 2))
  | String x (String y "") =>
      let v := code x * 65536 + code y * 256 in
      String (sym enc (v / 262144)) (String (sym enc (v / 4096 mod 64)) (String (sym enc (v / 64 mod 64)) (pad_with enc 1)))
  | String x (String y (String z rest)) =>
      let v := code x * 65536 + code y * 256 + code z in
      String (sym enc (v / 262144)) (String (sym enc (v / 4096 mod 64))
        (String (sym enc (v / 64 mod 64)) (String (sym enc (v mod 64)) (encode enc rest))))
  end.

Definition variants : list encoding := [StdEncoding; RawStdEncoding; URLEncoding; RawURLEncoding].

Lemma string_ind3 (P : string -> Prop) :
  P "" -> (forall a, P (String a "")) -> (forall a b, P (String a (String b ""))) ->
  (forall a b c r, P r -> P (String a (String b (String c r)))) -> forall s, P s.
Proof. intros H0 H1 H2 H3. fix IH 1. intros [|a [|b [|c r]]]; [done..|]. apply H3, IH. Qed.

Lemma string_ind4 (P : string -> Prop) :
  P "" -> (forall a, P (String a "")) -> (forall a b, P (String a (String b ""))) -> (forall a b c, P (String a (String b (String c "")))) ->
  (forall a b c d r, P r -> P (String a (String b (String c (String d r))))) -> forall s, P s.
Proof. intros H0 H1 H2 H3 H4. fix IH 1. intros [|a [|b [|c [|d r]]]]; [done..|]. apply H4, IH. Qed.

Lemma code_range c : 0 <= code c < 256.
Proof. unfold code. pose proof (nat_ascii_bounded c). lia. Qed.

Lemma byte_code c : byte (code c) = c.
Proof. unfold byte, code. by rewrite Nat2Z.id, ascii_nat_embedding. Qed.

Definition all_ascii : list ascii := map ascii_of_nat (List.seq 0 256).

Lemma all_ascii_in c : c ∈ all_ascii.
Proof.
  unfold all_ascii. rewrite list_elem_of_In, in_map_iff. exists (nat_of_ascii c). split; [apply ascii_nat_embedding|].
  apply in_seq. pose proof (nat_ascii_bounded c). lia.
Qed.

(** A check over every variant and character. *)
Lemma every_char (p : encoding -> encoding -> ascii -> bool) :
  forallb (fun e => forallb (fun e' => forallb (p e e') all_ascii) variants) variants = true ->
  forall e e' c, e ∈ variants -> e' ∈ variants -> p e e' c = true.
Proof.
  intros H e e' c He He'. rewrite forallb_forall in H. apply list_elem_of_In in He. specialize (H e He).
  rewrite forallb_forall in H. apply list_elem_of_In in He'. specialize (H e' He'). rewrite forallb_forall in H. apply H, list_elem_of_In, all_ascii_in.
Qed.

Lemma sextet_agree e e' c a b :
  e ∈ variants -> e' ∈ variants -> sextet e c = Some a -> sextet e' c = Some b -> a = b.
Proof.
  intros He He' Ha Hb.
  pose proof (every_char (fun e e' c => match sextet e c, sextet e' c with Some a, Some b => a =? b | _, _ => true end) ltac:(by vm_compute) e e' c He He') as H.
  cbn beta in H. rewrite Ha, Hb in H. by apply Z.eqb_eq.
Qed.

Lemma sextet_pad e c a : e ∈ variants -> sextet e c = Some a -> bool_decide (c = "="%char) = false.
Proof.
  intros He Ha.
  pose proof (every_char (fun e _ c => match sextet e c with Some _ => negb (bool_decide (c = "="%char)) | _ => true end) ltac:(by vm_compute) e e c He He) as H.
  cbn beta in H. rewrite Ha in H. by apply negb_true_iff.
Qed.

Lemma sextet_sym e n : e ∈ variants -> 0 <= n < 64 -> sextet e (sym e n) = Some n.
Proof.
  intros He Hn. assert (forallb (fun e => forallb (fun k => bool_decide (sextet e (sym e (Z.of_nat k)) = Some (Z.of_nat k))) (List.seq 0 64)) variants = true) as H by (by vm_compute).
  rewrite forallb_forall in H. apply list_elem_of_In in He. specialize (H e He). rewrite forallb_forall in H. specialize (H (Z.to_nat n)).
  rewrite Z2Nat.id in H by lia. apply bool_decide_eq_true in H; [done|]. apply in_seq. lia.
Qed.

Lemma is_pad_char e c : is_pad e c = true -> bool_decide (c = "="%char) = true.
Proof. unfold is_pad. by intros [_ H]%andb_true_iff. Qed.

(** Equal sextets of one character. *)
Ltac same_sextet := eapply sextet_agree; cycle 2; [eassumption|eassumption|assumption|assumption].

(** Two variants that both read a text read the same bytes. *)
Lemma quanta_agree e e' s x y : e ∈ variants -> e' ∈ variants -> quanta e s = Some x -> quanta e' s = Some y -> x = y.
Proof.
  intros He He'. revert x y. induction s as [| | | |a b c d r IH] using string_ind4; intros x y; cbn [quanta]; try congruence.
  - destruct (sextet e a) as [a1|] eqn:?, (sextet e b) as [b1|] eqn:?, (sextet e' a) as [a2|] eqn:?, (sextet e' b) as [b2|] eqn:?; try congruence.
    assert (a1 = a2) as -> by same_sextet. assert (b1 = b2) as -> by same_sextet. destruct (padded e), (padded e'); congruence.
  - destruct (sextet e a) as [a1|] eqn:?, (sextet e b) as [b1|] eqn:?, (sextet e' a) as [a2|] eqn:?, (sextet e' b) as [b2|] eqn:?; try congruence;
      destruct (sextet e c) as [c1|] eqn:?, (sextet e' c) as [c2|] eqn:?; try congruence.
    assert (a1 = a2) as -> by same_sextet. assert (b1 = b2) as -> by same_sextet.
    assert (c1 = c2) as -> by same_sextet. destruct (padded e), (padded e'); congruence.
  - destruct (sextet e a) as [a1|] eqn:?, (sextet e b) as [b1|] eqn:?, (sextet e' a) as [a2|] eqn:?, (sextet e' b) as [b2|] eqn:?; try congruence.
    assert (a1 = a2) as -> by same_sextet. assert (b1 = b2) as -> by same_sextet.
    destruct (sextet e c) as [c1|] eqn:Ec, (sextet e' c) as [c2|] eqn:Ec'.
    + assert (c1 = c2) as -> by same_sextet.
      destruct (sextet e d) as [d1|] eqn:Ed, (sextet e' d) as [d2|] eqn:Ed'.
      * assert (d1 = d2) as -> by same_sextet. destruct (triple _ _ _ _) as [[p q] t].
        destruct (quanta e r), (quanta e' r); cbn; try congruence. intros [= <-] [= <-]. do 3 f_equal. by apply IH.
      * destruct (is_pad e' d) eqn:Hp; [|by destruct (bool_decide _)]. apply is_pad_char in Hp. by rewrite (sextet_pad e d d1) in Hp.
      * destruct (is_pad e d) eqn:Hp; [|by destruct (bool_decide _)]. apply is_pad_char in Hp. by rewrite (sextet_pad e' d d2) in Hp.
      * destruct (triple _ _ _ _) as [[p q] t]. destruct (_ && _), (_ && _); congruence.
    + destruct (is_pad e' c) eqn:Hp; [|done]. apply is_pad_char in Hp. by rewrite (sextet_pad e c c1) in Hp.
    + destruct (is_pad e c) eqn:Hp; [|done]. apply is_pad_char in Hp. by rewrite (sextet_pad e' c c2) in Hp.
    + destruct (triple _ _ _ _) as [[p q] t]. destruct (_ && _), (_ && _); congruence.
Qed.

Lemma triple_of v : 0 <= v < 16777216 ->
  triple (v / 262144) (v / 4096 mod 64) (v / 64 mod 64) (v mod 64) = (byte (v / 65536), byte (v / 256 mod 256), byte (v mod 256)).
Proof.
  intros Hv. unfold triple.
  assert (v / 262144 * 262144 + v / 4096 mod 64 * 4096 + v / 64 mod 64 * 64 + v mod 64 = v) as -> by (Z.to_euclidean_division_equations; lia). done.
Qed.

Lemma sextets_range v : 0 <= v < 16777216 -> 0 <= v / 262144 < 64 /\ 0 <= v / 4096 mod 64 < 64 /\ 0 <= v / 64 mod 64 < 64 /\ 0 <= v mod 64 < 64.
Proof. intros Hv. Z.to_euclidean_division_equations; lia. Qed.

(** A byte cut from its place in a triple. *)
Ltac byte_is x := transitivity (byte (code x)); [f_equal; Z.to_euclidean_division_equations; lia|apply byte_code].

Lemma quanta_encode e s : e ∈ variants -> quanta e (encode e s) = Some s.
Proof.
  intros He. induction s as [|x|x y|x y z r IH] using string_ind3; [done| | |]; cbn [encode].
  - pose proof (code_range x). set (v := code x * 65536). destruct (sextets_range v) as (Ha & Hb & _); [lia|].
    assert (v / 64 mod 64 = 0 /\ v mod 64 = 0) as [Ec Ed] by (unfold v; Z.to_euclidean_division_equations; lia).
    pose proof (triple_of v) as Ht. rewrite Ec, Ed in Ht.
    unfold pad_with. destruct (padded e) eqn:Ep; cbn [quanta]; rewrite !sextet_sym by done.
    + assert (sextet e "=" = None) as ->.
      { destruct (sextet e "=") eqn:E; [|done]. apply sextet_pad in E; done. }
      rewrite Ht by lia. unfold is_pad. rewrite Ep. cbn -[byte]. do 2 f_equal. byte_is x.
    + rewrite Ep, Ht by lia. do 2 f_equal. byte_is x.
  - pose proof (code_range x). pose proof (code_range y). set (v := code x * 65536 + code y * 256). destruct (sextets_range v) as (Ha & Hb & Hc & _); [lia|].
    assert (v mod 64 = 0) as Ed by (unfold v; Z.to_euclidean_division_equations; lia).
    pose proof (triple_of v) as Ht. rewrite Ed in Ht.
    assert (byte (v / 65536) = x) as Ex by byte_is x. assert (byte (v / 256 mod 256) = y) as Ey by byte_is y.
    unfold pad_with. destruct (padded e) eqn:Ep; cbn [quanta]; rewrite !sextet_sym by done.
    + assert (sextet e "=" = None) as ->.
      { destruct (sextet e "=") eqn:E; [|done]. apply sextet_pad in E; done. }
      rewrite Ht by lia. unfold is_pad. rewrite Ep. cbn -[byte]. by rewrite Ex, Ey.
    + rewrite Ep, Ht by lia. by rewrite Ex, Ey.
  - pose proof (code_range x). pose proof (code_range y). pose proof (code_range z). set (v := code x * 65536 + code y * 256 + code z).
    destruct (sextets_range v) as (Ha & Hb & Hc & Hd); [lia|]. cbn [quanta]. rewrite !sextet_sym, IH, triple_of by (done || lia). cbn.
    f_equal. f_equal; [byte_is x|]. f_equal; [byte_is y|]. f_equal. byte_is z.
Qed.
