(* ===== verification/HttpCheck.v ===== *)
(** * The HTTP check

    [internal/checks/httpcheck/httpcheck.go]: two requests, one cold and one
    over the kept connection, and the rule that says which status codes are
    healthy.  A round trip's answer and timings come from a world; [%q] is an
    argument.  A [Checker] lives as long as the process: its kept transport is
    the state. *)

From Stdlib Require Import ZArith Lia List Bool Ascii String SpecFloat.
From stdpp Require Import base tactics gmap strings list pretty.
From S2P Require Import Prelude GoStrings GoText Netbind Wire Checks Checker.

Open Scope string_scope.
Open Scope list_scope.
Open Scope Z_scope.

(** ** Status codes *)

Section spec.
Context (quote : string -> string).

Definition parseCode (s : string) : result string Z :=
  match Atoi (trim_space s) with
  | Some n => if (n <? 100) || (599 <? n) then Err (quote (trim_space s) +:+ " is not an HTTP status code") else Ok n
  | None => Err (quote (trim_space s) +:+ " is not an HTTP status code")
  end.

Record rng : Type := mkRng { lo : Z; hi : Z }.

(** One entry of the list; [None] is an empty one. *)
Definition parse_part (part : string) : result string (option rng) :=
  let part := trim_space part in
  if decide (part = "") then Ok None
  else
    match cut "-"%char part with
    | None => let* n := parseCode part in Ok (Some (mkRng n n))
    | Some (l, h) =>
        let* loN := parseCode l in
        let* hiN := parseCode h in
        if hiN <? loN then Err ("range " +:+ quote part +:+ " is backwards") else Ok (Some (mkRng loN hiN))
    end.

Fixpoint parse_parts (parts : list string) : result string (list rng) :=
  match parts with
  | [] => Ok []
  | part :: rest =>
      let* r := parse_part part in
      let* rs := parse_parts rest in
      Ok (match r with Some r => r :: rs | None => rs end)
  end.

Definition in_rng (code : Z) (r : rng) : bool := (lo r <=? code) && (code <=? hi r).

Definition parseStatusSpec (spec : string) : result string (Z -> bool) :=
  let* ranges := parse_parts (split ","%char spec) in
  match ranges with
  | [] => Err "no status codes given"
  | _ => Ok (fun code => existsb (in_rng code) ranges)
  end.

Definition badStatusCode (codes : list Z) : Z := default 0 (List.find (fun code => 500 <=? code) codes).

(** ** Round trips *)

(** A trace callback's clock readings; [None] when it never fired. *)
Record trace : Type := mkTrace {
  tr_dns : option (time * time); tr_connect : option (time * time); tr_tls : option (time * time);
  tr_firstByte : option time
}.

Record http_reply : Type := mkReply { rp_code : Z; rp_trace : trace; rp_drained : Z; rp_start : time; rp_end : time }.

Record roundTripResult : Type := mkRoundTrip {
  httpCode : Z; dnsMs : float64; connectMs : float64; tlsMs : float64; ttfbMs : float64; rt_bytes : Z; rt_elapsed : duration
}.

Definition ms (d : duration) : float64 := float_quot (float_of_Z d) (float_of_Z millisecond).

Definition span (o : option (time * time)) : float64 :=
  match o with Some (t0, t1) => ms (time_sub t1 t0) | None => S754_zero false end.

(** What a round trip keeps of a reply. *)
Definition of_reply (r : http_reply) : roundTripResult :=
  mkRoundTrip (rp_code r) (span (tr_dns (rp_trace r))) (span (tr_connect (rp_trace r))) (span (tr_tls (rp_trace r)))
    (match tr_firstByte (rp_trace r) with Some t => ms (time_sub t (rp_start r)) | None => S754_zero false end)
    (rp_drained r) (time_sub (rp_end r) (rp_start r)).

(** A transport: whether it keeps connections, and the binding it dials with. *)
Record transport : Type := mkTransport { tp_id : nat; DisableKeepAlives : bool; tp_bind : Binding }.

Record Checker : Type := mkChecker { warm : option transport; warmKey : Binding; made : nat; closed : list nat }.

Definition baseTransport (disableKeepAlives : bool) (binding : Binding) (c : Checker) : transport * Checker :=
  (mkTransport (made c) disableKeepAlives binding, mkChecker (warm c) (warmKey c) (S (made c)) (closed c)).

Definition Binding_eqb (a b : Binding) : bool := bool_decide (a = b).

Definition warmTransport (binding : Binding) (c : Checker) : transport * Checker :=
  match warm c with
  | Some t => if Binding_eqb (warmKey c) binding then (t, c)
              else let '(t', c) := baseTransport false binding (mkChecker (warm c) (warmKey c) (made c) (tp_id t :: closed c)) in
                   (t', mkChecker (Some t') binding (made c) (closed c))
  | None => let '(t', c) := baseTransport false binding c in (t', mkChecker (Some t') binding (made c) (closed c))
  end.

(** Both requests of one check: the answers of the two transports. *)
Context (roundTrip : transport -> string -> string -> result string http_reply).

Definition roundTrip_ (t : transport) (method url : string) : result string roundTripResult :=
  match roundTrip t method url with Err e => Err e | Ok r => Ok (of_reply r) end.

Definition url_of (target : string) : string := if contains "://" target then target else "https://" +:+ target.

Definition http_extra (cold w : roundTripResult) : params :=
  [("http_code", VInt (httpCode w)); ("cold_ttfb_ms", VFloat (ttfbMs cold)); ("warm_ttfb_ms", VFloat (ttfbMs w));
   ("dns_ms", VFloat (dnsMs cold)); ("connect_ms", VFloat (connectMs cold)); ("tls_ms", VFloat (tlsMs cold));
   ("bytes", VInt64 (rt_bytes w))].

(** A result whose status code is not healthy. *)
Definition unhealthy (r : CheckResult) (msg : string) : CheckResult :=
  mkCheckResult (Skip r) false (r_Type r) (r_Target r) (r_Seq r) (LatencyMs r) msg (ErrorCode r) (Extra r).

(** The verdict on the two codes. *)
Definition judge (o : Options) (cold w : roundTripResult) : CheckResult :=
  let result := Ok_ "http" (o_Target o) (o_Seq o) (rt_elapsed w) (http_extra cold w) in
  let spec := Param (o_Params o) "expect_status" "" in
  if decide (trim_space spec <> "") then
    match parseStatusSpec spec with
    | Err e => Fail_ "http" (o_Target o) (o_Seq o) ("expect_status: " +:+ e)
    | Ok expect =>
        match List.find (fun code => negb (expect code)) [httpCode cold; httpCode w] with
        | Some code => unhealthy result ("http " +:+ pretty code +:+ ", expected " +:+ spec)
        | None => result
        end
    end
  else
    let bad := badStatusCode [httpCode cold; httpCode w] in
    if negb (bad =? 0) then unhealthy result ("http " +:+ pretty bad) else result.

Definition Check (o : Options) (c : Checker) : CheckResult * Checker :=
  let url := url_of (o_Target o) in
  let method := Param (o_Params o) "method" "GET" in
  let '(t, c) := baseTransport true (o_Bind o) c in
  match roundTrip_ t method url with
  | Err e => (Fail_ "http" (o_Target o) (o_Seq o) e, c)
  | Ok cold =>
      let '(t, c) := warmTransport (o_Bind o) c in
      match roundTrip_ t method url with
      | Err e => (Fail_ "http" (o_Target o) (o_Seq o) e, c)
      | Ok w => (judge o cold w, c)
      end
  end.
End spec.

(** ** A specification reads back *)

(** What a specification says: the codes of its ranges. *)
Definition rng_ok (r : rng) : Prop := 100 <= lo r /\ lo r <= hi r /\ hi r <= 599.

Definition rng_text (r : rng) : string :=
  if decide (lo r = hi r) then pretty (lo r) else pretty (lo r) +:+ "-" +:+ pretty (hi r).

Definition spec_text (rs : list rng) : string := join "," (map rng_text rs).

(** Every code prints as plain text without separators. *)
Lemma code_text n : 100 <= n <= 599 ->
  plain (pretty n) = true /\ lacks "-" (pretty n) = true /\ lacks "," (pretty n) = true /\ pretty n <> "".
Proof.
  intros Hn. assert (forallb (fun k => let t := pretty (Z.of_nat k) in plain t && lacks "-" t && lacks "," t && negb (bool_decide (t = ""))) (List.seq 100 500) = true) as H by (by vm_compute).
  rewrite forallb_forall in H. specialize (H (Z.to_nat n)). rewrite Z2Nat.id in H by lia. cbn zeta in H.
  assert (In (Z.to_nat n) (List.seq 100 500)) as Hin by (apply in_seq; lia). specialize (H Hin).
  repeat (apply andb_true_iff in H as [H ?Hx]). apply negb_true_iff, bool_decide_eq_false in Hx. done.
Qed.

Lemma parseCode_text quote n : 100 <= n <= 599 -> parseCode quote (pretty n) = Ok n.
Proof.
  intros Hn. destruct (code_text n Hn) as (Hp & _). unfold parseCode. rewrite plain_trim by done.
  rewrite Atoi_pretty by (unfold in_int64, min_int64, max_int64; lia).
  rewrite (proj2 (Z.ltb_ge _ _)), (proj2 (Z.ltb_ge _ _)) by lia. done.
Qed.

Lemma rng_text_ok r : rng_ok r -> plain (rng_text r) = true /\ lacks "," (rng_text r) = true /\ rng_text r <> "".
Proof.
  intros (H1 & H2 & H3). unfold rng_text. destruct (code_text (lo r)) as (P1 & D1 & C1 & N1); [lia|]. destruct (code_text (hi r)) as (P2 & D2 & C2 & N2); [lia|].
  case_decide; [done|]. rewrite !plain_app, !lacks_app, P1, P2, C1, C2. split_and!; [done..|].
  destruct (pretty (lo r)); [done|]. by rewrite app_String.
Qed.

Lemma parse_part_text quote r : rng_ok r -> parse_part quote (rng_text r) = Ok (Some r).
Proof.
  intros Hr. destruct (rng_text_ok r Hr) as (Hp & _ & Hn). unfold parse_part. rewrite plain_trim by done. rewrite decide_False by done.
  destruct Hr as (H1 & H2 & H3). destruct (code_text (lo r)) as (P1 & D1 & C1 & N1); [lia|]. unfold rng_text.
  case_decide as E.
  - rewrite cut_alone by done. rewrite parseCode_text by lia. cbn. destruct r as [l h]. cbn in *. by subst.
  - rewrite app_String, app_empty, cut_lacking by done. rewrite !parseCode_text by lia. cbn.
    rewrite (proj2 (Z.ltb_ge _ _)) by lia. by destruct r.
Qed.

Lemma parse_parts_text quote rs : Forall rng_ok rs -> parse_parts quote (map rng_text rs) = Ok rs.
Proof. induction 1 as [|r rs Hr _ IH]; [done|]. cbn [map parse_parts]. rewrite parse_part_text by done. cbn. by rewrite IH. Qed.

(** A specification written from ranges of status codes, each a single code
    or an interval, accepts the codes of its ranges and no others. *)
Theorem status_spec_roundtrip quote rs :
  rs <> [] -> Forall rng_ok rs ->
  exists expect, parseStatusSpec quote (spec_text rs) = Ok expect
  /\ forall code, expect code = true <-> exists r, r ∈ rs /\ lo r <= code <= hi r.
Proof.
  intros Hne Hrs. unfold parseStatusSpec, spec_text. rewrite split_join.
  - rewrite parse_parts_text by done. destruct rs as [|r0 rs]; [done|]. cbn [res_bind]. eexists. split; [reflexivity|]. intros code.
    rewrite existsb_exists. setoid_rewrite list_elem_of_In. unfold in_rng. setoid_rewrite andb_true_iff. by setoid_rewrite Z.leb_le.
  - by destruct rs.
  - apply Forall_map. eapply Forall_impl; [exact Hrs|]. intros r Hr. by apply rng_text_ok.
Qed.

(** ** The verdict *)

(** The codes the options accept, [None] when the specification is refused. *)
Definition accepts (quote : string -> string) (ps : params) : option (Z -> bool) :=
  let spec := Param ps "expect_status" "" in
  if decide (trim_space spec <> "") then match parseStatusSpec quote spec with Ok p => Some p | Err _ => None end
  else Some (fun code => code <? 500).

Lemma find_two (p : Z -> bool) a b : List.find (fun c => negb (p c)) [a; b] = None <-> p a = true /\ p b = true.
Proof. cbn. destruct (p a), (p b); cbn; naive_solver. Qed.

Lemma judge_ok quote o cold w :
  r_Ok (judge quote o cold w) = true
  <-> exists p, accepts quote (o_Params o) = Some p /\ p (httpCode cold) = true /\ p (httpCode w) = true.
Proof.
  unfold judge, accepts. case_decide as E.
  - destruct (parseStatusSpec quote _) as [p|e]; [|by split; [|intros (? & ? & _)]].
    pose proof (find_two p (httpCode cold) (httpCode w)) as Hf. destruct (List.find _ _) as [code|].
    + split; [done|]. intros (q & [= <-] & Hq). by apply Hf in Hq.
    + split; [|done]. intros _. exists p. split; [done|]. by apply Hf.
  - unfold badStatusCode. cbn. destruct (500 <=? httpCode cold) eqn:E1; cbn.
    + assert (httpCode cold =? 0 = false) as -> by (apply Z.eqb_neq; apply Z.leb_le in E1; lia). cbn. split; [done|].
      intros (q & [= <-] & Hq%Z.ltb_lt & _). apply Z.leb_le in E1. lia.
    + destruct (500 <=? httpCode w) eqn:E2; cbn.
      * assert (httpCode w =? 0 = false) as -> by (apply Z.eqb_neq; apply Z.leb_le in E2; lia). cbn. split; [done|].
        intros (q & [= <-] & _ & Hq%Z.ltb_lt). apply Z.leb_le in E2. lia.
      * split; [|done]. intros _. eexists. split; [done|]. apply Z.leb_gt in E1, E2. split; apply Z.ltb_lt; lia.
Qed.

Section verdict.
Context (quote : string -> string) (answer : transport -> string -> string -> result string http_reply).

(** The transports of a check's two requests. *)
Definition cold_transport (o : Options) (c : Checker) : transport := fst (baseTransport true (o_Bind o) c).
Definition warm_transport (o : Options) (c : Checker) : transport :=
  fst (warmTransport (o_Bind o) (snd (baseTransport true (o_Bind o) c))).

(** The request of the options. *)
Definition asked (o : Options) (t : transport) : result string http_reply :=
  answer t (Param (o_Params o) "method" "GET") (url_of (o_Target o)).

Lemma Check_unfold o c :
  fst (Check quote answer o c)
  = match asked o (cold_transport o c), asked o (warm_transport o c) with
    | Err e, _ | Ok _, Err e => Fail_ "http" (o_Target o) (o_Seq o) e
    | Ok rc, Ok rw => judge quote o (of_reply rc) (of_reply rw)
    end.
Proof.
  unfold Check, asked, cold_transport, warm_transport, roundTrip_. destruct (baseTransport true (o_Bind o) c) as [t c1]. cbn [fst snd].
  destruct (answer t _ _); [|done]. destruct (warmTransport _ c1) as [t' c2]. cbn [fst]. by destruct (answer t' _ _).
Qed.

(** C25: A check is up exactly when both requests are answered and both codes are
    accepted: by the specification the probe gives, or else below 500.  A
    specification that cannot be read accepts nothing.  The latency reported
    is the one of the kept connection. *)
Theorem http_verdict o c :
  (r_Ok (fst (Check quote answer o c)) = true
   <-> exists rc rw p, asked o (cold_transport o c) = Ok rc /\ asked o (warm_transport o c) = Ok rw
       /\ accepts quote (o_Params o) = Some p /\ p (rp_code rc) = true /\ p (rp_code rw) = true)
  /\ forall l, LatencyMs (fst (Check quote answer o c)) = Some l ->
     exists rw, asked o (warm_transport o c) = Ok rw /\ l = ms (time_sub (rp_end rw) (rp_start rw)).
Proof.
  rewrite Check_unfold. destruct (asked o (cold_transport o c)) as [rc|e]; [|by split; [split; [|intros (? & ? & ? & ? & _)]|]].
  destruct (asked o (warm_transport o c)) as [rw|e]; [|by split; [split; [|intros (? & ? & ? & _ & ? & _)]|]]. split.
  - rewrite judge_ok. split.
    + intros (p & H). by exists rc, rw, p.
    + intros (rc' & rw' & p & [= <-] & [= <-] & H). by exists p.
  - intros l. unfold judge. case_decide; [destruct (parseStatusSpec quote _) as [p|]; [destruct (List.find _ _)|done]|destruct (negb _)]; cbn; intros [= <-]; by exists rw.
Qed.

(** ** The kept connection *)

Definition New : Checker := mkChecker None (mkBinding None "") 0 [].

Definition kept_ok (c : Checker) : Prop :=
  Forall (fun i => (i < made c)%nat) (closed c) /\
  match warm c with
  | Some t => DisableKeepAlives t = false /\ tp_bind t = warmKey c /\ (tp_id t < made c)%nat /\ tp_id t ∉ closed c
  | None => closed c = []
  end.

Lemma warmTransport_kept b c t c' :
  kept_ok c -> warmTransport b c = (t, c') ->
  kept_ok c' /\ warm c' = Some t /\ tp_bind t = b
  /\ match warm c with Some t0 => if Binding_eqb (warmKey c) b then t = t0 /\ c' = c else closed c' = tp_id t0 :: closed c | None => closed c' = closed c end.
Proof.
  intros [Hcl Hw]. unfold warmTransport, kept_ok. destruct (warm c) as [t0|] eqn:E.
  - destruct Hw as (H1 & H2 & H3 & H4). unfold Binding_eqb. case_bool_decide as Eb.
    + intros [= <- <-]. rewrite E. split_and!; (done || congruence).
    + intros [= <- <-]. cbn. assert (Forall (fun i => (i < S (made c))%nat) (closed c)) as Hcl' by (eapply Forall_impl; [exact Hcl|]; cbn; lia).
      split; [split; [constructor; [lia|done]|]|by split_and!]. split_and!; [done..|lia|]. rewrite not_elem_of_cons. split; [lia|].
      intros Hin. rewrite Forall_forall in Hcl. specialize (Hcl _ Hin). lia.
  - intros [= <- <-]. cbn. rewrite Hw. split_and!; [constructor|done|done|lia|apply not_elem_of_nil|done..].
Qed.

Lemma Check_kept o c :
  kept_ok c -> kept_ok (snd (Check quote answer o c))
  /\ (snd (Check quote answer o c) = snd (baseTransport true (o_Bind o) c)
      \/ snd (Check quote answer o c) = snd (warmTransport (o_Bind o) (snd (baseTransport true (o_Bind o) c)))).
Proof.
  intros Hk. assert (kept_ok (snd (baseTransport true (o_Bind o) c))) as Hk1.
  { destruct Hk as [Hcl Hw]. split; [eapply Forall_impl; [exact Hcl|]; cbn; lia|]. cbn. destruct (warm c); [|done]. naive_solver lia. }
  unfold Check. destruct (baseTransport true (o_Bind o) c) as [t c1]. cbn [snd] in *. destruct (roundTrip_ answer t _ _); [|by auto].
  destruct (warmTransport (o_Bind o) c1) as [t' c2] eqn:E. pose proof (warmTransport_kept _ _ _ _ Hk1 E) as (Hk2 & _). cbn [snd].
  destruct (roundTrip_ answer t' _ _); by auto.
Qed.
End verdict.

(** A process's checks, each with the answers it gets. *)
Fixpoint run_checks (quote : string -> string) (cs : list ((transport -> string -> string -> result string http_reply) * Options)) (c : Checker) : Checker :=
  match cs with [] => c | (answer, o) :: cs => run_checks quote cs (snd (Check quote answer o c)) end.

Definition bound_to (b : Binding) (c : Checker) : Prop := kept_ok c /\ closed c = [] /\ (warm c = None \/ warmKey c = b).

Lemma base_bound b o c : bound_to b c -> bound_to b (snd (baseTransport true (o_Bind o) c)).
Proof.
  intros ([Hcl Hw] & H1 & H2). split; [|done]. split; [eapply Forall_impl; [exact Hcl|]; cbn; lia|]. cbn. destruct (warm c); [|done]. naive_solver lia.
Qed.

Lemma Binding_eqb_refl b : Binding_eqb b b = true.
Proof. by apply bool_decide_eq_true. Qed.

Lemma Check_bound quote answer b o c :
  o_Bind o = b -> bound_to b c ->
  bound_to b (snd (Check quote answer o c))
  /\ forall t, warm c = Some t -> warm_transport o c = t /\ warm (snd (Check quote answer o c)) = Some t.
Proof.
  intros Hb Hc. pose proof (base_bound b o c Hc) as Hc1. pose proof Hc1 as (Hk1 & Hcl1 & Hkey1).
  destruct (warmTransport (o_Bind o) (snd (baseTransport true (o_Bind o) c))) as [t' c2] eqn:E.
  pose proof (warmTransport_kept _ _ _ _ Hk1 E) as (Hk2 & Hw2 & Ht2 & Hrest).
  assert (bound_to b c2 /\ forall t, warm c = Some t -> t' = t /\ warm c2 = Some t) as [Hc2 Hsame].
  { change (warm (snd (baseTransport true (o_Bind o) c))) with (warm c) in Hrest, Hkey1.
    change (warmKey (snd (baseTransport true (o_Bind o) c))) with (warmKey c) in Hrest, Hkey1. destruct (warm c) as [t0|] eqn:Ew.
    - destruct Hkey1 as [|Hkey1]; [done|]. rewrite Hb, Hkey1, Binding_eqb_refl in Hrest. destruct Hrest as [-> ->].
      split; [done|]. intros t [= <-]. done.
    - split; [|done]. split; [done|]. split; [by rewrite Hrest|]. right. destruct Hk2 as [_ Hk2]. rewrite Hw2 in Hk2.
      destruct Hk2 as (_ & <- & _). by rewrite Ht2. }
  destruct (Check_kept quote answer o c (proj1 Hc)) as [_ [->| ->]].
  - split; [done|]. intros t Ht. split; [|done]. unfold warm_transport. rewrite E. by apply Hsame.
  - rewrite E. split; [done|]. intros t Ht. unfold warm_transport. rewrite E. by apply Hsame.
Qed.

Lemma run_checks_bound quote b cs c :
  Forall (fun x => o_Bind (snd x) = b) cs -> bound_to b c -> bound_to b (run_checks quote cs c).
Proof.
  intros Hcs. revert c. induction Hcs as [|[answer o] cs Ho Hcs IH]; intros c Hc; [done|]. cbn [run_checks].
  apply IH. by apply Check_bound.
Qed.

(** A process's binding never changes, and then its checks keep one
    connection pool: whatever the checks before it were answered, the warm
    request of every check goes over the transport the first one made, which
    keeps connections, is bound as the node is, was never closed, and is never
    the fresh transport of the cold request. *)
Theorem one_connection_kept quote b cs t answer o :
  let c := run_checks quote cs New in
  Forall (fun x => o_Bind (snd x) = b) cs -> o_Bind o = b -> warm c = Some t ->
  warm_transport o c = t /\ cold_transport o c <> t /\ DisableKeepAlives t = false /\ tp_bind t = b /\ closed c = []
  /\ warm (snd (Check quote answer o c)) = Some t.
Proof.
  cbn zeta. intros Hcs Ho Ht.
  assert (bound_to b (run_checks quote cs New)) as Hc.
  { apply run_checks_bound; [done|]. split; [split; [constructor|done]|]. split; [done|by left]. }
  destruct (Check_bound quote answer b o _ Ho Hc) as [_ Hsame]. destruct (Hsame t Ht) as [H1 H2]. destruct Hc as ([_ Hk] & Hcl & Hkey).
  rewrite Ht in Hk, Hkey. destruct Hk as (Hd & Hbd & Hid & _). split_and!; try done.
  - intros E. unfold cold_transport in E. cbn in E. rewrite <- E in Hd. done.
  - destruct Hkey as [|<-]; done.
Qed.

(** ** Witnesses *)

Definition demo_spec : list rng := [mkRng 200 299; mkRng 301 301; mkRng 404 404].

Lemma status_spec_roundtrip_witness :
  demo_spec <> [] /\ exists expect, parseStatusSpec (fun s => s) "200-299,301,404" = Ok expect
  /\ forall code, expect code = true <-> exists r, r ∈ demo_spec /\ lo r <= code <= hi r.
Proof.
  split; [done|]. apply (status_spec_roundtrip (fun s => s) demo_spec); [done|].
  repeat constructor; cbn; lia.
Defined.

Definition demo_reply (code : Z) : http_reply :=
  mkReply code (mkTrace (Some (0, 1000000)) (Some (1000000, 3000000)) None (Some 4000000)) 120 0 5000000.
Definition demo_answer (t : transport) (method url : string) : result string http_reply := Ok (demo_reply (if DisableKeepAlives t then 200 else 204)).
Definition demo_options (spec : string) : Options :=
  mkOptions "example.org" second "p1" "" 1 [("expect_status", VString spec)] (mkBinding None "eth0").

Example demo_check_up : r_Ok (fst (Check (fun s => s) demo_answer (demo_options " 200 - 204 ,") New)) = true.
Proof. by vm_compute. Qed.
Example demo_check_down : r_Error (fst (Check (fun s => s) demo_answer (demo_options "200") New)) = "http 204, expected 200".
Proof. by vm_compute. Qed.

Lemma one_connection_kept_witness :
  let c := run_checks (fun s => s) [(demo_answer, demo_options "200"); (demo_answer, demo_options "")] New in
  warm_transport (demo_options "") c = mkTransport 1 false (mkBinding None "eth0").
Proof.
  apply (one_connection_kept (fun s => s) (mkBinding None "eth0") [(demo_answer, demo_options "200"); (demo_answer, demo_options "")]
           (mkTransport 1 false (mkBinding None "eth0")) demo_answer (demo_options "")).
  - repeat constructor.
  - done.
  - by vm_compute.
Defined.
