(* ===== verification/Fetch.v ===== *)
(** * The fetch check

    [internal/checks/fetch/fetch.go] and [parse.go]: one request, and for each
    entry of ["fields"] a pipeline of parsers over the response's body.  The
    request's answer comes from a world; [encoding/json], [regexp] and the jq
    engine are arguments.  Base64 is [GoText]'s. *)

From Stdlib Require Import ZArith Lia List Bool Ascii String SpecFloat.
From stdpp Require Import base tactics gmap strings list pretty.
From S2P Require Import Prelude GoStrings GoText Netbind Wire Checks Checker.

Open Scope string_scope.
Open Scope list_scope.
Open Scope Z_scope.

(** ** Field pipelines ([parse.go]) *)

Definition maxFields : Z := 20.
Definition maxStepsPerField : Z := 5.
Definition maxExprLen : Z := 500.

Record fieldStep : Type := mkFieldStep { Parser : string; Expr : string; Raw : bool }.

(** [[]byte], or what a decoder produced. *)
Inductive value : Type := VBytes (b : string) | VAny (v : any).

(** The first output of a query: none, an error, or a value. *)
Inductive jq_output : Type := NoOutput | JqError (e : string) | JqValue (v : any).

Definition len (s : string) : Z := Z.of_nat (String.length s).
Definition string_field (m : params) (key : string) : string := default "" (as_string (obj_get m key)).

Section parse.
Context (quote : string -> string) (json_marshal : any -> result string string) (json_unmarshal : string -> result string any)
        (jq_compile : string -> result string (any -> jq_output)) (re_compile : string -> result string (string -> option (list string))).

Definition decodeStep (m : params) : result string fieldStep :=
  let parser := string_field m "parser" in
  if decide (parser ∈ ["base64"; "jq"; "regex"]) then
    let expr := string_field m "expr" in
    if maxExprLen <? len expr then Err ("expr exceeds " +:+ pretty maxExprLen +:+ " characters")
    else Ok (mkFieldStep parser expr (default false (as_bool (obj_get m "raw"))))
  else if decide (parser = "") then Err ("missing " +:+ dq +:+ "parser" +:+ dq)
  else Err ("unsupported parser " +:+ quote parser +:+ " -- expected base64, jq, or regex").

Fixpoint decode_steps (i : Z) (l : list any) : result string (list fieldStep) :=
  match l with
  | [] => Ok []
  | VObject m :: rest => let* s := decodeStep m in let* ss := decode_steps (i + 1) rest in Ok (s :: ss)
  | _ :: _ => Err ("step " +:+ pretty i +:+ " must be an object")
  end.

Definition parseFieldSteps (raw : any) : result string (list fieldStep) :=
  match raw with
  | VObject m => let* s := decodeStep m in Ok [s]
  | VArray l =>
      if (length l =? 0)%nat then Err "empty step chain"
      else if maxStepsPerField <? Z.of_nat (length l) then Err ("chain exceeds " +:+ pretty maxStepsPerField +:+ " steps")
      else decode_steps 0 l
  | _ => Err "must be an object or array of objects"
  end.

Definition toBytes (v : value) : result string string :=
  match v with
  | VBytes b => Ok b
  | VAny (VString s) => Ok s
  | VAny v => json_marshal v
  end.

(** The first variant that decodes. *)
Definition applyBase64 (v : value) : result string value :=
  let* b := toBytes v in
  match head (omap (fun enc => DecodeString enc (trim_space b)) variants) with
  | Some decoded => Ok (VBytes decoded)
  | None => Err "not valid base64"
  end.

Definition applyJQ (expr : string) (raw : bool) (v : value) : result string value :=
  if decide (expr = "") then Err ("missing " +:+ dq +:+ "expr" +:+ dq)
  else
    let* b := toBytes v in
    let* input := if raw then Ok (VString b)
                  else match json_unmarshal b with Ok x => Ok x | Err e => Err ("input isn't valid JSON: " +:+ e) end in
    match jq_compile expr with
    | Err e => Err ("invalid expr: " +:+ e)
    | Ok run =>
        match run input with
        | NoOutput => Err "produced no output"
        | JqError e => Err e
        | JqValue VNil => Err "produced null"
        | JqValue v => Ok (VAny v)
        end
    end.

Definition applyRegex (expr : string) (v : value) : result string value :=
  if decide (expr = "") then Err ("missing " +:+ dq +:+ "expr" +:+ dq)
  else
    let* b := toBytes v in
    match re_compile expr with
    | Err e => Err ("invalid expr: " +:+ e)
    | Ok find =>
        match find b with
        | None => Err "no match"
        | Some (_ :: group :: _) => Ok (VAny (VString group))
        | Some (whole :: _) => Ok (VAny (VString whole))
        | Some [] => Err "no match"
        end
    end.

Definition runStep (step : fieldStep) (v : value) : result string value :=
  if decide (Parser step = "base64") then applyBase64 v
  else if decide (Parser step = "jq") then applyJQ (Expr step) (Raw step) v
  else if decide (Parser step = "regex") then applyRegex (Expr step) v
  else Err ("unsupported parser " +:+ quote (Parser step)).

Definition valueForField (v : value) : any := match v with VBytes b => VString b | VAny v => v end.

Fixpoint run_steps (steps : list fieldStep) (v : value) : result string value :=
  match steps with
  | [] => Ok v
  | s :: rest => match runStep s v with Ok v => run_steps rest v | Err e => Err (Parser s +:+ ": " +:+ e) end
  end.

Definition runPipeline (steps : list fieldStep) (body : string) : result string any :=
  let* v := run_steps steps (VBytes body) in Ok (valueForField v).

(** ** The request ([fetch.go]) *)

Definition defaultMaxBodyBytes : Z := 2 * 1024 * 1024.
Definition hardMaxBodyBytes : Z := 10 * 1024 * 1024.
Definition maxHeaders : Z := 20.
Definition allowedMethods : list string := ["GET"; "POST"; "PUT"; "PATCH"; "DELETE"; "HEAD"].

Fixpoint string_values (m : params) : result string (list (string * string)) :=
  match m with
  | [] => Ok []
  | (k, VString s) :: rest => let* hs := string_values rest in Ok ((k, s) :: hs)
  | (k, _) :: _ => Err (quote k +:+ " must be a string")
  end.

Definition parseHeaders (raw : any) : result string (list (string * string)) :=
  match raw with
  | VNil => Ok []
  | VObject m =>
      if maxHeaders <? Z.of_nat (length m) then Err ("at most " +:+ pretty maxHeaders +:+ " allowed, got " +:+ pretty (Z.of_nat (length m)))
      else string_values m
  | _ => Err "must be an object"
  end.

Record fetch_request : Type := mkFetch { fq_method : string; fq_url : string; fq_headers : list (string * string); fq_body : string }.

(** A body that ends, or breaks off, after its bytes. *)
Record fetch_reply : Type := mkFetched { fr_code : Z; fr_ttfb : float64; fr_bytes : string; fr_broken : option string }.

Context (answer : fetch_request -> result string fetch_reply).

(** [io.ReadAll] of at most [maxBody + 1] bytes. *)
Definition read_body (maxBody : Z) (r : fetch_reply) : result string string :=
  if len (fr_bytes r) <=? maxBody then match fr_broken r with Some e => Err e | None => Ok (fr_bytes r) end
  else Ok (String.substring 0 (Z.to_nat maxBody) (fr_bytes r)).

Definition do (target method : string) (headers : list (string * string)) (body : string) (maxBody : Z)
    : result string (string * Z * float64) :=
  let url := if contains "://" target then target else "https://" +:+ target in
  let* r := answer (mkFetch method url headers body) in
  let* b := read_body maxBody r in
  Ok (b, fr_code r, fr_ttfb r).

(** [None]: the parameter is refused. *)
Definition max_body (ps : params) : option Z :=
  let raw := trim_space (Param ps "max_body_bytes" "") in
  if decide (raw = "") then Some defaultMaxBodyBytes
  else match Atoi raw with Some n => if n <=? 0 then None else Some (Z.min n hardMaxBodyBytes) | None => None end.

(** [extra[key] = v]. *)
Definition set_key (key : string) (v : any) (m : params) : params :=
  (key, v) :: List.filter (fun kv => negb (bool_decide (fst kv = key))) m.

Fixpoint extract (fields : params) (body : string) (extra : params) : params :=
  match fields with
  | [] => extra
  | (name, raw) :: rest =>
      match (let* steps := parseFieldSteps raw in runPipeline steps body) with
      | Ok v => extract rest body (set_key name v extra)
      | Err _ => extract rest body extra
      end
  end.

(** [fields]: the entries in the order the loop over the map meets them. *)
Definition Check (order : params -> params) (elapsed : duration) (o : Options) : CheckResult :=
  let fail := Fail_ "fetch" (o_Target o) (o_Seq o) in
  let method := to_upper (Param (o_Params o) "method" "GET") in
  if negb (bool_decide (method ∈ allowedMethods)) then fail ("unsupported method " +:+ quote method +:+ " -- expected GET, POST, PUT, PATCH, DELETE, or HEAD")
  else
    match parseHeaders (obj_get (o_Params o) "headers") with
    | Err e => fail ("headers: " +:+ e)
    | Ok headers =>
        match max_body (o_Params o) with
        | None => Invalid "fetch" (o_Target o) (o_Seq o) "max_body_bytes must be a positive integer"
        | Some maxBody =>
            let fields := default [] (as_object (obj_get (o_Params o) "fields")) in
            if maxFields <? Z.of_nat (length fields)
            then fail ("fields: at most " +:+ pretty maxFields +:+ " allowed, got " +:+ pretty (Z.of_nat (length fields)))
            else
              match do (o_Target o) method headers (Param (o_Params o) "body" "") maxBody with
              | Err e => fail e
              | Ok (body, code, ttfb) =>
                  let extra := extract (order fields) body [] in
                  let extra := set_key "bytes" (VInt (len body)) (set_key "http_code" (VInt code) (set_key "ttfb_ms" (VFloat ttfb) extra)) in
                  Ok_ "fetch" (o_Target o) (o_Seq o) elapsed extra
              end
        end
    end.
End parse.

(** ** Base64, whatever its conventions *)

Lemma head_omap_agree {A B} (f : A -> option B) (l : list A) a b :
  a ∈ l -> f a = Some b -> (forall x y, x ∈ l -> f x = Some y -> y = b) -> head (omap f l) = Some b.
Proof.
  intros Ha Hf Hall. destruct (head (omap f l)) as [y|] eqn:E.
  - apply head_omap_Some in E as (x & Hx & E). f_equal. by eapply Hall.
  - rewrite head_omap_None in E. by rewrite (E a Ha) in Hf.
Qed.

(** A text of base64, padded or not, in either alphabet, broken into lines
    anywhere and surrounded by blanks, decodes to the bytes that were encoded. *)
Theorem base64_roundtrip json_marshal enc data text :
  enc ∈ variants -> drop_breaks (trim_space text) = encode enc data ->
  applyBase64 json_marshal (VBytes text) = Ok (VBytes data).
Proof.
  intros He Ht. unfold applyBase64. cbn [toBytes res_bind].
  rewrite (head_omap_agree _ variants enc data); [done|done| |]; unfold DecodeString; rewrite Ht.
  - by apply quanta_encode.
  - intros e y Hx Hy. eapply quanta_agree; [exact Hx|exact He|exact Hy|by apply quanta_encode].
Qed.

(** ** Fields *)

Lemma obj_find_set key key' v m : obj_find (set_key key v m) key' = if decide (key = key') then Some v else obj_find m key'.
Proof.
  unfold set_key. cbn [obj_find]. destruct (decide (key = key')) as [|Hne]; [done|].
  induction m as [|[k x] m IH]; [done|]. cbn [List.filter fst obj_find]. destruct (bool_decide (k = key)) eqn:E; cbn [negb].
  - apply bool_decide_eq_true in E as ->. by rewrite decide_False.
  - cbn [obj_find]. by destruct (decide (k = key')).
Qed.

Lemma obj_find_Some m k v : obj_find m k = Some v -> (k, v) ∈ m.
Proof.
  induction m as [|[k' v'] m IH]; [done|]. cbn. destruct (decide (k' = k)) as [->|].
  - intros [= ->]. by left.
  - intros H. right. by apply IH.
Qed.

Lemma obj_find_In m k v : NoDup (map fst m) -> (k, v) ∈ m -> obj_find m k = Some v.
Proof.
  induction m as [|[k' v'] m IH]; cbn [map fst]; intros Hnd Hin; [by apply elem_of_nil in Hin|].
  apply NoDup_cons in Hnd as [Hk Hnd]. cbn. apply elem_of_cons in Hin as [[= <- <-]|Hin]; [by rewrite decide_True|].
  rewrite decide_False; [by apply IH|]. intros ->. apply Hk, list_elem_of_In, in_map_iff. exists (k, v). split; [done|]. by apply list_elem_of_In.
Qed.

Lemma obj_find_perm m m' k : NoDup (map fst m) -> m' ≡ₚ m -> obj_find m' k = obj_find m k.
Proof.
  intros Hnd Hp. assert (NoDup (map fst m')) as Hnd' by (by rewrite (Permutation_map fst Hp)).
  destruct (obj_find m k) as [v|] eqn:E.
  - apply obj_find_In; [done|]. rewrite Hp. by apply obj_find_Some.
  - destruct (obj_find m' k) as [v|] eqn:E'; [|done]. apply obj_find_Some in E'. rewrite Hp in E'. apply obj_find_In in E'; [|done]. by rewrite E in E'.
Qed.

Section fields.
Context (quote : string -> string) (json_marshal : any -> result string string) (json_unmarshal : string -> result string any)
        (jq_compile : string -> result string (any -> jq_output)) (re_compile : string -> result string (string -> option (list string)))
        (answer : fetch_request -> result string fetch_reply).

Notation extract' := (extract quote json_marshal json_unmarshal jq_compile re_compile).
Notation Check' := (Check quote json_marshal json_unmarshal jq_compile re_compile answer).

(** One field's value on its own. *)
Definition field_value (raw : any) (body : string) : result string any :=
  let* steps := parseFieldSteps quote raw in runPipeline quote json_marshal json_unmarshal jq_compile re_compile steps body.

Lemma extract_find fields body extra name :
  NoDup (map fst fields) ->
  obj_find (extract' fields body extra) name
  = match obj_find fields name with
    | Some raw => match field_value raw body with Ok v => Some v | Err _ => obj_find extra name end
    | None => obj_find extra name
    end.
Proof.
  revert extra. induction fields as [|[k raw] fields IH]; intros extra Hnd; [done|]. cbn [map fst] in Hnd. apply NoDup_cons in Hnd as [Hk Hnd].
  assert (obj_find fields k = None) as Hnone.
  { destruct (obj_find fields k) as [v|] eqn:E; [|done]. apply obj_find_Some in E. destruct Hk. apply list_elem_of_In, in_map_iff. exists (k, v). by rewrite <- list_elem_of_In. }
  cbn [extract obj_find]. fold (field_value raw body). destruct (field_value raw body) as [v|e] eqn:Ev; rewrite IH by done.
  - rewrite obj_find_set. destruct (decide (k = name)) as [<-|Hne]; [by rewrite Hnone, Ev|done].
  - destruct (decide (k = name)) as [<-|Hne]; [by rewrite Hnone, Ev|done].
Qed.

(** What the options ask for, when [Check] lets the request go out. *)
Definition request_of (o : Options) : option (fetch_request * Z * params) :=
  let method := to_upper (Param (o_Params o) "method" "GET") in
  if negb (bool_decide (method ∈ allowedMethods)) then None
  else
    match parseHeaders quote (obj_get (o_Params o) "headers"), max_body (o_Params o) with
    | Ok headers, Some maxBody =>
        let fields := default [] (as_object (obj_get (o_Params o) "fields")) in
        if maxFields <? Z.of_nat (length fields) then None
        else Some (mkFetch method (if contains "://" (o_Target o) then o_Target o else "https://" +:+ o_Target o) headers (Param (o_Params o) "body" ""),
                   maxBody, fields)
    | _, _ => None
    end.

(** The body a check keeps of an answer. *)
Definition fetched (o : Options) : option (string * fetch_reply * params) :=
  match request_of o with
  | Some (q, maxBody, fields) =>
      match answer q with
      | Ok r => match read_body maxBody r with Ok b => Some (b, r, fields) | Err _ => None end
      | Err _ => None
      end
  | None => None
  end.

Lemma Check_fetched order elapsed o b r fields :
  fetched o = Some (b, r, fields) ->
  Check' order elapsed o
  = Ok_ "fetch" (o_Target o) (o_Seq o) elapsed
      (set_key "bytes" (VInt (len b)) (set_key "http_code" (VInt (fr_code r)) (set_key "ttfb_ms" (VFloat (fr_ttfb r)) (extract' (order fields) b [])))).
Proof.
  unfold fetched, request_of, Check, do. destruct (negb _); [done|]. destruct (parseHeaders _ _) as [hs|]; [|done].
  destruct (max_body _) as [n|]; [|done]. destruct (maxFields <? _); [done|].
  destruct (answer _) as [r'|]; [|done]. cbn [res_bind]. destruct (read_body n r') as [b'|]; [|done]. by intros [= -> -> ->].
Qed.

Lemma Check_not_fetched order elapsed o : fetched o = None -> r_Ok (Check' order elapsed o) = false.
Proof.
  unfold fetched, request_of, Check, do. destruct (negb _); [done|]. destruct (parseHeaders _ _) as [hs|]; [|done].
  destruct (max_body _) as [n|]; [|done]. destruct (maxFields <? _); [done|].
  destruct (answer _) as [r'|]; [|done]. cbn [res_bind]. by destruct (read_body n r') as [b'|].
Qed.

Definition builtins : list string := ["bytes"; "http_code"; "ttfb_ms"].

(** C26: Every field stands on its own.  A check is up exactly when its request was
    allowed to go out and its body was read; the fields decide nothing about
    that.  In what it then reports, the three built-in figures are the
    request's whatever a field of the same name says, every other field is its
    own pipeline's value or absent, and the order of the map is immaterial. *)
Theorem fields_stand_alone order elapsed o :
  (forall l, order l ≡ₚ l) -> (forall q n fs, request_of o = Some (q, n, fs) -> NoDup (map fst fs)) ->
  (r_Ok (Check' order elapsed o) = true <-> exists x, fetched o = Some x)
  /\ forall b r fields, fetched o = Some (b, r, fields) ->
     let extra := Extra (Check' order elapsed o) in
     obj_find extra "bytes" = Some (VInt (len b)) /\ obj_find extra "http_code" = Some (VInt (fr_code r))
     /\ obj_find extra "ttfb_ms" = Some (VFloat (fr_ttfb r))
     /\ forall name, name ∉ builtins ->
        obj_find extra name = match obj_find fields name with
                              | Some raw => match field_value raw b with Ok v => Some v | Err _ => None end
                              | None => None
                              end.
Proof.
  intros Ho Hnd. split.
  { destruct (fetched o) as [[[b r] fs]|] eqn:E; [|rewrite Check_not_fetched by done; by split; [|intros [? ?]]].
    rewrite (Check_fetched _ _ _ _ _ _ E). split; [by eexists|done]. }
  intros b r fields E. cbn zeta. rewrite (Check_fetched _ _ _ _ _ _ E). cbn [Ok_ Extra]. rewrite !obj_find_set. split_and!; [done..|].
  intros name Hname. rewrite !obj_find_set, !decide_False by (intros <-; apply Hname; set_solver).
  assert (NoDup (map fst fields)) as Hf.
  { unfold fetched in E. destruct (request_of o) as [[[q n] fs]|] eqn:Er; [|done]. destruct (answer q); [|done]. destruct (read_body n _); [|done].
    injection E as <- <- <-. by eapply Hnd. }
  rewrite extract_find by (by rewrite (Permutation_map fst (Ho fields))). rewrite (obj_find_perm fields) by done. by destruct (obj_find fields name).
Qed.

(** ** Bounds *)

Lemma string_values_length m hs : string_values quote m = Ok hs -> length hs = length m.
Proof.
  revert hs. induction m as [|[k v] m IH]; intros hs; cbn [string_values]; [by intros [= <-]|]. destruct v; try done.
  intros (hs' & E & [= <-])%res_bind_Ok. cbn. by rewrite (IH hs').
Qed.

Lemma substring_length n s : (n <= String.length s)%nat -> String.length (String.substring 0 n s) = n.
Proof. revert n. induction s as [|c s IH]; intros [|n] H; cbn in *; try lia; [done..|]. rewrite IH; lia. Qed.

Lemma max_body_bounds ps n : max_body ps = Some n -> 0 < n <= hardMaxBodyBytes.
Proof.
  unfold max_body. destruct (decide _); [intros [= <-]; unfold defaultMaxBodyBytes, hardMaxBodyBytes; lia|].
  destruct (Atoi _) as [k|]; [|done]. destruct (k <=? 0) eqn:E; [done|]. intros [= <-]. apply Z.leb_gt in E. unfold hardMaxBodyBytes. lia.
Qed.

(** What leaves the node and what it keeps is bounded: a request has one of the
    six methods and at most twenty headers; a body is cut at the limit asked
    for, which is at most 10 MiB, and is otherwise the whole body; a field is
    at most five steps of at most five hundred bytes of expression each, and
    there are at most twenty fields. *)
Theorem fetch_bounded o q maxBody fields :
  request_of o = Some (q, maxBody, fields) ->
  fq_method q ∈ allowedMethods /\ (Z.of_nat (length (fq_headers q)) <= maxHeaders)
  /\ 0 < maxBody <= hardMaxBodyBytes /\ Z.of_nat (length fields) <= maxFields
  /\ (forall r b, read_body maxBody r = Ok b ->
        len b <= maxBody /\ exists rest, fr_bytes r = b +:+ rest /\ (rest <> "" -> len b = maxBody))
  /\ (forall raw steps, parseFieldSteps quote raw = Ok steps ->
        0 < Z.of_nat (length steps) <= maxStepsPerField /\ Forall (fun s => len (Expr s) <= maxExprLen) steps).
Proof.
  unfold request_of. destruct (bool_decide _) eqn:Em; [|done]. cbn [negb]. apply bool_decide_eq_true in Em.
  destruct (parseHeaders _ _) as [hs|] eqn:Eh; [|done]. destruct (max_body _) as [n|] eqn:En; [|done].
  destruct (maxFields <? _) eqn:Ef; [done|]. intros [= <- <- <-]. apply Z.ltb_ge in Ef. cbn [fq_method fq_headers]. split; [done|]. split.
  { unfold parseHeaders in Eh. destruct (obj_get _ _) as [| | | | | | |m]; try done; [by injection Eh as <-|].
    destruct (maxHeaders <? _) eqn:Ek; [done|]. apply Z.ltb_ge in Ek. by rewrite (string_values_length m). }
  split; [by eapply max_body_bounds|]. split; [done|]. split.
  - intros r b. unfold read_body, len. apply max_body_bounds in En. destruct (_ <=? n) eqn:El.
    + destruct (fr_broken r); [done|]. intros [= <-]. apply Z.leb_le in El. split; [done|]. exists "". by rewrite append_nil_r.
    + intros [= <-]. apply Z.leb_gt in El. rewrite substring_length by lia. split; [lia|].
      exists (String.substring (Z.to_nat n) (String.length (fr_bytes r) - Z.to_nat n) (fr_bytes r)). split; [|lia].
      assert (forall k s, (k <= String.length s)%nat -> s = String.substring 0 k s +:+ String.substring k (String.length s - k) s) as Hcut.
      { clear. intros k s. revert k. induction s as [|c s IH]; intros [|k] Hk; cbn [String.length String.substring] in *; try lia.
        - done.
        - rewrite app_empty. f_equal. destruct s; [done|]. cbn [String.length Nat.sub] in *. specialize (IH 0%nat ltac:(lia)). rewrite Nat.sub_0_r in IH. done.
        - rewrite app_String. f_equal. apply IH. lia. }
      apply Hcut. lia.
  - intros raw steps. assert (forall m s, decodeStep quote m = Ok s -> len (Expr s) <= maxExprLen) as Hs.
    { intros m s. unfold decodeStep. case_decide; [|by case_decide]. destruct (maxExprLen <? _) eqn:Ex; [done|]. intros [= <-]. apply Z.ltb_ge in Ex. done. }
    unfold parseFieldSteps. destruct raw as [| | | | | |l|m]; try done.
    + destruct (length l =? 0)%nat eqn:E0; [done|]. destruct (maxStepsPerField <? _) eqn:E5; [done|]. apply Nat.eqb_neq in E0. apply Z.ltb_ge in E5.
      intros Hd. assert (forall l i steps, decode_steps quote i l = Ok steps -> length steps = length l /\ Forall (fun s => len (Expr s) <= maxExprLen) steps) as Hall.
      { clear - Hs. induction l as [|v l IH]; intros i steps; cbn [decode_steps]; [by intros [= <-]|]. destruct v; try done.
        intros (s & E1 & (ss & E2 & [= <-])%res_bind_Ok)%res_bind_Ok. apply IH in E2 as [El Hss]. split; [cbn; by rewrite El|]. constructor; [by eapply Hs|done]. }
      apply Hall in Hd as [El Hd]. split; [lia|done].
    + intros (s & E & [= <-])%res_bind_Ok. split; [cbn; unfold maxStepsPerField; lia|]. repeat constructor. by eapply Hs.
Qed.
End fields.

(** A field is reported or absent, never null. *)
Lemma field_never_null quote json_marshal json_unmarshal jq_compile re_compile raw body v :
  field_value quote json_marshal json_unmarshal jq_compile re_compile raw body = Ok v -> v <> VNil.
Proof.
  unfold field_value, runPipeline. intros (steps & _ & (w & Hw & [= <-])%res_bind_Ok)%res_bind_Ok.
  assert (forall steps v w, (v <> VAny VNil) -> run_steps quote json_marshal json_unmarshal jq_compile re_compile steps v = Ok w -> w <> VAny VNil) as H.
  { clear. induction steps as [|s steps IH]; intros v w Hv; cbn [run_steps]; [by intros [= <-]|].
    destruct (runStep _ _ _ _ _ s v) as [u|] eqn:E; [|done]. apply IH. unfold runStep in E.
    repeat case_decide; [| | |done].
    - unfold applyBase64 in E. apply res_bind_Ok in E as (b & _ & E). by destruct (head _); [injection E as <-|].
    - unfold applyJQ in E. case_decide; [done|]. apply res_bind_Ok in E as (b & _ & E). apply res_bind_Ok in E as (i & _ & E).
      destruct (jq_compile _) as [run|]; [|done]. destruct (run i) as [| |x]; [done|done|]. destruct x; try done; by injection E as <-.
    - unfold applyRegex in E. case_decide; [done|]. apply res_bind_Ok in E as (b & _ & E). destruct (re_compile _) as [find|]; [|done].
      destruct (find b) as [[|x [|y l]]|]; try done; by injection E as <-. }
  apply H in Hw; [|done]. by destruct w as [b|[]].
Qed.

(** ** Witnesses *)

Definition demo_text : string := trim_space "  SGVsbG8s" +:+ bytes [13; 10]%nat +:+ "IHdvcmxk" +:+ bytes [10]%nat.

Lemma base64_roundtrip_witness :
  applyBase64 (fun _ => Err "no") (VBytes demo_text) = Ok (VBytes "Hello, world").
Proof.
  apply (base64_roundtrip (fun _ => Err "no") RawURLEncoding "Hello, world" demo_text).
  - apply list_elem_of_In. cbn. tauto.
  - by vm_compute.
Defined.

(** An engine that answers what its expression names, and a pattern that
    captures what follows an equals sign. *)
Definition demo_jq (expr : string) : result string (any -> jq_output) :=
  if decide (expr = "infinite") then Ok (fun _ => JqValue (VFloat (S754_infinity false)))
  else if decide (expr = "null") then Ok (fun _ => JqValue VNil)
  else if decide (expr = ".") then Ok JqValue else Err "unexpected token".
Definition demo_re (expr : string) : result string (string -> option (list string)) :=
  Ok (fun s => match cut "="%char s with Some (a, b) => Some [s; b] | None => None end).

Definition step_of (parser expr : string) (raw : bool) : any :=
  VObject [("parser", VString parser); ("expr", VString expr); ("raw", VBool raw)].

Definition demo_fields : params :=
  [("plain", VArray [step_of "base64" "" false; step_of "regex" "=(.*)" false]); ("bad", step_of "jq" "oops" true);
   ("nothing", step_of "jq" "null" true); ("bytes", step_of "jq" "." true)].

Definition demo_fetch (fields : params) : Options :=
  mkOptions "api.example.org/v1" second "p1" "" 1 [("method", VString "get"); ("fields", VObject fields)] (mkBinding None "").

Definition demo_server (q : fetch_request) : result string fetch_reply := Ok (mkFetched 200 (float_of_Z 3) "eD00Mg==" None).

Definition demo_check (fields : params) : CheckResult :=
  Check (fun s => s) (fun _ => Err "json") (fun _ => Err "json") demo_jq demo_re demo_server (fun l => l) millisecond (demo_fetch fields).

Lemma demo_request fields q n fs :
  NoDup (map fst fields) -> request_of (fun s => s) (demo_fetch fields) = Some (q, n, fs) -> NoDup (map fst fs).
Proof. intros Hn. unfold request_of. cbn -[maxFields Z.of_nat]. destruct (maxFields <? _); [done|]. by intros [= _ _ <-]. Qed.

Lemma fields_stand_alone_witness :
  r_Ok (demo_check demo_fields) = true
  /\ obj_find (Extra (demo_check demo_fields)) "bytes" = Some (VInt 8)
  /\ obj_find (Extra (demo_check demo_fields)) "plain" = Some (VString "42")
  /\ obj_find (Extra (demo_check demo_fields)) "bad" = None.
Proof.
  destruct (fields_stand_alone (fun s => s) (fun _ => Err "json") (fun _ => Err "json") demo_jq demo_re demo_server (fun l => l) millisecond
              (demo_fetch demo_fields) (fun l => Permutation_refl l)) as [H1 H2].
  - intros q n fs. apply demo_request. vm_compute. repeat (constructor; [set_solver|]). constructor.
  - destruct (H2 "eD00Mg==" (mkFetched 200 (float_of_Z 3) "eD00Mg==" None) demo_fields) as (Hb & _ & _ & Hf); [by vm_compute|].
    split; [apply H1; eexists; by vm_compute|]. split; [exact Hb|]. split.
    + refine (eq_trans (Hf "plain" _) _); [set_solver|by vm_compute].
    + refine (eq_trans (Hf "bad" _) _); [set_solver|by vm_compute].
Defined.

Lemma fetch_bounded_witness :
  exists q, request_of (fun s => s) (demo_fetch demo_fields) = Some (q, defaultMaxBodyBytes, demo_fields) /\ fq_method q ∈ allowedMethods.
Proof.
  eexists. split; [by vm_compute|].
  refine (proj1 (fetch_bounded (fun s => s) (demo_fetch demo_fields) _ defaultMaxBodyBytes demo_fields _)). by vm_compute.
Defined.
