(* ===== verification/FetchReport.v ===== *)
(** * What a fetched field does to a tick

    [fetch.go] puts a query's value into [Extra] as it is; [encoding/json]
    refuses NaN and the infinities.  On a node without a local store the tick's
    results are encoded together, for the spool and for the direct POST alike
    ([agent.go], [spool.go], [client.go]). *)

From Stdlib Require Import ZArith Lia List Bool Ascii String SpecFloat.
From stdpp Require Import base tactics gmap strings list.
From S2P Require Import Prelude Wire Cache DueProbes Triggers Sql Store StoreMaint Journal StoreWf StoreDemo.
From S2P Require Import ApiClient Delivery Spool Netbind Checks Tick Checker Fetch.

Open Scope string_scope.
Open Scope list_scope.
Open Scope Z_scope.

(** The server as the client reaches it: [PostResults] encodes before it sends. *)
Definition through_client (decode : string -> option ResultsResponse) (answer : nat -> list Result -> option http_answer)
    (k : nat) (rs : list Result) : option ResultsResponse :=
  match PostResults decode rs (answer k rs) with Ok r => Some r | Err _ => None end.

(** [client.go]'s condition and [spool.go]'s are the same. *)
Lemma unencodable_forallb rs r :
  r ∈ rs -> result_encodable r = false ->
  forallb result_encodable rs = false
  /\ forallb (fun r => json_encodable (VObject (Extra (res r))) && match LatencyMs (res r) with Some f => finite_float f | None => true end) rs = false.
Proof.
  intros Hin Hr. unfold result_encodable in Hr. split; apply not_true_iff_false; intros H; rewrite forallb_forall in H;
    apply list_elem_of_In in Hin; specialize (H r Hin); cbn beta in H; [unfold result_encodable in H|rewrite andb_comm in H]; congruence.
Qed.

Lemma through_client_refuses decode answer k rs r :
  r ∈ rs -> result_encodable r = false -> through_client decode answer k rs = None.
Proof.
  intros Hin Hr. destruct (unencodable_forallb rs r Hin Hr) as [_ H]. unfold through_client, PostResults, fetch, do_. by rewrite H.
Qed.

(** One result that cannot be encoded and the node without a local store loses
    the whole tick: nothing reaches the spool, nothing is answered, and the
    results are reported as not durable. *)
Lemma unencodable_loses_tick (e : world) decode answer results r a :
  e_server e = through_client decode answer -> db a = None ->
  r ∈ results -> result_encodable r = false ->
  fst (reportResults e results a) = false
  /\ db (snd (reportResults e results a)) = None /\ spool (snd (reportResults e results a)) = spool a.
Proof.
  intros He Hdb Hin Hr. pose proof (through_client_refuses decode answer (length (sent a)) results r Hin Hr) as Hpost.
  destruct (unencodable_forallb results r Hin Hr) as [Henc _].
  assert (results <> []) as Hne by (intros ->; by apply elem_of_nil in Hin).
  unfold reportResults. rewrite Hdb. unfold reportFallback. destruct (spool a) as [s|] eqn:Es.
  - unfold enqueue. destruct results as [|r0 rs]; [done|]. rewrite Henc. cbn [negb]. unfold post_directly, postResults. rewrite He.
    cbn [with_spool sent]. rewrite Hpost. cbn. by rewrite Hdb.
  - unfold post_directly, postResults. rewrite He, Hpost. cbn. by rewrite Hdb, Es.
Qed.

(** An unencodable entry makes its object unencodable. *)
Lemma json_encodable_entry m k v : obj_find m k = Some v -> json_encodable v = false -> json_encodable (VObject m) = false.
Proof.
  intros Hf%obj_find_Some Hv. cbn. apply not_true_iff_false. intros H. rewrite forallb_forall in H. apply list_elem_of_In in Hf.
  specialize (H _ Hf). cbn in H. congruence.
Qed.

(** C27: A probe whose request succeeds and whose query answers NaN or an infinity
    (jq's [infinite], or a product that overflows) is up, and its result costs
    a node without a local store the results of every probe of that tick. *)
Theorem one_field_loses_the_tick
    (quote : string -> string) json_marshal json_unmarshal jq_compile re_compile fetch_answer order elapsed
    (o : Options) b r fields name raw v (e : world) decode answer others run pid at_ a :
  let check := Fetch.Check quote json_marshal json_unmarshal jq_compile re_compile fetch_answer order elapsed o in
  let results := others ++ [mkResult run pid check at_] in
  (forall l, order l ≡ₚ l) -> NoDup (map fst fields) ->
  fetched quote fetch_answer o = Some (b, r, fields) ->
  name ∉ builtins -> obj_find fields name = Some raw ->
  field_value quote json_marshal json_unmarshal jq_compile re_compile raw b = Ok v -> json_encodable v = false ->
  e_server e = through_client decode answer -> db a = None ->
  r_Ok check = true /\ fst (reportResults e results a) = false
  /\ db (snd (reportResults e results a)) = None /\ spool (snd (reportResults e results a)) = spool a.
Proof.
  cbn zeta. intros Ho Hnd Hf Hname Hraw Hv Henc He Hdb.
  rewrite (Check_fetched quote json_marshal json_unmarshal jq_compile re_compile fetch_answer order elapsed o b r fields Hf). split; [done|].
  eapply (unencodable_loses_tick e decode answer); [done|done|apply elem_of_app; right; by left|].
  unfold result_encodable. cbn [res Extra Ok_ LatencyMs]. apply andb_false_iff. right.
  eapply (json_encodable_entry _ name v); [|done].
  rewrite !obj_find_set, !decide_False by (intros <-; apply Hname; set_solver).
  rewrite extract_find by (by rewrite (Permutation_map fst (Ho fields))).
  by rewrite (obj_find_perm fields), Hraw, Hv.
Qed.

(** ** Witness *)

Definition poison_fields : params := [("load", step_of "jq" "infinite" true)].

Definition bare_agent : agent := {|
  nodeID := "node"; limits := mkBounds 4 3 2; bind := mkBinding None ""; cache := newProbeCache;
  clock := Clock.mkClock 0; db := None; db_faults := []; spool := None; sent := [];
  retry := mkDelivery 0 zero_time; path_window := PathHealth.newPathHealth; deferredJobs := 0;
  monitor := newBindMonitor |}.

(** A server that accepts whatever it is sent. *)
Definition demo_decode (s : string) : option ResultsResponse := Some (mkResponse 1 0 [] "active").
Definition demo_post (k : nat) (rs : list Result) : option http_answer := Some (mkAnswer 200 "{}").
Definition reachable_env : world := {|
  e_server := through_client demo_decode demo_post; e_wall := unix_milli 100000; e_pages _ := unix_milli 100001;
  e_expired _ := false; e_selfTest := None; e_iter c := map_to_list (probes c); e_finish l := l;
  e_runID n := ""; e_burn := false; e_removable _ := true;
  e_listable := true; e_spoolFails := None; e_tmp := ".batch-1.tmp"; e_size := 10; e_nano := 1;
  e_hex := "00"; e_sentAt := "" |}.

Lemma one_field_loses_the_tick_witness :
  let results := [hd (mkResult "" "" (Fetch.demo_check poison_fields) None) demo_results; mkResult "run2" "p1" (Fetch.demo_check poison_fields) None] in
  r_Ok (Fetch.demo_check poison_fields) = true /\ fst (reportResults reachable_env results bare_agent) = false.
Proof.
  destruct (one_field_loses_the_tick (fun s => s) (fun _ => Err "json") (fun _ => Err "json") demo_jq demo_re demo_server (fun l => l) millisecond
              (demo_fetch poison_fields) "eD00Mg==" (mkFetched 200 (float_of_Z 3) "eD00Mg==" None) poison_fields "load" (step_of "jq" "infinite" true)
              (VFloat (S754_infinity false)) reachable_env demo_decode demo_post [hd (mkResult "" "" (Fetch.demo_check poison_fields) None) demo_results]
              "run2" "p1" None bare_agent) as (H1 & H2 & _).
  - reflexivity.
  - vm_compute. constructor; [set_solver|constructor].
  - by vm_compute.
  - set_solver.
  - reflexivity.
  - by vm_compute.
  - reflexivity.
  - reflexivity.
  - reflexivity.
  - split; [exact H1|exact H2].
Defined.
