(* ===== verification/CheckBudget.v ===== *)
(** * A check's time budget and the concurrency slots

    [runChecks] and [runCheck] of [internal/agent/agent.go] in time: when a
    check's context starts, when it gets a slot of the semaphore, and what is
    left of its budget then.  How long a batch takes and what a target needs
    to answer are arguments. *)

From Stdlib Require Import ZArith Lia List Bool Sorted.
From stdpp Require Import base tactics list.
From S2P Require Import Prelude.

Open Scope list_scope.
Open Scope Z_scope.

(** ** Checks at the semaphore *)

(** A goroutine of the singles loop: when its destination cleared, its
    [timeout_ms], and what its target needs to answer, [None] for a target that
    never does. *)
Record check : Type := mkCheck { cleared : time; budget : duration; needs : option duration }.

Inductive outcome : Type := Answered (elapsed : duration) | TimedOut.

(** [context.WithTimeout], made when the destination has cleared. *)
Definition deadline (c : check) : time := cleared c + budget c.

(** The check with a slot from [start] on: its outcome, and when it lets go. *)
Definition run_check (start : time) (c : check) : outcome * time :=
  match needs c with
  | Some t => if start + t <? deadline c then (Answered t, start + t) else (TimedOut, Z.max start (deadline c))
  | None => (TimedOut, Z.max start (deadline c))
  end.

(** When each slot is next free, soonest first. *)
Fixpoint release (t : time) (free : list time) : list time :=
  match free with
  | [] => [t]
  | f :: free' => if t <=? f then t :: free else f :: release t free'
  end.

(** The checks in the order they reach the semaphore.  Without a slot nothing
    ever runs. *)
Fixpoint run_singles (cs : list check) (free : list time) : list outcome :=
  match cs, free with
  | [], _ | _, [] => []
  | c :: cs, f :: free =>
      let '(o, until) := run_check (Z.max (cleared c) f) c in o :: run_singles cs (release until free)
  end.

(** The loop over the batches takes a slot before it goes on. *)
Fixpoint run_batches (bs : list duration) (now : time) (free : list time) : time * list time :=
  match bs, free with
  | [], _ | _, [] => (now, free)
  | b :: bs, f :: free => let start := Z.max now f in run_batches bs start (release (start + b) free)
  end.

(** A tick's checks: the batches' durations, then the single checks, whose
    destinations are asked for once the batches have their slots.  [wait] is
    what the gate takes for each. *)
Definition start_check (now : time) (w : duration * duration * option duration) : check :=
  let '(wait, timeout, needs) := w in mkCheck (now + wait) timeout needs.

Definition run_tick (concurrency : nat) (batches : list duration) (singles : list (duration * duration * option duration)) : list outcome :=
  let '(now, free) := run_batches batches 0 (replicate concurrency 0) in
  run_singles (map (start_check now) singles) free.

(** ** What the comments promise *)

(** A full budget of its own, from the moment the check starts to run. *)
Definition fresh (c : check) : outcome :=
  match needs c with Some t => if t <? budget c then Answered t else TimedOut | None => TimedOut end.

Lemma release_zero t n : 0 <= t -> release t (replicate n 0) = replicate n 0 ++ [t].
Proof.
  intros Ht. induction n as [|n IH]; [done|]. cbn. destruct (Z.leb_spec t 0); [|by rewrite IH].
  assert (t = 0) as -> by lia. clear. f_equal. induction n as [|n IH]; [done|]. cbn. by rewrite <- IH.
Qed.

Lemma release_length t free : length (release t free) = S (length free).
Proof. induction free as [|f free IH]; [done|]. cbn. destruct (t <=? f); cbn; by rewrite ?IH. Qed.

Lemma run_check_until start c : 0 <= start -> match needs c with Some t => 0 <= t | None => True end -> start <= snd (run_check start c).
Proof. intros Hs Hn. unfold run_check. destruct (needs c) as [t|]; [destruct (_ <? _)|]; cbn; lia. Qed.

Lemma release_front n t rest : 0 <= t -> exists rest', release t (replicate n 0 ++ rest) = replicate n 0 ++ rest' /\ length rest' = S (length rest).
Proof.
  intros Ht. induction n as [|n IH].
  - exists (release t rest). split; [done|]. apply release_length.
  - destruct IH as (rest' & E & Hl). cbn. destruct (Z.leb_spec t 0) as [H|H].
    + assert (t = 0) as -> by lia. exists (0 :: rest). split; [|done]. clear. f_equal. induction n as [|n IH]; [done|]. cbn. by rewrite <- IH.
    + exists rest'. by rewrite E.
Qed.

Lemma run_singles_fresh cs n rest :
  (length cs <= n)%nat ->
  Forall (fun c => 0 <= cleared c /\ match needs c with Some t => 0 <= t | None => True end) cs ->
  run_singles cs (replicate n 0 ++ rest) = map fresh cs.
Proof.
  revert n rest. induction cs as [|c cs IH]; intros n rest Hn Hcs; [by destruct n|].
  apply Forall_cons in Hcs as [[Hc Ht] Hcs]. destruct n as [|n]; [cbn in Hn; lia|]. cbn [replicate app run_singles map].
  rewrite Z.max_l by done. pose proof (run_check_until (cleared c) c Hc Ht) as Hu.
  assert (fst (run_check (cleared c) c) = fresh c) as Ho.
  { unfold run_check, fresh, deadline. destruct (needs c) as [t|]; [|done].
    assert (cleared c + t <? cleared c + budget c = (t <? budget c)) as -> by (destruct (Z.ltb_spec t (budget c)); [apply Z.ltb_lt|apply Z.ltb_ge]; lia).
    by destruct (t <? budget c). }
  destruct (run_check (cleared c) c) as [o until]. cbn [fst snd] in *. destruct (release_front n until rest) as (rest' & -> & _); [lia|].
  rewrite Ho. f_equal. apply IH; [cbn in Hn; lia|done].
Qed.

(** C17: A tick with no more checks than slots keeps the promise of [runCheck]'s
    comment: however long each destination took to clear, every check has its
    whole timeout to answer in. *)
Theorem enough_slots_fresh_budget n singles :
  (length singles <= n)%nat ->
  Forall (fun w => 0 <= fst (fst w) /\ match snd w with Some t => 0 <= t | None => True end) singles ->
  run_tick n [] singles = map (fun w => fresh (start_check 0 w)) singles.
Proof.
  intros Hn Hs. unfold run_tick. cbn [run_batches]. rewrite <- (app_nil_r (replicate n 0)), run_singles_fresh.
  - by rewrite map_map.
  - by rewrite length_map.
  - apply Forall_map. eapply Forall_impl; [exact Hs|]. intros [[wait timeout] t] [H1 H2]. cbn in *. by (split; [lia|]; destruct t).
Qed.

(** ** What the wait for a slot costs *)

(** Every slot busy past the check's deadline. *)
Lemma expired_at_start c cs f free :
  deadline c <= f -> match needs c with Some t => 0 <= t | None => True end ->
  run_singles (c :: cs) (f :: free) = TimedOut :: run_singles cs (release (Z.max (cleared c) f) free).
Proof.
  intros Hf Hn. cbn [run_singles]. unfold run_check. rewrite (Z.max_l (Z.max _ f)) by lia.
  destruct (needs c) as [t|]; [|done]. by rewrite (proj2 (Z.ltb_ge _ _)) by lia.
Qed.

Lemma release_ge b t free : b <= t -> Forall (fun f => b <= f) free -> Forall (fun f => b <= f) (release t free).
Proof.
  intros Ht. induction 1 as [|f free Hf Hfree IH]; cbn; [by repeat constructor|]. destruct (t <=? f); by repeat constructor.
Qed.

Lemma run_singles_expired b cs free :
  free <> [] -> Forall (fun f => b <= f) free ->
  Forall (fun c => deadline c <= b /\ match needs c with Some t => 0 <= t | None => True end) cs ->
  run_singles cs free = replicate (length cs) TimedOut.
Proof.
  revert free. induction cs as [|c cs IH]; intros free Hne Hfree Hcs; [by destruct free|]. destruct free as [|f free]; [done|].
  apply Forall_cons in Hfree as [Hf Hfree]. apply Forall_cons in Hcs as [[Hc Hn] Hcs].
  rewrite expired_at_start by (lia || done). cbn [length replicate]. f_equal. apply IH; [|by apply release_ge; [lia|]|done].
  intros E. apply (f_equal length) in E. by rewrite release_length in E.
Qed.

(** The dead targets' checks take one slot each, until their deadline. *)
Lemma run_singles_dead T k cs rest :
  0 <= T -> Forall (fun f => T <= f) rest ->
  exists rest', Forall (fun f => T <= f) rest' /\ length rest' = (k + length rest)%nat
  /\ run_singles (replicate k (mkCheck 0 T None) ++ cs) (replicate k 0 ++ rest) = replicate k TimedOut ++ run_singles cs rest'.
Proof.
  intros HT. revert rest. induction k as [|k IH]; intros rest Hrest; [by exists rest|].
  cbn [replicate app run_singles run_check needs cleared]. unfold deadline. cbn [cleared budget]. rewrite !Z.max_r by lia. rewrite Z.add_0_l.
  assert (exists rest1, release T (replicate k 0 ++ rest) = replicate k 0 ++ rest1 /\ Forall (fun f => T <= f) rest1 /\ length rest1 = S (length rest)) as (rest1 & -> & H1 & Hl).
  { clear IH. induction k as [|k IH].
    - exists (release T rest). split; [done|]. split; [by apply release_ge|apply release_length].
    - destruct IH as (r & E & Hr & Hl). cbn. destruct (Z.leb_spec T 0) as [H|H].
      + assert (T = 0) as -> by lia. exists (0 :: rest). split; [|split; [by constructor|done]]. clear. f_equal. induction k as [|k IH]; [done|]. cbn. by rewrite <- IH.
      + exists r. by rewrite E. }
  destruct (IH rest1 H1) as (r & Hr & Hlr & E). exists r. split; [done|]. split; [lia|]. by rewrite E.
Qed.

(** C16: The context starts before the wait for a slot, so the wait is taken from
    the budget.  When as many checks of targets that never answer as there are
    slots reach the semaphore first, every other check of the tick whose
    deadline is no later times out without having run, whatever its own target
    would have answered. *)
Theorem saturated_slots_starve n T others :
  0 <= T -> (0 < n)%nat ->
  Forall (fun w => fst (fst w) + snd (fst w) <= T /\ match snd w with Some t => 0 <= t | None => True end) others ->
  run_tick n [] (replicate n (0, T, None) ++ others) = replicate (n + length others) TimedOut.
Proof.
  intros HT Hn Ho. unfold run_tick. cbn [run_batches]. rewrite map_app. change (map (start_check 0)) with (fmap (M:=list) (start_check 0)). rewrite fmap_replicate. cbn [start_check]. rewrite Z.add_0_l.
  destruct (run_singles_dead T n (start_check 0 <$> others) [] HT (Forall_nil_2 _)) as (rest & Hr & Hl & E).
  rewrite app_nil_r in E. refine (eq_trans E _). clear E.
  rewrite (run_singles_expired T); [by rewrite length_fmap, <- replicate_add|intros ->; cbn in Hl; lia|done|].
  apply Forall_map. eapply Forall_impl; [exact Ho|]. intros [[wait timeout] t] [H1 H2]. unfold deadline. cbn in *. by (split; [lia|]; destruct t).
Qed.

(** A pooled batch holds its slot as long as it runs: with a single slot, every
    single check that shares a tick with a batch longer than its own deadline
    times out the same way. *)
Lemma batch_starves_singles b singles :
  0 <= b ->
  Forall (fun w => fst (fst w) + snd (fst w) <= b /\ match snd w with Some t => 0 <= t | None => True end) singles ->
  run_tick 1 [b] singles = replicate (length singles) TimedOut.
Proof.
  intros Hb Hs. unfold run_tick. cbn. rewrite (run_singles_expired b); [by rewrite length_map|done|by repeat constructor|].
  apply Forall_map. eapply Forall_impl; [exact Hs|]. intros [[wait timeout] t] [H1 H2]. unfold deadline. cbn in *. by (split; [lia|]; destruct t).
Qed.

(** ** Witnesses *)

Definition five : duration := 5 * second.

Lemma enough_slots_fresh_budget_witness :
  run_tick 2 [] [(12 * second, five, Some second); (0, five, None)] = [Answered second; TimedOut].
Proof.
  refine (eq_trans (enough_slots_fresh_budget 2 [(12 * second, five, Some second); (0, five, None)] _ _) _).
  - cbn. lia.
  - repeat (apply Forall_cons; split; [split; by vm_compute|]). apply Forall_nil_2.
  - by vm_compute.
Defined.

(** Four slots, four dead targets, and two that would answer in 20 ms. *)
Lemma saturated_slots_starve_witness :
  let healthy := [(0, five, Some (20 * millisecond)); (0, five, Some (20 * millisecond))] in
  run_tick 4 [] (replicate 4 (0, five, None) ++ healthy) = replicate 6 TimedOut
  /\ map (fun w => fresh (start_check 0 w)) healthy = [Answered (20 * millisecond); Answered (20 * millisecond)].
Proof.
  cbn zeta. split; [|by vm_compute].
  apply (saturated_slots_starve 4 five [(0, five, Some (20 * millisecond)); (0, five, Some (20 * millisecond))]).
  - unfold five, second. lia.
  - lia.
  - repeat (apply Forall_cons; split; [split; by vm_compute|]). apply Forall_nil_2.
Defined.
