(* ===== verification/Probers.v ===== *)
(** * The socket checks

    [internal/checks/proxycheck], [tcp], [udp] and [icmp].  What a dial, a
    handshake or a read answers, and how long it takes, comes from a world; a
    dial is made with the dialer, network and address of [netbind]. *)

From Stdlib Require Import ZArith Lia List Bool Ascii String SpecFloat.
From stdpp Require Import base tactics gmap strings list pretty.
From S2P Require Import Prelude GoStrings GoText Netbind Wire Checks Checker HttpCheck.

Open Scope string_scope.
Open Scope list_scope.
Open Scope Z_scope.

(** ** Proxies ([proxycheck.go]) *)

Module Proxy.

Definition defaultTestURL : string := "https://www.gstatic.com/generate_204".

(** Which hop an attempt goes through. *)
Inductive hop : Type :=
| Socks (auth : option (string * string))
| Forward (scheme : string) (user : option (string * string)).

(** What [test_url] answers through the hop, and how long the attempt takes. *)
Record answer : Type := mkAnswer { an_reply : result string (Z * duration); an_took : duration }.

(** [pickBest]. *)
Definition pickBest (cur : option float64) (v : float64) : option float64 :=
  match cur with None => Some v | Some c => if SFltb v c then Some v else Some c end.

Definition timedGet (a : answer) : result string float64 :=
  match an_reply a with
  | Err e => Err e
  | Ok (code, elapsed) =>
      if (code <? 200) || (300 <=? code) then Err ("test_url returned HTTP " +:+ pretty code) else Ok (ms elapsed)
  end.

Section check.
Context (quote : string -> string) (attempt : hop -> string -> duration -> answer).

Definition credentials (o : Options) : option (string * string) :=
  let username := Param (o_Params o) "username" "" in
  let password := Param (o_Params o) "password" "" in
  if decide (username = "" /\ password = "") then None else Some (username, password).

Definition attemptSOCKS5 (o : Options) (timeout : duration) : result string float64 * duration :=
  let a := attempt (Socks (credentials o)) (Param (o_Params o) "test_url" defaultTestURL) timeout in (timedGet a, an_took a).

Definition attemptHTTPProxy (o : Options) (timeout : duration) : result string float64 * duration :=
  let scheme := if decide (Param (o_Params o) "tls" "" = "true") then "https" else "http" in
  let a := attempt (Forward scheme (credentials o)) (Param (o_Params o) "test_url" defaultTestURL) timeout in (timedGet a, an_took a).

Record tally : Type := mkTally { t_extra : params; anyOk : bool; best : option float64; firstErr : option string }.

Definition note (key : string) (r : result string float64) (t : tally) : tally :=
  match r with
  | Ok latency => mkTally (t_extra t ++ [(key +:+ "_latency_ms", VFloat latency)]) true (pickBest (best t) latency) (firstErr t)
  | Err e => mkTally (t_extra t ++ [(key +:+ "_error", VString e)]) (anyOk t) (best t)
               (match firstErr t with None => Some e | some => some end)
  end.

(** The context of an attempt never outlives the check's own. *)
Definition attempt_budget (o : Options) (dual : bool) (now : duration) : duration :=
  Z.min (if dual then o_Timeout o ÷ 2 else o_Timeout o) (o_Timeout o - now).

(** The answer, and when the check ends. *)
Definition Check (o : Options) : CheckResult * duration :=
  let protocol := Param (o_Params o) "protocol" "" in
  if negb (bool_decide (protocol = "")) && negb (bool_decide (protocol = "socks5")) && negb (bool_decide (protocol = "http"))
  then (Invalid "proxy" (o_Target o) (o_Seq o) ("protocol: expected " +:+ dq +:+ "socks5" +:+ dq +:+ " or " +:+ dq +:+ "http" +:+ dq +:+ ", got " +:+ quote protocol), 0)
  else
    let dual := bool_decide (protocol = "") in
    let t := mkTally [] false None None in
    let '(t, now) :=
      if dual || bool_decide (protocol = "socks5")
      then let '(r, took) := attemptSOCKS5 o (attempt_budget o dual 0) in (note "socks5" r t, took) else (t, 0) in
    let '(t, now) :=
      if dual || bool_decide (protocol = "http")
      then let '(r, took) := attemptHTTPProxy o (attempt_budget o dual now) in (note "http" r t, now + took) else (t, now) in
    (if anyOk t then mkCheckResult false true "proxy" (o_Target o) (o_Seq o) (best t) "" "" (t_extra t)
     else mkCheckResult false false "proxy" (o_Target o) (o_Seq o) None (default "proxy check failed" (firstErr t)) "" (t_extra t), now).

(** *** What a check answers *)

(** The protocols the options ask for, in the order they are tried. *)
Definition wanted (o : Options) : list string :=
  let protocol := Param (o_Params o) "protocol" "" in
  if decide (protocol = "") then ["socks5"; "http"] else if decide (protocol ∈ ["socks5"; "http"]) then [protocol] else [].

(** An attempt at a protocol. *)
Definition try_ (o : Options) (p : string) (timeout : duration) : result string float64 * duration :=
  if decide (p = "socks5") then attemptSOCKS5 o timeout else attemptHTTPProxy o timeout.

(** The attempts of a check, each with the budget it is given. *)
Fixpoint attempts (o : Options) (ps : list string) (now : duration) : list (string * duration * (result string float64 * duration)) :=
  match ps with
  | [] => []
  | p :: rest =>
      let b := attempt_budget o (bool_decide (Param (o_Params o) "protocol" "" = "")) now in
      let r := try_ o p b in (p, b, r) :: attempts o rest (now + snd r)
  end.

Definition tally_of (l : list (string * duration * (result string float64 * duration))) (t : tally) : tally :=
  fold_left (fun t x => note (fst (fst x)) (fst (snd x)) t) l t.

Lemma Check_attempts o :
  Check o = match wanted o with
            | [] => (Invalid "proxy" (o_Target o) (o_Seq o) ("protocol: expected " +:+ dq +:+ "socks5" +:+ dq +:+ " or " +:+ dq +:+ "http" +:+ dq +:+ ", got " +:+ quote (Param (o_Params o) "protocol" "")), 0)
            | ps => let l := attempts o ps 0 in
                    let t := tally_of l (mkTally [] false None None) in
                    (if anyOk t then mkCheckResult false true "proxy" (o_Target o) (o_Seq o) (best t) "" "" (t_extra t)
                     else mkCheckResult false false "proxy" (o_Target o) (o_Seq o) None (default "proxy check failed" (firstErr t)) "" (t_extra t),
                     sumZ (map (fun x => snd (snd x)) l))
            end.
Proof.
  unfold Check, wanted. set (p := Param (o_Params o) "protocol" ""). destruct (decide (p = "")) as [E|E].
  - rewrite (bool_decide_eq_true_2 _ E). cbn [negb andb orb attempts]. fold p. rewrite (bool_decide_eq_true_2 _ E). unfold try_.
    rewrite decide_True, decide_False by done. destruct (attemptSOCKS5 o _) as [r1 d1]. cbn [snd]. rewrite Z.add_0_l.
    destruct (attemptHTTPProxy o _) as [r2 d2]. cbn. by rewrite Z.add_0_r.
  - rewrite (bool_decide_eq_false_2 _ E). cbn [negb andb orb]. destruct (decide (p = "socks5")) as [Es|Es].
    + rewrite decide_True by (rewrite Es; by left). rewrite (bool_decide_eq_true_2 _ Es), (bool_decide_eq_false_2 (p = "http")) by congruence.
      cbn [negb andb attempts]. fold p. rewrite (bool_decide_eq_false_2 _ E). unfold try_. rewrite decide_True by done.
      destruct (attemptSOCKS5 o _) as [r1 d1]. cbn. rewrite Es. cbn. by rewrite Z.add_0_r.
    + rewrite (bool_decide_eq_false_2 _ Es). destruct (decide (p = "http")) as [Eh|Eh].
      * rewrite decide_True by (rewrite Eh; right; by left). rewrite (bool_decide_eq_true_2 _ Eh).
        cbn [negb andb attempts]. fold p. rewrite (bool_decide_eq_false_2 _ E). unfold try_. rewrite decide_False by congruence.
        destruct (attemptHTTPProxy o _) as [r1 d1]. cbn. rewrite Eh. cbn. by rewrite Z.add_0_r.
      * rewrite (bool_decide_eq_false_2 _ Eh), decide_False; [done|]. rewrite !elem_of_cons, elem_of_nil. tauto.
Qed.

(** *** What a check promises *)

Lemma SFltb_asym a b : SFltb a b = true -> SFltb b a = false.
Proof.
  unfold SFltb. assert (forall c, SFcompare a b = Some c -> SFcompare b a = Some (CompOpp c)) as H.
  { unfold SFcompare. destruct a as [[]|[]| |[] m e], b as [[]|[]| |[] m' e']; intros c [= <-]; try done;
      rewrite (Z.compare_antisym e e'); destruct (e ?= e') eqn:E; cbn; rewrite ?CompOpp_involutive; try done;
      rewrite Pos.compare_cont_antisym; done. }
  destruct (SFcompare a b) as [[]|]; try done. by rewrite (H _ eq_refl).
Qed.

Lemma SFltb_irrefl a : SFltb a a = false.
Proof. destruct (SFltb a a) eqn:E; [|done]. pose proof E as E'. apply SFltb_asym in E'. congruence. Qed.

(** The latencies of the attempts that got through. *)
Definition successes (l : list (string * duration * (result string float64 * duration))) : list float64 :=
  omap (fun x => match fst (snd x) with Ok f => Some f | Err _ => None end) l.

Lemma attempts_length o ps now : length (attempts o ps now) = length ps.
Proof. revert now. induction ps as [|p ps IH]; intros now; [done|]. cbn. by rewrite IH. Qed.

Lemma wanted_length o : (length (wanted o) <= 2)%nat.
Proof. unfold wanted. repeat case_decide; cbn; lia. Qed.

(** A proxy is up exactly when one of the protocols asked for relays the test
    page, and the latency reported is the shortest of those that did. *)
Theorem proxy_reports_best o :
  let l := attempts o (wanted o) 0 in
  (r_Ok (fst (Check o)) = true <-> successes l <> [])
  /\ (r_Ok (fst (Check o)) = true -> exists f, LatencyMs (fst (Check o)) = Some f /\ f ∈ successes l
      /\ forall f', f' ∈ successes l -> SFltb f' f = false).
Proof.
  cbn zeta. rewrite Check_attempts. pose proof (wanted_length o) as Hl. rewrite <- (attempts_length o (wanted o) 0) in Hl.
  destruct (wanted o) as [|p ps] eqn:Ew; [cbn; by split; [split|]|]. cbn zeta. cbn [fst]. clear Ew.
  destruct (attempts o (p :: ps) 0) as [|[[k1 b1] [[f1|e1] d1]] [|[[k2 b2] [[f2|e2] d2]] [|]]]; cbn in Hl; try lia;
    cbn; (split; [by split|]); try done; intros _.
  - by exists f1; split; [|split; [left|intros f' ->%list_elem_of_singleton; apply SFltb_irrefl]].
  - destruct (SFltb f2 f1) eqn:E; [exists f2|exists f1]; (split; [done|]); (split; [set_solver|]); intros f' Hf';
      apply elem_of_cons in Hf' as [ -> | ->%list_elem_of_singleton]; try apply SFltb_irrefl; [by apply SFltb_asym|done].
  - by exists f1; split; [|split; [left|intros f' ->%list_elem_of_singleton; apply SFltb_irrefl]].
  - by exists f2; split; [|split; [left|intros f' ->%list_elem_of_singleton; apply SFltb_irrefl]].
Qed.

(** An attempt whose context is respected: it ends within what it is given. *)
Definition respects_context : Prop := forall h url t, 0 <= an_took (attempt h url t) <= Z.max 0 t.

(** The check ends within its timeout, and when both protocols are tried each
    is given half of it: a first attempt that takes all it may leaves the
    second its full share. *)
Theorem proxy_splits_budget o :
  respects_context -> 0 <= o_Timeout o ->
  snd (Check o) <= o_Timeout o
  /\ Forall (fun x => snd (fst x) = if decide (wanted o = ["socks5"; "http"]) then o_Timeout o ÷ 2 else o_Timeout o) (attempts o (wanted o) 0).
Proof.
  intros Hw HT. assert (forall p t, 0 <= snd (try_ o p t) <= Z.max 0 t) as Htry.
  { intros p t. unfold try_, attemptSOCKS5, attemptHTTPProxy. case_decide; apply Hw. }
  pose proof (Z.quot_pos (o_Timeout o) 2 HT ltac:(lia)) as Hq. pose proof (Z.mul_quot_le (o_Timeout o) 2 HT ltac:(lia)) as Hq2.
  rewrite Check_attempts. unfold wanted. destruct (decide (Param (o_Params o) "protocol" "" = "")) as [E|E].
  - rewrite decide_True by done. cbn [attempts snd map]. unfold attempt_budget. rewrite (bool_decide_eq_true_2 _ E).
    set (b1 := Z.min (o_Timeout o ÷ 2) (o_Timeout o - 0)). assert (b1 = o_Timeout o ÷ 2) as Eb1 by lia.
    pose proof (Htry "socks5" b1) as H1. set (b2 := Z.min (o_Timeout o ÷ 2) (o_Timeout o - (0 + snd (try_ o "socks5" b1)))).
    assert (b2 = o_Timeout o ÷ 2) as Eb2 by lia. pose proof (Htry "http" b2) as H2. split; [cbn; lia|]. by repeat constructor.
  - destruct (decide (_ ∈ _)) as [Hin|]; [|split; [done|constructor]]. rewrite decide_False by done. cbn [attempts snd map]. unfold attempt_budget.
    rewrite (bool_decide_eq_false_2 _ E). set (b := Z.min (o_Timeout o) (o_Timeout o - 0)). assert (b = o_Timeout o) as Eb by lia.
    pose proof (Htry (Param (o_Params o) "protocol" "") b) as H1. split; [cbn; lia|]. by repeat constructor.
Qed.
End check.

Definition demo_attempt (h : hop) (url : string) (t : duration) : answer :=
  match h with
  | Socks _ => mkAnswer (Err "timeout") (Z.max 0 t)
  | Forward _ _ => mkAnswer (Ok (204, 30 * millisecond)) (Z.min (Z.max 0 t) (31 * millisecond))
  end.

Definition demo_options : Options := mkOptions "10.0.0.1:1080" second "p1" "" 1 [] (mkBinding None "").

Lemma proxy_splits_budget_witness :
  snd (Check (fun s => s) demo_attempt demo_options) <= second
  /\ r_Ok (fst (Check (fun s => s) demo_attempt demo_options)) = true.
Proof.
  split; [|by vm_compute]. apply (proxy_splits_budget (fun s => s) demo_attempt demo_options).
  - intros [a|s a] url t; cbn; unfold millisecond; lia.
  - cbn. unfold second. lia.
Defined.
End Proxy.

(** ** TCP ([tcp.go]) *)

Module Tcp.
Section check.
Context `{NetIP}.

(** [net.SplitHostPort]'s host, or the target itself. *)
Definition hostOnly (target : string) : string := default target (SplitHost target).

(** [strconv.FormatUint] in base 16. *)
Definition hex_digit (n : Z) : ascii := ascii_of_nat (Z.to_nat (if n <? 10 then 48 + n else 87 + n)).
Fixpoint hex_aux (fuel : nat) (n : Z) (acc : string) : string :=
  match fuel with
  | O => acc
  | S f => let acc := String (hex_digit (n mod 16)) acc in if n / 16 =? 0 then acc else hex_aux f (n / 16) acc
  end.

Definition tlsVersionName (v : Z) : string :=
  if v =? 772 then "1.3" else if v =? 771 then "1.2" else if v =? 770 then "1.1" else if v =? 769 then "1.0"
  else "0x" +:+ hex_aux 4 v "".

Record tls_config : Type := mkTls { ServerName : string; InsecureSkipVerify : bool }.
(** The state after a handshake: the version, and the leaf's name and end. *)
Record tls_state : Type := mkTlsState { Version : Z; leaf : option (string * string) }.

Context (dial : Dialer * string * string -> result string duration)
        (handshake : tls_config -> result string (tls_state * duration)).

Definition tls_of (o : Options) : tls_config :=
  mkTls (Param (o_Params o) "sni" (hostOnly (o_Target o))) (bool_decide (Param (o_Params o) "insecure" "" = "true")).

Definition Check (o : Options) : CheckResult :=
  match dial (DialContext (o_Bind o) "tcp" (o_Target o)) with
  | Err e => Fail_ "tcp" (o_Target o) (o_Seq o) e
  | Ok connectElapsed =>
      if negb (bool_decide (Param (o_Params o) "tls" "" = "true")) then Ok_ "tcp" (o_Target o) (o_Seq o) connectElapsed []
      else
        match handshake (tls_of o) with
        | Err e => Fail_ "tcp" (o_Target o) (o_Seq o) e
        | Ok (state, tlsElapsed) =>
            Ok_ "tcp" (o_Target o) (o_Seq o) (int_add connectElapsed tlsElapsed)
              ([("connect_ms", VFloat (ms connectElapsed)); ("tls_ms", VFloat (ms tlsElapsed)); ("tls_version", VString (tlsVersionName (Version state)))]
               ++ match leaf state with Some (cn, until) => [("cert_subject", VString cn); ("cert_not_after", VString until)] | None => [] end)
        end
  end.

(** A target is up when it connects and, if asked to, shows a certificate for
    the name asked for; only an explicit ["true"] drops the verification. *)
Lemma tcp_up o :
  r_Ok (Check o) = true <->
  exists d, dial (DialContext (o_Bind o) "tcp" (o_Target o)) = Ok d
  /\ (Param (o_Params o) "tls" "" = "true" -> exists st, handshake (tls_of o) = Ok st).
Proof.
  unfold Check. destruct (dial _) as [d|e]; [|by split; [|intros (? & ? & _)]]. case_bool_decide as Et; cbn [negb].
  - destruct (handshake _) as [[st t]|e] eqn:Eh.
    + split; [|done]. intros _. exists d. split; [done|]. intros _. by exists (st, t).
    + split; [done|]. intros (? & _ & Hs). by destruct (Hs Et).
  - split; [|done]. intros _. exists d. done.
Qed.
End check.
End Tcp.

(** ** UDP ([udp.go]) *)

Module Udp.

(** What reading from the connected socket gives. *)
Inductive read_answer : Type := Read (n : Z) | Refused | Silent | ReadError (e : string).

Section check.
Context `{NetIP} (dial : Dialer * string * string -> option string) (write : option string) (read : read_answer) (elapsed : duration).

Definition Check (o : Options) : CheckResult :=
  match dial (DialContext (o_Bind o) "udp" (o_Target o)) with
  | Some e => Fail_ "udp" (o_Target o) (o_Seq o) e
  | None =>
      match write with
      | Some e => Fail_ "udp" (o_Target o) (o_Seq o) e
      | None =>
          match read with
          | Read n => Ok_ "udp" (o_Target o) (o_Seq o) elapsed [("responded", VBool true); ("bytes_read", VInt n)]
          | Refused => Fail_ "udp" (o_Target o) (o_Seq o) "connection refused (icmp port unreachable)"
          | Silent => mkCheckResult false true "udp" (o_Target o) (o_Seq o) None "" ""
                        [("responded", VBool false); ("note", VString "no response within timeout; many UDP services do not reply to unsolicited probes")]
          | ReadError e => Fail_ "udp" (o_Target o) (o_Seq o) e
          end
      end
  end.

(** Silence is not a failure, and is told apart from an answer: it carries no
    latency, and says that nothing responded. *)
Lemma udp_latency o :
  r_Ok (Check o) = true ->
  (exists n, read = Read n /\ LatencyMs (Check o) <> None /\ obj_find (Extra (Check o)) "responded" = Some (VBool true))
  \/ (read = Silent /\ LatencyMs (Check o) = None /\ obj_find (Extra (Check o)) "responded" = Some (VBool false)).
Proof.
  unfold Check. destruct (dial _); [done|]. destruct write; [done|]. destruct read as [n| | |]; try done; intros _.
  - left. by exists n.
  - by right.
Qed.
End check.
End Udp.

(** ** ICMP ([icmp.go]) *)

Module Icmp.

(** A packet read from the socket: a message that does not parse, an echo
    reply with its sequence number, or any other message. *)
Inductive packet : Type := Unparsable (e : string) | EchoReply (seq : Z) | Other.

(** The socket a check opens. *)
Inductive socket : Type := BoundSocket (network : string) | ListenPacket (network source : string).

Section check.
Context `{NetIP} (resolve : string -> result string string) (listen : socket -> option string) (write : option string).

(** The loop over what arrives, until the deadline ends the reads with an
    error; each packet comes with the time since the request was sent. *)
Fixpoint await (seq : Z) (reads : list (packet * duration)) (timeout_error : string) : result string duration :=
  match reads with
  | [] => Err timeout_error
  | (Unparsable e, _) :: _ => Err e
  | (EchoReply s, elapsed) :: rest => if s =? seq then Ok elapsed else await seq rest timeout_error
  | (Other, _) :: rest => await seq rest timeout_error
  end.

Definition seq_of (o : Options) : Z := if o_Seq o =? 0 then 1 else o_Seq o.

Definition socket_of (b : Binding) : socket :=
  if decide (Interface b = "") then ListenPacket "udp4" (match SourceIP b with Some a => AddrString a | None => "0.0.0.0" end)
  else BoundSocket "udp4".

Definition Check (o : Options) (reads : list (packet * duration)) (timeout_error : string) : CheckResult :=
  let fail := Fail_ "icmp" (o_Target o) (o_Seq o) in
  if match SourceIP (o_Bind o) with Some a => Is6 a | None => false end
  then fail "ICMP check currently supports IPv4 source addresses only"
  else
    match resolve (o_Target o) with
    | Err e => fail e
    | Ok dst =>
        match listen (socket_of (o_Bind o)) with
        | Some e => fail ("open icmp socket (is net.ipv4.ping_group_range configured?): " +:+ e)
        | None =>
            match write with
            | Some e => fail e
            | None =>
                match await (seq_of o) reads timeout_error with
                | Err e => fail e
                | Ok elapsed => Ok_ "icmp" (o_Target o) (o_Seq o) elapsed [("resolved_ip", VString dst)]
                end
            end
        end
    end.

(** The reply that counts: the first echo reply that carries the number,
    before anything that does not parse. *)
Lemma await_spec seq reads e d :
  await seq reads e = Ok d <->
  exists pre post, reads = pre ++ (EchoReply seq, d) :: post
  /\ Forall (fun x => match fst x with Unparsable _ => False | EchoReply s => s <> seq | Other => True end) pre.
Proof.
  induction reads as [|[p t] reads IH]; cbn [await].
  - split; [done|]. by intros ([|] & post & E & _).
  - destruct p as [err|s|].
    + split; [done|]. intros ([|[p0 t0] pre] & post & E & Hf); [cbn in E; congruence|]. injection E as <- <- E. by apply Forall_cons in Hf as [[] _].
    + destruct (Z.eqb_spec s seq) as [->|Hne].
      * split; [intros [= ->]; by exists [], reads|]. intros ([|[p0 t0] pre] & post & E & Hf); [by injection E as ->|].
        injection E as <- <- E. by apply Forall_cons in Hf as [Hf _].
      * rewrite IH. split; intros (pre & post & E & Hf).
        -- exists ((EchoReply s, t) :: pre), post. rewrite E. split; [done|]. by constructor.
        -- destruct pre as [|[p0 t0] pre]; [cbn in E; congruence|]. injection E as <- <- E. apply Forall_cons in Hf as [_ Hf]. by exists pre, post.
    + rewrite IH. split; intros (pre & post & E & Hf).
      * exists ((Other, t) :: pre), post. rewrite E. split; [done|]. by constructor.
      * destruct pre as [|[p0 t0] pre]; [cbn in E; congruence|]. injection E as <- <- E. apply Forall_cons in Hf as [_ Hf]. by exists pre, post.
Qed.

(** A sequence number on the wire has sixteen bits.  The loop compares it with
    the check's own number, so no reply ever answers a check past 65535: it
    fails whatever arrives. *)
Theorem icmp_beyond_16_bits o reads e :
  65535 < o_Seq o -> Forall (fun x => match fst x with EchoReply s => 0 <= s < 65536 | _ => True end) reads ->
  r_Ok (Check o reads e) = false.
Proof.
  intros Hs Hr. unfold Check. destruct (match SourceIP (o_Bind o) with Some a => Is6 a | None => false end); [done|]. destruct (resolve _); [|done]. destruct (listen _); [done|]. destruct write; [done|].
  destruct (await _ reads e) as [d|] eqn:E; [|done]. apply await_spec in E as (pre & post & -> & _).
  apply Forall_app in Hr as [_ Hr]. apply Forall_cons in Hr as [Hr _]. cbn in Hr. unfold seq_of in Hr.
  destruct (Z.eqb_spec (o_Seq o) 0); lia.
Qed.
End check.

(** The reply to the request, as the kernel hands it over: truncated. *)
Definition demo_reads : list (packet * duration) := [(Other, 1); (EchoReply (65536 mod 65536), 2 * millisecond)].

Lemma icmp_beyond_16_bits_witness :
  r_Ok (@Check demoNetIP (fun _ => Ok "192.0.2.1") (fun _ => None) None (mkOptions "example.org" second "p1" "" 65536 [] (mkBinding None "")) demo_reads "i/o timeout") = false
  /\ r_Ok (@Check demoNetIP (fun _ => Ok "192.0.2.1") (fun _ => None) None (mkOptions "example.org" second "p1" "" 0 [] (mkBinding None "")) [(EchoReply 1, millisecond)] "i/o timeout") = true.
Proof.
  split; [|by vm_compute].
  apply (@icmp_beyond_16_bits demoNetIP (fun _ => Ok "192.0.2.1") (fun _ => None) None (mkOptions "example.org" second "p1" "" 65536 [] (mkBinding None ""))
           demo_reads "i/o timeout").
  - done.
  - repeat (apply Forall_cons; split; [by vm_compute|]). apply Forall_nil_2.
Defined.
End Icmp.
