(* ===== verification/Dns.v ===== *)
(** * The DNS check

    [internal/checks/dns/dns.go]: which resolver is asked, for what, and what
    is reported.  [net.Resolver]'s methods are arguments. *)

From Stdlib Require Import ZArith Lia List Bool Ascii String.
From stdpp Require Import base tactics gmap strings list pretty.
From S2P Require Import Prelude GoStrings GoText Netbind Wire Checks Checker.

Open Scope string_scope.
Open Scope list_scope.
Open Scope Z_scope.

(** [net.DNSError], and any other error. *)
Record dns_error : Type := mkDnsError { de_text : string; IsNotFound : bool }.

Record MX : Type := mkMX { mx_Host : string; Pref : Z }.
Record SRV : Type := mkSRV { srv_Target : string; Priority : Z; Weight : Z; srv_Port : Z }.

(** The resolver a check asks: the platform's, the bound one, or one that dials
    a server of the probe's choice. *)
Inductive resolver : Type := DefaultResolver | BoundResolver (b : Binding) | ServerResolver (b : Binding) (server : string).

(** [net.Resolver]. *)
Record lookups : Type := mkLookups {
  LookupNetIP : resolver -> string -> string -> result dns_error (list Addr);
  LookupNS : resolver -> string -> result dns_error (list string);
  LookupMX : resolver -> string -> result dns_error (list MX);
  LookupTXT : resolver -> string -> result dns_error (list string);
  LookupCNAME : resolver -> string -> result dns_error string;
  LookupAddr : resolver -> string -> result dns_error (list string);
  LookupSRV : resolver -> string -> string -> string -> result dns_error (list SRV)
}.

Definition no_dot (s : string) : string := trim_suffix s ".".

Definition strings_any (l : list string) : any := VArray (map VString l).
Definition ints_any (l : list Z) : any := VArray (map VInt l).

Section check.
Context `{NetIP} (quote : string -> string) (net : lookups).

(** [server] wins over the binding's resolver; the binding's wins over the platform's. *)
Definition resolver_of (o : Options) : resolver :=
  let server := Param (o_Params o) "server" "" in
  if decide (server <> "") then ServerResolver (o_Bind o) server
  else if Binding_IsZero (o_Bind o) then DefaultResolver else BoundResolver (o_Bind o).

(** How a server's resolver dials: the address it is given is not the one it uses. *)
Definition server_dial (b : Binding) (server network : string) : Dialer * string * string :=
  if Binding_IsZero b then (plainDialer, network, server) else DialContext b network server.

Definition config_error (s : string) : dns_error := mkDnsError s false.

Definition dns_map {A B} (r : result dns_error A) (f : A -> B) : result dns_error B := match r with Ok a => Ok (f a) | Err e => Err e end.

(** The answers and what rides along with them. *)
Definition lookup (r : resolver) (record : string) (o : Options) : result dns_error (list string * params) :=
  let target := o_Target o in
  if decide (record = "a" \/ record = "aaaa") then
    dns_map (LookupNetIP net r (if decide (record = "aaaa") then "ip6" else "ip4") target) (fun addrs => (map (fun a => AddrString (Unmap a)) addrs, []))
  else if decide (record = "ns") then dns_map (LookupNS net r target) (fun recs => (map no_dot recs, []))
  else if decide (record = "mx") then
    dns_map (LookupMX net r target) (fun recs => (map (fun m => no_dot (mx_Host m)) recs, [("preferences", ints_any (map Pref recs))]))
  else if decide (record = "txt") then dns_map (LookupTXT net r target) (fun recs => (recs, []))
  else if decide (record = "cname") then dns_map (LookupCNAME net r target) (fun cname => ([no_dot cname], []))
  else if decide (record = "ptr") then
    match ParseAddr target with
    | None => Err (config_error ("target must be an IP address for a PTR lookup, got " +:+ quote target))
    | Some _ => dns_map (LookupAddr net r target) (fun recs => (map no_dot recs, []))
    end
  else if decide (record = "srv") then
    dns_map (LookupSRV net r (Param (o_Params o) "service" "") (Param (o_Params o) "proto" "") target)
      (fun recs => (map (fun s => no_dot (srv_Target s)) recs,
                    [("priorities", ints_any (map Priority recs)); ("weights", ints_any (map Weight recs)); ("ports", ints_any (map srv_Port recs))]))
  else Err (config_error ("unsupported record type " +:+ quote record +:+ " -- expected a, aaaa, ns, mx, txt, cname, ptr, or srv")).

Definition record_of (o : Options) : string := to_lower (Param (o_Params o) "record" "a").

Definition Check (elapsed : duration) (o : Options) : CheckResult :=
  let record := record_of o in
  let up (answers : list string) (extra : params) :=
    Ok_ "dns" (o_Target o) (o_Seq o) elapsed (extra ++ [("record", VString record); ("answers", strings_any answers)]) in
  match lookup (resolver_of o) record o with
  | Ok (answers, extra) => up answers extra
  | Err e => if IsNotFound e then up [] [] else Fail_ "dns" (o_Target o) (o_Seq o) (de_text e)
  end.

(** ** What a check reports *)

(** A list reported next to the answers. *)
Definition parallel (r : CheckResult) (key : string) : option nat :=
  match obj_find (Extra r) key with Some (VArray l) => Some (length l) | _ => None end.

(** A check is up exactly when its query was answered, even if only with "no
    such record": then the answers are empty and nothing rides along.  What
    rides along with the answers of MX and SRV records has one entry for each. *)
Theorem dns_reports_answers elapsed o :
  (r_Ok (Check elapsed o) = true <->
   (exists x, lookup (resolver_of o) (record_of o) o = Ok x) \/ (exists e, lookup (resolver_of o) (record_of o) o = Err e /\ IsNotFound e = true))
  /\ (forall e, lookup (resolver_of o) (record_of o) o = Err e -> IsNotFound e = true ->
      Extra (Check elapsed o) = [("record", VString (record_of o)); ("answers", strings_any [])])
  /\ forall answers extra, lookup (resolver_of o) (record_of o) o = Ok (answers, extra) ->
     obj_find (Extra (Check elapsed o)) "answers" = Some (strings_any answers)
     /\ forall key, key ∈ ["preferences"; "priorities"; "weights"; "ports"] ->
        obj_find extra key <> None -> parallel (Check elapsed o) key = Some (length answers).
Proof.
  unfold Check. split; [|split].
  - destruct (lookup _ _ _) as [[answers extra]|e].
    + split; [intros _; left; by eexists|done].
    + destruct (IsNotFound e) eqn:En; cbn.
      * split; [intros _; right; by exists e|done].
      * split; [done|]. intros [[? ?]|(e' & [= <-] & He)]; [done|congruence].
  - intros e -> He. by rewrite He.
  - intros answers extra E. rewrite E. unfold parallel. cbn [Ok_ Extra].
    unfold lookup, dns_map in E. repeat case_decide; try done;
      repeat match type of E with (match ?x with _ => _ end) = _ => destruct x end; try done; injection E as <- <-;
      (split; [done|]); intros key Hkey Hne; cbn in Hne; try done;
      rewrite !elem_of_cons, elem_of_nil in Hkey; unfold strings_any, ints_any in *; destruct_or! Hkey; subst; cbn -[no_dot] in Hne |- *; try done; try (exfalso; apply Hne; by vm_compute);
      repeat (case_decide; try congruence); cbn -[no_dot]; by rewrite !length_map.
Qed.

(** A node that is bound never asks the platform's resolver, and a server of the
    probe's choice is dialed through the binding, whatever address the resolver
    would have picked. *)
Theorem dns_stays_bound o :
  Binding_IsZero (o_Bind o) = false ->
  resolver_of o <> DefaultResolver
  /\ forall b server network, resolver_of o = ServerResolver b server -> b = o_Bind o /\ server_dial b server network = DialContext (o_Bind o) network server.
Proof.
  intros Hb. unfold resolver_of, server_dial. case_decide.
  - split; [done|]. intros b server network [= <- <-]. by rewrite Hb.
  - rewrite Hb. done.
Qed.

Lemma no_dot_of name : no_dot (name +:+ ".") = name.
Proof.
  unfold no_dot, trim_suffix, trim_prefix. rewrite rev_string_app, cut_prefix_app. cbn. apply rev_string_involutive.
Qed.

(** [net.Resolver.LookupCNAME] answers a name that has addresses and no CNAME
    record with the name itself: such a name is reported as its own alias. *)
Theorem cname_without_alias elapsed o :
  record_of o = "cname" -> LookupCNAME net (resolver_of o) (o_Target o) = Ok (o_Target o +:+ ".") ->
  r_Ok (Check elapsed o) = true /\ obj_find (Extra (Check elapsed o)) "answers" = Some (strings_any [o_Target o]).
Proof.
  intros Hr Hc. unfold Check. rewrite Hr. unfold lookup, dns_map. rewrite !decide_False by (try intros [|]; done).
  rewrite decide_True by done. rewrite Hc. rewrite no_dot_of. by split.
Qed.
End check.

(** ** Witnesses *)

Definition demo_lookups : lookups := {|
  LookupNetIP _ _ _ := Err (mkDnsError "no such host" true); LookupNS _ _ := Ok ["ns1.example.org."];
  LookupMX _ _ := Ok [mkMX "mx.example.org." 10]; LookupTXT _ _ := Ok []; LookupCNAME _ t := Ok (t +:+ ".");
  LookupAddr _ _ := Err (mkDnsError "timeout" false); LookupSRV _ _ _ _ := Ok [] |}.

Definition demo_query (record server : string) : Options :=
  mkOptions "example.org" second "p1" "" 1 [("record", VString record); ("server", VString server)] (mkBinding None "eth0").

Example demo_mx :
  Extra (@Check demoNetIP (fun s => s) demo_lookups millisecond (demo_query "MX" ""))
  = [("preferences", ints_any [10]); ("record", VString "mx"); ("answers", strings_any ["mx.example.org"])].
Proof. by vm_compute. Qed.

Lemma dns_stays_bound_witness :
  resolver_of (demo_query "a" "9.9.9.9:53") <> DefaultResolver
  /\ @server_dial demoNetIP (mkBinding None "eth0") "9.9.9.9:53" "udp" = @DialContext demoNetIP (mkBinding None "eth0") "udp" "9.9.9.9:53".
Proof.
  destruct (@dns_stays_bound demoNetIP (demo_query "a" "9.9.9.9:53") ltac:(by vm_compute)) as [H1 H2]. split; [exact H1|].
  refine (proj2 (H2 (mkBinding None "eth0") "9.9.9.9:53" "udp" _)). by vm_compute.
Defined.

Lemma cname_without_alias_witness :
  obj_find (Extra (@Check demoNetIP (fun s => s) demo_lookups millisecond (demo_query "cname" ""))) "answers" = Some (strings_any ["example.org"]).
Proof.
  refine (proj2 (@cname_without_alias demoNetIP (fun s => s) demo_lookups millisecond (demo_query "cname" "") _ _)); by vm_compute.
Defined.
