(* ===== verification/System.v ===== *)
(** * The system check

    [internal/checks/system/system.go]: the node's own load, memory, disk and
    network throughput.  What gopsutil reads is an argument; the throughput is
    the difference to the last sample, kept behind a mutex that is taken after
    the counters were read. *)

From Stdlib Require Import ZArith Lia List Bool Ascii String SpecFloat.
From stdpp Require Import base tactics gmap strings list relations.
From S2P Require Import Prelude GoStrings Netbind Wire Checks Checker.

Open Scope string_scope.
Open Scope list_scope.
Open Scope Z_scope.

(** ** Throughput *)

Definition isLoopback (name : string) : bool := has_prefix name "lo".

(** An interface's cumulative counters. *)
Record counter : Type := mkCounter { ct_Name : string; BytesSent : Z; BytesRecv : Z }.

Definition add_counter (t : Z * Z) (c : counter) : Z * Z :=
  if isLoopback (ct_Name c) then t else (wrapu64 (fst t + BytesSent c), wrapu64 (snd t + BytesRecv c)).

Definition totals (counters : list counter) : Z * Z := fold_left add_counter counters (0, 0).

(** A reading: when, bytes sent, bytes received. *)
Record sample : Type := mkSample { s_at : time; s_sent : Z; s_recv : Z }.

Definition sample_of (counters : list counter) (now : time) : sample :=
  let '(sent, recv) := totals counters in mkSample now sent recv.

(** [Duration.Seconds]. *)
Definition Seconds (d : duration) : float64 :=
  SFadd 53 1024 (float_of_Z (d ÷ second)) (SFdiv 53 1024 (float_of_Z (Z.rem d second)) (float_of_Z second)).

(** [float64(delta) * 8 / elapsed / 1_000_000]. *)
Definition mbps (delta : Z) (elapsed : float64) : float64 :=
  SFdiv 53 1024 (SFdiv 53 1024 (SFmul 53 1024 (float_of_Z delta) (float_of_Z 8)) elapsed) (float_of_Z 1000000).

(** The critical section: the new sample against the kept one, [None] before
    the first. *)
Definition throughput (kept : option sample) (new : sample) : option (float64 * float64) * option sample :=
  (match kept with
   | None => None
   | Some prev =>
       if (s_sent new <? s_sent prev) || (s_recv new <? s_recv prev) then None
       else
         let elapsed := Seconds (time_sub (s_at new) (s_at prev)) in
         if SFleb elapsed (S754_zero false) then None
         else Some (mbps (s_recv new - s_recv prev) elapsed, mbps (s_sent new - s_sent prev) elapsed)
   end, Some new).

(** ** The check *)

Record load_avg : Type := mkLoad { Load1 : float64; Load5 : float64; Load15 : float64 }.
Record usage : Type := mkUsage { u_Total : Z; u_Free : Z; UsedPercent : float64 }.

(** What gopsutil answers during one check. *)
Record readings : Type := mkReadings {
  rd_load : result string load_avg;
  rd_memory : result string usage;
  rd_uptime : result string Z;
  rd_disk : string -> result string usage;
  rd_counters : option (list counter * time);
  rd_percent : option (list float64)
}.

Definition diskRoot (windows : bool) : string := if windows then "C:\" else "/".

Definition Check (windows : bool) (rd : readings) (elapsed : duration) (kept : option sample) (o : Options)
    : CheckResult * option sample :=
  let fail what e := Fail_ "system" (o_Target o) (o_Seq o) (what +:+ ": " +:+ e) in
  match rd_load rd with
  | Err e => (fail "read load average" e, kept)
  | Ok l =>
      match rd_memory rd with
      | Err e => (fail "read memory" e, kept)
      | Ok m =>
          match rd_uptime rd with
          | Err e => (fail "read uptime" e, kept)
          | Ok uptime =>
              match rd_disk rd (diskRoot windows) with
              | Err e => (fail "read disk usage" e, kept)
              | Ok u =>
                  let base := [("load1", VFloat (Load1 l)); ("load5", VFloat (Load5 l)); ("load15", VFloat (Load15 l));
                               ("mem_total_bytes", VInt64 (wrap64 (u_Total m))); ("mem_available_bytes", VInt64 (wrap64 (u_Free m)));
                               ("mem_used_percent", VFloat (UsedPercent m));
                               ("disk_total_bytes", VInt64 (wrap64 (u_Total u))); ("disk_free_bytes", VInt64 (wrap64 (u_Free u)));
                               ("disk_used_percent", VFloat (UsedPercent u)); ("uptime_seconds", VFloat (float_of_Z uptime))] in
                  let '(rate, kept) := match rd_counters rd with
                                       | Some (counters, now) => throughput kept (sample_of counters now)
                                       | None => (None, kept)
                                       end in
                  let net := match rate with Some (i, out) => [("net_in_mbps", VFloat i); ("net_out_mbps", VFloat out)] | None => [] end in
                  let cpu := match rd_percent rd with Some (p :: _) => [("cpu_percent", VFloat p)] | _ => [] end in
                  (Ok_ "system" (o_Target o) (o_Seq o) elapsed (base ++ net ++ cpu), kept)
              end
          end
      end
  end.

(** ** Checks that overlap

    One [Checker] serves every system probe.  A check reads the counters and
    the clock, and takes the mutex later: samples may be stored in another
    order than they were read. *)

Record shared : Type := mkShared {
  kept : option sample;
  in_flight : list sample;                        (** read, not yet stored *)
  taken : list sample;                            (** every sample ever read *)
  reported : list (sample * sample * (float64 * float64))
}.

Definition idle : shared := mkShared None [] [] [].

Inductive step : shared -> shared -> Prop :=
| step_read s x : step s (mkShared (kept s) (x :: in_flight s) (x :: taken s) (reported s))
| step_store s pre x post :
    in_flight s = pre ++ x :: post ->
    step s (mkShared (snd (throughput (kept s) x)) (pre ++ post) (taken s)
      (match fst (throughput (kept s) x), kept s with
       | Some rate, Some prev => (prev, x, rate) :: reported s
       | _, _ => reported s
       end)).

(** A rate reported for a pair of samples: both were read, the first before the
    second, the counters did not fall between them, and the rate is their
    difference over the time between them. *)
Definition rate_real (read : list sample) (r : sample * sample * (float64 * float64)) : Prop :=
  let '(prev, x, rate) := r in
  prev ∈ read /\ x ∈ read /\ SFleb (Seconds (time_sub (s_at x) (s_at prev))) (S754_zero false) = false
  /\ s_sent prev <= s_sent x /\ s_recv prev <= s_recv x
  /\ rate = (mbps (s_recv x - s_recv prev) (Seconds (time_sub (s_at x) (s_at prev))),
             mbps (s_sent x - s_sent prev) (Seconds (time_sub (s_at x) (s_at prev)))).

Definition shared_ok (s : shared) : Prop :=
  (forall x, kept s = Some x -> x ∈ taken s) /\ (forall x, x ∈ in_flight s -> x ∈ taken s) /\ Forall (rate_real (taken s)) (reported s).

Lemma rate_real_more read read' r : (forall x, x ∈ read -> x ∈ read') -> rate_real read r -> rate_real read' r.
Proof. destruct r as [[prev x] rate]. cbn. naive_solver. Qed.

Lemma throughput_real read prev x rate :
  prev ∈ read -> x ∈ read -> fst (throughput (Some prev) x) = Some rate -> rate_real read (prev, x, rate).
Proof.
  intros Hp Hx. cbn. destruct (_ || _) eqn:Eo; [done|]. apply orb_false_iff in Eo as [E1%Z.ltb_ge E2%Z.ltb_ge].
  destruct (SFleb _ _) eqn:El; [done|]. intros [= <-]. done.
Qed.

Lemma step_ok s s' : shared_ok s -> step s s' -> shared_ok s'.
Proof.
  intros (Hk & Hi & Hr) Hs. destruct Hs as [s x|s pre x post E].
  - split; [|split]; cbn.
    + intros y Hy. right. by apply Hk.
    + intros y [->|Hy]%elem_of_cons; [left|right; by apply Hi].
    + eapply Forall_impl; [exact Hr|]. intros r. apply rate_real_more. intros y Hy. by right.
  - assert (x ∈ taken s) as Hx by (apply Hi; rewrite E; set_solver). split; [|split]; cbn [kept in_flight taken reported throughput snd].
    + by intros y [= <-].
    + intros y Hy. apply Hi. rewrite E. set_solver.
    + destruct (kept s) as [prev|] eqn:Ek; [|by destruct (fst _)]. destruct (fst (throughput (Some prev) x)) as [rate|] eqn:Et; [|done].
      constructor; [|done]. apply throughput_real; [by apply Hk|done|done].
Qed.

(** However the checks of a process overlap, a throughput they report is the
    average rate between two instants at which the counters were really read,
    the second later than the first, with no counter reset in between. *)
Theorem throughput_is_real s :
  rtc step idle s -> Forall (rate_real (taken s)) (reported s).
Proof.
  intros Hr. assert (shared_ok s) as Hok; [|apply Hok].
  assert (shared_ok idle) as Hi by (split; [done|]; split; [by intros x ?%elem_of_nil|constructor]).
  induction Hr as [|s1 s2 s3 H1 _ IH]; [done|]. apply IH. by eapply step_ok.
Qed.

(** A process's first check, and one after the counters fell, reports none. *)
Lemma throughput_needs_history kept x :
  fst (throughput kept x) <> None -> exists prev, kept = Some prev /\ s_sent prev <= s_sent x /\ s_recv prev <= s_recv x.
Proof.
  destruct kept as [prev|]; [|done]. cbn. destruct (_ || _) eqn:Eo; [done|]. apply orb_false_iff in Eo as [E1%Z.ltb_ge E2%Z.ltb_ge].
  intros _. by exists prev.
Qed.

(** ** Witness *)

Definition older : sample := mkSample second 1000 1000.
Definition newer : sample := mkSample (2 * second) 1000 126000.
Definition newest : sample := mkSample (3 * second) 1000 251000.

(** Two checks overlap and store in the wrong order; the third reports what
    really flowed since the older of them. *)
Definition overlapped : shared :=
  mkShared (Some newest) [] [newest; newer; older] [(older, newest, (mbps 250000 (Seconds (2 * second)), mbps 0 (Seconds (2 * second))))].

Lemma throughput_is_real_witness : Forall (rate_real (taken overlapped)) (reported overlapped).
Proof.
  apply (throughput_is_real overlapped).
  eapply rtc_l; [apply (step_read idle older)|]. eapply rtc_l; [apply (step_read _ newer)|].
  eapply rtc_l; [apply (step_store _ [] newer [older]); reflexivity|].
  eapply rtc_l; [apply (step_store _ [] older []); reflexivity|].
  eapply rtc_l; [apply (step_read _ newest)|].
  eapply rtc_l; [apply (step_store _ [] newest []); reflexivity|].
  assert (forall a b : shared, a = b -> rtc step a b) as H by (intros a b ->; apply rtc_refl). apply H. by vm_compute.
Defined.
