(* ===== verification/Flags.v ===== *)
(** * Command-line flags

    [partitionFlags] and [stringMap] of [cmd/radar-node/main.go], over the
    parser of Go's [flag] package. *)

From Stdlib Require Import ZArith Lia List Bool Ascii String.
From stdpp Require Import base tactics gmap strings list.
From S2P Require Import Prelude GoStrings GoText.

Open Scope string_scope.
Open Scope list_scope.

(** ** [flag.FlagSet] *)

(** A flag set: whether a name is defined and takes no value, and what its
    value refuses. *)
Record flag_set : Type := mkFlagSet { is_bool : string -> option bool; set_value : string -> string -> option string }.

(** The name and the value after an equals sign, which cannot be first. *)
Definition split_name (name : string) : string * option string :=
  match name with
  | "" => ("", None)
  | String c rest => match cut "="%char rest with Some (a, b) => (String c a, Some b) | None => (name, None) end
  end.

(** What stands behind the dashes of an argument; [None] when it is no flag,
    [Some None] for ["--"]. *)
Definition after_dashes (s : string) : option (option string) :=
  match s with
  | String c (String d rest) =>
      if decide (c = "-"%char) then
        if decide (d = "-"%char) then (if decide (rest = "") then Some None else Some (Some rest)) else Some (Some (String d rest))
      else None
  | _ => None
  end.

Definition bad_syntax (name : string) : bool :=
  match name with "" => true | String c _ => bool_decide (c = "-"%char) || bool_decide (c = "="%char) end.

(** [Parse]: the values set, in order, and the arguments left. *)
Fixpoint Parse_aux (fuel : nat) (fs : flag_set) (args : list string) (done : list (string * string)) : result string (list (string * string) * list string) :=
  match fuel with
  | O => Err "out of fuel"
  | S fuel =>
      match args with
      | [] => Ok (done, [])
      | s :: rest =>
          match after_dashes s with
          | None => Ok (done, args)
          | Some None => Ok (done, rest)
          | Some (Some body) =>
              if bad_syntax body then Err ("bad flag syntax: " +:+ s)
              else
                let '(name, value) := split_name body in
                match is_bool fs name with
                | None => if decide (name = "help" \/ name = "h") then Err "flag: help requested" else Err ("flag provided but not defined: -" +:+ name)
                | Some true =>
                    let v := default "true" value in
                    match set_value fs name v with Some e => Err e | None => Parse_aux fuel fs rest (done ++ [(name, v)]) end
                | Some false =>
                    match value, rest with
                    | Some v, _ => match set_value fs name v with Some e => Err e | None => Parse_aux fuel fs rest (done ++ [(name, v)]) end
                    | None, v :: rest => match set_value fs name v with Some e => Err e | None => Parse_aux fuel fs rest (done ++ [(name, v)]) end
                    | None, [] => Err ("flag needs an argument: -" +:+ name)
                    end
                end
          end
      end
  end.

(** Every round consumes an argument. *)
Definition Parse (fs : flag_set) (args : list string) : result string (list (string * string) * list string) :=
  Parse_aux (S (length args)) fs args [].

(** ** Flags in either position *)

Fixpoint partition_aux (fuel : nat) (args flags positional : list string) : list string :=
  match fuel, args with
  | O, _ | _, [] => flags ++ positional
  | S fuel, a :: rest =>
      if negb (has_prefix a "-") then partition_aux fuel rest flags (positional ++ [a])
      else
        match rest with
        | v :: rest' => if contains "=" a then partition_aux fuel rest (flags ++ [a]) positional
                        else partition_aux fuel rest' (flags ++ [a; v]) positional
        | [] => partition_aux fuel rest (flags ++ [a]) positional
        end
  end.

Definition partitionFlags (args : list string) : list string := partition_aux (length args) args [] [].

(** ** [--param] *)

Abbreviation stringMap := (gmap string string).

Definition stringMap_Set (quote : string -> string) (value : string) (m : stringMap) : result string stringMap :=
  match cut "="%char value with
  | None => Err ("--param must be key=value, got " +:+ quote value)
  | Some (k, v) => Ok (<[k := v]> m)
  end.

(** ** What a command line says *)

(** A piece of a command line: an argument of its own, or a flag with its
    value behind a space or an equals sign, under one dash or two. *)
Inductive piece : Type :=
| Positional (s : string)
| Spaced (two : bool) (name value : string)
| Joined (two : bool) (name value : string).

Definition dashes (two : bool) : string := if two then "--" else "-".

Definition words (p : piece) : list string :=
  match p with
  | Positional s => [s]
  | Spaced two name value => [dashes two +:+ name; value]
  | Joined two name value => [dashes two +:+ name +:+ "=" +:+ value]
  end.

Definition setting (p : piece) : option (string * string) :=
  match p with Positional _ => None | Spaced _ n v | Joined _ n v => Some (n, v) end.
Definition positional (p : piece) : option string := match p with Positional s => Some s | _ => None end.

(** A flag's name: no dash in front, no equals sign anywhere. *)
Definition name_ok (name : string) : Prop := name <> "" /\ has_prefix name "-" = false /\ lacks "=" name = true.

Definition piece_ok (fs : flag_set) (p : piece) : Prop :=
  match p with
  | Positional s => has_prefix s "-" = false
  | Spaced _ n v | Joined _ n v => name_ok n /\ is_bool fs n = Some false /\ set_value fs n v = None
  end.

(** The flags first, then the rest, each in its order. *)
Definition flag_words (ps : list piece) : list string := concat (map (fun p => match p with Positional _ => [] | _ => words p end) ps).

Lemma contains_lacks c s : contains (String c "") s = negb (lacks c s).
Proof.
  induction s as [|d s IH]; [done|]. cbn [contains lacks]. rewrite IH. unfold has_prefix. cbn [cut_prefix].
  destruct (decide (c = d)) as [->|Hne].
  - rewrite Ascii.eqb_refl. cbn. done.
  - assert (Ascii.eqb d c = false) as -> by (apply Ascii.eqb_neq; congruence). cbn. done.
Qed.

Lemma dashes_prefix two name : has_prefix (dashes two +:+ name) "-" = true.
Proof. by destruct two. Qed.

Lemma dashes_lacks two name : lacks "=" (dashes two +:+ name) = lacks "=" name.
Proof. by destruct two; rewrite lacks_app. Qed.

Lemma partition_pieces fs ps fuel flags pos :
  Forall (piece_ok fs) ps -> (length (concat (map words ps)) <= fuel)%nat ->
  partition_aux fuel (concat (map words ps)) flags pos = flags ++ flag_words ps ++ pos ++ omap positional ps.
Proof.
  intros Hps. revert fuel flags pos. induction Hps as [|p ps Hp Hps IH]; intros fuel flags pos Hf; cbn [map concat] in *.
  { destruct fuel; cbn; by rewrite app_nil_r. }
  assert (forall n, (n + length (concat (map words ps)) <= fuel -> (n = 1 \/ n = 2) -> exists k, fuel = S k /\ length (concat (map words ps)) <= k)%nat) as Hfuel.
  { intros n Hn Hor. exists (fuel - 1)%nat. lia. }
  destruct p as [s|two n v|two n v]; cbn [words app length] in *; unfold piece_ok in Hp.
  - destruct (Hfuel 1%nat) as (k & -> & Hk); [lia|lia|]. cbn [partition_aux]. rewrite Hp. cbn [negb]. rewrite IH by done.
    unfold flag_words. cbn. by rewrite <- app_assoc.
  - destruct Hp as ((Hn & Hd & Hl) & _). destruct (Hfuel 2%nat) as (k & -> & Hk); [lia|lia|]. cbn [partition_aux].
    rewrite dashes_prefix, contains_lacks, dashes_lacks, Hl. cbn [negb]. rewrite IH by done.
    unfold flag_words. cbn. by rewrite <- !app_assoc.
  - destruct Hp as ((Hn & Hd & Hl) & _). destruct (Hfuel 1%nat) as (k & -> & Hk); [lia|lia|]. cbn [partition_aux].
    assert (lacks "=" (n +:+ "=" +:+ v) = false) as Heq by (rewrite !lacks_app; cbn; by rewrite andb_false_r).
    rewrite dashes_prefix, contains_lacks, dashes_lacks, Heq. cbn [negb].
    assert (forall l, match l with v0 :: rest' => partition_aux k l (flags ++ [dashes two +:+ n +:+ "=" +:+ v]) pos | [] => partition_aux k l (flags ++ [dashes two +:+ n +:+ "=" +:+ v]) pos end
      = partition_aux k l (flags ++ [dashes two +:+ n +:+ "=" +:+ v]) pos) as -> by (by intros []).
    rewrite IH by done. unfold flag_words. cbn. by rewrite <- !app_assoc.
Qed.

Lemma name_shape name : name_ok name ->
  exists c r, name = String c r /\ c <> "-"%char /\ c <> "="%char /\ lacks "=" r = true.
Proof.
  intros (Hn & Hd & Hl). destruct name as [|c r]; [done|]. exists c, r. cbn [lacks] in Hl. apply andb_true_iff in Hl as [Hc Hl].
  split; [done|]. split; [|split; [|done]].
  - intros ->. done.
  - intros ->. done.
Qed.

Lemma after_dashes_name two c r s : c <> "-"%char -> after_dashes (dashes two +:+ String c r +:+ s) = Some (Some (String c r +:+ s)).
Proof.
  intros Hc. rewrite !app_String. destruct two.
  - change (dashes true +:+ String c (r +:+ s)) with (String "-" (String "-" (String c (r +:+ s)))). unfold after_dashes.
    rewrite !decide_True by done. by rewrite decide_False.
  - change (dashes false +:+ String c (r +:+ s)) with (String "-" (String c (r +:+ s))). unfold after_dashes. rewrite decide_True by done. by rewrite decide_False.
Qed.

Lemma bad_syntax_name c r s : c <> "-"%char -> c <> "="%char -> bad_syntax (String c r +:+ s) = false.
Proof. intros H1 H2. rewrite app_String. unfold bad_syntax. by rewrite !bool_decide_eq_false_2. Qed.

Lemma Parse_stops fs fuel rest found :
  Forall (fun s => has_prefix s "-" = false) rest -> (0 < fuel)%nat -> Parse_aux fuel fs rest found = Ok (found, rest).
Proof.
  intros Hr Hf. destruct fuel as [|fuel]; [lia|]. cbn [Parse_aux]. destruct Hr as [|s rest Hs Hr]; [done|].
  assert (after_dashes s = None) as ->; [|done]. destruct s as [|c [|d s]]; [done..|]. unfold after_dashes. rewrite decide_False; [done|]. intros ->. done.
Qed.

Lemma Parse_pieces fs ps rest fuel found :
  Forall (piece_ok fs) ps -> Forall (fun s => has_prefix s "-" = false) rest ->
  (length (flag_words ps ++ rest) < fuel)%nat ->
  Parse_aux fuel fs (flag_words ps ++ rest) found = Ok (found ++ omap setting ps, rest).
Proof.
  intros Hps Hrest. revert fuel found. induction Hps as [|p ps Hp Hps IH]; intros fuel found Hf.
  { cbn in *. rewrite app_nil_r. apply Parse_stops; [done|lia]. }
  destruct p as [s|two n v|two n v]; unfold flag_words in *; cbn [map concat words app] in *; fold (flag_words ps) in *.
  - by apply IH.
  - destruct Hp as (Hn & Hb & Hs). destruct (name_shape n Hn) as (c & r & -> & Hc & He & Hl). destruct fuel as [|fuel]; [cbn in Hf; lia|]. cbn [Parse_aux].
    rewrite <- (append_nil_r (String c r)) at 1. rewrite after_dashes_name, bad_syntax_name by done. rewrite append_nil_r.
    assert (split_name (String c r) = (String c r, None)) as -> by (cbn [split_name]; by rewrite cut_alone).
    rewrite Hb, Hs. rewrite IH by (cbn in Hf; lia). cbn. by rewrite <- app_assoc.
  - destruct Hp as (Hn & Hb & Hs). destruct (name_shape n Hn) as (c & r & -> & Hc & He & Hl). destruct fuel as [|fuel]; [cbn in Hf; lia|]. cbn [Parse_aux].
    rewrite after_dashes_name, bad_syntax_name by done.
    assert (split_name (String c r +:+ "=" +:+ v) = (String c r, Some v)) as ->.
    { rewrite !app_String, app_empty. cbn [split_name]. by rewrite cut_lacking. }
    rewrite Hb, Hs. rewrite IH by (cbn in Hf; lia). cbn. by rewrite <- app_assoc.
Qed.

Lemma positional_ok fs ps : Forall (piece_ok fs) ps -> Forall (fun s => has_prefix s "-" = false) (omap positional ps).
Proof. induction 1 as [|[s|? ? ?|? ? ?] ps Hp _ IH]; cbn; [constructor|by constructor|done..]. Qed.

(** Flags are accepted on either side of the arguments.  A command line made of
    arguments and of flags that take a value, in any order and in any of the
    four spellings, sets every flag to its value, in order, and leaves the
    arguments, in order: where the arguments stand does not matter. *)
Theorem flags_in_either_position fs ps :
  Forall (piece_ok fs) ps ->
  Parse fs (partitionFlags (concat (map words ps))) = Ok (omap setting ps, omap positional ps).
Proof.
  intros Hps. unfold partitionFlags. rewrite (partition_pieces fs) by done. cbn [app].
  unfold Parse. rewrite Parse_pieces; [done|done|by eapply positional_ok|lia].
Qed.

(** ** Witness *)

Definition demo_flags : flag_set := mkFlagSet
  (fun n => if decide (n ∈ ["type"; "count"; "param"]) then Some false else None)
  (fun n v => if decide (n = "count" /\ Atoi v = None) then Some "parse error" else None).

Definition demo_line : list piece :=
  [Joined true "type" "tcp"; Positional "1.1.1.1:443"; Spaced true "param" "tls=true"; Spaced false "count" "-3"].

Lemma flags_in_either_position_witness :
  Parse demo_flags (partitionFlags ["--type=tcp"; "1.1.1.1:443"; "--param"; "tls=true"; "-count"; "-3"])
  = Ok ([("type", "tcp"); ("param", "tls=true"); ("count", "-3")], ["1.1.1.1:443"]).
Proof.
  refine (flags_in_either_position demo_flags demo_line _).
  repeat (apply Forall_cons; split; [vm_compute; repeat split; (done || discriminate)|]). apply Forall_nil_2.
Defined.

(** Without the reordering the parser stops at the target. *)
Example parse_alone : Parse demo_flags ["1.1.1.1:443"; "--type"; "tcp"] = Ok ([], ["1.1.1.1:443"; "--type"; "tcp"]).
Proof. by vm_compute. Qed.
