(* ===== verification/Cli.v ===== *)
(** * The command line

    [cmd/radar-node/main.go]: the commands, the flags of [probe], [agent],
    [init] and the module commands, and what a command does with them; and
    [internal/output/output.go].  Number and duration syntax, the registry, the
    checkers and the host are arguments. *)

From Stdlib Require Import ZArith Lia List Bool Ascii String.
From stdpp Require Import base tactics gmap strings list pretty fin_maps.
From S2P Require Import Prelude GoStrings GoText Netbind Wire Checks Flags Filepath.
From S2P Require Config ModuleInstall.

Open Scope string_scope.
Open Scope list_scope.
Open Scope Z_scope.

(** ** Output ([output.go]) *)

Record Envelope : Type := mkEnvelope { env_Ok : bool; env_Results : list CheckResult }.

Definition columns : list string := ["ok"; "type"; "target"; "seq"; "latency_ms"; "error"; "extra"].

(** What is written: the document, the records of a CSV, or tabbed lines. *)
Inductive written : Type := Document (env : Envelope) | Records (rows : list (list string)) | Lines (lines : list string).

Section output.
Context (fmt2 : float64 -> string) (json_marshal : any -> option string) (quote : string -> string).

Definition row (r : CheckResult) : list string :=
  [if r_Ok r then "true" else "false"; r_Type r; r_Target r; pretty (r_Seq r);
   match LatencyMs r with Some f => fmt2 f | None => "" end; r_Error r;
   match Extra r with [] => "" | m => default "" (json_marshal (VObject m)) end].

Definition tab : string := String "009" "".

Definition tabJoin (fields : list string) : string := fold_left (fun out f => out +:+ tab +:+ f) (tail fields) (default "" (head fields)).

Definition Write (format : string) (env : Envelope) : result string written :=
  if decide (format = "json") then Ok (Document env)
  else if decide (format = "csv") then Ok (Records (columns :: map row (env_Results env)))
  else if decide (format = "table") then Ok (Lines (map tabJoin (columns :: map row (env_Results env))))
  else Err ("unknown output format " +:+ quote format).
End output.

(** ** Flags *)

Inductive kind : Type := KString | KInt | KDuration | KBool | KParam.

(** A flag set, and what its flags hold until they are set. *)
Abbreviation flag_table := (list (string * (kind * string))).

Definition kind_of (t : flag_table) (name : string) : option kind := fst <$> (list_to_map t : gmap string (kind * string)) !! name.
Definition default_of (t : flag_table) (name : string) : string := default "" (snd <$> (list_to_map t : gmap string (kind * string)) !! name).

(** The last setting of a flag. *)
Definition value_of (t : flag_table) (sets : list (string * string)) (name : string) : string :=
  fold_left (fun v kv => if decide (fst kv = name) then snd kv else v) sets (default_of t name).

Section cli.
Context (quote : string -> string) (parse_int : string -> option Z) (parse_duration : string -> option duration) (parse_bool : string -> option bool).

Definition set_of_kind (name : string) (k : kind) (v : string) : option string :=
  let refuse := Some ("invalid value " +:+ quote v +:+ " for flag -" +:+ name +:+ ": parse error") in
  match k with
  | KString => None
  | KInt => match parse_int v with Some _ => None | None => refuse end
  | KDuration => match parse_duration v with Some _ => None | None => refuse end
  | KBool => match parse_bool v with Some _ => None | None => refuse end
  | KParam => match cut "="%char v with Some _ => None | None => refuse end
  end.

Definition flags_of (t : flag_table) : flag_set :=
  mkFlagSet (fun name => (fun k => match k with KBool => true | _ => false end) <$> kind_of t name)
            (fun name v => match kind_of t name with Some k => set_of_kind name k v | None => None end).

Definition int_of (t : flag_table) (sets : list (string * string)) (name : string) : Z := default 0 (parse_int (value_of t sets name)).
Definition duration_of (t : flag_table) (sets : list (string * string)) (name : string) : duration := default 0 (parse_duration (value_of t sets name)).

(** The parameters set by [--param], the last value of a key. *)
Definition params_of (sets : list (string * string)) : stringMap :=
  fold_left (fun m kv => if decide (fst kv = "param") then match stringMap_Set quote (snd kv) m with Ok m => m | Err _ => m end else m) sets ∅.

Definition toParams (m : stringMap) : params := map (fun kv => (fst kv, VString (snd kv))) (map_to_list m).

(** ** [probe] *)

Definition probe_flags : flag_table :=
  [("type", (KString, "tcp")); ("count", (KInt, "1")); ("timeout", (KDuration, "5s")); ("format", (KString, "json"));
   ("param", (KParam, "")); ("modules-dir", (KString, "")); ("tools-dir", (KString, "")); ("source-ip", (KString, ""));
   ("bind-interface", (KString, ""))].

(** One run of a checker after another: [k] is how many came before. *)
Abbreviation run_check := (nat -> Options -> CheckResult).

Definition probe_options (target : string) (timeout : duration) (params : params) (b : Binding) (i : Z) : Options :=
  mkOptions target timeout "" "" i params b.

(** [for i := 1; i <= count; i++]. *)
Definition run_count (check : run_check) (count : Z) (o : Z -> Options) : Envelope :=
  let results := map (fun k => check k (o (Z.of_nat k + 1))) (List.seq 0 (Z.to_nat count)) in
  mkEnvelope (forallb r_Ok results) results.

Context `{NetIP} (registry : string -> string -> result string (string -> option run_check))
        (write : string -> Envelope -> result string written) (bind_text : bind_error -> string).

Definition runProbe (args : list string) : result string written :=
  match Flags.Parse (flags_of probe_flags) (partitionFlags args) with
  | Err e => Err e
  | Ok (sets, rest) =>
      match rest with
      | [target] =>
          let str := value_of probe_flags sets in
          match Netbind.Parse (str "source-ip") (str "bind-interface") with
          | Err e => Err (bind_text e)
          | Ok binding =>
              match registry (str "modules-dir") (str "tools-dir") with
              | Err e => Err e
              | Ok get =>
                  match get (str "type") with
                  | None => Err ("unknown --type " +:+ quote (str "type") +:+ " (not a built-in prober or a module in --modules-dir)")
                  | Some check =>
                      let count := int_of probe_flags sets "count" in
                      if count <? 1 then Err "--count must be >= 1"
                      else write (str "format")
                             (run_count check count (probe_options target (duration_of probe_flags sets "timeout") (toParams (params_of sets)) binding))
                  end
              end
          end
      | _ => Err "expected exactly one target argument"
      end
  end.

(** ** [agent] *)

Definition agent_flags : flag_table :=
  [("api-url", (KString, "")); ("api-key", (KString, "")); ("api-proxy", (KString, "")); ("scheduler-tick", (KDuration, "2s"));
   ("concurrency", (KInt, "0")); ("max-jobs-per-tick", (KInt, "0")); ("max-jobs-per-probe", (KInt, "0")); ("max-triggers-per-tick", (KInt, "0"));
   ("startup-jitter", (KDuration, "5s")); ("mem-limit", (KInt, "0")); ("pool-concurrency", (KInt, "0")); ("pool-max-jobs", (KInt, "0"));
   ("pool-port-base", (KInt, "0")); ("pool-port-span", (KInt, "0")); ("domain-strategy", (KString, "")); ("source-ip", (KString, ""));
   ("bind-interface", (KString, "")); ("spool-dir", (KString, "")); ("spool-max-bytes", (KInt, "0")); ("db-path", (KString, ""));
   ("db-max-bytes", (KInt, "33554432")); ("db-retention", (KDuration, "720h0m0s")); ("db-sync", (KString, "normal"));
   ("destination-interval", (KDuration, "10s")); ("destination-max-wait", (KDuration, "30s")); ("modules-dir", (KString, "")); ("tools-dir", (KString, ""))].

(** The configuration handed to [agent.Run]. *)
Definition runAgent (version : string) (args : list string) : result string Config.Config :=
  match Flags.Parse (flags_of agent_flags) args with
  | Err e => Err e
  | Ok (sets, _) =>
      let str := value_of agent_flags sets in
      let int := int_of agent_flags sets in
      let dur := duration_of agent_flags sets in
      if decide (str "api-url" = "") then Err "--api-url is required"
      else if decide (str "api-key" = "") then Err "--api-key is required"
      else Ok {| Config.APIURL := str "api-url"; Config.APIKey := str "api-key"; Config.ProxyURL := str "api-proxy"; Config.Version := version;
                 Config.SchedulerTick := dur "scheduler-tick"; Config.Concurrency := int "concurrency";
                 Config.MaxJobsPerTick := int "max-jobs-per-tick"; Config.MaxJobsPerProbe := int "max-jobs-per-probe";
                 Config.MaxTriggersPerTick := int "max-triggers-per-tick"; Config.StartupJitter := dur "startup-jitter";
                 Config.MemoryLimitBytes := int "mem-limit"; Config.PoolConcurrency := int "pool-concurrency"; Config.PoolMaxJobs := int "pool-max-jobs";
                 Config.PoolPortBase := int "pool-port-base"; Config.PoolPortSpan := int "pool-port-span"; Config.DomainStrategy := str "domain-strategy";
                 Config.cfg_SourceIP := str "source-ip"; Config.BindInterface := str "bind-interface"; Config.SpoolDir := str "spool-dir";
                 Config.SpoolMaxBytes := int "spool-max-bytes"; Config.DBPath := str "db-path"; Config.DBMaxBytes := int "db-max-bytes";
                 Config.DBRetention := dur "db-retention"; Config.DBSync := str "db-sync"; Config.DestinationInterval := dur "destination-interval";
                 Config.DestinationMaxWait := dur "destination-max-wait"; Config.ModulesDir := str "modules-dir"; Config.ToolsDir := str "tools-dir" |}
  end.

(** ** [init] *)

Definition init_flags : flag_table := [("C", (KString, ".")); ("force", (KBool, "false"))].

(** A file system's answers: whether a directory can be made, and whether a
    write fails, and what it leaves then. *)
Record init_world : Type := mkInitWorld { in_mkdir : string -> option string; in_write : string -> string -> option (string * option string) }.

Definition put (dest : string) (o : option string) (fs : gmap string string) : gmap string string :=
  match o with Some data => <[dest := data]> fs | None => fs end.

(** The loop over the embedded files: the error, the paths printed, the files. *)
Fixpoint init_files (w : init_world) (path : string) (force : bool) (entries : list (string * string)) (printed : list string) (fs : gmap string string)
    : option string * list string * gmap string string :=
  match entries with
  | [] => (None, printed, fs)
  | (name, data) :: rest =>
      let dest := Filepath.Join path name in
      if negb force && bool_decide (is_Some (fs !! dest)) then init_files w path force rest printed fs
      else
        match in_write w dest data with
        | Some (e, partial) => (Some ("write " +:+ dest +:+ ": " +:+ e), printed, put dest partial fs)
        | None => init_files w path force rest (printed ++ [dest]) (<[dest := data]> fs)
        end
  end.

(** Every name is its own file: none is a symbolic link. *)
Definition runInit (w : init_world) (defaults : list (string * string)) (args : list string) (fs : gmap string string)
    : option string * list string * gmap string string :=
  match Flags.Parse (flags_of init_flags) args with
  | Err e => (Some e, [], fs)
  | Ok (sets, _) =>
      let path := value_of init_flags sets "C" in
      match in_mkdir w path with
      | Some e => (Some ("create " +:+ path +:+ ": " +:+ e), [], fs)
      | None => init_files w path (default false (parse_bool (value_of init_flags sets "force"))) defaults [] fs
      end
  end.

(** ** The module commands *)

(** The home directory's error is ignored: it is then empty. *)
Definition defaultModuleDirs (root : bool) (home : string) : string * string :=
  if root then ("/etc/radar-node/modules.d", "/etc/radar-node/tools")
  else (Filepath.Join (Filepath.Join (Filepath.Join home ".config") "radar-node") "modules.d",
        Filepath.Join (Filepath.Join (Filepath.Join home ".config") "radar-node") "tools").

Definition module_flags (root : bool) (home : string) : flag_table :=
  let '(modules, tools) := defaultModuleDirs root home in
  [("modules-dir", (KString, modules)); ("tools-dir", (KString, tools)); ("proxy", (KString, ""))].

(** The directories, the proxy and the one argument of a module command. *)
Definition module_command (what : string) (root : bool) (home : string) (args : list string)
    : result string (ModuleInstall.Config * string * string) :=
  let t := module_flags root home in
  match Flags.Parse (flags_of t) (partitionFlags args) with
  | Err e => Err e
  | Ok (sets, rest) =>
      match rest with
      | [arg] => Ok (ModuleInstall.mkConfig (value_of t sets "modules-dir") (value_of t sets "tools-dir"), value_of t sets "proxy", arg)
      | _ => Err ("expected exactly one <" +:+ what +:+ "> argument")
      end
  end.

(** What a module command prints, and the host it leaves: [act] is [Fetch],
    [Install] or [Remove] under the directories and the proxy. *)
Definition run_module (what said : string) (act : ModuleInstall.Config -> string -> string -> ModuleInstall.host -> option string * ModuleInstall.host)
    (root : bool) (home : string) (args : list string) (h : ModuleInstall.host) : result string string * ModuleInstall.host :=
  match module_command what root home args with
  | Err e => (Err e, h)
  | Ok (cfg, proxy, arg) =>
      match act cfg proxy arg h with
      | (Some e, h) => (Err e, h)
      | (None, h) => (Ok (said +:+ " " +:+ arg), h)
      end
  end.
End cli.

(** ** The commands *)

Inductive command : Type :=
| CProbe | CAgent | CInit | CFetchModule | CInstallModule | CRemoveModule | CLogs | CStore | CJobProbe | CPoolConfig | CVersion | CUsage.

Definition command_of (name : string) : option command :=
  if decide (name = "probe") then Some CProbe else if decide (name = "agent") then Some CAgent
  else if decide (name = "init") then Some CInit else if decide (name = "fetch-module") then Some CFetchModule
  else if decide (name = "install-module") then Some CInstallModule else if decide (name = "remove-module") then Some CRemoveModule
  else if decide (name = "logs") then Some CLogs else if decide (name = "store") then Some CStore
  else if decide (name = "jobprobe") then Some CJobProbe else if decide (name = "poolconfig") then Some CPoolConfig
  else if decide (name ∈ ["version"; "-v"; "--version"]) then Some CVersion
  else if decide (name ∈ ["-h"; "--help"; "help"]) then Some CUsage else None.

(** The exit status: [run] gives a command's error. *)
Definition main (run : command -> list string -> option string) (argv : list string) : Z :=
  match argv with
  | _ :: name :: args =>
      match command_of name with
      | None => 2
      | Some CVersion | Some CUsage => 0
      | Some c => match run c args with Some _ => 1 | None => 0 end
      end
  | _ => 2
  end.

(** ** What [probe] runs *)

Section probe.
Context (quote : string -> string) (parse_int : string -> option Z) (parse_duration : string -> option duration) (parse_bool : string -> option bool).

Notation flags_of' := (flags_of quote parse_int parse_duration parse_bool).

(** Every flag of the commands that reorder their arguments takes a value. *)
Lemma reordered_flags_take_values root home name k :
  (kind_of probe_flags name = Some k \/ kind_of (module_flags root home) name = Some k) -> k <> KBool.
Proof.
  intros [E|E]; revert E; unfold kind_of.
  - intros (kd & E & E2)%fmap_Some. apply elem_of_list_to_map_2 in E. rewrite E2. unfold probe_flags in E.
    rewrite !elem_of_cons, elem_of_nil in E. destruct_or! E; simplify_eq; by cbn.
  - intros (kd & E & E2)%fmap_Some. apply elem_of_list_to_map_2 in E. rewrite E2. unfold module_flags in E. destruct (defaultModuleDirs root home).
    rewrite !elem_of_cons, elem_of_nil in E. destruct_or! E; simplify_eq; by cbn.
Qed.

Lemma run_count_spec check count o :
  1 <= count ->
  length (env_Results (run_count check count o)) = Z.to_nat count
  /\ (forall i, 1 <= i <= count -> env_Results (run_count check count o) !! Z.to_nat (i - 1) = Some (check (Z.to_nat (i - 1)) (o i)))
  /\ (env_Ok (run_count check count o) = true <-> Forall (fun r => r_Ok r = true) (env_Results (run_count check count o))).
Proof.
  intros Hc. unfold run_count. cbn [env_Results env_Ok]. split; [by rewrite length_map, length_seq|]. split.
  - intros i Hi. change (map (fun k => check k (o (Z.of_nat k + 1))) ?l) with ((fun k => check k (o (Z.of_nat k + 1))) <$> l).
    rewrite list_lookup_fmap. assert (List.seq 0 (Z.to_nat count) !! Z.to_nat (i - 1) = Some (Z.to_nat (i - 1))) as ->.
    { apply lookup_seq. lia. }
    cbn. do 2 f_equal. f_equal. lia.
  - rewrite forallb_forall, Forall_forall. by setoid_rewrite list_elem_of_In.
Qed.

(** A probe's command line: one target and flags, in any order. *)
Definition line_ok (ps : list piece) (target : string) : Prop :=
  Forall (piece_ok (flags_of' probe_flags)) ps /\ omap positional ps = [target].

Context `{NetIP} (registry : string -> string -> result string (string -> option (nat -> Options -> CheckResult)))
        (write : string -> Envelope -> result string written) (bind_text : bind_error -> string).

(** [radar-node probe] runs what its command line says, wherever the target
    stands: the checker of [--type] is asked [--count] times, numbered from 1,
    each time for the same target under the same parameters, timeout and
    binding; and the envelope written is up exactly when every answer is. *)
Theorem probe_runs_its_line ps target binding get check :
  let sets := omap setting ps in
  let str := value_of probe_flags sets in
  let count := int_of parse_int probe_flags sets "count" in
  let o := probe_options target (duration_of parse_duration probe_flags sets "timeout") (toParams (params_of quote sets)) binding in
  let env := run_count check count o in
  line_ok ps target ->
  Netbind.Parse (str "source-ip") (str "bind-interface") = Ok binding ->
  registry (str "modules-dir") (str "tools-dir") = Ok get -> get (str "type") = Some check -> 1 <= count ->
  runProbe quote parse_int parse_duration parse_bool registry write bind_text (concat (map words ps)) = write (str "format") env
  /\ length (env_Results env) = Z.to_nat count
  /\ (forall i, 1 <= i <= count -> env_Results env !! Z.to_nat (i - 1) = Some (check (Z.to_nat (i - 1)) (o i)) /\ o_Seq (o i) = i)
  /\ (env_Ok env = true <-> Forall (fun r => r_Ok r = true) (env_Results env)).
Proof.
  cbn zeta. intros [Hps Ht] Hb Hr Hg Hc. set (count := int_of _ _ _ _) in *. set (o := probe_options _ _ _ _).
  destruct (run_count_spec check count o Hc) as (H1 & H2 & H3). split; [|split; [done|split; [|done]]].
  - unfold runProbe, partitionFlags. rewrite (partition_pieces (flags_of' probe_flags)) by done. cbn [app]. unfold Flags.Parse.
    rewrite Parse_pieces; [|done|by eapply positional_ok|lia]. cbn [app]. rewrite Ht, Hb, Hr, Hg. fold count. by rewrite (proj2 (Z.ltb_ge _ _)).
  - intros i Hi. by rewrite H2.
Qed.
End probe.

(** ** What [init] writes *)

Lemma init_files_keeps w path force entries printed fs :
  let '(_, _, fs') := init_files w path force entries printed fs in
  force = false -> forall p, is_Some (fs !! p) -> fs' !! p = fs !! p.
Proof.
  revert printed fs. induction entries as [|[name data] entries IH]; intros printed fs; cbn [init_files]; [done|].
  destruct force.
  - cbn [negb andb]. destruct (in_write w _ data) as [[e partial]|]; [done|].
    specialize (IH (printed ++ [Filepath.Join path name]) (<[Filepath.Join path name := data]> fs)). by destruct (init_files w path true entries _ _) as [[? ?] ?].
  - cbn [negb andb]. case_bool_decide as Hd; [apply IH|]. destruct (in_write w _ data) as [[e partial]|].
    + intros _ p Hp. unfold put. destruct partial; [|done]. rewrite lookup_insert_ne; [done|]. by intros <-.
    + specialize (IH (printed ++ [Filepath.Join path name]) (<[Filepath.Join path name := data]> fs)). destruct (init_files w path false entries _ _) as [[? ?] fs'].
      intros _ p Hp. assert (Filepath.Join path name <> p) by (by intros <-). rewrite IH; [by rewrite lookup_insert_ne|done|]. by rewrite lookup_insert_ne.
Qed.

Lemma init_files_all w path force entries printed fs printed' fs' :
  init_files w path force entries printed fs = (None, printed', fs') ->
  (forall name data, (name, data) ∈ entries -> is_Some (fs' !! Filepath.Join path name))
  /\ (forall p, is_Some (fs !! p) -> is_Some (fs' !! p))
  /\ (forall p, fs' !! p <> fs !! p -> exists name data, (name, data) ∈ entries /\ p = Filepath.Join path name /\ fs' !! p = Some data).
Proof.
  revert printed fs. induction entries as [|[name data] entries IH]; intros printed fs; cbn [init_files].
  { intros [= <- <-]. split; [by intros ? ? ?%elem_of_nil|]. done. }
  destruct (negb force && _) eqn:Ek.
  - apply andb_true_iff in Ek as [_ Hex%bool_decide_eq_true]. intros (H1 & H2 & H3)%IH. split; [|split; [done|]].
    + intros n d [[= -> ->]|Hin]%elem_of_cons; [by apply H2|by eapply H1].
    + intros p (n & d & Hin & Hp)%H3. exists n, d. split; [by right|done].
  - destruct (in_write w _ data) as [[e partial]|]; [done|]. intros (H1 & H2 & H3)%IH. split; [|split].
    + intros n d [[= -> ->]|Hin]%elem_of_cons; [apply H2; by rewrite lookup_insert_eq|by eapply H1].
    + intros p Hp. apply H2. destruct (decide (Filepath.Join path name = p)) as [->|Hne]; [by rewrite lookup_insert_eq|by rewrite lookup_insert_ne].
    + intros p Hp. destruct (decide (fs' !! p = <[Filepath.Join path name := data]> fs !! p)) as [E|E].
      * destruct (decide (Filepath.Join path name = p)) as [<-|Hne].
        -- exists name, data. split; [by left|]. split; [done|]. by rewrite E, lookup_insert_eq.
        -- by rewrite E, lookup_insert_ne in Hp.
      * destruct (H3 p E) as (n & d & Hin & Hpe). exists n, d. split; [by right|done].
Qed.

(** [radar-node init] never touches a file that exists unless it is told to,
    even when it fails half way.  When it succeeds every module file is there,
    and whatever changed is a module file with its own text. *)
Theorem init_preserves_files w defaults quote parse_int parse_duration parse_bool args fs err printed fs' :
  runInit quote parse_int parse_duration parse_bool w defaults args fs = (err, printed, fs') ->
  (forall sets rest, Flags.Parse (flags_of quote parse_int parse_duration parse_bool init_flags) args = Ok (sets, rest) ->
     default false (parse_bool (value_of init_flags sets "force")) = false ->
     forall p, is_Some (fs !! p) -> fs' !! p = fs !! p)
  /\ (err = None -> exists path,
       (forall name data, (name, data) ∈ defaults -> is_Some (fs' !! Filepath.Join path name))
       /\ (forall p, fs' !! p <> fs !! p -> exists name data, (name, data) ∈ defaults /\ p = Filepath.Join path name /\ fs' !! p = Some data)).
Proof.
  unfold runInit. destruct (Flags.Parse _ args) as [[sets rest]|e]; [|by intros [= <- <- <-]].
  destruct (in_mkdir w _) as [e|]; [by intros [= <- <- <-]|]. set (path := value_of _ _ _). set (force := default false _). intros E. split.
  - intros sets' rest' [= <- <-] Hforce. fold force in Hforce. pose proof (init_files_keeps w path force defaults [] fs) as Hk. rewrite E in Hk. by apply Hk.
  - intros ->. exists path. apply init_files_all in E as (H1 & _ & H3). done.
Qed.

(** ** Witnesses *)

Definition demo_int : string -> option Z := Atoi.
Definition demo_duration (s : string) : option duration := if decide (s = "5s") then Some (5 * second) else if decide (s = "250ms") then Some (250 * millisecond) else None.
Definition demo_bool (s : string) : option bool := if decide (s = "true") then Some true else if decide (s = "false") then Some false else None.

Definition demo_line : list piece :=
  [Spaced true "type" "tcp"; Positional "1.1.1.1:443"; Joined false "count" "2"; Spaced true "param" "tls=true"; Spaced true "timeout" "250ms"].

Definition demo_registry (modules tools : string) : result string (string -> option (nat -> Options -> CheckResult)) :=
  Ok (fun name => if decide (name = "tcp") then Some (fun k o => mkCheckResult false (k =? 0)%nat "tcp" (o_Target o) (o_Seq o) None "" "" (o_Params o)) else None).

Lemma probe_runs_its_line_witness :
  exists env, @runProbe (fun s => s) demo_int demo_duration demo_bool demoNetIP demo_registry (fun _ e => Ok (Document e)) (fun _ => "bind")
                ["--type"; "tcp"; "1.1.1.1:443"; "-count=2"; "--param"; "tls=true"; "--timeout"; "250ms"] = Ok (Document env)
  /\ length (env_Results env) = 2%nat /\ env_Ok env = false.
Proof.
  eexists. split.
  - refine (proj1 (@probe_runs_its_line (fun s => s) demo_int demo_duration demo_bool demoNetIP demo_registry (fun _ e => Ok (Document e)) (fun _ => "bind")
             demo_line "1.1.1.1:443" (mkBinding None "") _ _ _ _ _ _ _)).
    + split; [|by vm_compute]. repeat (apply Forall_cons; split; [vm_compute; repeat split; (done || discriminate)|]). apply Forall_nil_2.
    + by vm_compute.
    + reflexivity.
    + by vm_compute.
    + by vm_compute.
  - by vm_compute.
Defined.

Definition demo_world : init_world := mkInitWorld (fun _ => None) (fun dest data => if decide (data = "full") then Some ("no space", Some "") else None).

Lemma init_preserves_files_witness :
  let out := runInit (fun s => s) demo_int demo_duration demo_bool demo_world [("tcp.yaml", "tcp"); ("udp.yaml", "udp")] ["-C"; "/m"] {["/m/tcp.yaml" := "mine"]} in
  snd out !! "/m/tcp.yaml" = Some "mine" /\ snd out !! "/m/udp.yaml" = Some "udp".
Proof.
  intros out. split; [|by vm_compute]. subst out. destruct (runInit _ _ _ _ _ _ _ _) as [[err printed] fs'] eqn:E. cbn [snd].
  rewrite (proj1 (init_preserves_files _ _ _ _ _ _ _ _ _ _ _ E) [("C", "/m")] []); first [by vm_compute|by eexists; vm_compute].
Defined.
