(* ===== verification/StoreCli.v ===== *)
(** * The store and log commands

    [cmd/radar-node/store.go] and [logs.go]: which store operation a command
    line asks for, the events [store replay] prints, and which journal entries
    [logs] shows, and how. *)

From Stdlib Require Import ZArith Lia List Bool Ascii String.
From stdpp Require Import base tactics gmap strings list pretty sorting fin_maps.
From S2P Require Import Prelude GoStrings GoText Wire Sql Store StoreMaint Journal StoreWf StoreDemo StoreReads Flags Cli.
From S2P Require Config.

Open Scope string_scope.
Open Scope list_scope.
Open Scope Z_scope.

(** ** [store] ([store.go]) *)

Inductive store_request : Type := Stats_request | Maintain_request (retention : duration) (maxBytes : Z) | Rebuild_request | Replay_request (after limit : Z).

Definition store_flags : flag_table := [("db", (KString, "")); ("origin", (KString, ""))].
Definition maintain_flags : flag_table := store_flags ++ [("retention", (KDuration, "720h0m0s")); ("max-bytes", (KInt, "33554432"))].
Definition replay_flags : flag_table := store_flags ++ [("after", (KInt, "0")); ("limit", (KInt, "1000"))].

Section store.
Context (quote : string -> string) (parse_int : string -> option Z) (parse_duration : string -> option duration) (parse_bool : string -> option bool).

Notation flags_of' := (flags_of quote parse_int parse_duration parse_bool).

(** The database's path and origin, and the request: what is checked before the
    database is opened. *)
Definition store_request_of (args : list string) : result string (string * string * store_request) :=
  let parsed t k := let* p := Flags.Parse (flags_of' t) (tail args) in k (fst p) in
  let opened t sets r := if decide (value_of t sets "db" = "") then Err "--db is required" else Ok (value_of t sets "db", value_of t sets "origin", r) in
  match args with
  | [] => Err "store: expected stats, maintain, rebuild, or replay"
  | name :: _ =>
      if decide (name = "stats") then parsed store_flags (fun sets => opened store_flags sets Stats_request)
      else if decide (name = "maintain") then
        parsed maintain_flags (fun sets =>
          let retention := duration_of parse_duration maintain_flags sets "retention" in
          let maxBytes := int_of parse_int maintain_flags sets "max-bytes" in
          if retention <? 0 then Err "--retention must not be negative"
          else if maxBytes <? 0 then Err "--max-bytes must not be negative"
          else opened maintain_flags sets (Maintain_request retention maxBytes))
      else if decide (name = "rebuild") then parsed store_flags (fun sets => opened store_flags sets Rebuild_request)
      else if decide (name = "replay") then
        parsed replay_flags (fun sets =>
          let after := int_of parse_int replay_flags sets "after" in
          let limit := int_of parse_int replay_flags sets "limit" in
          if limit <? 1 then Err "--limit must be positive" else opened replay_flags sets (Replay_request after limit))
      else Err ("store: unknown subcommand " +:+ quote name)
  end.

(** [runStoreReplay] on an open store: each event is encoded on standard
    output, which may refuse it; then the cursor is printed. *)
Definition runStoreReplay (refuses : list JournalEvent -> JournalEvent -> option string) (after limit : Z) (fs : faults) (d : database)
    : list JournalEvent * result string Z :=
  let '(printed, next, err) := Replay after limit (collect refuses) [] fs d in
  (printed, match err with Some e => Err e | None => Ok next end).

(** A command line of [store replay], run over and over, each time after the
    cursor the run before printed. *)
Fixpoint replay_again (refuses : list JournalEvent -> JournalEvent -> option string) (runs : list (Z * faults)) (after : Z) (d : database)
    : list JournalEvent * result string Z :=
  match runs with
  | [] => ([], Ok after)
  | (limit, fs) :: rest =>
      match runStoreReplay refuses after limit fs d with
      | (printed, Err e) => (printed, Err e)
      | (printed, Ok next) => let '(more, last) := replay_again refuses rest next d in (printed ++ more, last)
      end
  end.

(** Only requests that make sense reach a database: a path, a limit of at least
    one, and a retention and a size that are not negative. *)
Lemma store_request_sane args path origin r :
  store_request_of args = Ok (path, origin, r) ->
  path <> "" /\ match r with
                | Replay_request _ limit => 1 <= limit
                | Maintain_request retention maxBytes => 0 <= retention /\ 0 <= maxBytes
                | _ => True
                end.
Proof.
  unfold store_request_of. destruct args as [|name args]; [done|]. repeat case_decide; try done;
    intros (p & _ & Hreq)%res_bind_Ok; cbn zeta in Hreq; repeat (case_match; try done); simplify_eq; zify_bool; try done; try lia; split; (done || lia).
Qed.

(** What [store replay] prints is the journal.  Whatever fails, a run prints
    the events after its cursor, in order, up to some row; a run that succeeds
    prints the cursor of its last event, and runs that go on from the cursor
    printed print every event between the first cursor and the last exactly
    once. *)
Theorem replay_prints_the_journal refuses runs after d printed :
  db_wf d ->
  (forall e, replay_again refuses runs after d = (printed, Err e) -> exists upto, after <= upto /\ printed = events_between after upto d)
  /\ forall last, replay_again refuses runs after d = (printed, Ok last) -> after <= last /\ printed = events_between after last d.
Proof.
  intros Hwf. revert after printed. induction runs as [|[limit fs] runs IH]; intros after printed; cbn [replay_again].
  - split; [done|]. intros last [= <- <-]. split; [lia|]. unfold events_between. rewrite filter_none; [done|].
    intros r _. apply andb_false_iff. destruct (after <? seq r) eqn:E; [right|by left]. apply Z.ltb_lt in E. apply Z.leb_gt. lia.
  - unfold runStoreReplay. destruct (Replay after limit (collect refuses) [] fs d) as [[p1 next] err] eqn:E.
    apply Replay_spec in E as (H1 & -> & _); [|done]. cbn [app]. destruct err as [e1|].
    + split; [|done]. intros e [= <- <-]. by exists next.
    + destruct (replay_again refuses runs next d) as [more last1] eqn:E2. destruct (IH next more) as [He Hok]. split.
      * intros e [= <- ->]. destruct (He e E2) as (upto & H2 & ->). exists upto. split; [lia|]. by rewrite events_between_app.
      * intros last [= <- ->]. destruct (Hok last E2) as (H2 & ->). split; [lia|]. by rewrite events_between_app.
Qed.
End store.

(** ** [logs] ([logs.go]) *)

Definition levelRank (name : string) : Z :=
  let v := GoStrings.to_lower (trim_space name) in
  if decide (v = "debug") then 10 else if decide (v = "info") then 20
  else if decide (v ∈ ["warn"; "warning"]) then 30 else if decide (v = "error") then 40 else 0.

(** How [journalctl] is called: as a user when only a user unit is there. *)
Definition journalctl (found root userUnit : bool) (lines : Z) (follow : bool) : result string (list string) :=
  if negb found then Err "journalctl not found"
  else
    let args := ["-u"; "radar-node"; "-o"; "cat"; "-n"; pretty lines] ++ (if follow then ["-f"] else []) in
    Ok ((if negb root && userUnit then ["--user"] else []) ++ args).

Definition asString (v : any) : string := default "" (as_string v).

(** The characters of a UTF-8 text. *)
Fixpoint runes (s : string) : nat :=
  match s with "" => O | String c s => ((if (128 <=? nat_of_ascii c)%nat && (nat_of_ascii c <? 192)%nat then 0 else 1) + runes s)%nat end.

(** [%-5s]: blanks up to a width. *)
Definition pad_right (n : nat) (s : string) : string := s +:+ string_of_list_ascii (repeat " "%char (n - runes s)).

Definition entry_le (a b : string * any) : Prop := String.le (fst a) (fst b).
#[export] Instance entry_le_dec : RelDecision entry_le.
Proof. intros a b. unfold entry_le. apply _. Defined.
#[export] Instance entry_le_trans : Transitive entry_le.
Proof. intros a b c. unfold entry_le. apply transitivity. Qed.
#[export] Instance entry_le_total : Total entry_le.
Proof. intros a b. unfold entry_le. apply total, _. Qed.

Definition header_keys : list string := ["ts"; "level"; "src"; "msg"].

Section logs.
Context (upper : string -> string) (sprint : any -> string) (unmarshal : string -> option params).

(** The entry's fields in the order the loop over the map meets them. *)
Definition format (order : params -> params) (entry : params) : string :=
  let ts := asString (obj_get entry "ts") in
  let ts := if (19 <=? String.length ts)%nat then String.substring 11 8 ts else ts in
  let rest := merge_sort entry_le (List.filter (fun kv => negb (bool_decide (fst kv ∈ header_keys))) (order entry)) in
  ts +:+ " " +:+ pad_right 5 (upper (asString (obj_get entry "level"))) +:+ " " +:+ pad_right 10 (asString (obj_get entry "src"))
     +:+ " " +:+ asString (obj_get entry "msg")
  +:+ fold_right (fun kv s => "  " +:+ fst kv +:+ "=" +:+ sprint (snd kv) +:+ s) "" rest.

Record log_options : Type := mkLogOptions { lo_level : string; lo_src : string; lo_raw : bool }.

(** One line of the journal: what is printed, if anything. *)
Definition show (order : params -> params) (o : log_options) (line : string) : option string :=
  match (if has_prefix (trim_space line) "{" then unmarshal line else None) with
  | None => Some line
  | Some entry =>
      if negb (bool_decide (lo_src o = "")) && negb (bool_decide (asString (obj_get entry "src") = lo_src o)) then None
      else if (0 <? levelRank (lo_level o)) && (levelRank (asString (obj_get entry "level")) <? levelRank (lo_level o)) then None
      else Some (if lo_raw o then line else format order entry)
  end.

(** The scanner holds a line of less than a mebibyte; a longer one ends it. *)
Definition max_line : nat := 1024 * 1024.

Fixpoint runLogs (order : params -> params) (o : log_options) (lines : list string) : list string * option string :=
  match lines with
  | [] => ([], None)
  | line :: rest =>
      if (max_line <=? String.length line)%nat then ([], Some "bufio.Scanner: token too long")
      else
        let '(shown, err) := runLogs order o rest in
        (match show order o line with Some s => s :: shown | None => shown end, err)
  end.

Lemma obj_find_elem (m : params) k v : obj_find m k = Some v -> (k, v) ∈ m.
Proof.
  induction m as [|[k' v'] m IH]; [done|]. cbn. destruct (decide (k' = k)) as [->|]; [intros [= ->]; by left|].
  intros H. right. by apply IH.
Qed.

(** Sorting forgets the order a map was walked in. *)
Lemma sorted_fields_unique (l l' : params) :
  NoDup (map fst l) -> l ≡ₚ l' -> merge_sort entry_le l = merge_sort entry_le l'.
Proof.
  intros Hnd Hp. assert (forall a b : string * any, a ∈ l -> b ∈ l -> fst a = fst b -> a = b) as Hinj.
  { clear Hp. induction l as [|x l IH]; [by intros a b ?%elem_of_nil|]. cbn [map] in Hnd. apply NoDup_cons in Hnd as [Hx Hnd].
    assert (forall c, c ∈ l -> fst c ∈ map fst l) as Hin by (intros c Hc; apply list_elem_of_In, in_map, list_elem_of_In, Hc).
    intros a b [->|Ha]%elem_of_cons [->|Hb]%elem_of_cons E; [done|destruct Hx; rewrite E; by apply Hin|destruct Hx; rewrite <- E; by apply Hin|by apply IH]. }
  assert (StronglySorted entry_le (merge_sort entry_le l)) as H1 by apply (StronglySorted_merge_sort entry_le).
  assert (StronglySorted entry_le (merge_sort entry_le l')) as H2 by apply (StronglySorted_merge_sort entry_le).
  pose proof (merge_sort_Permutation entry_le l) as P1. pose proof (merge_sort_Permutation entry_le l') as P2.
  assert (merge_sort entry_le l ≡ₚ merge_sort entry_le l') as P by (by rewrite P1, P2, Hp).
  assert (forall a, a ∈ merge_sort entry_le l -> a ∈ l) as Hel by (intros a; by rewrite P1).
  revert H1 H2 P Hel. generalize (merge_sort entry_le l) (merge_sort entry_le l'). clear P1 P2 Hp Hnd. intros s.
  induction s as [|x s IH]; intros t H1 H2 P Hel; [by apply Permutation_nil in P as ->|]. destruct t as [|y t]; [by apply Permutation_sym, Permutation_nil in P|].
  apply StronglySorted_inv in H1 as [H1 Hx], H2 as [H2 Hy]. assert (x = y) as ->.
  { assert (x ∈ y :: t) as Hxt by (rewrite <- P; left). assert (y ∈ x :: s) as Hys by (rewrite P; left).
    apply Hinj; [apply Hel; left|by apply Hel|]. rewrite Forall_forall in Hx, Hy.
    apply elem_of_cons in Hxt as [->|Hxt]; [done|]. apply elem_of_cons in Hys as [->|Hys]; [done|].
    apply (anti_symm String.le); [by apply Hx|by apply Hy]. }
  f_equal. apply IH; [done|done|by apply Permutation_cons_inv in P|]. intros a Ha. apply Hel. by right.
Qed.

(** The same entry always renders the same way, in whatever order its map is
    walked. *)
Lemma format_deterministic order order' entry :
  NoDup (map fst entry) -> (forall l, order l ≡ₚ l) -> (forall l, order' l ≡ₚ l) -> format order entry = format order' entry.
Proof.
  intros Hnd Ho Ho'. unfold format. do 8 f_equal. apply sorted_fields_unique.
  - assert (NoDup (map fst (order entry))) as Hn by (by rewrite (Permutation_map fst (Ho entry))). revert Hn. generalize (order entry). intros l Hn.
    induction l as [|x l IH]; [constructor|]. cbn [map] in Hn. apply NoDup_cons in Hn as [Hx Hn]. cbn [List.filter]. destruct (negb _); [|by apply IH].
    cbn [map]. apply NoDup_cons. split; [|by apply IH]. intros Hin. apply Hx. apply list_elem_of_In, in_map_iff in Hin as (z & E & Hz%List.filter_In).
    apply list_elem_of_In, in_map_iff. exists z. tauto.
  - rewrite <- (Ho' entry) in *. assert (order entry ≡ₚ order' entry) as Hp by (by rewrite Ho, Ho'). revert Hp. generalize (order entry) (order' entry).
    intros l l' Hp. induction Hp as [|x l l' _ IH|x y l|l l2 l3 _ IH1 _ IH2]; cbn; [done| | |by etransitivity].
    + destruct (negb _); [by constructor|done].
    + destruct (negb _), (negb _); try done. constructor.
Qed.
End logs.

Section logs_spec.
Context (upper : string -> string) (sprint : any -> string) (unmarshal : string -> option params) (order : params -> params).

Notation show' := (show upper sprint unmarshal order).
Notation runLogs' := (runLogs upper sprint unmarshal order).

Definition short (line : string) : Prop := (String.length line < max_line)%nat.

(** [logs] prints the journal's lines in order, up to the first that is too
    long for the scanner, which is an error.  A line that is no entry is always
    printed as it is; an entry is printed exactly when it is from the subsystem
    asked for and at the level asked for or worse, an unknown level asked for
    asking for nothing. *)
Theorem logs_print o pre post :
  Forall short pre -> match post with [] => True | line :: _ => ~ short line end ->
  runLogs' o (pre ++ post) = (omap (show' o) pre, match post with [] => None | _ => Some "bufio.Scanner: token too long" end)
  /\ forall line,
     ((has_prefix (trim_space line) "{" = false \/ unmarshal line = None) -> show' o line = Some line)
     /\ forall entry, has_prefix (trim_space line) "{" = true -> unmarshal line = Some entry ->
        (is_Some (show' o line) <->
         (lo_src o = "" \/ asString (obj_get entry "src") = lo_src o)
         /\ (levelRank (lo_level o) = 0 \/ levelRank (lo_level o) <= levelRank (asString (obj_get entry "level")))).
Proof.
  intros Hpre Hpost. split.
  - induction Hpre as [|line pre Hl Hpre IH]; cbn [app runLogs omap list_omap].
    + destruct post as [|line post]; [done|]. cbn [runLogs]. unfold short in Hpost. by rewrite (proj2 (Nat.leb_le _ _)) by lia.
    + rewrite (proj2 (Nat.leb_gt _ _)) by done. rewrite IH. by destruct (show' o line).
  - intros line. unfold show. split.
    + intros [-> | Hn]; [done|]. rewrite Hn. by destruct (has_prefix _ _).
    + intros entry Hp Hu. rewrite Hp, Hu. assert (forall v, levelRank v = 0 \/ 0 < levelRank v) as Hrank.
      { intros v. unfold levelRank. repeat case_decide; lia. }
      assert (forall a b, (0 <? levelRank a) && (levelRank b <? levelRank a) = false <-> levelRank a = 0 \/ levelRank a <= levelRank b) as Hlev.
      { intros a b. rewrite andb_false_iff, Z.ltb_ge, Z.ltb_ge. destruct (Hrank a); lia. }
      rewrite <- Hlev. destruct (_ && (_ <? _)) eqn:E2.
      * split; [|intros [_ Hf]; discriminate Hf]. destruct (negb _ && _); by intros [? ?].
      * destruct (bool_decide (lo_src o = "")) eqn:E1; [apply bool_decide_eq_true in E1|apply bool_decide_eq_false in E1]; cbn [negb andb].
        -- split; [split; [by left|done]|by eexists].
        -- destruct (bool_decide (asString _ = _)) eqn:E3; [apply bool_decide_eq_true in E3|apply bool_decide_eq_false in E3]; cbn [negb].
           ++ split; [split; [by right|done]|by eexists].
           ++ split; [by intros [? ?]|by intros [[?|?] _]].
Qed.
End logs_spec.

(** ** Witnesses *)

Definition demo_runs : list (Z * faults) := [(2, []); (1, []); (5, [])].

Lemma replay_prints_the_journal_witness :
  replay_again (fun _ _ => None) demo_runs 1 demo_db = (events_between 1 4 demo_db, Ok 4).
Proof.
  assert (exists p, replay_again (fun _ _ => None) demo_runs 1 demo_db = (p, Ok 4)) as [p E] by (eexists; vm_compute; reflexivity).
  rewrite E. by rewrite (proj2 (proj2 (replay_prints_the_journal (fun _ _ => None) demo_runs 1 demo_db p demo_db_wf) 4 E)).
Defined.

Definition demo_journal_lines : list string := ["Started radar-node"; "{A"; "{B"].
Definition demo_unmarshal (line : string) : option params :=
  if decide (line = "{A") then Some [("level", VString "INFO"); ("src", VString "agent"); ("msg", VString "tick complete"); ("ts", VString "2026-01-01T07:22:48.123Z")]
  else if decide (line = "{B") then Some [("results", VString "4"); ("level", VString "ERROR"); ("src", VString "agent"); ("msg", VString "heartbeat failed"); ("err", VString "refused"); ("ts", VString "2026-01-01T07:22:48.123Z")]
  else None.
Definition demo_sprint (v : any) : string := asString v.

Lemma logs_print_witness :
  runLogs (fun s => s) demo_sprint demo_unmarshal (fun l => l) (mkLogOptions "warn" "agent" false) demo_journal_lines
  = (["Started radar-node"; "07:22:48 ERROR agent      heartbeat failed  err=refused  results=4"], None).
Proof.
  refine (eq_trans (proj1 (logs_print (fun s => s) demo_sprint demo_unmarshal (fun l => l) (mkLogOptions "warn" "agent" false) demo_journal_lines [] _ I)) _).
  - repeat (apply Forall_cons; split; [apply Nat.leb_le; by vm_compute|]). apply Forall_nil_2.
  - by vm_compute.
Defined.
