(* ===== verification/Logging.v ===== *)
(** * The node's own log

    [internal/journal/journal.go]: the level a node logs at, what an entry
    carries, and what [radar-node logs --level] makes of it.  [log/slog] is
    the standard library's: its levels, how it pairs arguments and the order
    of an entry's fields are written out; its JSON encoder is a parameter. *)

From Stdlib Require Import ZArith Lia List Bool Ascii String.
From stdpp Require Import base tactics gmap strings list pretty.
From S2P Require Import Prelude GoStrings GoText Wire Flags Cli StoreCli.

Open Scope string_scope.
Open Scope list_scope.
Open Scope Z_scope.

(** ** [log/slog] *)

Definition LevelDebug : Z := -4.
Definition LevelInfo : Z := 0.
Definition LevelWarn : Z := 4.
Definition LevelError : Z := 8.

(** [Level.String]: the name below, and the distance to it. *)
Definition level_string (l : Z) : string :=
  let str base d := if d =? 0 then base else base +:+ (if 0 <? d then "+" else "") +:+ pretty d in
  if l <? LevelInfo then str "DEBUG" (l - LevelDebug)
  else if l <? LevelWarn then str "INFO" (l - LevelInfo)
  else if l <? LevelError then str "WARN" (l - LevelWarn)
  else str "ERROR" (l - LevelError).

(** Arguments are pairs of a name and a value; what is no pair has a bad name. *)
Fixpoint args_to_attrs (args : list any) : list (string * any) :=
  match args with
  | [] => []
  | VString k :: v :: rest => (k, v) :: args_to_attrs rest
  | x :: rest => ("!BADKEY", x) :: args_to_attrs rest
  end.

Inductive attr_value : Type := ATime (t : Z) | ALevel (l : Z) | AValue (v : any).

(** A field with neither name nor value is left out. *)
Definition empty_attr (a : string * any) : bool := bool_decide (fst a = "") && match snd a with VNil => true | _ => false end.

(** ** [journal.go] *)

Definition SetLevel (name : string) : Z :=
  let v := to_lower (trim_space name) in
  if decide (v = "debug") then LevelDebug
  else if decide (v ∈ ["warn"; "warning"]) then LevelWarn
  else if decide (v = "error") then LevelError
  else LevelInfo.

(** Nothing, a line, or the panic of [Value.Time] on a value that is no time. *)
Inductive logged : Type := Silent | Line (entry : params) | Panics.

Section log.
Context (rfc3339nano : Z -> string) (value_string : any -> string).

(** [ReplaceAttr] of the handler. *)
Definition replace_attr (a : string * attr_value) : option (string * any) :=
  let '(k, v) := a in
  if decide (k = "time") then match v with ATime t => Some ("ts", VString (rfc3339nano t)) | _ => None end
  else if decide (k = "level") then
    Some ("level", VString (to_lower (match v with ALevel l => level_string l | ATime t => rfc3339nano t | AValue v => value_string v end)))
  else Some (k, match v with AValue v => v | ALevel l => VString (level_string l) | ATime t => VString (rfc3339nano t) end).

Definition entry_of (level now : Z) (msg : string) (attrs : list (string * any)) : option params :=
  List.filter (fun a => negb (empty_attr a)) <$>
    mapM replace_attr ([("time", ATime now); ("level", ALevel level); ("msg", AValue (VString msg))]
                       ++ map (fun a => (fst a, AValue (snd a))) attrs).

(** [log] under a logger that starts at [minimum]. *)
Definition log (minimum level now : Z) (src msg : string) (args : list any) : logged :=
  if level <? minimum then Silent
  else match entry_of level now msg (args_to_attrs (VString "src" :: VString src :: args)) with
       | Some e => Line e
       | None => Panics
       end.

Definition Debug minimum := log minimum LevelDebug.
Definition Info minimum := log minimum LevelInfo.
Definition Warn minimum := log minimum LevelWarn.
Definition Error minimum := log minimum LevelError.

(** ** Reading it back *)

(** The first four fields of every entry. *)
Lemma entry_header level now msg src args e :
  entry_of level now msg (args_to_attrs (VString "src" :: VString src :: args)) = Some e ->
  exists rest, e = ("ts", VString (rfc3339nano now)) :: ("level", VString (to_lower (level_string level)))
                   :: ("msg", VString msg) :: ("src", VString src) :: rest.
Proof.
  unfold entry_of. cbn [args_to_attrs map fst snd app]. intros H. apply fmap_Some in H as (l & H & ->).
  apply mapM_Some_1 in H. inversion_clear H as [|? ? ? ? E1 H1]. inversion_clear H1 as [|? ? ? ? E2 H2].
  inversion_clear H2 as [|? ? ? ? E3 H3]. inversion_clear H3 as [|? ? ? ? E4 H4].
  injection E1 as <-. injection E2 as <-. injection E3 as <-. injection E4 as <-. by eexists.
Qed.

Definition slog_levels : list Z := [LevelDebug; LevelInfo; LevelWarn; LevelError].

(** The rank [logs] gives a level's printed name orders the levels as [slog]
    does, and a name means the same to [SetLevel] and to [logs]. *)
Lemma rank_agrees name level :
  level ∈ slog_levels ->
  if decide (levelRank name = 0) then SetLevel name = LevelInfo
  else level <? SetLevel name = (levelRank (to_lower (level_string level)) <? levelRank name).
Proof.
  intros Hl.
  assert (exists r, levelRank (to_lower (level_string level)) = r /\ (r, level) ∈ [(10, LevelDebug); (20, LevelInfo); (30, LevelWarn); (40, LevelError)]) as (r & -> & Hr).
  { unfold slog_levels in Hl. repeat (apply elem_of_cons in Hl as [->|Hl]; [eexists; split; [vm_compute; reflexivity|set_solver]|]). by apply elem_of_nil in Hl. }
  unfold SetLevel, levelRank. cbv zeta. generalize (to_lower (trim_space name)) as v. intros v. clear Hl.
  repeat (apply elem_of_cons in Hr as [[= -> ->]|Hr]; [repeat case_decide; subst; (done || lia || (exfalso; set_solver))|]). by apply elem_of_nil in Hr.
Qed.
End log.

Section shown.
Context (rfc3339nano : Z -> string) (value_string : any -> string).
Context (upper : string -> string) (sprint : any -> string) (unmarshal : string -> option params) (order : params -> params).

(** A level means the same to the node and to the reader of its log: reading
    the log of a node that writes everything at the level [name] shows the
    entries, of the subsystem asked for, that a node logging at [name] would
    have written.  A name that is none of the four levels has the node log
    from info on, and hides nothing from the reader.  The line is any text
    that [encoding/json] reads as the entry's object. *)
Theorem shown_iff_logged o level now src msg args entry line :
  level ∈ slog_levels -> lo_src o = "" \/ lo_src o = src ->
  log rfc3339nano value_string (SetLevel "debug") level now src msg args = Line entry ->
  has_prefix (trim_space line) "{" = true -> unmarshal line = Some entry ->
  is_Some (show upper sprint unmarshal order o line) <->
  levelRank (lo_level o) = 0 \/ log rfc3339nano value_string (SetLevel (lo_level o)) level now src msg args = Line entry.
Proof.
  intros Hl Hsrc Hlog Hp Hu.
  assert (entry_of rfc3339nano value_string level now msg (args_to_attrs (VString "src" :: VString src :: args)) = Some entry) as He.
  { unfold log in Hlog. destruct (_ <? _); [done|]. destruct (entry_of _ _ _ _ _ _); congruence. }
  pose proof (rank_agrees (lo_level o) level Hl) as Hr.
  destruct (entry_header _ _ _ _ _ _ _ _ He) as [rest Eh].
  assert (asString (obj_get entry "src") = src /\ asString (obj_get entry "level") = to_lower (level_string level)) as [Es El] by (by rewrite Eh).
  unfold show. rewrite Hp, Hu, Es, El.
  replace (negb (bool_decide (lo_src o = "")) && negb (bool_decide (src = lo_src o))) with false
    by (symmetry; destruct Hsrc as [Hs|Hs]; rewrite Hs; [done|rewrite (bool_decide_eq_true_2 (src = src)) by done; apply andb_false_r]).
  case_decide as Hz.
  - rewrite Hz. cbn. split; [by left|by eexists].
  - unfold log. rewrite Hr, He. assert (0 <? levelRank (lo_level o) = true) as ->.
    { apply Z.ltb_lt. unfold levelRank in *. repeat case_decide; lia. }
    cbn [andb]. destruct (_ <? levelRank (lo_level o)).
    + split; [by intros [? ?]|]. intros [?|?]; [by destruct Hz|done].
    + split; [intros _; by right|intros _; by eexists].
Qed.
End shown.

(** A call that names a field [time] panics unless its value is a time. *)
Example time_field_panics : log (fun _ => "") (fun _ => "") LevelInfo LevelInfo 0 "agent" "m" [VString "time"; VString "now"] = Panics.
Proof. reflexivity. Qed.

(** ** Witness *)

Definition demo_line : string := "{level:warn src:agent}".
Definition demo_entry : params := [("ts", VString "t"); ("level", VString "warn"); ("msg", VString "refused"); ("src", VString "agent"); ("err", VString "gone")].

Lemma shown_iff_logged_witness :
  is_Some (show (fun s => s) asString (fun _ => Some demo_entry) (fun l => l) (mkLogOptions " Warning" "agent" false) demo_line).
Proof.
  refine (proj2 (shown_iff_logged (fun _ => "t") asString (fun s => s) asString (fun _ => Some demo_entry) (fun l => l)
    (mkLogOptions " Warning" "agent" false) LevelWarn 0 "agent" "refused" [VString "err"; VString "gone"] demo_entry demo_line _ _ _ _ _) _).
  - apply (list_elem_of_lookup_2 _ 2%nat). reflexivity.
  - right. reflexivity.
  - vm_compute. reflexivity.
  - vm_compute. reflexivity.
  - reflexivity.
  - right. vm_compute. reflexivity.
Defined.
