(* ===== verification/StoreOpen.v ===== *)
(** * Opening the node store

    [Open] and [dsn] of [internal/store/store.go]: what is refused
    before the file system is touched, the schema and origin a store is opened
    with, and the database handle on every path.  Paths, files and SQLite's
    answers come from a world. *)

From Stdlib Require Import ZArith Lia List Bool Ascii String.
From stdpp Require Import base tactics gmap strings list pretty.
From S2P Require Import Prelude GoStrings GoText Wire Sql Store Filepath StoreDemo.

Open Scope string_scope.
Open Scope list_scope.
Open Scope Z_scope.

Definition defaultBusyTimeoutMS : Z := 5000.
Definition defaultCacheKiB : Z := 2048.
Definition defaultWALCheckpointPages : Z := 512.
Definition defaultJournalSizeLimit : Z := Z.shiftl 4 20.

Record Options : Type := mkOptions { Origin : string; Sync : string }.

Record Store : Type := mkStore { st_path : string; st_origin : string; st_journalMode : string }.

(** [os.Stat]: no such file, its size, or another error. *)
Inductive stat_answer : Type := NotExist | Size (n : Z) | StatError.

Record open_world : Type := mkOpenWorld {
  ow_abs : string -> result string string;
  ow_stat : string -> stat_answer;
  ow_mkdir : string -> option string;
  ow_create : string -> option string;
  ow_open : option string;
  ow_ping : option string
}.

(** What opening did outside the database: the paths it made sure of, and how
    many handles it left open. *)
Record effects : Type := mkEffects { touched : list string; handles : nat }.

(** The parameters of the connection, in order. *)
Definition pragmas (syncMode : string) : list string :=
  ["busy_timeout(" +:+ pretty defaultBusyTimeoutMS +:+ ")"; "journal_mode(WAL)"; "synchronous(" +:+ to_upper syncMode +:+ ")";
   "temp_store(MEMORY)"; "auto_vacuum(INCREMENTAL)"; "wal_autocheckpoint(" +:+ pretty defaultWALCheckpointPages +:+ ")";
   "journal_size_limit(" +:+ pretty defaultJournalSizeLimit +:+ ")"; "cache_size(-" +:+ pretty defaultCacheKiB +:+ ")"; "secure_delete(OFF)"].

Fixpoint to_slash (s : string) : string :=
  match s with
  | EmptyString => EmptyString
  | String c s => String (if (nat_of_ascii c =? 92)%nat then "/"%char else c) (to_slash s)
  end.

(** [url_string] is [url.URL.String] of a file's path. *)
Definition dsn (url_string : string -> string) (windows : bool) (path syncMode : string) : string :=
  let slashPath := if windows then to_slash path else path in
  let slashPath := if windows && negb (has_prefix slashPath "/") then "/" +:+ slashPath else slashPath in
  url_string slashPath +:+ "?" +:+ join "&" (map (fun p => "_pragma=" +:+ p) (pragmas syncMode)).

Definition sync_mode (sync : string) : option string :=
  let m := to_lower (trim_space sync) in
  let m := if decide (m = "") then "normal" else m in
  if decide (m = "normal" \/ m = "full") then Some m else None.

Section open.
Context (w : open_world) (quote : string -> string) (sprint : Z -> string) (now : Z) (mode : string).

(** The checks before anything is made: the absolute path and the mode. *)
Definition admit_path (path : string) (opts : Options) : result string (string * string) :=
  if decide (trim_space path = "") then Err "store: database path is required"
  else
    match ow_abs w path with
    | Err e => Err ("store: resolve database path " +:+ path +:+ ": " +:+ e)
    | Ok path =>
        if bool_decide (trim_space (Origin opts) = "")
           && match ow_stat w path with NotExist => true | Size n => n =? 0 | StatError => false end
        then Err "store: origin is required for a new database"
        else
          match sync_mode (Sync opts) with
          | None => Err ("store: unknown sync mode " +:+ quote (Sync opts) +:+ " (want normal or full)")
          | Some m => Ok (path, m)
          end
    end.

(** The store of an open database: its schema, its journal mode, its origin. *)
Definition init_store (path origin : string) : sql Store :=
  _ ← initSchema;
  journalMode ← query "store: read journal mode" (fun _ => mode);
  o ← initMeta sprint now origin;
  mret (mkStore path o journalMode).

Definition Open (path : string) (opts : Options) (fs : faults) (d : database) : result string Store * effects * database :=
  match admit_path path opts with
  | Err e => (Err e, mkEffects [] 0, d)
  | Ok (path, m) =>
      let dir := Dir path in
      let made := if decide (dir <> ".") then [dir] else [] in
      match (if decide (dir <> ".") then ow_mkdir w dir else None) with
      | Some e => (Err ("store: create directory " +:+ dir +:+ ": " +:+ e), mkEffects [] 0, d)
      | None =>
          match ow_create w path with
          | Some e => (Err ("store: create database " +:+ path +:+ ": " +:+ e), mkEffects made 0, d)
          | None =>
              let made := made ++ [path] in
              match ow_open w with
              | Some e => (Err ("store: open database: " +:+ e), mkEffects made 0, d)
              | None =>
                  match ow_ping w with
                  | Some e => (Err ("store: open database: " +:+ e), mkEffects made 0, d)
                  | None =>
                      match init_store path (Origin opts) fs d with
                      | (Ok s, d', _) => (Ok s, mkEffects made 1, d')
                      | (Err e, d', _) => (Err e, mkEffects made 0, d')
                      end
                  end
              end
          end
      end
  end.

(** ** What a store is opened with *)

Lemma tx_keeps_version {A} e1 e2 (m : sql A) fs d a d' fs' (v : Z) :
  tx e1 e2 m fs d = (Ok a, d', fs') -> (forall fs1 fs2, m fs1 d = (Ok a, d', fs2) -> user_version d' = v) -> user_version d' = v.
Proof. intros (f1 & f2 & E)%tx_ok H. by eapply H. Qed.

Lemma initSchema_ok fs d u d' fs' : initSchema fs d = (Ok u, d', fs') -> user_version d' = schemaVersion /\ meta d' = meta d.
Proof.
  unfold initSchema. intros H. sql_step H. destruct (Z.eqb_spec (user_version d) schemaVersion) as [E|E]; [by sql_prim H|].
  destruct (Z.eqb_spec (user_version d) 1) as [E1|E1].
  - apply tx_ok in H as (f1 & f2 & H). sql_step H. sql_step H. done.
  - destruct (Z.eqb_spec (user_version d) 0) as [E0|E0]; [|by sql_prim H]. apply tx_ok in H as (f1 & f2 & H). sql_step H. sql_step H. done.
Qed.

Lemma initMeta_ok origin fs d o d' fs' :
  initMeta sprint now origin fs d = (Ok o, d', fs') ->
  user_version d' = user_version d /\ meta d' !! "origin" = Some o
  /\ match meta d !! "origin" with Some o0 => o = o0 /\ d' = d /\ (origin = "" \/ origin = o0) | None => o = origin /\ origin <> "" end.
Proof.
  unfold initMeta. intros H. sql_step H. destruct (meta d !! "origin") as [o0|] eqn:Eo.
  - case_decide as Hd; [by sql_prim H|]. sql_prim H. split_and!; try done. destruct (decide (origin = "")); [by left|right].
    destruct (decide (o = origin)); [done|]. exfalso. apply Hd. done.
  - case_decide as Hd; [by sql_prim H|]. apply bind_ok in H as (u & d1 & f1 & Htx & H). sql_prim H. apply tx_ok in Htx as (fa & fb & Htx).
    sql_prim Htx. destruct (meta d !! "created_at_ms"); [done|]. injection Htx as Hd1. subst d1. split_and!; try done.
    cbn. rewrite lookup_insert_ne by done. by rewrite lookup_insert_eq.
Qed.

Lemma init_store_ok path origin fs d s d' fs' :
  init_store path origin fs d = (Ok s, d', fs') ->
  st_path s = path /\ user_version d' = schemaVersion /\ meta d' !! "origin" = Some (st_origin s)
  /\ match meta d !! "origin" with Some o => st_origin s = o /\ (origin = "" \/ origin = o) | None => st_origin s = origin /\ origin <> "" end.
Proof.
  unfold init_store. intros H. apply bind_ok in H as (u & d1 & f1 & Hs & H). apply bind_ok in H as (jm & d2 & f2 & Hq & H). sql_prim Hq.
  apply bind_ok in H as (o & d3 & f3 & Hm & H). sql_prim H. apply initSchema_ok in Hs as [Hv Hmeta]. apply initMeta_ok in Hm as (Hv' & Ho & Hcase).
  cbn [st_path st_origin]. rewrite Hmeta in Hcase. split_and!; try done; [congruence|]. destruct (meta d !! "origin"); naive_solver.
Qed.

(** Opening a store either fails with every handle closed, or gives a store of
    this binary's schema and of one origin: the one the database was made with,
    which an origin asked for must be, or for a new database the one asked for.
    What cannot be opened at all, for want of a path, of an origin for a new
    database or of a known mode, is refused before anything is made on disk. *)
Theorem opens_or_closes path opts fs d r eff d' :
  Open path opts fs d = (r, eff, d') ->
  match r with
  | Err e => handles eff = 0%nat /\ (admit_path path opts = Err e -> touched eff = [] /\ d' = d)
  | Ok s => handles eff = 1%nat /\ user_version d' = schemaVersion /\ meta d' !! "origin" = Some (st_origin s)
            /\ (exists m, admit_path path opts = Ok (st_path s, m))
            /\ match meta d !! "origin" with
               | Some o => st_origin s = o /\ (Origin opts = "" \/ Origin opts = o)
               | None => st_origin s = Origin opts /\ Origin opts <> ""
               end
  end.
Proof.
  unfold Open. destruct (admit_path path opts) as [[p m]|e] eqn:Ea; [|by intros [= <- <- <-]].
  destruct (if decide (Dir p <> ".") then ow_mkdir w (Dir p) else None) as [e|]; [by intros [= <- <- <-]|].
  destruct (ow_create w p) as [e|]; [by intros [= <- <- <-]|]. destruct (ow_open w) as [e|]; [by intros [= <- <- <-]|].
  destruct (ow_ping w) as [e|]; [by intros [= <- <- <-]|]. destruct (init_store p (Origin opts) fs d) as [[[s|e] d1] f1] eqn:Ei.
  - intros [= <- <- <-]. apply init_store_ok in Ei as (Hp & Hv & Ho & Hcase). split_and!; try done. rewrite Hp. by exists m.
  - by intros [= <- <- <-].
Qed.

Lemma initSchema_same d : user_version d = schemaVersion -> initSchema [] d = (Ok tt, d, []).
Proof. intros E. unfold initSchema. erewrite bind_run by apply query_run. by rewrite E, Z.eqb_refl. Qed.

(** A store that was opened opens again under its origin, or under none, and is
    left as it is; under another origin it is refused, and left as it is. *)
Lemma reopening path opts d o p m :
  user_version d = schemaVersion -> meta d !! "origin" = Some o ->
  (forall p, ow_mkdir w p = None) -> (forall p, ow_create w p = None) -> ow_open w = None -> ow_ping w = None ->
  admit_path path opts = Ok (p, m) ->
  if decide (Origin opts = "" \/ Origin opts = o)
  then exists eff, Open path opts [] d = (Ok (mkStore p o mode), eff, d)
  else exists e eff, Open path opts [] d = (Err e, eff, d) /\ handles eff = 0%nat.
Proof.
  intros Hv Ho H1 H2 H3 H4 Ha. unfold Open. rewrite Ha.
  assert ((if decide (Dir p <> ".") then ow_mkdir w (Dir p) else None) = None) as -> by (by case_decide).
  rewrite H2, H3, H4. unfold init_store. erewrite bind_run by (by apply initSchema_same). erewrite bind_run by apply query_run.
  assert (initMeta sprint now (Origin opts) [] d = if decide (Origin opts <> "" /\ o <> Origin opts) then (Err "store: database belongs to another origin", d, []) else (Ok o, d, [])) as E.
  { unfold initMeta. erewrite bind_run by apply query_run. rewrite Ho. by case_decide. }
  unfold mbind, sql_bind. rewrite E. destruct (decide (Origin opts = "" \/ Origin opts = o)) as [Hd|Hd].
  - rewrite decide_False by naive_solver. by eexists.
  - rewrite decide_True by naive_solver. by do 2 eexists.
Qed.
End open.

(** ** Witnesses *)

Definition demo_open : open_world := mkOpenWorld (fun p => Ok ("/var/lib/" +:+ p)) (fun _ => NotExist) (fun _ => None) (fun _ => None) None None.

Lemma opens_or_closes_witness :
  exists s eff d', Open demo_open (fun s => s) (fun _ => "0") 0 "wal" "radar.db" (mkOptions "node" "full") [] empty_db = (Ok s, eff, d')
  /\ handles eff = 1%nat /\ touched eff = ["/var/lib"; "/var/lib/radar.db"].
Proof.
  do 3 eexists. split; [vm_compute; reflexivity|]. split; [|reflexivity].
  refine (proj1 (opens_or_closes demo_open (fun s => s) (fun _ => "0") 0 "wal" "radar.db" (mkOptions "node" "full") [] empty_db (Ok _) _ _ _)).
  vm_compute. reflexivity.
Defined.
