(* ===== verification/StoreCommands.v ===== *)
(** * What the store commands do

    [runStore] of [cmd/radar-node/store.go]: a command line is read, the store
    is opened, worked on and closed, and what it prints on standard output.
    SQLite's page counts, the clock's text and the JSON encoder come from
    outside. *)

From Stdlib Require Import ZArith Lia List Bool Ascii String.
From stdpp Require Import base tactics gmap strings list pretty fin_maps.
From S2P Require Import Prelude GoStrings GoText Wire Sql Store StoreMaint Journal StoreWf StoreDemo StoreLog StoreReads Flags Cli StoreCli StoreOpen.

Open Scope string_scope.
Open Scope list_scope.
Open Scope Z_scope.

(** What [Maintain] reports of the file. *)
Record page_facts : Type := mkPages { pf_vacuumed : Z; pf_live : Z; pf_db : Z; pf_wal : Z }.

Definition bool_text (b : bool) : string := if b then "true" else "false".

Section commands.
Context (quote : string -> string) (parse_int : string -> option Z) (parse_duration : string -> option duration) (parse_bool : string -> option bool).
Context (w : open_world) (sprint : Z -> string) (now : time) (mode : string).
Context (format : Z -> string) (ff : file_facts) (pf : page_facts).
Context (iterate : gmap rollupKey rollupRow_ -> list (rollupKey * rollupRow_)) (others : database -> database) (live_bytes : nat -> database -> Z) (fuel : nat).
Context (encode : JournalEvent -> string) (refuses : list JournalEvent -> JournalEvent -> option string).

Definition formatMillis (ms : Z) : string := if ms <=? 0 then "-" else format ms.

Definition stats_text (s : Store) (st : Stats) : list string :=
  ["path: " +:+ st_path s; "origin: " +:+ st_origin s; "journal: " +:+ JournalMode st; "db_bytes: " +:+ pretty (DBBytes st);
   "wal_bytes: " +:+ pretty (WALBytes st); "pages: " +:+ pretty (PageCount st) +:+ " (free " +:+ pretty (FreePages st) +:+ ")";
   "results: " +:+ pretty (Results st) +:+ " (delivered " +:+ pretty (DeliveredResults st) +:+ ", pending " +:+ pretty (st_PendingResults st)
     +:+ ", rejected " +:+ pretty (RejectedResults st) +:+ ")";
   "probes: " +:+ pretty (Probes st); "pending_triggers: " +:+ pretty (st_PendingTriggers st); "rollups: " +:+ pretty (st_Rollups st);
   "oldest: " +:+ formatMillis (OldestAtMS st); "newest: " +:+ formatMillis (NewestAtMS st)].

Definition maintain_text (st : MaintainStats) : list string :=
  ["deleted_rows: " +:+ pretty (DeletedRows st); "deleted_rollups: " +:+ pretty (DeletedRollups st);
   "rolled_up_results: " +:+ pretty (RolledUpResults st); "pruned_triggers: " +:+ pretty (PrunedTriggers st);
   "vacuumed_pages: " +:+ pretty (pf_vacuumed pf); "live_bytes: " +:+ pretty (pf_live pf); "db_bytes: " +:+ pretty (pf_db pf);
   "wal_bytes: " +:+ pretty (pf_wal pf); "over_budget: " +:+ bool_text (OverBudget st)].

(** The cutoff [Maintain] computes from the retention. *)
Definition maintain_options (retention : duration) (maxBytes : Z) : MaintainOptions :=
  mkMaintain (if 0 <? retention then Some (to_unix_milli (time_add now (- retention))) else None) maxBytes.

(** What is printed, whether the command failed, and the database. *)
Definition outcome : Type := list string * option string * database.

Definition runStoreStats (s : Store) (fs : faults) (d : database) : outcome :=
  match Stats_ ff fs d with (Ok st, d, _) => (stats_text s st, None, d) | (Err e, d, _) => ([], Some e, d) end.

Definition runStoreMaintain (retention : duration) (maxBytes : Z) (fs : faults) (d : database) : outcome :=
  match Maintain iterate others live_bytes fuel (maintain_options retention maxBytes) fs d with (Ok st, d, _) => (maintain_text st, None, d) | (Err e, d, _) => ([], Some e, d) end.

Definition runStoreRebuild (s : Store) (fs : faults) (d : database) : outcome :=
  match Rebuild fs d with (Ok _, d, _) => (["rebuilt: " +:+ st_path s], None, d) | (Err e, d, _) => ([], Some e, d) end.

(** The cursor goes to standard error. *)
Definition replay_command (after limit : Z) (fs : faults) (d : database) : outcome :=
  let '(printed, r) := runStoreReplay refuses after limit fs d in
  (encode <$> printed, match r with Err e => Some e | Ok _ => None end, d).

Definition run_request (r : store_request) (s : Store) (fs : faults) (d : database) : outcome :=
  match r with
  | Stats_request => runStoreStats s fs d
  | Maintain_request retention maxBytes => runStoreMaintain retention maxBytes fs d
  | Rebuild_request => runStoreRebuild s fs d
  | Replay_request after limit => replay_command after limit fs d
  end.

(** [fs] is what happens to the statements of the opening, [fs'] to those of the
    work. *)
Definition runStore (args : list string) (fs fs' : faults) (d : database) : outcome :=
  match store_request_of quote parse_int parse_duration parse_bool args with
  | Err e => ([], Some e, d)
  | Ok (path, origin, r) =>
      match Open w quote sprint (to_unix_milli now) mode path (mkOptions origin "") fs d with
      | (Err e, _, d) => ([], Some e, d)
      | (Ok s, _, d) => run_request r s fs' d
      end
  end.

(** ** What a command does to the store *)

Lemma Stats_same fs d r d' fs' : Stats_ ff fs d = (r, d', fs') -> d' = d.
Proof.
  intros H. assert (keeps (eq d) (Stats_ ff)) as K.
  { unfold Stats_. apply keeps_bind; [apply keeps_query|]. intros c.
    destruct c as [[[[[[rows results] pending] delivered] rejected] old] new]. keeps_steps. }
  specialize (K fs d eq_refl). unfold run in K. by rewrite H in K.
Qed.

(** Commands that only look. *)
Definition inspects (r : store_request) : bool := match r with Stats_request | Replay_request _ _ => true | _ => false end.
Definition replays (r : store_request) : bool := match r with Replay_request _ _ => true | _ => false end.

Lemma initSchema_quiet : quiet initSchema.
Proof. intros l0. unfold initSchema, migrateV1ToV2. keeps_steps; intros ? H; exact H. Qed.

Lemma initMeta_quiet origin : quiet (initMeta sprint (to_unix_milli now) origin).
Proof.
  intros l0. unfold initMeta. keeps_steps. apply keeps_stmt. intros x u x' Hx. destruct (meta x !! _); [done|]. by intros [= _ <-].
Qed.

Lemma init_store_quiet path origin : quiet (init_store sprint (to_unix_milli now) mode path origin).
Proof. intros l0. unfold init_store. keeps_steps; [apply initSchema_quiet|apply initMeta_quiet]. Qed.

(** Opening an existing store changes nothing, whatever fails. *)
Lemma initSchema_keeps d : user_version d = schemaVersion -> keeps (eq d) initSchema.
Proof.
  intros Hv fs x <-. unfold run, initSchema, mbind, sql_bind. destruct (query _ _ fs d) as [[[v|e] x] fs1] eqn:E.
  - apply query_ok in E as (-> & -> & _). by rewrite Hv.
  - unfold query, stmt in E. destruct fs as [|[] ?]; by simplify_eq.
Qed.

Lemma initMeta_keeps origin d : is_Some (meta d !! "origin") -> keeps (eq d) (initMeta sprint (to_unix_milli now) origin).
Proof.
  intros [o Ho] fs x <-. unfold run, initMeta, mbind, sql_bind. destruct (query _ _ fs d) as [[[v|e] x] fs1] eqn:E.
  - apply query_ok in E as (-> & -> & _). rewrite Ho. by case_decide.
  - unfold query, stmt in E. destruct fs as [|[] ?]; by simplify_eq.
Qed.

Lemma init_store_keeps path origin d :
  user_version d = schemaVersion -> is_Some (meta d !! "origin") -> keeps (eq d) (init_store sprint (to_unix_milli now) mode path origin).
Proof. intros Hv Ho. unfold init_store. keeps_steps; [by apply initSchema_keeps|by apply initMeta_keeps]. Qed.

(** What opening did to the database is what its statements did, or nothing. *)
Lemma Open_database path opts fs d :
  exists p, snd (Open w quote sprint (to_unix_milli now) mode path opts fs d) = d
  \/ snd (Open w quote sprint (to_unix_milli now) mode path opts fs d) = run (init_store sprint (to_unix_milli now) mode p (Origin opts)) fs d.
Proof.
  unfold Open. destruct (admit_path w quote path opts) as [[p m]|e]; [|exists path; by left]. exists p.
  destruct (if decide _ then _ else None); [by left|]. destruct (ow_create w p); [by left|]. destruct (ow_open w); [by left|].
  destruct (ow_ping w); [by left|]. right. unfold run. by destruct (init_store _ _ _ _ _ _ _) as [[[s|e] x] fs1].
Qed.

(** The pending results of a database are still there, and still pending. *)
Definition keeps_pending (d d' : database) : Prop :=
  forall r, r ∈ journal d -> row_pending r = true -> exists r', r' ∈ journal d' /\ seq r' = seq r /\ row_pending r' = true.

Lemma quiet_keeps_pending {A} (m : sql A) fs d : quiet m -> keeps_pending d (run m fs d).
Proof. intros Hq r Hr Hp. destruct (quiet_pending _ _ _ (quiet_run m fs d Hq) Hr Hp) as (r' & H1 & H2 & _ & H3). by exists r'. Qed.

Lemma keeps_pending_trans d1 d2 d3 : keeps_pending d1 d2 -> keeps_pending d2 d3 -> keeps_pending d1 d3.
Proof. intros H1 H2 r Hr Hp. destruct (H1 r Hr Hp) as (r1 & Hr1 & E1 & Hp1). destruct (H2 r1 Hr1 Hp1) as (r2 & Hr2 & E2 & Hp2). exists r2. by rewrite E2. Qed.

Lemma run_request_work r s fs d :
  (forall x, quiet_moves (log_of x) (log_of (others x))) ->
  let '(out, err, d') := run_request r s fs d in
  keeps_pending d d' /\ (inspects r = true -> d' = d) /\ (err <> None -> replays r = false -> out = []).
Proof.
  intros Hm. assert (forall x, keeps_pending x x) as Hrefl by (intros x r0 Hr Hp; by exists r0).
  destruct r as [|retention maxBytes| |after limit]; cbn [run_request].
  - unfold runStoreStats. destruct (Stats_ ff fs d) as [[[st|e] d'] fs'] eqn:E; apply Stats_same in E as ->; by split_and!.
  - unfold runStoreMaintain. pose proof (quiet_keeps_pending _ fs d (Maintain_quiet iterate others Hm live_bytes fuel (maintain_options retention maxBytes))) as H. unfold run in H.
    destruct (Maintain _ _ _ _ _ fs d) as [[[st|e] d'] fs']; by split_and!.
  - unfold runStoreRebuild. pose proof (quiet_keeps_pending _ fs d Rebuild_quiet) as H. unfold run in H.
    destruct (Rebuild fs d) as [[[u|e] d'] fs']; by split_and!.
  - unfold replay_command. destruct (runStoreReplay refuses after limit fs d) as [printed r]. by split_and!.
Qed.

(** No command line of [store] loses a result that is still to be delivered,
    whatever the retention and the size asked for and whatever statement fails,
    while the store is opened or after.  On a store that exists, [stats] and
    [replay] change nothing at all; and apart from [replay], which prints as it
    reads, a command that fails prints nothing. *)
Theorem store_commands_keep_pending args fs fs' d out err d' :
  (forall x, quiet_moves (log_of x) (log_of (others x))) ->
  runStore args fs fs' d = (out, err, d') ->
  keeps_pending d d'
  /\ (forall path origin r, store_request_of quote parse_int parse_duration parse_bool args = Ok (path, origin, r) ->
       (inspects r = true -> user_version d = schemaVersion -> is_Some (meta d !! "origin") -> d' = d)
       /\ (err <> None -> replays r = false -> out = [])).
Proof.
  intros Hm. unfold runStore. assert (forall x, keeps_pending x x) as Hrefl by (intros x r0 Hr Hp; by exists r0).
  destruct (store_request_of quote parse_int parse_duration parse_bool args) as [[[path origin] r]|e] eqn:Er.
  2: { intros [= <- <- <-]. split; [done|]. intros path origin r [=]. }
  assert (keeps_pending d (snd (Open w quote sprint (to_unix_milli now) mode path (mkOptions origin "") fs d))
    /\ (user_version d = schemaVersion -> is_Some (meta d !! "origin") -> snd (Open w quote sprint (to_unix_milli now) mode path (mkOptions origin "") fs d) = d)) as [Ho1 Ho2].
  { destruct (Open_database path (mkOptions origin "") fs d) as [p [E|E]]; rewrite E; split; try done.
    - apply quiet_keeps_pending, init_store_quiet.
    - intros Hv Hs. symmetry. by apply (init_store_keeps p origin d Hv Hs fs d). }
  destruct (Open _ _ _ _ _ _ _ _ _) as [[[s|e] eff] d1]; cbn [snd] in *.
  - pose proof (run_request_work r s fs' d1 Hm) as Hw. intros H. rewrite H in Hw. destruct Hw as (H1 & H2 & H3). split; [by eapply keeps_pending_trans|].
    intros ? ? ? [= <- <- <-]. split; [|done]. intros Hi Hv Hs. rewrite (H2 Hi). by apply Ho2.
  - intros [= <- <- <-]. split; [done|]. intros ? ? ? [= <- <- <-]. split; [|done]. intros _. exact Ho2.
Qed.
End commands.

(** ** Witness *)

Definition demo_command (args : list string) : outcome :=
  runStore (fun s => s) (fun s => if decide (s = "33554432") then Some 33554432 else None) (fun s => if decide (s = "720h0m0s") then Some (720 * 3600 * second) else None)
    (fun _ => None) demo_open (fun _ => "0") (unix_milli 9000) "wal" (fun _ => "then") demo_facts (mkPages 0 0 4096 0)
    map_to_list (fun x => x) (fun _ _ => 0) 10 (fun _ => "{}") (fun _ _ => None) args [] [] demo_db.

Example demo_maintain_text :
  take 3 (fst (fst (demo_command ["maintain"; "--db"; "radar.db"; "--origin"; "node"]))) = ["deleted_rows: 0"; "deleted_rollups: 0"; "rolled_up_results: 2"].
Proof. vm_compute. reflexivity. Qed.

Lemma store_commands_keep_pending_witness :
  keeps_pending demo_db (snd (demo_command ["maintain"; "--db"; "radar.db"; "--origin"; "node"]))
  /\ fst (fst (demo_command ["rebuild"; "--db"; "radar.db"])) = [].
Proof.
  split; [|vm_compute; reflexivity].
  destruct (demo_command ["maintain"; "--db"; "radar.db"; "--origin"; "node"]) as [[out err] d'] eqn:E. unfold demo_command in E.
  exact (proj1 (store_commands_keep_pending _ _ _ _ _ _ _ _ _ _ _ _ _ _ _ _ _ _ _ _ _ _ _ _ (fun x => rtc_refl _ _) E)).
Defined.
