(* ===== verification/BindSocket.v ===== *)
(** * Bound sockets

    [internal/netbind/icmp_unix.go], the interface options of
    [control_linux.go], [control_darwin.go] and [control_windows.go], and the
    lookups of [binding.go]: the system calls that open an ICMP socket under a
    binding, in order, and the descriptor on every path out.  System calls
    answer from a world. *)

From Stdlib Require Import ZArith Lia List Bool Ascii String.
From stdpp Require Import base tactics gmap strings list pretty.
From S2P Require Import Prelude GoStrings GoText Netbind.

Open Scope string_scope.
Open Scope list_scope.
Open Scope Z_scope.

Inductive family : Type := AF_INET | AF_INET6.
#[export] Instance family_eq_dec : EqDecision family.
Proof. solve_decision. Defined.

Inductive platform : Type := Linux | Darwin | Windows | OtherOS (name : string).
#[export] Instance platform_eq_dec : EqDecision platform.
Proof. solve_decision. Defined.

(** [syscall.SockaddrInet4] and [syscall.SockaddrInet6]. *)
Inductive sockaddr : Type := SockaddrInet4 (addr : Z) | SockaddrInet6 (addr zoneId : Z).

(** What is asked of the system, in order. *)
Inductive call : Type :=
| Opened (fd : Z)                 (** [socket] *)
| Stripped (fd : Z)               (** headers left out of replies *)
| ByName (fd : Z) (iface : string)     (** an interface bound by its name *)
| ByIndex (fd : Z) (index : Z)         (** an interface bound by its index *)
| Bound (fd : Z) (a : sockaddr)
| Copied (fd : Z)                 (** [net.FilePacketConn]'s own descriptor *)
| Closed (fd : Z).

Record socket_world : Type := mkSocketWorld {
  kw_platform : platform;
  kw_cancelled : option string;                      (** [ctx.Err] *)
  kw_socket : family -> Z -> result string Z;
  kw_strip : option string;
  kw_by_name : Z -> string -> option string;
  kw_by_index : nat -> Z -> Z -> option string;           (** at its [n]-th use *)
  kw_interface : string -> option Z;                 (** [net.InterfaceByName] *)
  kw_bind : sockaddr -> option string;
  kw_wrap : bool;                                    (** [os.NewFile] gives a file *)
  kw_conn : option string
}.

Section socket.
Context (w : socket_world).

(** [bits.ReverseBytes32]. *)
Definition reverse_bytes32 (x : Z) : Z :=
  Z.lor (Z.lor (Z.shiftl (Z.land x 255) 24) (Z.shiftl (Z.land (Z.shiftr x 8) 255) 16))
        (Z.lor (Z.shiftl (Z.land (Z.shiftr x 16) 255) 8) (Z.land (Z.shiftr x 24) 255)).

(** The index a platform is given: on Windows the IPv4 option takes 32 bits in
    network byte order. *)
Definition option_index (network : string) (index : Z) : Z :=
  if bool_decide (kw_platform w = Windows) && negb (has_prefix (rev_string network) "6") then reverse_bytes32 (index mod 2 ^ 32) else index.

Definition apply_index (n : nat) (network : string) (fd : Z) (found : option Z) : option string * list call :=
  match found with
  | None => (Some "no such network interface", [])
  | Some index => (kw_by_index w n fd (option_index network index), [ByIndex fd (option_index network index)])
  end.

(** [controlInterface]: by name on Linux; by index elsewhere, once more after
    the cached index was dropped and the interface still exists. *)
Definition controlInterface (network : string) (fd : Z) (iface : string) (cache : gmap string Z)
    : option string * list call * gmap string Z :=
  match kw_platform w with
  | Linux => (kw_by_name w fd iface, [ByName fd iface], cache)
  | OtherOS name => (Some ("interface binding is not supported on " +:+ name), [], cache)
  | _ =>
      let '(found, cache) := interfaceIndex (kw_interface w) iface cache in
      let '(e, calls) := apply_index 0 network fd found in
      match e with
      | None => (None, calls, cache)
      | Some e =>
          let '(again, cache) := refreshInterfaceIndex (kw_interface w) iface cache in
          match again with
          | None => (Some e, calls, cache)
          | Some _ =>
              let '(found, cache) := interfaceIndex (kw_interface w) iface cache in
              let '(e, calls') := apply_index 1 network fd found in
              (e, calls ++ calls', cache)
          end
      end
  end.

(** [strconv.ParseUint] in base 10 for 32 bits. *)
Definition parse_uint32 (s : string) : option Z :=
  match unsigned s with Some z => if z <? 2 ^ 32 then Some z else None | None => None end.

Definition zone_id (b : Binding) (source : Addr) (cache : gmap string Z) : result string Z * gmap string Z :=
  let index name :=
    match interfaceIndex (kw_interface w) name cache with
    | (Some i, cache) => (Ok (i mod 2 ^ 32), cache)
    | (None, cache) => (Err "no such network interface", cache)
    end in
  if decide (Zone source <> "") then
    match parse_uint32 (Zone source) with Some z => (Ok z, cache) | None => index (Zone source) end
  else if IsLinkLocalUnicast source && negb (bool_decide (Interface b = "")) then index (Interface b)
  else (Ok 0, cache).

Context `{NetIP}.

Definition icmpSockaddr (fam : family) (b : Binding) (cache : gmap string Z) : result string sockaddr * gmap string Z :=
  match fam, SourceIP b with
  | AF_INET, None => (Ok (SockaddrInet4 0), cache)
  | AF_INET, Some a => (if Is6 a then Err ("netbind: source " +:+ AddrString a +:+ " is not IPv4") else Ok (SockaddrInet4 (bits a)), cache)
  | AF_INET6, None => (Ok (SockaddrInet6 0 0), cache)
  | AF_INET6, Some a =>
      if negb (Is6 a) then (Err ("netbind: source " +:+ AddrString a +:+ " is not IPv6"), cache)
      else
        match zone_id b a cache with
        | (Err e, cache) => (Err e, cache)
        | (Ok z, cache) => (Ok (SockaddrInet6 (bits a) z), cache)
        end
  end.

Definition icmp_family (network : string) : option (family * Z) :=
  if decide (network = "udp4") then Some (AF_INET, 1)
  else if decide (network = "udp6") then Some (AF_INET6, 58)
  else None.

(** What [ListenICMP] does with its descriptor open. *)
Definition with_socket (b : Binding) (network : string) (fam : family) (fd : Z) (cache : gmap string Z)
    : result string Z * list call * gmap string Z :=
  let strips := bool_decide (kw_platform w = Darwin) && bool_decide (fam = AF_INET) in
  let calls := if strips then [Stripped fd] else [] in
  match (if strips then kw_strip w else None) with
  | Some e => (Err ("setsockopt: " +:+ e), calls ++ [Closed fd], cache)
  | None =>
      let '(e, cs, cache) :=
        if decide (Interface b <> "") then controlInterface network fd (Interface b) cache else (None, [], cache) in
      let calls := calls ++ cs in
      match e with
      | Some e => (Err e, calls ++ [Closed fd], cache)
      | None =>
          match icmpSockaddr fam b cache with
          | (Err e, cache) => (Err e, calls ++ [Closed fd], cache)
          | (Ok a, cache) =>
              let calls := calls ++ [Bound fd a] in
              match kw_bind w a with
              | Some e => (Err ("bind: " +:+ e), calls ++ [Closed fd], cache)
              | None =>
                  if negb (kw_wrap w) then (Err "netbind: wrap ICMP socket", calls ++ [Closed fd], cache)
                  else match kw_conn w with
                       | Some e => (Err e, calls ++ [Closed fd], cache)
                       | None => (Ok fd, calls ++ [Copied fd; Closed fd], cache)
                       end
              end
          end
      end
  end.

Definition ListenICMP (b : Binding) (network : string) (cache : gmap string Z)
    : result string Z * list call * gmap string Z :=
  match kw_cancelled w with
  | Some e => (Err e, [], cache)
  | None =>
      match icmp_family network with
      | None => (Err ("netbind: unsupported ICMP network " +:+ network), [], cache)
      | Some (fam, protocol) =>
          match kw_socket w fam protocol with
          | Err e => (Err ("socket: " +:+ e), [], cache)
          | Ok fd =>
              let '(r, calls, cache) := with_socket b network fam fd cache in
              (r, Opened fd :: calls, cache)
          end
      end
  end.

(** [LookupNetIP] and [ResolveIPAddr]: the resolver is the bound one unless the
    binding is zero. *)
Definition LookupNetIP {A} (default_resolver bound : string -> string -> result string A) (b : Binding) (network host : string) : result string A :=
  if Binding_IsZero b then default_resolver network host else bound network host.

Definition ResolveIPAddr (resolve : string -> string -> result string Addr)
    (default_resolver bound : string -> string -> result string (list Addr)) (b : Binding) (network host : string) : result string Addr :=
  if Binding_IsZero b then resolve network host
  else
    match LookupNetIP default_resolver bound b network host with
    | Err e => Err e
    | Ok [] => Err ("address " +:+ host +:+ ": no suitable address")
    | Ok (a :: _) => Ok a
    end.

(** ** Descriptors *)

Definition opens (c : call) : bool := match c with Opened _ => true | _ => false end.
Definition closes (c : call) : bool := match c with Closed _ => true | _ => false end.

(** Calls that neither open nor close a descriptor. *)
Definition inside (c : call) : Prop := match c with Opened _ | Closed _ | Copied _ => False | _ => True end.

(** A call that binds the descriptor to the binding's interface. *)
Definition binds_iface (b : Binding) (fd : Z) (c : call) : Prop :=
  match c with ByName fd' iface => fd' = fd /\ iface = Interface b | ByIndex fd' _ => fd' = fd | _ => False end.

(** The address a binding asks of a family: its source, or any. *)
Definition addr_of (b : Binding) (fam : family) (a : sockaddr) : Prop :=
  match fam, a with
  | AF_INET, SockaddrInet4 x => x = match SourceIP b with Some s => bits s | None => 0 end
                                /\ forall s, SourceIP b = Some s -> Is6 s = false
  | AF_INET6, SockaddrInet6 x _ => x = match SourceIP b with Some s => bits s | None => 0 end
                                   /\ forall s, SourceIP b = Some s -> Is6 s = true
  | _, _ => False
  end.

Lemma inside_app calls calls' : Forall inside calls -> Forall inside calls' -> Forall inside (calls ++ calls').
Proof. intros. by apply Forall_app. Qed.

Lemma inside_one c : inside c -> Forall inside [c].
Proof. intros. by constructor. Qed.

Hint Resolve inside_app inside_one Forall_nil_2 : sockets.

Lemma controlInterface_calls network fd b cache e calls cache' :
  controlInterface network fd (Interface b) cache = (e, calls, cache') ->
  Forall inside calls /\ (e = None -> exists pre c, calls = pre ++ [c] /\ binds_iface b fd c).
Proof.
  unfold controlInterface, apply_index. intros Hc. split; [destruct (kw_platform w); repeat (case_match; simplify_eq); simplify_eq; repeat constructor|].
  intros ->. destruct (kw_platform w); repeat (case_match; simplify_eq); simplify_eq;
    first [by eexists [], _ | by eexists [_], _].
Qed.

Lemma icmpSockaddr_ok fam b cache a cache' : icmpSockaddr fam b cache = (Ok a, cache') -> addr_of b fam a.
Proof.
  unfold icmpSockaddr, addr_of. intros Ha. destruct fam; destruct (SourceIP b) as [s|] eqn:Es;
    repeat (case_match; simplify_eq); (split; [done|]); intros s' [= <-]; by destruct (Is6 s).
Qed.

(** Everything between the descriptor's opening and its closing. *)
Lemma with_socket_calls b network fam fd cache r calls cache' :
  with_socket b network fam fd cache = (r, calls, cache') ->
  match r with
  | Ok fd' => fd' = fd /\ exists mid a, calls = mid ++ [Bound fd a; Copied fd; Closed fd] /\ Forall inside mid /\ addr_of b fam a
              /\ kw_bind w a = None /\ (Interface b <> "" -> exists c, c ∈ mid /\ binds_iface b fd c)
  | Err _ => exists mid, calls = mid ++ [Closed fd] /\ Forall inside mid
  end.
Proof.
  unfold with_socket. set (strip := if _ && _ then _ else []). assert (Forall inside strip) as Hstrip by (subst strip; case_match; auto with sockets; by repeat constructor).
  destruct (if _ && _ then kw_strip w else None) as [e|]; [intros [= <- <- <-]; eauto|].
  destruct (if decide (Interface b <> "") then _ else _) as [[e cs] cache1] eqn:Ec.
  assert (Forall inside cs /\ (e = None -> Interface b <> "" -> exists c, c ∈ cs /\ binds_iface b fd c)) as [Hcs Hi].
  { case_decide; [|by simplify_eq]. apply controlInterface_calls in Ec as [Hc He]. split; [done|]. intros Hn _. destruct (He Hn) as (pre & c & -> & Hb). exists c. split; [set_solver|done]. }
  destruct e as [e|]; [intros [= <- <- <-]; eauto with sockets|].
  destruct (icmpSockaddr fam b cache1) as [[a|e] cache2] eqn:Ea; [|intros [= <- <- <-]; eauto with sockets].
  assert (Forall inside ((strip ++ cs) ++ [Bound fd a])) by (repeat apply inside_app; auto; by repeat constructor).
  destruct (kw_bind w a) eqn:Eb; [intros [= <- <- <-]; eauto with sockets|].
  destruct (kw_wrap w); [|intros [= <- <- <-]; eauto]. destruct (kw_conn w); [intros [= <- <- <-]; eauto|].
  intros [= <- <- <-]. split; [done|]. exists (strip ++ cs), a. split_and!; auto with sockets.
  - by rewrite <- !app_assoc.
  - by eapply icmpSockaddr_ok.
  - intros Hne. destruct (Hi eq_refl Hne) as (c & Hc & Hb). exists c. split; [set_solver|done].
Qed.

(** A bound ICMP socket leaves no descriptor behind: each one opened is closed
    exactly once, last, on every error and on success, where the connection
    holds a copy of it.  The connection's socket was bound to the interface
    before it was bound to the address, and that address is the binding's
    source, in the family asked for. *)
Theorem listen_icmp_releases b network cache r calls cache' :
  ListenICMP b network cache = (r, calls, cache') ->
  match r with
  | Ok fd => exists fam protocol mid a, icmp_family network = Some (fam, protocol)
             /\ calls = Opened fd :: mid ++ [Bound fd a; Copied fd; Closed fd] /\ Forall inside mid
             /\ addr_of b fam a /\ kw_bind w a = None
             /\ (Interface b <> "" -> exists c, c ∈ mid /\ binds_iface b fd c)
  | Err _ => calls = [] \/ exists fd mid, calls = Opened fd :: mid ++ [Closed fd] /\ Forall inside mid
  end.
Proof.
  unfold ListenICMP. destruct (kw_cancelled w); [intros [= <- <- <-]; by left|].
  destruct (icmp_family network) as [[fam protocol]|] eqn:Ef; [|intros [= <- <- <-]; by left].
  destruct (kw_socket w fam protocol) as [fd|e]; [|intros [= <- <- <-]; by left].
  destruct (with_socket b network fam fd cache) as [[r1 cs] c1] eqn:Ew. intros [= <- <- <-]. apply with_socket_calls in Ew.
  destruct r1 as [fd'|e].
  - destruct Ew as (-> & mid & a & -> & Hm & Ha & Hb & Hi). by exists fam, protocol, mid, a.
  - right. destruct Ew as (mid & -> & Hm). by exists fd, mid.
Qed.
End socket.

(** ** Witnesses *)

Definition demo_sockets : socket_world :=
  mkSocketWorld Darwin None (fun _ _ => Ok 7) None (fun _ _ => None) (fun n _ _ => if decide (n = 0%nat) then Some "ENXIO" else None)
    (fun name => if decide (name = "en0") then Some 4 else None) (fun _ => None) true None.

Definition demo_icmp_binding : Binding := mkBinding (Some (mkAddr false 2130706433 "")) "en0".

(** A stale index: the option fails, the cache is refreshed and it is set. *)
Lemma listen_icmp_releases_witness :
  exists (mid : list call) (c : call), c ∈ mid /\ binds_iface demo_icmp_binding 7 c
  /\ snd (fst (@ListenICMP demo_sockets demoNetIP demo_icmp_binding "udp4" {["en0" := 3]}))
     = [Opened 7; Stripped 7; ByIndex 7 3; ByIndex 7 4; Bound 7 (SockaddrInet4 2130706433); Copied 7; Closed 7].
Proof.
  assert (exists c', @ListenICMP demo_sockets demoNetIP demo_icmp_binding "udp4" {["en0" := 3]}
    = (Ok 7, [Opened 7; Stripped 7; ByIndex 7 3; ByIndex 7 4; Bound 7 (SockaddrInet4 2130706433); Copied 7; Closed 7], c')) as [c' E]
    by (eexists; vm_compute; reflexivity).
  destruct (listen_icmp_releases demo_sockets _ _ _ _ _ _ E) as (fam & protocol & mid & a & _ & _ & _ & _ & _ & Hi).
  destruct (Hi ltac:(done)) as (c & Hc & Hb). exists mid, c. split; [done|]. split; [done|]. by rewrite E.
Defined.
