(* ===== verification/Borrowed.v ===== *)
(** * What a check borrows from the host

    The temporary files of [internal/module] ([writeJobsJSON], [reservePath],
    [writeParamsJSON]), the readiness wait of [internal/portalloc] and the
    vacuum of [internal/store/maintenance.go]: each takes something for a
    while, and the theorems say what is left when it returns. *)

From Stdlib Require Import ZArith Lia List Bool Ascii String.
From stdpp Require Import base tactics gmap strings list pretty.
From S2P Require Import Prelude GoStrings Wire.

Open Scope string_scope.
Open Scope list_scope.
Open Scope Z_scope.

(** ** Temporary files *)

(** [jobJSON]: a job as [build_config] reads it. *)
Record jobJSON : Type := mkJobJSON {
  Index : nat; j_Target : string; AllocPort : Z; j_TimeoutMs : Z; j_Params : params
}.

(** Files by path, with their text. *)
Abbreviation files := (gmap string string).

Record file_world : Type := mkFileWorld {
  fw_create : string -> files -> result string string;   (** [os.CreateTemp] *)
  fw_write : option string;                              (** [Encoder.Encode], of the text *)
  fw_close : option string
}.

(** [os.CreateTemp] makes a path that was not there. *)
Definition creates_fresh (w : file_world) : Prop :=
  forall pattern fs path, fw_create w pattern fs = Ok path -> fs !! path = None.

Section temp.
Context (w : file_world).

(** The path and what removes it again, or an error with nothing left. *)
Definition write_temp (pattern text : string) (fs : files) : result string string * files :=
  match fw_create w pattern fs with
  | Err e => (Err e, fs)
  | Ok path =>
      let fs := <[path := ""]> fs in
      match fw_write w with
      | Some e => (Err e, delete path fs)
      | None =>
          let fs := <[path := text]> fs in
          match fw_close w with
          | Some e => (Err e, delete path fs)
          | None => (Ok path, fs)
          end
      end
  end.

(** The jobs as encoded by [json.Encoder]. *)
Definition writeJobsJSON (encode : list jobJSON -> string) (jobs : list (nat * string * Z * duration * params)) (fs : files) : result string string * files :=
  let entries := map (fun '(idx, target, port, timeout, ps) => mkJobJSON idx target port (Z.quot timeout 1000000) ps) jobs in
  write_temp "radar-node-pool-jobs-*.json" (encode entries) fs.

Definition writeParamsJSON (encode : params -> string) (ps : params) (fs : files) : result string string * files :=
  write_temp "radar-node-params-*.json" (encode ps) fs.

Definition reservePath (pattern : string) (fs : files) : result string string * files :=
  match fw_create w pattern fs with
  | Err e => (Err e, fs)
  | Ok path =>
      let fs := <[path := ""]> fs in
      match fw_close w with
      | Some e => (Err e, delete path fs)
      | None => (Ok path, fs)
      end
  end.

(** What the returned function does. *)
Definition cleanup (path : string) (fs : files) : files := delete path fs.

Lemma reserve_is_write pattern fs : fw_write w = None -> reservePath pattern fs = write_temp pattern "" fs.
Proof.
  intros Hw. unfold reservePath, write_temp. rewrite Hw. destruct (fw_create w pattern fs); [|done]. by rewrite insert_insert_eq.
Qed.

Lemma write_temp_left pattern text fs r fs' :
  creates_fresh w -> write_temp pattern text fs = (r, fs') ->
  match r with
  | Err _ => fs' = fs
  | Ok path => fs !! path = None /\ fs' !! path = Some text /\ cleanup path fs' = fs
  end.
Proof.
  unfold write_temp, cleanup. intros Hf H. destruct (fw_create w pattern fs) as [path|e] eqn:Ec; [|by simplify_eq]. apply Hf in Ec.
  repeat case_match; simplify_eq; rewrite ?insert_insert_eq.
  - by apply delete_insert_id.
  - by apply delete_insert_id.
  - split; [done|]. split; [apply lookup_insert_eq|by apply delete_insert_id].
Qed.
End temp.

(** A check's files leave nothing behind: on an error none is left, and what is
    returned to run afterwards puts the directory back as it was, whichever
    file it is and whatever was in the directory. *)
Theorem temp_files_released w encode jobs encode' ps pattern fs :
  creates_fresh w ->
  let left_alone (p : result string string * files) :=
    match fst p with Err _ => snd p = fs | Ok path => fs !! path = None /\ is_Some (snd p !! path) /\ cleanup path (snd p) = fs end in
  left_alone (writeJobsJSON w encode jobs fs) /\ left_alone (writeParamsJSON w encode' ps fs) /\ left_alone (reservePath w pattern fs).
Proof.
  intros Hf left_alone.
  assert (forall p t, left_alone (write_temp w p t fs)) as H.
  { intros p t. unfold left_alone. destruct (write_temp w p t fs) as [r fs'] eqn:E. apply write_temp_left in E; [|done]. cbn [fst snd].
    destruct r; [|done]. destruct E as (? & ? & ?). split_and!; by eauto. }
  split_and!; [apply H|apply H|]. unfold left_alone, reservePath, cleanup. destruct (fw_create w pattern fs) as [path|e] eqn:Ec; [|done]. apply Hf in Ec.
  destruct (fw_close w); cbn [fst snd]; [by apply delete_insert_id|]. split_and!; [done| |by apply delete_insert_id]. rewrite lookup_insert_eq. by eexists.
Qed.

(** ** Waiting for a port *)

(** Whether the [n]-th dial is accepted, and whether the context is done when
    the [n]-th pause begins. *)
Fixpoint WaitForPort (accepts done_ : nat -> bool) (n fuel : nat) : option (option nat) :=
  match fuel with
  | O => None
  | S fuel => if accepts n then Some (Some n) else if done_ n then Some None else WaitForPort accepts done_ (S n) fuel
  end.

(** The wait ends: as soon as the port accepts or the context is done, whichever
    comes first, after one dial per pause. *)
Lemma wait_ends accepts done_ k n :
  (accepts (n + k)%nat = true \/ done_ (n + k)%nat = true) -> (forall i, (i < k)%nat -> accepts (n + i)%nat = false /\ done_ (n + i)%nat = false) ->
  WaitForPort accepts done_ n (S k) = Some (if accepts (n + k)%nat then Some (n + k)%nat else None).
Proof.
  revert n. induction k as [|k IH]; intros n Hk Hi.
  - cbn. rewrite Nat.add_0_r in *. destruct (accepts n); [done|]. destruct Hk as [|Hk]; [done|]. by rewrite Hk.
  - destruct (Hi 0%nat ltac:(lia)) as [Ha Hd]. rewrite Nat.add_0_r in *. cbn [WaitForPort] in *. rewrite Ha, Hd.
    rewrite (IH (S n)).
    + by rewrite <- plus_n_Sm.
    + by rewrite plus_Sn_m, plus_n_Sm.
    + intros i Hlt. rewrite plus_Sn_m, plus_n_Sm. apply Hi. lia.
Qed.

(** ** Giving pages back *)

Definition vacuumChunkPages : Z := 512.
Definition maxVacuumChunks : nat := 64.

Record vacuum_world : Type := mkVacuumWorld {
  vw_cancelled : nat -> option string;
  vw_vacuum : nat -> option string;            (** the statement's error *)
  vw_free : nat -> result string Z              (** the free pages, before chunk [n] *)
}.

(** The chunks of the loop: the pages left, the statements run, or the error. *)
Fixpoint vacuum_loop (w : vacuum_world) (chunks i : nat) (current : Z) : result string Z * nat :=
  match chunks with
  | O => (Ok current, i)
  | S chunks =>
      if 0 <? current then
        match vw_cancelled w i with
        | Some e => (Err e, i)
        | None =>
            match vw_vacuum w i with
            | Some e => (Err ("store: incremental vacuum: " +:+ e), S i)
            | None =>
                match vw_free w (S i) with
                | Err e => (Err ("store: free pages after vacuum: " +:+ e), S i)
                | Ok after => if current <=? after then (Ok current, S i) else vacuum_loop w chunks (S i) after
                end
            end
        end
      else (Ok current, i)
  end.

Definition incrementalVacuum (w : vacuum_world) : result string Z * nat :=
  match vw_free w 0 with
  | Err e => (Err ("store: free pages before vacuum: " +:+ e), 0%nat)
  | Ok initial =>
      match vacuum_loop w maxVacuumChunks 0 initial with
      | (Ok current, n) => (Ok (initial - current), n)
      | (Err e, n) => (Err e, n)
      end
  end.

Lemma vacuum_loop_bounds w chunks i current r n :
  vacuum_loop w chunks i current = (r, n) -> 0 <= current ->
  (forall k x, vw_free w k = Ok x -> 0 <= x) ->
  (i <= n <= i + chunks)%nat /\ forall c, r = Ok c -> 0 <= c <= current.
Proof.
  revert i current. induction chunks as [|chunks IH]; intros i current H Hc Hw; cbn [vacuum_loop] in H.
  - simplify_eq. split; [lia|]. intros c [= <-]. lia.
  - destruct (Z.ltb_spec 0 current); [|simplify_eq; split; [lia|]; intros c [= <-]; lia].
    destruct (vw_cancelled w i); [simplify_eq; split; [lia|done]|]. destruct (vw_vacuum w i); [simplify_eq; split; [lia|done]|].
    destruct (vw_free w (S i)) as [x|e] eqn:Ex; [|simplify_eq; split; [lia|done]]. specialize (Hw _ _ Ex) as Hx.
    destruct (Z.leb_spec current x); [simplify_eq; split; [lia|]; intros c [= <-]; lia|].
    apply IH in H as [Hn Hr]; [|done|done]. split; [lia|]. intros c ->. specialize (Hr c eq_refl). lia.
Qed.

(** A vacuum is bounded and never counts a page it did not free: it runs at most
    64 statements, and what it reports is between none and all of the pages
    that were free when it began. *)
Theorem vacuum_bounded w r n :
  (forall k x, vw_free w k = Ok x -> 0 <= x) -> incrementalVacuum w = (r, n) ->
  (n <= maxVacuumChunks)%nat
  /\ forall freed, r = Ok freed -> exists initial, vw_free w 0 = Ok initial /\ 0 <= freed <= initial.
Proof.
  intros Hw. unfold incrementalVacuum. destruct (vw_free w 0) as [initial|e] eqn:E0; [|intros [= <- <-]; split; [lia|done]].
  destruct (vacuum_loop w maxVacuumChunks 0 initial) as [r1 n1] eqn:E. apply vacuum_loop_bounds in E as [Hn Hr]; [|by eapply Hw|done].
  destruct r1 as [c|e]; intros [= <- <-]; (split; [lia|]); [|done]. intros freed [= <-]. exists initial. specialize (Hr c eq_refl). split; [done|lia].
Qed.

(** ** Witnesses *)

Definition demo_files : file_world := mkFileWorld (fun pattern fs => if decide (fs !! pattern = None) then Ok pattern else Err "exists") None None.

Lemma demo_files_fresh : creates_fresh demo_files.
Proof. intros pattern fs path. cbn. case_decide; [|done]. by intros [= <-]. Qed.

Lemma temp_files_released_witness :
  cleanup "radar-node-params-*.json" (snd (writeParamsJSON demo_files (fun _ => "{}") [] {["a" := "b"]})) = {["a" := "b"]}.
Proof.
  exact (proj2 (proj2 (proj1 (proj2 (temp_files_released demo_files (fun _ => "[]") [] (fun _ => "{}") [] "x" {["a" := "b"]} demo_files_fresh))))).
Defined.

Definition demo_vacuum : vacuum_world := mkVacuumWorld (fun _ => None) (fun _ => None) (fun k => Ok (Z.max 0 (1000 - 512 * Z.of_nat k))).

Lemma vacuum_bounded_witness : incrementalVacuum demo_vacuum = (Ok 1000, 2%nat) /\ (2 <= maxVacuumChunks)%nat.
Proof.
  split; [vm_compute; reflexivity|]. refine (proj1 (vacuum_bounded demo_vacuum (Ok 1000) 2%nat _ _)).
  - intros k x [= <-]. lia.
  - vm_compute. reflexivity.
Defined.
